(* ===== verification/_CoqProject ===== *)
-Q . S2P
Prelude.v
UnicodeData.v
PyStr.v
PyFloat.v
PyJson.v
PyJsonFacts.v
PyJsonRoundtrip.v
PyDict.v
PyJsonStrings.v
Errors.v
PyOps.v
Protocol.v
TimeUtil.v
World.v
Store.v
StoreFacts.v
StoreSpec.v
AuditLog.v
Nft.v
Egress.v
Interface.v
GateSteps.v
EgressFacts.v
Daemon.v
DaemonFacts.v
GateSafety.v
Concurrent.v
ConcurrentFacts.v
Serve.v
ServeFacts.v
StoreBounds.v
NftSpec.v
Baseline.v
NftKernel.v
NftModel.v
GateSpec.v
Authority.v
Enforcement.v
GateDemo.v
ConcurrentDemo.v
EnforceDemo.v
Sha256.v
PySet.v
Canon.v
CanonFacts.v
Argparse.v
ArgparseFacts.v
TimeFacts.v
Host.v
DeltaSurface.v
Seal.v
DeltaSpec.v
DocFacts.v
DeltaDocs.v
TruthSurface.v
TruthDocs.v
OsRelease.v
TruthDemo.v
Tick.v
TickFacts.v
Incident.v
IncidentFacts.v
Cli.v
Ctl.v
CtlFacts.v
ToolsDemo.v
Cosa.v
CosaFacts.v
Smoke.v
CcEval.v
ToolArgs.v
Pipeline.v
SmokeFacts.v
CcFacts.v
ValidatePackage.v
ValidatePackageFacts.v
ToolArgsFacts.v
PipelineDemo.v
GrantLines.v
Tests.v
