(* ===== verification/Prelude.v ===== *)
(** * SourceOS: a verification library

    SourceOS is the control plane of an image-based operating system, in
    Python.  This library models its programs and proves what makes them
    correct.  The source files named below are under src/.

    ** The parts of the program

    - The egress gate (src/sourceos_gate/): the host's frontier firewall drops
      everything but what is in three nftables sets.  A grant (token, nonce,
      expiry, targets, ports, protocol) is installed in a sqlite store, once per
      token and nonce; [apply] writes the union of the active grants to the sets,
      [verify] compares the sets with it, [prune] deletes expired grants, and an
      audit log records each operation.  A daemon serves these operations to
      local clients, one JSON request per line of a UNIX socket; a command line
      tool calls them directly, a control client through the socket.  The
      firewall's rules are in nft/sourceos-egress.nft.
    - The truth plane (tools/): [sourceos_truth_surface] writes a signed document
      of what the host is, [sourceos_delta_surface] compares two of them and
      decides whether the transition is admissible, [sourceos_incident] records
      an event, [sourceos_truth_plane_tick], run by a timer, is to chain surface
      and delta, [sourceos_truth_plane_smoke] runs all of them and the gate.
    - Three independent tools: cosa/build.py validates an image target, runs the
      builder and writes a provenance; tools/cc_eval.py estimates the novelty of
      an artifact by compression; caps/.../validate_package.py checks a
      capability package.

    ** How the code is modelled

    Shallowly.  A function that cannot touch the world returns [res exn A], a
    value or an exception of the class hierarchy of Errors.v; one that can is a
    program of the monad [M exn S A], whose state survives a raise as Python's
    does.  The state of the gate is [World] (World.v): the sqlite database, the
    files, the kernel's firewall, the effective user, and the number of times
    the outside was read; [w_tick] counts readings of the clock and of the
    random source, and [clock n] is the n-th.  [w_fs] holds paths relative to
    the store root for the gate and the smoke harness, absolute ones for the
    other tools; directories are implied by the files in them.  Python values
    that come from JSON are [json] (PyJson.v); strings are lists of code points
    (PyStr.v), bytes lists of numbers; floats are IEEE binary64 (PyFloat.v).
    What is not in the repository is a parameter, used through its documented
    behaviour: the [nft] program and the clock ([Env], laws in NftSpec.NftLaws),
    the host the truth plane observes (Host.v), git and the image builder, PyYAML,
    jsonschema, zlib and lzma.  The Standard Library of Python is modelled, as
    far as the source uses it: json, hashlib (Sha256.v), str, int, sqlite's
    statements (Store.v), StreamReader.readline and socket activation (Serve.v).

    ** The files

    Foundations.
    - Prelude: results, the monad, and the reasoning about programs shared by all
      ([within]: what a program may do; [returns]/[yields]: what it returns;
      [run_inv]: inversion of a run).
    - UnicodeData, PyStr, PyFloat, PyJson, PyJsonFacts, PyJsonRoundtrip, PyDict,
      PyJsonStrings, PyOps, PySet: Python's values; [loads] and [dumps] with
      their round trip ([loads] after [dumps] sorts the keys and nothing else).
    - Errors (errors.py), Protocol (protocol.py), TimeUtil (timeutil.py), World;
      TimeFacts: the calendar, and time stamps sort in the order of time.

    The gate.
    - Store (store.py: every method of [GateStore]), StoreFacts, StoreSpec: the
      abstract store is a set of used keys and a map from keys to grants; every
      operation refines an operation on it, every outcome included.
    - StoreBounds: the integers of the tables fit in sqlite's 64 bits.
    - AuditLog (audit.py), Nft (nft.py), Egress (egress.py, [EgressGate]).
    - Interface: [GateOps] and [GateLaws], what the gate promises its clients;
      GateSteps: a relation that the primitive actions of the gate respect
      ([StepLaws]) is respected by its methods; EgressFacts instantiates it with
      [gate_step] (the log only grows, the store keeps its invariant and forgets
      no key), StoreBounds and Authority with relations of their own.
    - Daemon (daemon.py: [handle_client], [_systemd_listen_fds]) and DaemonFacts,
      against the interface; GateSafety: no double install, over any execution.
    - Serve (daemon.py: [serve]; tools/sourceos_gate_egressd.py) and ServeFacts:
      the start of the daemon, and the event loop over any number of clients as
      the step relation [server_step].
    - Concurrent, ConcurrentFacts, ConcurrentDemo: several processes on one store
      (the daemon, the command line tool, timers): the methods cut at their
      transactions, and any interleaving of them as the step relation [pool_step].
    - Authority: histories of the daemon with the requests it accepted.
    - Baseline (nft/sourceos-egress.nft): the sets and the output chain, and the
      verdict on a packet.
    - NftSpec, NftKernel, NftModel: what the driver does to a kernel obeying
      [NftLaws]; the elements of the kernel's sets behind what nft prints, and
      what [verify_sets] reads of them; an executable kernel that obeys both.
      GateSpec: the gate end to end; GateDemo: concrete runs.
    - Enforcement, EnforceDemo: the gate and the filter together:
      which packets leave a host that [verify] approves, what [verify] misses,
      and what requests alone can open.

    The truth plane.
    - Sha256, Canon, CanonFacts: digests of canonical JSON; equal digests mean
      equal documents or a named collision.
    - Host, TruthSurface, TruthDocs, OsRelease (sourceos_truth_surface.py);
      DeltaSurface, DeltaSpec, DeltaDocs (sourceos_delta_surface.py); Seal and
      DocFacts for what they share; TruthDemo: concrete runs.
    - Host also has the import statements at the top of a program, over what
      [sys.path] holds ([Launch]); the smoke harness and the tick begin with theirs.
    - Tick, TickFacts (sourceos_truth_plane_tick.py); Incident, IncidentFacts
      (sourceos_incident.py); Cli (sourceos_gate_egress.py), Ctl, CtlFacts
      (sourceos_gate_egressctl.py); ToolsDemo.
    - Pipeline: a second surface compared with a first, through the files;
      Smoke, SmokeFacts (sourceos_truth_plane_smoke.py); PipelineDemo.

    The other tools: Cosa, CosaFacts (cosa/build.py); CcEval, CcFacts
    (tools/cc_eval.py); ValidatePackage, ValidatePackageFacts (validate_package.py).

    Command lines.
    - Argparse: [ArgumentParser.parse_args]; ArgparseFacts: what values a parse
      can return, and options written in full are set as written.
    - ToolArgs: the parser of each program, its namespace read as the arguments
      its main takes, and the programs from their imports and command lines on;
      ToolArgsFacts: the arguments are typed, and how a program must be started;
      GrantLines: grants, and every command
      of the control client, on a command line.

    Tests: the repository's tests as programs over the model, where they pass.

    ** What is proved

    - Safety of the gate: a token and nonce are accepted once, whatever requests,
      clients, time and other processes come between (GateSafety); the store and
      the log keep their invariants over every execution of the server
      (GateSafety, ServeFacts); tables stay within 64 bits (StoreBounds).  What
      [verify] approves was asked for by an accepted, unexpired request, and an
      accepted grant stays in the active sets until it expires (Authority).
    - Packets: the baseline accepts local packets and what the frontier sets
      name, and nothing else (Baseline).  On a host that runs the baseline, has no
      range in its port sets and only plain targets in its store: when [verify]
      answers ok, a packet to the frontier goes to a granted address and a
      granted port, and every pair of the two is open.  Requests with plain
      targets alone never open a host that starts on the empty baseline, and an
      apply with nothing granted empties the frontier sets, whatever they held
      (Enforcement).  A target is plain without braces, quotes, number signs and
      line ends; one that is not can inject commands (NftSpec).
    - Concurrency: under any interleaving of processes a token and nonce are still
      installed once (ConcurrentFacts), while two prunes can count one grant
      twice (ConcurrentDemo).  That a method cut at its transactions and run
      alone is the method is a lemma about the model (ConcurrentFacts.alone_whole).
    - The tick's choice of the two latest directories is by time, where they are
      all time stamps (TickFacts.latest_two_newest).
    - Function of the gate: install, prune, list and the active sets compute what
      the abstract store says (StoreSpec); [apply_sets], [verify_sets] and
      [require_baseline] (NftSpec), and [apply] run as root with the baseline
      loaded and clean targets (GateSpec); the two
      parsers of nft's output agree (NftSpec); audit records read back
      (EgressFacts).  As written, [apply] cannot succeed when there is anything
      to allow, and targets can inject nft commands; both are theorems.
    - The wire: each client gets one reply per request, in order, with the
      request's id, whatever the interleaving, and the incremental reader does
      what [handle_client] says of the whole stream (DaemonFacts, ServeFacts); a
      command typed at the client runs exactly that method of the gate, with the
      arguments of the command line, and the client reports the gate's answer
      (GrantLines, CtlFacts); the daemon listens on one UNIX socket
      and nothing else (ServeFacts).
    - Documents: emitting a surface and a delta never fails on text arguments;
      they are sealed: hash and signature are those of the contents, and a
      changed content means a changed root or a SHA-256 collision; the file read
      back is the document (TruthDocs, DeltaDocs, Pipeline, IncidentFacts).
    - Decisions: the delta gate allows exactly what its specification allows, and
      a higher risk or missing evidence never turns a denial into a permit
      (DeltaSpec); the image builder publishes an admissible provenance only when
      its commands have run and exited 0, its dry run is harmless and its
      validate subcommand answers for its builds (CosaFacts); the package
      validator accepts exactly the valid packages; the compression estimator
      always returns (CcFacts).
    - Command lines: a program that gets past its parser has arguments of the
      kinds its main expects, within the declared choices, if no option is
      assigned -- ([--plane=--] is accepted and sets an empty list: a trait of
      CPython 3.11 that Argparse models) (ToolArgsFacts); both grant tools read the same words alike (GrantLines);
      the tick's default evidence cannot be taken away (ToolArgsFacts).
    - Defects the model exhibits: the smoke harness and the tick cannot be started
      the documented way, and no tick succeeds in any way (ToolArgsFacts; the
      code behind its failing call would compare backwards, TickFacts); events
      overwritten (IncidentFacts); where the smoke harness does start it succeeds
      without its options, and its gate demonstration cannot (SmokeFacts); builds
      lost outside the repository (CosaFacts), the prune race (ConcurrentDemo), ranges of
      ports that [verify] does not see (Enforcement).

    ** Bounds and fuel

    [PyJson.loads] runs on fuel computed from its input, and PyJsonFacts shows it
    is never exhausted; Python's recursion limit is not modelled.  [issubclass]
    has fuel 6 over a hierarchy that is less deep ([Errors.depth_enough]).
    [PyFloat]'s shortest decimal search tries the 17 digits that always suffice
    for binary64.  [Serve.run_client] needs one turn per line and one for the
    end ([ServeFacts.reader_refines] gives the fuel).  Every other recursion is
    structural.

    ** Not modelled

    - argparse's messages, and a relative --store-root of the tools that print
      the path they write; the process's exit and its standard streams'
      encodings: output is a list of lines.
    - CPython's limit of 4300 digits on the conversion of integers.
    - Failures of the disk and of memory; sqlite beyond the statements the source
      executes; a database changed by another program.
    - Between processes: interleaving inside a transaction, which sqlite
      excludes; a process that waits too long for the lock ("database is
      locked"); [verify] and [snapshot], which write only the log, are not in
      the pool.
    - asyncio below the rules above: flow control, and signals that stop the
      server.  A client that is lost may stop at any turn.
    - The path [//], symbolic links, and permissions.
    - Imports beyond the search of [sys.path] for the packages sourceos_gate and
      tools: a package found is taken to be the repository's and whole.  The other
      launchers' imports of sourceos_gate, from the src/ beside them, are taken
      to succeed.
    - What the commands of an image build do: a parameter that may change
      anything ([Cosa.Builder]); files the wrapper only reads are fixed.
    - YAML beyond the values JSON has; the order of jsonschema's error paths.
    - That a printed float reads back: [dumps] of a float is executable, but the
      round-trip theorems are about values without floats ([wf]).
    - Of nftables: other tables and hooks, connection tracking (the baseline has
      none), elements with a timeout or a counter; [nft -f] on the baseline file
      is a change of the kernel like any other.
    - The systemd units, the shell scripts and the Go programs: other languages
      or no logic of their own. *)
From stdpp Require Export base tactics list gmap strings sorting.
From Stdlib Require Export ZArith NArith Lia ZifyN ZifyBool.

(** ** Results: a value or a raised exception

    [E] is the type of exceptions.  A Python function that cannot touch the
    world is modelled by a function into [res E A]; one that can is modelled in
    the state monad [M E S] below, in which the state survives a raise. *)

Inductive res (E A : Type) : Type :=
  | Ok (a : A)
  | Err (e : E).
Arguments Ok {_ _} _.
Arguments Err {_ _} _.

Global Instance res_ret E : MRet (res E) := λ A a, Ok a.
Global Instance res_bind E : MBind (res E) := λ A B f m,
  match m with Ok a => f a | Err e => Err e end.
Global Instance res_fmap E : FMap (res E) := λ A B f m,
  match m with Ok a => Ok (f a) | Err e => Err e end.

Global Instance res_eq_dec {E A} `{EqDecision E, EqDecision A} :
  EqDecision (res E A).
Proof. solve_decision. Defined.

Definition is_ok {E A} (r : res E A) : bool :=
  match r with Ok _ => true | Err _ => false end.

Definition res_of_option {E A} (e : E) (o : option A) : res E A :=
  match o with Some a => Ok a | None => Err e end.

(** ** The state-and-exception monad *)

Definition M (E S A : Type) : Type := S → S * res E A.

Section monad.
Context {E S : Type}.

Global Instance M_ret : MRet (M E S) := λ A a s, (s, Ok a).
Global Instance M_bind : MBind (M E S) := λ A B f m s,
  match m s with
  | (s', Ok a) => f a s'
  | (s', Err e) => (s', Err e)
  end.

Definition raise {A} (e : E) : M E S A := λ s, (s, Err e).
Definition lift {A} (r : res E A) : M E S A := λ s, (s, r).
Definition gets {A} (f : S → A) : M E S A := λ s, (s, Ok (f s)).
Definition modify (f : S → S) : M E S unit := λ s, (f s, Ok tt).
(** [try: m except Exception as e: h e] *)
Definition catch {A} (m : M E S A) (h : E → M E S A) : M E S A := λ s,
  match m s with
  | (s', Ok a) => (s', Ok a)
  | (s', Err e) => h e s'
  end.
Definition when (b : bool) (m : M E S unit) : M E S unit :=
  if b then m else mret tt.

Definition run {A} (m : M E S A) (s : S) : S * res E A := m s.

(** Equations of the monad, one per construct: rewriting with them runs a
    program symbolically without unfolding the class projections. *)
Lemma run_ret {A} (a : A) s : (mret a : M E S A) s = (s, Ok a).
Proof. done. Qed.
Lemma run_bind {A B} (m : M E S A) (f : A → M E S B) s :
  (m ≫= f) s = match m s with
               | (s', Ok a) => f a s'
               | (s', Err e) => (s', Err e)
               end.
Proof. done. Qed.
Lemma bind_ok {A B} (m : M E S A) (f : A → M E S B) s s' a :
  m s = (s', Ok a) → (m ≫= f) s = f a s'.
Proof. intros H. by rewrite run_bind, H. Qed.
Lemma bind_err {A B} (m : M E S A) (f : A → M E S B) s s' e :
  m s = (s', Err e) → (m ≫= f) s = (s', Err e).
Proof. intros H. by rewrite run_bind, H. Qed.
Lemma bind_lift_ok {A B} a (f : A → M E S B) s : (lift (Ok a) ≫= f) s = f a s.
Proof. done. Qed.
Lemma bind_lift_err {A B} e (f : A → M E S B) s : (lift (Err e) ≫= f) s = (s, Err e).
Proof. done. Qed.
End monad.

(** ** What a program may do

    [within R P m]: whatever the state [m] starts in, and whether it returns or
    raises, the state it leaves is [R]-related to it; and what it raises
    satisfies [P].  Invariants ([λ s s', I s → I s']), append-only logs
    ([prefix]) and frame conditions ([λ s s', f s = f s']) are all instances; a
    preorder holds of a program as soon as it holds of its primitive steps. *)

Section within.
Context {E S : Type} (R : relation S) (P : E → Prop).

Definition raises_only {A} (r : res E A) : Prop := match r with Ok _ => True | Err e => P e end.
Definition within {A} (m : M E S A) : Prop := ∀ s, R s (m s).1 ∧ raises_only (m s).2.

Context `{!PreOrder R}.

Lemma within_ret {A} (a : A) : within (mret a).
Proof. intros s. split; [simpl; reflexivity|done]. Qed.
Lemma within_raise {A} e : P e → within (A:=A) (raise e).
Proof. intros He s. split; [simpl; reflexivity|done]. Qed.
Lemma within_lift {A} (r : res E A) : raises_only r → within (lift r).
Proof. intros Hr s. split; [simpl; reflexivity|done]. Qed.
Lemma within_gets {A} (f : S → A) : within (gets f).
Proof. intros s. split; [simpl; reflexivity|done]. Qed.
Lemma within_modify (f : S → S) : (∀ s, R s (f s)) → within (modify f).
Proof. intros Hf s. split; [apply Hf|done]. Qed.
Lemma within_bind {A B} (m : M E S A) (f : A → M E S B) :
  within m → (∀ a, within (f a)) → within (m ≫= f).
Proof.
  intros Hm Hf s. rewrite run_bind. specialize (Hm s).
  destruct (m s) as [s' [a|e]]; simpl in *; [|done]. destruct Hm as [Hm _], (Hf a s') as [Hf' He].
  split; [by etrans|done].
Qed.
Lemma within_when (b : bool) m : (b = true → within m) → within (when b m).
Proof. intros Hm. destruct b; [by apply Hm|apply within_ret]. Qed.
End within.

Section within_more.
Context {E S : Type} (R : relation S).

Lemma within_catch {A} `{!PreOrder R} (P Q : E → Prop) (m : M E S A) h :
  within R P m → (∀ e, P e → within R Q (h e)) → within R Q (catch m h).
Proof.
  intros Hm Hh s. unfold catch. specialize (Hm s).
  destruct (m s) as [s' [a|e]]; simpl in *; [by destruct Hm|]. destruct Hm as [Hm He].
  destruct (Hh e He s') as [Hs Hr]. split; [by etrans|done].
Qed.
Lemma within_mono {A} (R' : relation S) (P Q : E → Prop) (m : M E S A) :
  within R' P m → (∀ s s', R' s s' → R s s') → (∀ e, P e → Q e) → within R Q m.
Proof.
  intros Hm HR HP s. destruct (Hm s) as [Hs Hr]. split; [by apply HR|].
  destruct ((m s).2); simpl in *; auto.
Qed.
Lemma within_and {A} (R' : relation S) (P : E → Prop) (m : M E S A) :
  within R P m → within R' P m → within (λ s s', R s s' ∧ R' s s') P m.
Proof. intros H1 H2 s. destruct (H1 s), (H2 s). done. Qed.
End within_more.

Create HintDb within discriminated.

(** Peel a program down to its primitive steps. *)
Ltac within_step :=
  match goal with
  | |- within _ _ (if ?b then _ else _) => destruct b eqn:?
  | |- within _ _ (match ?x with _ => _ end) => destruct x eqn:?
  | |- within _ _ (mret _) => apply within_ret; [typeclasses eauto]
  | |- within _ _ (raise _) => apply within_raise; [typeclasses eauto|]
  | |- within _ _ (lift _) => apply within_lift; [typeclasses eauto|]
  | |- within _ _ (gets _) => apply within_gets; [typeclasses eauto]
  | |- within _ _ (when _ _) => apply within_when; [typeclasses eauto|intros ?]
  | |- within _ _ (_ ≫= _) => apply within_bind; [typeclasses eauto| |intros ?]
  end.
Ltac within := repeat first [solve [eauto 3 with within nocore] | within_step].

(** ** What a program returns

    [returns Q r]: when [r] is a value, it satisfies [Q]; [yields Q m] is the
    same of a program, whatever state it starts in. *)

Definition returns {E A} (Q : A → Prop) (r : res E A) : Prop := ∀ a, r = Ok a → Q a.
Definition yields {E S A} (Q : A → Prop) (m : M E S A) : Prop := ∀ s s' a, m s = (s', Ok a) → Q a.

Lemma returns_ret {E A} (Q : A → Prop) a : Q a → returns Q (mret a : res E A).
Proof. by intros Ha a' [= <-]. Qed.
Lemma returns_ok {E A} (Q : A → Prop) a : Q a → returns Q (Ok a : res E A).
Proof. by intros Ha a' [= <-]. Qed.
Lemma returns_err {E A} (Q : A → Prop) e : returns Q (Err e : res E A).
Proof. by intros a. Qed.
Lemma returns_bind {E A B} (Q : A → Prop) (R : B → Prop) (r : res E A) f :
  returns Q r → (∀ a, Q a → returns R (f a)) → returns R (r ≫= f).
Proof. intros Hr Hf b. destruct r as [a|e]; [|done]. apply (Hf a). by apply Hr. Qed.
Lemma returns_true {E A} (r : res E A) : returns (λ _, True) r.
Proof. by intros a. Qed.
Lemma yields_ret {E S A} (Q : A → Prop) a : Q a → yields Q (mret a : M E S A).
Proof. by intros Ha s s' a' [= _ <-]. Qed.
Lemma yields_lift {E S A} (Q : A → Prop) (r : res E A) : returns Q r → yields Q (lift r : M E S A).
Proof. intros Hr s s' a [= _ ->]. by apply Hr. Qed.
Lemma yields_bind {E S A B} (Q : A → Prop) (R : B → Prop) (m : M E S A) f :
  yields Q m → (∀ a, Q a → yields R (f a)) → yields R (m ≫= f).
Proof.
  intros Hm Hf s s' b. rewrite run_bind. destruct (m s) as [s1 [a|e]] eqn:Hs; [|done].
  intros Hb. by apply (Hf a (Hm s s1 a Hs) s1 s').
Qed.
Lemma yields_true {E S A} (m : M E S A) : yields (λ _, True) m.
Proof. by intros s s' a. Qed.

(** ** Inversion of a run that returns *)

Lemma run_bind_inv {E S A B} (m : M E S A) (f : A → M E S B) s s' b :
  (m ≫= f) s = (s', Ok b) → ∃ s1 a, m s = (s1, Ok a) ∧ f a s1 = (s', Ok b).
Proof. rewrite run_bind. destruct (m s) as [s1 [a|e]]; [eauto|done]. Qed.
Lemma lift_inv {E S A} (r : res E A) (s s' : S) a : lift r s = (s', Ok a) → s' = s ∧ r = Ok a.
Proof. by intros [= <- ->]. Qed.
Lemma ret_inv {E S A} (x a : A) (s s' : S) : (mret x : M E S A) s = (s', Ok a) → s' = s ∧ x = a.
Proof. by intros [= <- ->]. Qed.
Lemma res_bind_inv {E A B} (r : res E A) (f : A → res E B) b :
  (r ≫= f) = Ok b → ∃ a, r = Ok a ∧ f a = Ok b.
Proof. destruct r as [a|e]; [eauto|done]. Qed.

(** Split a run into the runs of its parts. *)
Ltac run_inv := repeat match goal with
  | H : (_ ≫= _) _ = (_, Ok _) |- _ => apply run_bind_inv in H as (? & ? & ? & H)
  | H : lift _ _ = (_, Ok _) |- _ => apply lift_inv in H as [-> H]
  | H : mret _ _ = (_, Ok _) |- _ => apply ret_inv in H as [-> H]
  | H : (_ ≫= _) = Ok _ |- _ => apply res_bind_inv in H as (? & ? & H)
  end.

(** A decidable closed fact, by evaluation. *)
Ltac compute_it := apply (bool_decide_unpack _); vm_compute; exact I.

(** ** Lists *)

Lemma NoDup_map_filter {A B} (f : A → B) (P : A → Prop) `{!∀ x, Decision (P x)} l :
  NoDup (map f l) → NoDup (map f (filter P l)).
Proof.
  induction l as [|x l IH]; [done|]. cbn [map]. rewrite NoDup_cons. intros [Hx Hl].
  rewrite filter_cons. case_decide; [|auto]. cbn [map]. apply NoDup_cons. split; [|auto].
  intros (y & Hy & [_ Hin]%list_elem_of_filter)%list_elem_of_fmap. apply Hx.
  apply list_elem_of_fmap. eauto.
Qed.
