(* ===== verification/UnicodeData.v ===== *)
(** * Character tables of Python's [str] methods

    The tables CPython 3.11 (Unicode 14.0) consults in [str.isspace],
    [str.isdecimal], [str.isdigit], [str.isprintable] and [str.lower], as
    inclusive ranges of code points.  [lower_table] holds
    [(first, last, stride, delta)]: the code points [first, first+stride, ...,
    last] map to themselves plus [delta]; U+0130, the one code point whose
    lower case has two characters, is handled by [PyStr.lower]. *)
From S2P Require Import Prelude.
#[local] Open Scope N_scope.

Definition space_ranges : list (N * N) :=
  [
    (9,13); (28,32); (133,133); (160,160); (5760,5760); (8192,8202); (8232,8233); (8239,8239);
    (8287,8287); (12288,12288)
  ].

(** The zero of each block of ten decimal digits. *)
Definition decimal_zeros : list N :=
  [
    48; 1632; 1776; 1984; 2406; 2534; 2662; 2790; 2918; 3046; 3174; 3302; 3430; 3558; 3664;
    3792; 3872; 4160; 4240; 6112; 6160; 6470; 6608; 6784; 6800; 6992; 7088; 7232; 7248; 42528;
    43216; 43264; 43472; 43504; 43600; 44016; 65296; 66720; 68912; 69734; 69872; 69942; 70096;
    70384; 70736; 70864; 71248; 71360; 71472; 71904; 72016; 72784; 73040; 73120; 92768; 92864;
    93008; 120782; 120792; 120802; 120812; 120822; 123200; 123632; 125264; 130032
  ].

Definition digit_ranges : list (N * N) :=
  [
    (48,57); (178,179); (185,185); (1632,1641); (1776,1785); (1984,1993); (2406,2415);
    (2534,2543); (2662,2671); (2790,2799); (2918,2927); (3046,3055); (3174,3183); (3302,3311);
    (3430,3439); (3558,3567); (3664,3673); (3792,3801); (3872,3881); (4160,4169); (4240,4249);
    (4969,4977); (6112,6121); (6160,6169); (6470,6479); (6608,6618); (6784,6793); (6800,6809);
    (6992,7001); (7088,7097); (7232,7241); (7248,7257); (8304,8304); (8308,8313); (8320,8329);
    (9312,9320); (9332,9340); (9352,9360); (9450,9450); (9461,9469); (9471,9471);
    (10102,10110); (10112,10120); (10122,10130); (42528,42537); (43216,43225); (43264,43273);
    (43472,43481); (43504,43513); (43600,43609); (44016,44025); (65296,65305); (66720,66729);
    (68160,68163); (68912,68921); (69216,69224); (69714,69722); (69734,69743); (69872,69881);
    (69942,69951); (70096,70105); (70384,70393); (70736,70745); (70864,70873); (71248,71257);
    (71360,71369); (71472,71481); (71904,71913); (72016,72025); (72784,72793); (73040,73049);
    (73120,73129); (92768,92777); (92864,92873); (93008,93017); (120782,120831);
    (123200,123209); (123632,123641); (125264,125273); (127232,127242); (130032,130041)
  ].

Definition nonprintable_ranges : list (N * N) :=
  [
    (0,31); (127,160); (173,173); (888,889); (896,899); (907,907); (909,909); (930,930);
    (1328,1328); (1367,1368); (1419,1420); (1424,1424); (1480,1487); (1515,1518); (1525,1541);
    (1564,1564); (1757,1757); (1806,1807); (1867,1868); (1970,1983); (2043,2044); (2094,2095);
    (2111,2111); (2140,2141); (2143,2143); (2155,2159); (2191,2199); (2274,2274); (2436,2436);
    (2445,2446); (2449,2450); (2473,2473); (2481,2481); (2483,2485); (2490,2491); (2501,2502);
    (2505,2506); (2511,2518); (2520,2523); (2526,2526); (2532,2533); (2559,2560); (2564,2564);
    (2571,2574); (2577,2578); (2601,2601); (2609,2609); (2612,2612); (2615,2615); (2618,2619);
    (2621,2621); (2627,2630); (2633,2634); (2638,2640); (2642,2648); (2653,2653); (2655,2661);
    (2679,2688); (2692,2692); (2702,2702); (2706,2706); (2729,2729); (2737,2737); (2740,2740);
    (2746,2747); (2758,2758); (2762,2762); (2766,2767); (2769,2783); (2788,2789); (2802,2808);
    (2816,2816); (2820,2820); (2829,2830); (2833,2834); (2857,2857); (2865,2865); (2868,2868);
    (2874,2875); (2885,2886); (2889,2890); (2894,2900); (2904,2907); (2910,2910); (2916,2917);
    (2936,2945); (2948,2948); (2955,2957); (2961,2961); (2966,2968); (2971,2971); (2973,2973);
    (2976,2978); (2981,2983); (2987,2989); (3002,3005); (3011,3013); (3017,3017); (3022,3023);
    (3025,3030); (3032,3045); (3067,3071); (3085,3085); (3089,3089); (3113,3113); (3130,3131);
    (3141,3141); (3145,3145); (3150,3156); (3159,3159); (3163,3164); (3166,3167); (3172,3173);
    (3184,3190); (3213,3213); (3217,3217); (3241,3241); (3252,3252); (3258,3259); (3269,3269);
    (3273,3273); (3278,3284); (3287,3292); (3295,3295); (3300,3301); (3312,3312); (3315,3327);
    (3341,3341); (3345,3345); (3397,3397); (3401,3401); (3408,3411); (3428,3429); (3456,3456);
    (3460,3460); (3479,3481); (3506,3506); (3516,3516); (3518,3519); (3527,3529); (3531,3534);
    (3541,3541); (3543,3543); (3552,3557); (3568,3569); (3573,3584); (3643,3646); (3676,3712);
    (3715,3715); (3717,3717); (3723,3723); (3748,3748); (3750,3750); (3774,3775); (3781,3781);
    (3783,3783); (3790,3791); (3802,3803); (3808,3839); (3912,3912); (3949,3952); (3992,3992);
    (4029,4029); (4045,4045); (4059,4095); (4294,4294); (4296,4300); (4302,4303); (4681,4681);
    (4686,4687); (4695,4695); (4697,4697); (4702,4703); (4745,4745); (4750,4751); (4785,4785);
    (4790,4791); (4799,4799); (4801,4801); (4806,4807); (4823,4823); (4881,4881); (4886,4887);
    (4955,4956); (4989,4991); (5018,5023); (5110,5111); (5118,5119); (5760,5760); (5789,5791);
    (5881,5887); (5910,5918); (5943,5951); (5972,5983); (5997,5997); (6001,6001); (6004,6015);
    (6110,6111); (6122,6127); (6138,6143); (6158,6158); (6170,6175); (6265,6271); (6315,6319);
    (6390,6399); (6431,6431); (6444,6447); (6460,6463); (6465,6467); (6510,6511); (6517,6527);
    (6572,6575); (6602,6607); (6619,6621); (6684,6685); (6751,6751); (6781,6782); (6794,6799);
    (6810,6815); (6830,6831); (6863,6911); (6989,6991); (7039,7039); (7156,7163); (7224,7226);
    (7242,7244); (7305,7311); (7355,7356); (7368,7375); (7419,7423); (7958,7959); (7966,7967);
    (8006,8007); (8014,8015); (8024,8024); (8026,8026); (8028,8028); (8030,8030); (8062,8063);
    (8117,8117); (8133,8133); (8148,8149); (8156,8156); (8176,8177); (8181,8181); (8191,8207);
    (8232,8239); (8287,8303); (8306,8307); (8335,8335); (8349,8351); (8385,8399); (8433,8447);
    (8588,8591); (9255,9279); (9291,9311); (11124,11125); (11158,11158); (11508,11512);
    (11558,11558); (11560,11564); (11566,11567); (11624,11630); (11633,11646); (11671,11679);
    (11687,11687); (11695,11695); (11703,11703); (11711,11711); (11719,11719); (11727,11727);
    (11735,11735); (11743,11743); (11870,11903); (11930,11930); (12020,12031); (12246,12271);
    (12284,12288); (12352,12352); (12439,12440); (12544,12548); (12592,12592); (12687,12687);
    (12772,12783); (12831,12831); (42125,42127); (42183,42191); (42540,42559); (42744,42751);
    (42955,42959); (42962,42962); (42964,42964); (42970,42993); (43053,43055); (43066,43071);
    (43128,43135); (43206,43213); (43226,43231); (43348,43358); (43389,43391); (43470,43470);
    (43482,43485); (43519,43519); (43575,43583); (43598,43599); (43610,43611); (43715,43738);
    (43767,43776); (43783,43784); (43791,43792); (43799,43807); (43815,43815); (43823,43823);
    (43884,43887); (44014,44015); (44026,44031); (55204,55215); (55239,55242); (55292,63743);
    (64110,64111); (64218,64255); (64263,64274); (64280,64284); (64311,64311); (64317,64317);
    (64319,64319); (64322,64322); (64325,64325); (64451,64466); (64912,64913); (64968,64974);
    (64976,65007); (65050,65055); (65107,65107); (65127,65127); (65132,65135); (65141,65141);
    (65277,65280); (65471,65473); (65480,65481); (65488,65489); (65496,65497); (65501,65503);
    (65511,65511); (65519,65531); (65534,65535); (65548,65548); (65575,65575); (65595,65595);
    (65598,65598); (65614,65615); (65630,65663); (65787,65791); (65795,65798); (65844,65846);
    (65935,65935); (65949,65951); (65953,65999); (66046,66175); (66205,66207); (66257,66271);
    (66300,66303); (66340,66348); (66379,66383); (66427,66431); (66462,66462); (66500,66503);
    (66518,66559); (66718,66719); (66730,66735); (66772,66775); (66812,66815); (66856,66863);
    (66916,66926); (66939,66939); (66955,66955); (66963,66963); (66966,66966); (66978,66978);
    (66994,66994); (67002,67002); (67005,67071); (67383,67391); (67414,67423); (67432,67455);
    (67462,67462); (67505,67505); (67515,67583); (67590,67591); (67593,67593); (67638,67638);
    (67641,67643); (67645,67646); (67670,67670); (67743,67750); (67760,67807); (67827,67827);
    (67830,67834); (67868,67870); (67898,67902); (67904,67967); (68024,68027); (68048,68049);
    (68100,68100); (68103,68107); (68116,68116); (68120,68120); (68150,68151); (68155,68158);
    (68169,68175); (68185,68191); (68256,68287); (68327,68330); (68343,68351); (68406,68408);
    (68438,68439); (68467,68471); (68498,68504); (68509,68520); (68528,68607); (68681,68735);
    (68787,68799); (68851,68857); (68904,68911); (68922,69215); (69247,69247); (69290,69290);
    (69294,69295); (69298,69375); (69416,69423); (69466,69487); (69514,69551); (69580,69599);
    (69623,69631); (69710,69713); (69750,69758); (69821,69821); (69827,69839); (69865,69871);
    (69882,69887); (69941,69941); (69960,69967); (70007,70015); (70112,70112); (70133,70143);
    (70162,70162); (70207,70271); (70279,70279); (70281,70281); (70286,70286); (70302,70302);
    (70314,70319); (70379,70383); (70394,70399); (70404,70404); (70413,70414); (70417,70418);
    (70441,70441); (70449,70449); (70452,70452); (70458,70458); (70469,70470); (70473,70474);
    (70478,70479); (70481,70486); (70488,70492); (70500,70501); (70509,70511); (70517,70655);
    (70748,70748); (70754,70783); (70856,70863); (70874,71039); (71094,71095); (71134,71167);
    (71237,71247); (71258,71263); (71277,71295); (71354,71359); (71370,71423); (71451,71452);
    (71468,71471); (71495,71679); (71740,71839); (71923,71934); (71943,71944); (71946,71947);
    (71956,71956); (71959,71959); (71990,71990); (71993,71994); (72007,72015); (72026,72095);
    (72104,72105); (72152,72153); (72165,72191); (72264,72271); (72355,72367); (72441,72703);
    (72713,72713); (72759,72759); (72774,72783); (72813,72815); (72848,72849); (72872,72872);
    (72887,72959); (72967,72967); (72970,72970); (73015,73017); (73019,73019); (73022,73022);
    (73032,73039); (73050,73055); (73062,73062); (73065,73065); (73103,73103); (73106,73106);
    (73113,73119); (73130,73439); (73465,73647); (73649,73663); (73714,73726); (74650,74751);
    (74863,74863); (74869,74879); (75076,77711); (77811,77823); (78895,82943); (83527,92159);
    (92729,92735); (92767,92767); (92778,92781); (92863,92863); (92874,92879); (92910,92911);
    (92918,92927); (92998,93007); (93018,93018); (93026,93026); (93048,93052); (93072,93759);
    (93851,93951); (94027,94030); (94088,94094); (94112,94175); (94181,94191); (94194,94207);
    (100344,100351); (101590,101631); (101641,110575); (110580,110580); (110588,110588);
    (110591,110591); (110883,110927); (110931,110947); (110952,110959); (111356,113663);
    (113771,113775); (113789,113791); (113801,113807); (113818,113819); (113824,118527);
    (118574,118575); (118599,118607); (118724,118783); (119030,119039); (119079,119080);
    (119155,119162); (119275,119295); (119366,119519); (119540,119551); (119639,119647);
    (119673,119807); (119893,119893); (119965,119965); (119968,119969); (119971,119972);
    (119975,119976); (119981,119981); (119994,119994); (119996,119996); (120004,120004);
    (120070,120070); (120075,120076); (120085,120085); (120093,120093); (120122,120122);
    (120127,120127); (120133,120133); (120135,120137); (120145,120145); (120486,120487);
    (120780,120781); (121484,121498); (121504,121504); (121520,122623); (122655,122879);
    (122887,122887); (122905,122906); (122914,122914); (122917,122917); (122923,123135);
    (123181,123183); (123198,123199); (123210,123213); (123216,123535); (123567,123583);
    (123642,123646); (123648,124895); (124903,124903); (124908,124908); (124911,124911);
    (124927,124927); (125125,125126); (125143,125183); (125260,125263); (125274,125277);
    (125280,126064); (126133,126208); (126270,126463); (126468,126468); (126496,126496);
    (126499,126499); (126501,126502); (126504,126504); (126515,126515); (126520,126520);
    (126522,126522); (126524,126529); (126531,126534); (126536,126536); (126538,126538);
    (126540,126540); (126544,126544); (126547,126547); (126549,126550); (126552,126552);
    (126554,126554); (126556,126556); (126558,126558); (126560,126560); (126563,126563);
    (126565,126566); (126571,126571); (126579,126579); (126584,126584); (126589,126589);
    (126591,126591); (126602,126602); (126620,126624); (126628,126628); (126634,126634);
    (126652,126703); (126706,126975); (127020,127023); (127124,127135); (127151,127152);
    (127168,127168); (127184,127184); (127222,127231); (127406,127461); (127491,127503);
    (127548,127551); (127561,127567); (127570,127583); (127590,127743); (128728,128732);
    (128749,128751); (128765,128767); (128884,128895); (128985,128991); (129004,129007);
    (129009,129023); (129036,129039); (129096,129103); (129114,129119); (129160,129167);
    (129198,129199); (129202,129279); (129620,129631); (129646,129647); (129653,129655);
    (129661,129663); (129671,129679); (129709,129711); (129723,129727); (129734,129743);
    (129754,129759); (129768,129775); (129783,129791); (129939,129939); (129995,130031);
    (130042,131071); (173792,173823); (177977,177983); (178206,178207); (183970,183983);
    (191457,194559); (195102,196607); (201547,917759); (918000,1114111)
  ].

Definition lower_table : list (N * N * N * Z) :=
  [
    (65,90,1,(32)%Z); (192,214,1,(32)%Z); (216,222,1,(32)%Z); (256,302,2,(1)%Z);
    (306,310,2,(1)%Z); (313,327,2,(1)%Z); (330,374,2,(1)%Z); (376,376,1,(-121)%Z);
    (377,381,2,(1)%Z); (385,385,1,(210)%Z); (386,388,2,(1)%Z); (390,390,1,(206)%Z);
    (391,391,1,(1)%Z); (393,394,1,(205)%Z); (395,395,1,(1)%Z); (398,398,1,(79)%Z);
    (399,399,1,(202)%Z); (400,400,1,(203)%Z); (401,401,1,(1)%Z); (403,403,1,(205)%Z);
    (404,404,1,(207)%Z); (406,406,1,(211)%Z); (407,407,1,(209)%Z); (408,408,1,(1)%Z);
    (412,412,1,(211)%Z); (413,413,1,(213)%Z); (415,415,1,(214)%Z); (416,420,2,(1)%Z);
    (422,422,1,(218)%Z); (423,423,1,(1)%Z); (425,425,1,(218)%Z); (428,428,1,(1)%Z);
    (430,430,1,(218)%Z); (431,431,1,(1)%Z); (433,434,1,(217)%Z); (435,437,2,(1)%Z);
    (439,439,1,(219)%Z); (440,440,1,(1)%Z); (444,444,1,(1)%Z); (452,452,1,(2)%Z);
    (453,453,1,(1)%Z); (455,455,1,(2)%Z); (456,456,1,(1)%Z); (458,458,1,(2)%Z);
    (459,475,2,(1)%Z); (478,494,2,(1)%Z); (497,497,1,(2)%Z); (498,500,2,(1)%Z);
    (502,502,1,(-97)%Z); (503,503,1,(-56)%Z); (504,542,2,(1)%Z); (544,544,1,(-130)%Z);
    (546,562,2,(1)%Z); (570,570,1,(10795)%Z); (571,571,1,(1)%Z); (573,573,1,(-163)%Z);
    (574,574,1,(10792)%Z); (577,577,1,(1)%Z); (579,579,1,(-195)%Z); (580,580,1,(69)%Z);
    (581,581,1,(71)%Z); (582,590,2,(1)%Z); (880,882,2,(1)%Z); (886,886,1,(1)%Z);
    (895,895,1,(116)%Z); (902,902,1,(38)%Z); (904,906,1,(37)%Z); (908,908,1,(64)%Z);
    (910,911,1,(63)%Z); (913,929,1,(32)%Z); (931,939,1,(32)%Z); (975,975,1,(8)%Z);
    (984,1006,2,(1)%Z); (1012,1012,1,(-60)%Z); (1015,1015,1,(1)%Z); (1017,1017,1,(-7)%Z);
    (1018,1018,1,(1)%Z); (1021,1023,1,(-130)%Z); (1024,1039,1,(80)%Z); (1040,1071,1,(32)%Z);
    (1120,1152,2,(1)%Z); (1162,1214,2,(1)%Z); (1216,1216,1,(15)%Z); (1217,1229,2,(1)%Z);
    (1232,1326,2,(1)%Z); (1329,1366,1,(48)%Z); (4256,4293,1,(7264)%Z); (4295,4295,1,(7264)%Z);
    (4301,4301,1,(7264)%Z); (5024,5103,1,(38864)%Z); (5104,5109,1,(8)%Z);
    (7312,7354,1,(-3008)%Z); (7357,7359,1,(-3008)%Z); (7680,7828,2,(1)%Z);
    (7838,7838,1,(-7615)%Z); (7840,7934,2,(1)%Z); (7944,7951,1,(-8)%Z); (7960,7965,1,(-8)%Z);
    (7976,7983,1,(-8)%Z); (7992,7999,1,(-8)%Z); (8008,8013,1,(-8)%Z); (8025,8031,2,(-8)%Z);
    (8040,8047,1,(-8)%Z); (8072,8079,1,(-8)%Z); (8088,8095,1,(-8)%Z); (8104,8111,1,(-8)%Z);
    (8120,8121,1,(-8)%Z); (8122,8123,1,(-74)%Z); (8124,8124,1,(-9)%Z); (8136,8139,1,(-86)%Z);
    (8140,8140,1,(-9)%Z); (8152,8153,1,(-8)%Z); (8154,8155,1,(-100)%Z); (8168,8169,1,(-8)%Z);
    (8170,8171,1,(-112)%Z); (8172,8172,1,(-7)%Z); (8184,8185,1,(-128)%Z);
    (8186,8187,1,(-126)%Z); (8188,8188,1,(-9)%Z); (8486,8486,1,(-7517)%Z);
    (8490,8490,1,(-8383)%Z); (8491,8491,1,(-8262)%Z); (8498,8498,1,(28)%Z);
    (8544,8559,1,(16)%Z); (8579,8579,1,(1)%Z); (9398,9423,1,(26)%Z); (11264,11311,1,(48)%Z);
    (11360,11360,1,(1)%Z); (11362,11362,1,(-10743)%Z); (11363,11363,1,(-3814)%Z);
    (11364,11364,1,(-10727)%Z); (11367,11371,2,(1)%Z); (11373,11373,1,(-10780)%Z);
    (11374,11374,1,(-10749)%Z); (11375,11375,1,(-10783)%Z); (11376,11376,1,(-10782)%Z);
    (11378,11378,1,(1)%Z); (11381,11381,1,(1)%Z); (11390,11391,1,(-10815)%Z);
    (11392,11490,2,(1)%Z); (11499,11501,2,(1)%Z); (11506,11506,1,(1)%Z); (42560,42604,2,(1)%Z);
    (42624,42650,2,(1)%Z); (42786,42798,2,(1)%Z); (42802,42862,2,(1)%Z); (42873,42875,2,(1)%Z);
    (42877,42877,1,(-35332)%Z); (42878,42886,2,(1)%Z); (42891,42891,1,(1)%Z);
    (42893,42893,1,(-42280)%Z); (42896,42898,2,(1)%Z); (42902,42920,2,(1)%Z);
    (42922,42922,1,(-42308)%Z); (42923,42923,1,(-42319)%Z); (42924,42924,1,(-42315)%Z);
    (42925,42925,1,(-42305)%Z); (42926,42926,1,(-42308)%Z); (42928,42928,1,(-42258)%Z);
    (42929,42929,1,(-42282)%Z); (42930,42930,1,(-42261)%Z); (42931,42931,1,(928)%Z);
    (42932,42946,2,(1)%Z); (42948,42948,1,(-48)%Z); (42949,42949,1,(-42307)%Z);
    (42950,42950,1,(-35384)%Z); (42951,42953,2,(1)%Z); (42960,42960,1,(1)%Z);
    (42966,42968,2,(1)%Z); (42997,42997,1,(1)%Z); (65313,65338,1,(32)%Z);
    (66560,66599,1,(40)%Z); (66736,66771,1,(40)%Z); (66928,66938,1,(39)%Z);
    (66940,66954,1,(39)%Z); (66956,66962,1,(39)%Z); (66964,66965,1,(39)%Z);
    (68736,68786,1,(64)%Z); (71840,71871,1,(32)%Z); (93760,93791,1,(32)%Z);
    (125184,125217,1,(34)%Z)
  ].
