(* ===== verification/PyStr.v ===== *)
(** * Python strings and byte strings

    A [str] is the list of its code points ([pystr]); a [bytes] is the list of
    its bytes.  Each definition is the [str] method or builtin of the same name
    as CPython 3.11 computes it, for every code point.  One corner is left out:
    [str.lower] turns a capital sigma at the end of a word into U+03C2, here it
    becomes U+03C3 everywhere. *)
From S2P Require Import Prelude UnicodeData.
From Stdlib Require Import Ascii.
#[local] Open Scope N_scope.

Abbreviation pystr := (list N).

(** String literals. *)
Definition u (s : string) : pystr := N_of_ascii <$> String.list_ascii_of_string s.
Arguments u s%_string_scope.

(** ** Character classes *)

Definition in_ranges (rs : list (N * N)) (c : N) : bool :=
  existsb (λ r, (r.1 <=? c) && (c <=? r.2)) rs.

Definition is_space (c : N) : bool := in_ranges space_ranges c.
Definition is_printable (c : N) : bool := negb (in_ranges nonprintable_ranges c).

(** The value of a Unicode decimal digit. *)
Definition decimal_value (c : N) : option N :=
  (λ z, c - z) <$> List.find (λ z, (z <=? c) && (c <=? z + 9)) decimal_zeros.

(** [s.isdigit()] *)
Definition isdigit (s : pystr) : bool :=
  match s with [] => false | _ => forallb (in_ranges digit_ranges) s end.

Definition lower_char (c : N) : pystr :=
  if c =? 304 then [105; 775] else
  match List.find (λ '(a, b, st, _), (a <=? c) && (c <=? b) && ((c - a) mod st =? 0)) lower_table with
  | Some (_, _, _, d) => [Z.to_N (Z.of_N c + d)]
  | None => [c]
  end.
(** [s.lower()] *)
Definition lower (s : pystr) : pystr := s ≫= lower_char.

(** ** Stripping, searching, replacing, splitting, joining *)

Fixpoint drop_while (f : N → bool) (s : pystr) : pystr :=
  match s with
  | [] => []
  | c :: s' => if f c then drop_while f s' else s
  end.
Definition strip_by (f : N → bool) (s : pystr) : pystr :=
  reverse (drop_while f (reverse (drop_while f s))).
(** [s.strip()] *)
Definition strip (s : pystr) : pystr := strip_by is_space s.

Fixpoint drop_prefix (p s : pystr) : option pystr :=
  match p, s with
  | [], _ => Some s
  | a :: p', b :: s' => if a =? b then drop_prefix p' s' else None
  | _ :: _, [] => None
  end.
(** [s.startswith(p)] *)
Definition startswith (p s : pystr) : bool := bool_decide (is_Some (drop_prefix p s)).

(** [s.replace(old, new)], for a non-empty [old]: non-overlapping occurrences
    from left to right; [skip] counts the characters of the occurrence just
    replaced that are still to be dropped. *)
Fixpoint replace_from (old new : pystr) (skip : nat) (s : pystr) : pystr :=
  match s with
  | [] => []
  | c :: s' =>
      match skip with
      | S k => replace_from old new k s'
      | O => if startswith old s then new ++ replace_from old new (pred (length old)) s'
             else c :: replace_from old new 0 s'
      end
  end.
Definition replace (old new s : pystr) : pystr := replace_from old new 0 s.

(** [s.split(sep)] for a one-character separator. *)
Fixpoint split (sep : N) (s : pystr) : list pystr :=
  match s with
  | [] => [[]]
  | c :: s' =>
      match split sep s' with
      | [] => [[]]
      | w :: ws => if c =? sep then [] :: w :: ws else (c :: w) :: ws
      end
  end.

(** [sep.join(ws)] *)
Fixpoint join (sep : pystr) (ws : list pystr) : pystr :=
  match ws with
  | [] => []
  | [w] => w
  | w :: ws' => w ++ sep ++ join sep ws'
  end.

(** ** Integers in decimal *)

Fixpoint digits_go (fuel : nat) (n : N) (acc : pystr) : pystr :=
  match fuel with
  | O => acc
  | S f => let acc' := (48 + n mod 10) :: acc in
           if n <? 10 then acc' else digits_go f (n / 10) acc'
  end.
Definition str_of_N (n : N) : pystr := digits_go (S (N.size_nat n)) n [].
(** [str(z)] for an [int]. *)
Definition str_of_Z (z : Z) : pystr :=
  if (z <? 0)%Z then 45 :: str_of_N (Z.to_N (- z)) else str_of_N (Z.to_N z).

Definition ascii_digit (c : N) : option N :=
  if (48 <=? c) && (c <=? 57) then Some (c - 48) else None.

(** Digits with single underscores between them; [prev] tells whether the
    previous character was a digit. *)
Fixpoint int_digits (prev : bool) (acc : N) (s : pystr) : option N :=
  match s with
  | [] => if prev then Some acc else None
  | c :: s' =>
      if c =? 95 then if prev then int_digits false acc s' else None
      else match ascii_digit c with
           | Some d => int_digits true (10 * acc + d) s'
           | None => None
           end
  end.

(** [int] first maps non-ASCII spaces and decimal digits to ASCII. *)
Definition int_ascii (c : N) : N :=
  if c <? 127 then c
  else if is_space c then 32
  else match decimal_value c with Some d => 48 + d | None => 63 end.
Definition c_space (c : N) : bool := ((9 <=? c) && (c <=? 13)) || (c =? 32).

(** [int(s)]: [None] stands for [ValueError]. *)
Definition int_of_str (s : pystr) : option Z :=
  match strip_by c_space (int_ascii <$> s) with
  | 45 :: s' => (λ n, - Z.of_N n)%Z <$> int_digits false 0 s'
  | 43 :: s' => Z.of_N <$> int_digits false 0 s'
  | s' => Z.of_N <$> int_digits false 0 s'
  end.

(** ** Hexadecimal and [repr] *)

Definition hex_digit (d : N) : N := if d <? 10 then 48 + d else 87 + d.
Fixpoint hex (width : nat) (n : N) : pystr :=
  match width with
  | O => []
  | S w => hex w (n / 16) ++ [hex_digit (n mod 16)]
  end.

Definition repr_char (quote c : N) : pystr :=
  if (c =? 92) || (c =? quote) then [92; c]
  else if c =? 9 then u "\t" else if c =? 10 then u "\n" else if c =? 13 then u "\r"
  else if (c <? 32) || (c =? 127) then u "\x" ++ hex 2 c
  else if is_printable c then [c]
  else if c <=? 255 then u "\x" ++ hex 2 c
  else if c <=? 65535 then u "\u" ++ hex 4 c
  else u "\U" ++ hex 8 c.
(** [repr(s)]; 39 and 34 are the single and the double quote. *)
Definition repr (s : pystr) : pystr :=
  let quote := if existsb (N.eqb 39) s && negb (existsb (N.eqb 34) s) then 34 else 39 in
  quote :: (s ≫= repr_char quote) ++ [quote].

(** ** Order and sorting *)

Fixpoint str_leb (a b : pystr) : bool :=
  match a, b with
  | [], _ => true
  | _ :: _, [] => false
  | x :: a', y :: b' => if x =? y then str_leb a' b' else x <? y
  end.
Definition str_le (a b : pystr) : Prop := str_leb a b = true.
Global Instance str_le_dec : RelDecision str_le := λ a b, decide (str_leb a b = true).

(** [sorted(l)] and, for a set, [sorted(X)]. *)
Definition sorted (l : list pystr) : list pystr := merge_sort str_le l.
Definition sorted_set (X : gset pystr) : list pystr := sorted (elements X).

(** ** UTF-8 *)

Definition is_surrogate (c : N) : bool := (55296 <=? c) && (c <=? 57343).

(** [s.encode("utf-8")], [None] standing for [UnicodeEncodeError]. *)
Definition utf8_char (c : N) : option (list N) :=
  if c <? 128 then Some [c]
  else if c <? 2048 then Some [192 + c / 64; 128 + c mod 64]
  else if is_surrogate c then None
  else if c <? 65536 then Some [224 + c / 4096; 128 + c / 64 mod 64; 128 + c mod 64]
  else Some [240 + c / 262144; 128 + c / 4096 mod 64; 128 + c / 64 mod 64; 128 + c mod 64].
Fixpoint utf8_encode (s : pystr) : option (list N) :=
  match s with
  | [] => Some []
  | c :: s' => b ← utf8_char c; bs ← utf8_encode s'; Some (b ++ bs)
  end.

Definition is_cont (b : N) : bool := (128 <=? b) && (b <=? 191).
Definition ok3 (b0 b1 : N) : bool :=
  is_cont b1 && (if b1 <? 160 then negb (b0 =? 224) else negb (b0 =? 237)).
Definition ok4 (b0 b1 : N) : bool :=
  is_cont b1 && (if b1 <? 144 then negb (b0 =? 240) else negb (b0 =? 244)).

(** [b.decode("utf-8", errors="replace")]: one U+FFFD (65533) for each maximal
    prefix of an ill-formed sequence. *)
Fixpoint utf8_decode_replace (s : list N) : pystr :=
  match s with
  | [] => []
  | b0 :: r0 =>
      if b0 <? 128 then b0 :: utf8_decode_replace r0
      else if (194 <=? b0) && (b0 <=? 223) then
        match r0 with
        | [] => [65533]
        | b1 :: r1 => if is_cont b1 then ((b0 - 192) * 64 + (b1 - 128)) :: utf8_decode_replace r1
                      else 65533 :: utf8_decode_replace r0
        end
      else if (224 <=? b0) && (b0 <=? 239) then
        match r0 with
        | [] => [65533]
        | b1 :: r1 =>
            if negb (ok3 b0 b1) then 65533 :: utf8_decode_replace r0 else
            match r1 with
            | [] => [65533]
            | b2 :: r2 =>
                if is_cont b2
                then ((b0 - 224) * 4096 + (b1 - 128) * 64 + (b2 - 128)) :: utf8_decode_replace r2
                else 65533 :: utf8_decode_replace r1
            end
        end
      else if (240 <=? b0) && (b0 <=? 244) then
        match r0 with
        | [] => [65533]
        | b1 :: r1 =>
            if negb (ok4 b0 b1) then 65533 :: utf8_decode_replace r0 else
            match r1 with
            | [] => [65533]
            | b2 :: r2 =>
                if negb (is_cont b2) then 65533 :: utf8_decode_replace r1 else
                match r2 with
                | [] => [65533]
                | b3 :: r3 =>
                    if is_cont b3
                    then ((b0 - 240) * 262144 + (b1 - 128) * 4096 + (b2 - 128) * 64 + (b3 - 128))
                         :: utf8_decode_replace r3
                    else 65533 :: utf8_decode_replace r2
                end
            end
        end
      else 65533 :: utf8_decode_replace r0
  end.

(** ** Lemmas *)

#[local] Open Scope nat_scope.

(** *** Splitting what was joined *)

Lemma split_nonempty sep s : split sep s ≠ [].
Proof. destruct s as [|c s]; simpl; [done|]. destruct (split sep s); [done|]. by destruct (c =? sep)%N. Qed.
Lemma split_app sep w s : sep ∉ w →
  split sep (w ++ s) = match split sep s with [] => [[]] | v :: vs => (w ++ v) :: vs end.
Proof.
  induction w as [|c w IH]; intros Hw; simpl.
  - pose proof (split_nonempty sep s). by destruct (split sep s).
  - rewrite IH by set_solver. pose proof (split_nonempty sep s). destruct (split sep s); [done|].
    destruct (N.eqb_spec c sep); [set_solver|done].
Qed.
Lemma split_sep sep s : split sep (sep :: s) = [] :: split sep s.
Proof. simpl. pose proof (split_nonempty sep s). destruct (split sep s); [done|]. by rewrite N.eqb_refl. Qed.
Lemma split_join sep ws : ws ≠ [] → Forall (λ w, sep ∉ w) ws → split sep (join [sep] ws) = ws.
Proof.
  intros Hne Hws. induction Hws as [|w ws Hw Hws IH]; [done|].
  destruct ws as [|v ws].
  - simpl. rewrite <-(app_nil_r w) at 1. rewrite split_app by done. simpl. by rewrite app_nil_r.
  - change (join [sep] (w :: v :: ws)) with (w ++ sep :: join [sep] (v :: ws)).
    rewrite split_app by done. rewrite split_sep, IH by done. by rewrite app_nil_r.
Qed.
Lemma split_no_sep sep s : Forall (λ w, sep ∉ w) (split sep s).
Proof.
  induction s as [|c s IH]; simpl; [by repeat constructor; set_solver|].
  destruct (split sep s) as [|w ws]; [by repeat constructor; set_solver|].
  apply Forall_cons in IH as [Hw Hws].
  destruct (N.eqb_spec c sep); repeat (constructor; [set_solver|]); done.
Qed.
Lemma join_split sep s : join [sep] (split sep s) = s.
Proof.
  induction s as [|c s IH]; simpl; [done|]. pose proof (split_nonempty sep s).
  destruct (split sep s) as [|w ws]; [done|]. destruct (N.eqb_spec c sep) as [->|_].
  - by rewrite <-IH.
  - rewrite <-IH. by destruct ws.
Qed.
Lemma split_length sep s : length (split sep s) <= S (length s).
Proof.
  induction s as [|c s IH]; simpl; [lia|]. destruct (split sep s); simpl in *; [lia|].
  destruct (c =? sep)%N; simpl; lia.
Qed.
Lemma join_snoc_nil sep ws : ws ≠ [] → join [sep] ws ++ [sep] = join [sep] (ws ++ [[]]).
Proof.
  intros Hne. induction ws as [|w ws IH]; [done|]. destruct ws as [|v ws]; [done|].
  change (join [sep] (w :: v :: ws)) with (w ++ [sep] ++ join [sep] (v :: ws)).
  rewrite <-!app_assoc, IH by done. done.
Qed.
Lemma split_lines sep ws : ws ≠ [] → Forall (λ w, sep ∉ w) ws →
  split sep (join [sep] ws ++ [sep]) = ws ++ [[]].
Proof.
  intros Hne Hws. rewrite join_snoc_nil by done. apply split_join; [by destruct ws|].
  apply Forall_app_2; [done|]. repeat constructor. set_solver.
Qed.

(** *** Replacing *)

Lemma replace_Forall (P : N → Prop) old s : Forall P s → Forall P (replace old [] s).
Proof.
  unfold replace. generalize 0. intros skip Hs. revert skip.
  induction Hs as [|c s Hc _ IH]; intros skip; simpl; [constructor|].
  destruct skip; [|done]. destruct (startswith old (c :: s)); [done|by constructor].
Qed.

Lemma replace_absent c old s : c ∉ s → head old = Some c → replace old [] s = s.
Proof.
  intros Hs Ho. destruct old as [|a old]; [done|]. injection Ho as ->. unfold replace.
  induction s as [|b s IH]; [done|]. simpl. unfold startswith. cbn [drop_prefix].
  destruct (N.eqb_spec c b) as [->|_]; [set_solver|]. f_equal. apply IH. set_solver.
Qed.

(** *** Stripping *)

Lemma drop_while_spec f s :
  ∃ p, s = p ++ drop_while f s ∧ Forall (λ c, f c = true) p ∧
       (∀ c r, drop_while f s = c :: r → f c = false).
Proof.
  induction s as [|c s (p & Hs & Hp & Hr)]; simpl.
  - by exists [].
  - destruct (f c) eqn:Hc.
    + exists (c :: p). split; [by rewrite Hs at 1|]. by split; [constructor|].
    + exists []. split; [done|]. split; [done|]. intros c' r [= -> ->]. done.
Qed.

Lemma drop_while_nil f s : drop_while f s = [] ↔ Forall (λ c, f c = true) s.
Proof.
  split.
  - intros H. destruct (drop_while_spec f s) as (p & Hs & Hp & _).
    rewrite H, app_nil_r in Hs. by subst.
  - induction 1; simpl; [done|]. by rewrite H.
Qed.

Lemma drop_while_id f s :
  (∀ c r, s = c :: r → f c = false) → drop_while f s = s.
Proof. destruct s as [|c s]; simpl; [done|]. intros H. by rewrite (H c s). Qed.

Lemma strip_by_id f s :
  (∀ c r, s = c :: r → f c = false) → (∀ c r, s = r ++ [c] → f c = false) →
  strip_by f s = s.
Proof.
  intros Hl Hr. unfold strip_by. rewrite (drop_while_id f s Hl).
  rewrite drop_while_id; [by rewrite reverse_involutive|].
  intros c r Hc. apply (Hr c (reverse r)).
  by rewrite <-(reverse_involutive s), Hc, reverse_cons.
Qed.

Lemma strip_by_ends f s :
  (∀ c r, strip_by f s = c :: r → f c = false) ∧
  (∀ c r, strip_by f s = r ++ [c] → f c = false).
Proof.
  unfold strip_by. set (t := drop_while f s).
  destruct (drop_while_spec f (reverse t)) as (p & Ht & _ & Hlast).
  destruct (drop_while_spec f s) as (_ & _ & _ & Hfirst). fold t in Hfirst.
  set (v := drop_while f (reverse t)) in *.
  assert (t = reverse v ++ reverse p) as Ht'.
  { by rewrite <-reverse_app, <-Ht, reverse_involutive. }
  split; intros c r Hc.
  - apply (Hfirst c (r ++ reverse p)). by rewrite Ht', Hc.
  - apply (Hlast c (reverse r)).
    by rewrite <-(reverse_involutive v), Hc, reverse_app.
Qed.

Lemma strip_by_nil f s : strip_by f s = [] ↔ Forall (λ c, f c = true) s.
Proof.
  unfold strip_by. set (t := drop_while f s). split.
  - intros H%(f_equal reverse). rewrite reverse_involutive in H. simpl in H.
    apply drop_while_nil in H. rewrite Forall_reverse in H.
    destruct (drop_while_spec f s) as (p & Hs & Hp & _). rewrite Hs.
    apply Forall_app. by split.
  - intros H%drop_while_nil. unfold t. by rewrite H.
Qed.

Lemma strip_by_idemp f s : strip_by f (strip_by f s) = strip_by f s.
Proof. destruct (strip_by_ends f s) as [??]. by apply strip_by_id. Qed.

Lemma strip_by_all f s : Forall (λ c, f c = false) s → strip_by f s = s.
Proof.
  intros H. apply strip_by_id; intros c r ->.
  - by inversion H.
  - apply Forall_app in H as [_ H]. by inversion H.
Qed.

Lemma drop_while_snoc f s c :
  f c = true →
  drop_while f (s ++ [c]) = match drop_while f s with [] => [] | r => r ++ [c] end.
Proof.
  intros Hc. induction s as [|a s IH]; simpl; [by rewrite Hc|]. by destruct (f a).
Qed.
Lemma strip_by_snoc f s c : f c = true → strip_by f (s ++ [c]) = strip_by f s.
Proof.
  intros Hc. unfold strip_by. rewrite drop_while_snoc by done.
  destruct (drop_while f s) as [|a r]; [done|]. rewrite reverse_snoc. cbn [drop_while]. by rewrite Hc.
Qed.
Lemma strip_by_cons f s c : f c = true → strip_by f (c :: s) = strip_by f s.
Proof. intros Hc. unfold strip_by. cbn [drop_while]. by rewrite Hc. Qed.
Lemma strip_by_app_space f p s q :
  Forall (λ c, f c = true) p → Forall (λ c, f c = true) q →
  Forall (λ c, f c = false) s → strip_by f (p ++ s ++ q) = s.
Proof.
  assert (∀ p s, Forall (λ c, f c = true) p → drop_while f (p ++ s) = drop_while f s) as Hd.
  { intros p' s' Hp. induction Hp as [|c p' Hc]; simpl; [done|]. by rewrite Hc. }
  intros Hp Hq Hs. unfold strip_by. rewrite Hd by done.
  destruct s as [|c s].
  - simpl. apply drop_while_nil in Hq. by rewrite Hq.
  - rewrite (drop_while_id f (_ ++ q)).
    2: { intros c' r [= <- <-]. by inversion Hs. }
    rewrite reverse_app, Hd by (by apply Forall_reverse).
    rewrite drop_while_id; [by rewrite reverse_involutive|].
    intros c' r Hr. assert (c' ∈ c :: s) as Hin.
    { rewrite <-(reverse_involutive (c :: s)), Hr, reverse_cons. set_solver. }
    by eapply Forall_forall in Hs.
Qed.

(** *** Decimal integers *)

Lemma ascii_digit_digit (d : N) : (d < 10)%N → ascii_digit (48 + d) = Some d.
Proof.
  intros Hd. unfold ascii_digit.
  rewrite (proj2 (N.leb_le 48 _)), (proj2 (N.leb_le _ 57)) by lia.
  simpl. f_equal. lia.
Qed.

Lemma int_digits_digit prev acc (d : N) s :
  (d < 10)%N → int_digits prev acc ((48 + d)%N :: s) = int_digits true (10 * acc + d) s.
Proof.
  intros Hd. cbn [int_digits]. rewrite (proj2 (N.eqb_neq _ 95)) by lia.
  by rewrite ascii_digit_digit.
Qed.

Lemma int_digits_go f n s prev :
  (n < 10 ^ N.of_nat f)%N → f ≠ 0 →
  int_digits prev 0 (digits_go f n s) = int_digits true n s.
Proof.
  revert n s prev. induction f as [|f IH]; intros n s prev Hn Hf; [done|].
  cbn [digits_go].
  destruct (N.ltb_spec n 10) as [Hlt|Hge].
  - rewrite int_digits_digit by (apply N.mod_lt; lia).
    f_equal. rewrite N.mod_small by lia. lia.
  - assert (Hf' : f ≠ 0).
    { intros ->. change (10 ^ N.of_nat 1)%N with 10%N in Hn. lia. }
    rewrite IH; [|apply N.Div0.div_lt_upper_bound; rewrite <-N.pow_succ_r'; by rewrite <-Nat2N.inj_succ|done].
    rewrite int_digits_digit by (apply N.mod_lt; lia).
    f_equal. rewrite <-N.div_mod; lia.
Qed.

Lemma digits_fuel_enough n : (n < 10 ^ N.of_nat (S (N.size_nat n)))%N.
Proof.
  assert (n < 2 ^ N.size n)%N as H by apply N.size_gt.
  assert (N.of_nat (N.size_nat n) = N.size n) as Hs.
  { clear H. destruct n as [|p]; [done|]. cbn [N.size_nat N.size].
    induction p as [p IH|p IH|]; cbn [Pos.size_nat Pos.size]; [..|done];
      rewrite Nat2N.inj_succ, IH; reflexivity. }
  rewrite Nat2N.inj_succ, Hs.
  eapply N.lt_le_trans; [exact H|]. transitivity (10 ^ N.size n)%N.
  - apply N.pow_le_mono_l. lia.
  - apply N.pow_le_mono_r; lia.
Qed.

Lemma int_digits_str_of_N n : int_digits false 0 (str_of_N n) = Some n.
Proof. unfold str_of_N. by rewrite int_digits_go by (done || apply digits_fuel_enough). Qed.

Definition is_ascii_digit (c : N) : Prop := (48 <= c ∧ c <= 57)%N.

Lemma digits_go_digits f n s :
  Forall is_ascii_digit s → Forall is_ascii_digit (digits_go f n s).
Proof.
  revert n s. induction f as [|f IH]; intros n s Hs; simpl; [done|].
  assert (n mod 10 < 10)%N by (apply N.mod_lt; lia).
  assert (Forall is_ascii_digit ((48 + n mod 10)%N :: s)).
  { constructor; [red; lia|done]. }
  destruct (_ <? _)%N; auto.
Qed.
Lemma str_of_N_digits n : Forall is_ascii_digit (str_of_N n).
Proof. by apply digits_go_digits. Qed.
Lemma str_of_N_nonempty n : str_of_N n ≠ [].
Proof. intros H. pose proof (int_digits_str_of_N n) as Hd. by rewrite H in Hd. Qed.

Lemma c_space_false c : (33 <= c)%N → c_space c = false.
Proof. intros. unfold c_space. destruct (N.leb_spec c 13), (N.leb_spec 9 c), (N.eqb_spec c 32); simpl; done || lia. Qed.
Lemma int_ascii_id c : (c < 127)%N → int_ascii c = c.
Proof. intros. unfold int_ascii. by rewrite (proj2 (N.ltb_lt c 127)). Qed.

Lemma int_strip_id s :
  Forall (λ c, 33 <= c ∧ c < 127)%N s → strip_by c_space (int_ascii <$> s) = s.
Proof.
  intros H. assert (int_ascii <$> s = s) as ->.
  { induction H as [|c s [??] _ IH]; [done|]. by rewrite fmap_cons, IH, int_ascii_id. }
  apply strip_by_all. eapply Forall_impl; [exact H|].
  intros c [??]. by apply c_space_false.
Qed.

(** [int(str(z)) = z] *)
Lemma int_of_str_of_Z z : int_of_str (str_of_Z z) = Some z.
Proof.
  assert (Forall (λ c, 33 <= c ∧ c < 127)%N (str_of_Z z)) as Hc.
  { unfold str_of_Z.
    assert (∀ n, Forall (λ c, 33 <= c ∧ c < 127)%N (str_of_N n)).
    { intros n. eapply Forall_impl; [apply str_of_N_digits|]. unfold is_ascii_digit. lia. }
    destruct (z <? 0)%Z; auto. constructor; [lia|auto]. }
  unfold int_of_str. rewrite int_strip_id by done.
  unfold str_of_Z. destruct (Z.ltb_spec z 0).
  - rewrite int_digits_str_of_N. simpl. f_equal. lia.
  - destruct (str_of_N (Z.to_N z)) as [|c s] eqn:Hs; [by apply str_of_N_nonempty in Hs|].
    pose proof (str_of_N_digits (Z.to_N z)) as Hd. rewrite Hs in Hd.
    inversion Hd as [|?? Hc0 _]; subst. red in Hc0.
    assert (int_of_c : (Z.of_N <$> int_digits false 0 (c :: s)) = Some z).
    { rewrite <-Hs, int_digits_str_of_N. simpl. f_equal. lia. }
    rewrite <-int_of_c. clear -Hc0.
    assert (c ≠ 45 ∧ c ≠ 43)%N as [H1 H2] by lia.
    destruct c as [|p]; [done|].
    do 6 (destruct p as [p|p|]; try done).
Qed.

Global Instance str_of_Z_inj : Inj (=) (=) str_of_Z.
Proof.
  intros x y H. apply (f_equal int_of_str) in H.
  rewrite !int_of_str_of_Z in H. congruence.
Qed.

Lemma str_of_Z_digits n : Forall (λ c, c = 45 ∨ is_ascii_digit c)%N (str_of_Z n).
Proof.
  unfold str_of_Z. destruct (n <? 0)%Z; [constructor; [by left|]|];
    (eapply Forall_impl; [apply str_of_N_digits|]); by right.
Qed.
Lemma isdigit_str_of_N n : isdigit (str_of_N n) = true.
Proof.
  pose proof (str_of_N_digits n) as Hd.
  destruct (str_of_N n) as [|c s] eqn:Hs; [by apply str_of_N_nonempty in Hs|].
  unfold isdigit. rewrite <-Hs in *. clear Hs.
  induction Hd as [|c' s' Hc _ IH]; simpl; [done|].
  rewrite IH, andb_true_r. red in Hc. unfold digit_ranges.
  cbn [in_ranges existsb fst snd].
  by rewrite (proj2 (N.leb_le 48 c')), (proj2 (N.leb_le c' 57)) by lia.
Qed.

(** *** The order on strings *)

Global Instance str_le_total : Total str_le.
Proof.
  intros a. unfold str_le. induction a as [|x a IH]; intros [|y b]; simpl; auto.
  destruct (N.eqb_spec x y) as [->|Hne].
  - rewrite N.eqb_refl. apply IH.
  - rewrite (proj2 (N.eqb_neq y x)) by done.
    destruct (N.ltb_spec x y); [by left|right; apply N.ltb_lt; lia].
Qed.
Global Instance str_le_trans : Transitive str_le.
Proof.
  intros a b c. unfold str_le. revert b c.
  induction a as [|x a IH]; intros [|y b] [|z c]; simpl; auto; try done.
  destruct (N.eqb_spec x y) as [->|Hxy].
  - destruct (N.eqb_spec y z) as [->|Hyz]; [apply IH|done].
  - intros H1%N.ltb_lt. destruct (N.eqb_spec y z) as [->|Hyz].
    + intros _. rewrite (proj2 (N.eqb_neq x z)) by done. by apply N.ltb_lt.
    + intros H2%N.ltb_lt. rewrite (proj2 (N.eqb_neq x z)) by lia. apply N.ltb_lt. lia.
Qed.
Global Instance str_le_antisymm : AntiSymm (=) str_le.
Proof.
  intros a b. unfold str_le. revert b. induction a as [|x a IH]; intros [|y b]; simpl; auto; try done.
  destruct (N.eqb_spec x y) as [->|Hxy].
  - rewrite N.eqb_refl. intros. f_equal. auto.
  - rewrite (proj2 (N.eqb_neq y x)) by done. intros H1%N.ltb_lt H2%N.ltb_lt. lia.
Qed.

Lemma sorted_Permutation l : sorted l ≡ₚ l.
Proof. apply merge_sort_Permutation. Qed.
Lemma sorted_Sorted l : StronglySorted str_le (sorted l).
Proof. apply (StronglySorted_merge_sort _). Qed.
(** Sorting forgets the order of its input: iterating a set in any order gives
    the same list. *)
Global Instance sorted_proper : Proper ((≡ₚ) ==> (=)) sorted.
Proof.
  intros l k Hlk. apply (StronglySorted_unique str_le); [apply sorted_Sorted..|].
  by rewrite !sorted_Permutation.
Qed.

Lemma elem_of_sorted_set x X : x ∈ sorted_set X ↔ x ∈ X.
Proof. unfold sorted_set. by rewrite sorted_Permutation, elem_of_elements. Qed.
Lemma NoDup_sorted_set X : NoDup (sorted_set X).
Proof. unfold sorted_set. rewrite sorted_Permutation. apply NoDup_elements. Qed.
Global Instance sorted_set_inj : Inj (=) (=) sorted_set.
Proof. intros X Y H. apply set_eq. intros x. by rewrite <-!elem_of_sorted_set, H. Qed.
Lemma sorted_set_singleton x : sorted_set {[x]} = [x].
Proof. unfold sorted_set. by rewrite elements_singleton. Qed.
Lemma sorted_set_nil X : sorted_set X = [] ↔ X = ∅.
Proof.
  split; [|by intros ->]. intros H. apply set_eq. intros x.
  rewrite <-elem_of_sorted_set, H. set_solver.
Qed.
