(* ===== verification/PyFloat.v ===== *)
(** * Python floats

    A [float] is a binary64 number of the Standard Library's executable
    specification of IEEE 754 ([SpecFloat], precision 53, exponents up to
    1024).  The source only reads floats out of JSON texts, truncates them with
    [int], compares them and prints them, which is what is modelled. *)
From S2P Require Import Prelude PyStr.
From Stdlib Require Import SpecFloat.
#[local] Open Scope Z_scope.

Abbreviation pyfloat := spec_float.

Global Instance pyfloat_eq_dec : EqDecision pyfloat.
Proof. solve_decision. Defined.

(** [float("<sign><m>e<e10>")], correctly rounded: one rounding of the exact
    quotient (or product) of integers. *)
Definition float_of_decimal (neg : bool) (m : N) (e10 : Z) : pyfloat :=
  match m with
  | N0 => S754_zero neg
  | Npos p =>
      if 0 <=? e10
      then binary_normalize 53 1024 ((if neg then -1 else 1) * Zpos p * 10 ^ e10) 0 neg
      else let '(mz, ez, lz) := SFdiv_core_binary 53 1024 (Zpos p) 0 (10 ^ (- e10)) 0 in
           binary_round_aux 53 1024 neg mz ez lz
  end.

(** The absolute value as a fraction. *)
Definition float_fraction (m : positive) (e : Z) : Z * Z :=
  if 0 <=? e then (Zpos m * 2 ^ e, 1) else (Zpos m, 2 ^ (- e)).

(** [int(f)] on a finite float: truncation toward zero. *)
Definition float_trunc (f : pyfloat) : option Z :=
  match f with
  | S754_zero _ => Some 0
  | S754_finite s m e =>
      let '(a, b) := float_fraction m e in
      Some (if s then - (a / b) else a / b)
  | _ => None
  end.

(** Comparison of a float with an integer is exact. *)
Definition float_compare_Z (f : pyfloat) (z : Z) : option comparison :=
  match f with
  | S754_nan => None
  | S754_infinity s => Some (if s then Lt else Gt)
  | S754_zero _ => Some (0 ?= z)
  | S754_finite s m e =>
      let '(a, b) := float_fraction m e in
      Some ((if s then - a else a) ?= z * b)
  end.

Definition float_truthy (f : pyfloat) : bool :=
  match f with S754_zero _ => false | _ => true end.

(** ** Arithmetic *)

(** [a / b] on integers, [b] not zero: one rounding of the exact quotient. *)
Definition int_quotient (a b : Z) : pyfloat :=
  let neg := xorb (a <? 0) (b <? 0) in
  match Z.abs a, Z.abs b with
  | Zpos p, Zpos q => let '(mz, ez, lz) := SFdiv_core_binary 53 1024 (Zpos p) 0 (Zpos q) 0 in
                      binary_round_aux 53 1024 neg mz ez lz
  | _, _ => S754_zero neg
  end.
Definition float_of_int (z : Z) : pyfloat := binary_normalize 53 1024 z 0 false.
Definition float_is_inf (f : pyfloat) : bool := match f with S754_infinity _ => true | _ => false end.
(** [max(f, g)] *)
Definition float_max (f g : pyfloat) : pyfloat :=
  match SFcompare f g with Some Lt => g | _ => f end.
Definition float_sum (l : list pyfloat) : pyfloat := fold_left (SFadd 53 1024) l (S754_zero false).

(** ** [repr]: the shortest digits that read back as the same float *)

Definition num_digits (z : Z) : Z := Z.of_nat (length (str_of_Z z)).

(** The exponent [E] with [10^E <= a/b < 10^(E+1)]. *)
Definition exponent10 (a b : Z) : Z :=
  if b <=? a then num_digits (a / b) - 1 else - num_digits ((b - 1) / a).

(** The [n]-digit decimals around [a/b = m*2^e], nearest first. *)
Definition candidates (a b E n : Z) : list (N * Z) :=
  let e10 := E - n + 1 in
  let '(num, den) := if 0 <=? e10 then (a, b * 10 ^ e10) else (a * 10 ^ (- e10), b) in
  let q := num / den in
  let r := num - q * den in
  let lo := (Z.to_N q, e10) in let hi := (Z.to_N (q + 1), e10) in
  match 2 * r ?= den with
  | Lt => [lo; hi]
  | Gt => [hi; lo]
  | Eq => if Z.even q then [lo; hi] else [hi; lo]
  end.

Fixpoint shortest (fuel : nat) (f : pyfloat) (a b E n : Z) : N * Z :=
  let cs := candidates a b E n in
  match fuel, List.find (λ c, bool_decide (float_of_decimal false c.1 c.2 = f)) cs with
  | _, Some c => c
  | O, None => default (0%N, 0) (head cs)
  | S k, None => shortest k f a b E (n + 1)
  end.

Definition zeros (n : Z) : pystr := List.repeat 48%N (Z.to_nat n).

Definition repr_pos_float (m : positive) (e : Z) : pystr :=
  let '(a, b) := float_fraction m e in
  let '(d, e10) := shortest 17 (S754_finite false m e) a b (exponent10 a b) 1 in
  let all := str_of_N d in
  let ds := reverse (drop_while (N.eqb 48) (reverse all)) in
  let len := Z.of_nat (length ds) in
  let decpt := Z.of_nat (length all) + e10 in
  if (-4 <? decpt) && (decpt <=? 16) then
    if decpt <=? 0 then u "0." ++ zeros (- decpt) ++ ds
    else if len <=? decpt then ds ++ zeros (decpt - len) ++ u ".0"
    else take (Z.to_nat decpt) ds ++ u "." ++ drop (Z.to_nat decpt) ds
  else
    let x := decpt - 1 in
    let xs := str_of_Z (Z.abs x) in
    take 1 ds ++ (if len =? 1 then [] else u "." ++ drop 1 ds) ++ u "e"
      ++ (if x <? 0 then u "-" else u "+")
      ++ (if Z.abs x <? 10 then u "0" else []) ++ xs.

(** [repr(f)] and [str(f)] *)
Definition float_repr (f : pyfloat) : pystr :=
  match f with
  | S754_zero s => (if s then u "-" else []) ++ u "0.0"
  | S754_infinity s => (if s then u "-" else []) ++ u "inf"
  | S754_nan => u "nan"
  | S754_finite s m e => (if s then u "-" else []) ++ repr_pos_float m e
  end.
