(* ===== verification/PyJson.v ===== *)
(** * JSON values and the [json] module

    [json] is the type of the Python values that [json.loads] returns.  [dumps]
    and [loads] are [json.dumps] and [json.loads] of CPython 3.11, error
    messages included.  Two interpreter limits are left out: the recursion
    limit on nesting and the 4300-digit limit on integers. *)
From S2P Require Import Prelude PyStr PyFloat.
From Stdlib Require Import SpecFloat.

(** A [dict] is its list of items in insertion order, with distinct keys. *)
#[local] Unset Elimination Schemes.
Inductive json : Type :=
  | JNull
  | JBool (b : bool)
  | JInt (z : Z)
  | JFloat (f : pyfloat)
  | JStr (s : pystr)
  | JList (l : list json)
  | JDict (d : list (pystr * json)).
#[local] Set Elimination Schemes.

Definition json_ind (P : json → Prop)
    (Hnull : P JNull) (Hbool : ∀ b, P (JBool b)) (Hint : ∀ z, P (JInt z))
    (Hfloat : ∀ f, P (JFloat f)) (Hstr : ∀ s, P (JStr s))
    (Hlist : ∀ l, Forall P l → P (JList l))
    (Hdict : ∀ d, Forall (λ kv, P kv.2) d → P (JDict d)) : ∀ j, P j :=
  fix go j := match j with
    | JNull => Hnull | JBool b => Hbool b | JInt z => Hint z
    | JFloat f => Hfloat f | JStr s => Hstr s
    | JList l => Hlist l ((fix gol (l : list json) : Forall P l := match l with
        | [] => @List.Forall_nil _ _ | x :: l' => @List.Forall_cons _ _ x l' (go x) (gol l') end) l)
    | JDict d => Hdict d ((fix god (d : list (pystr * json)) : Forall (λ kv, P kv.2) d := match d with
        | [] => @List.Forall_nil _ _ | kv :: d' => @List.Forall_cons _ _ kv d' (go kv.2) (god d') end) d)
    end.

Global Instance json_eq_dec : EqDecision json.
Proof.
  refine (fix go x y := let _ : EqDecision _ := @go in
    match x, y with
    | JNull, JNull => left eq_refl
    | JBool a, JBool b => cast_if (decide (a = b))
    | JInt a, JInt b => cast_if (decide (a = b))
    | JFloat a, JFloat b => cast_if (decide (a = b))
    | JStr a, JStr b => cast_if (decide (a = b))
    | JList a, JList b => cast_if (decide (a = b))
    | JDict a, JDict b => cast_if (decide (a = b))
    | _, _ => right _
    end); abstract congruence.
Defined.

(** ** Dictionaries *)

Abbreviation dict := (list (pystr * json)).

(** [k in d] and [d.get(k)] *)
Fixpoint dict_get (k : pystr) (d : dict) : option json :=
  match d with
  | [] => None
  | (k', v) :: d' => if decide (k = k') then Some v else dict_get k d'
  end.
Definition dict_has (k : pystr) (d : dict) : bool := bool_decide (is_Some (dict_get k d)).
Definition dict_get_or (dflt : json) (k : pystr) (d : dict) : json := default dflt (dict_get k d).

(** [d[k] = v]: an existing key keeps its place. *)
Fixpoint dict_set (k : pystr) (v : json) (d : dict) : dict :=
  match d with
  | [] => [(k, v)]
  | (k', v') :: d' => if decide (k = k') then (k', v) :: d' else (k', v') :: dict_set k v d'
  end.
(** [d.setdefault(k, v)] *)
Definition dict_setdefault (k : pystr) (v : json) (d : dict) : dict :=
  if dict_has k d then d else dict_set k v d.
(** [d.pop(k, None)] *)
Definition dict_pop (k : pystr) (d : dict) : dict := filter (λ kv, kv.1 ≠ k) d.

(** ** Truth value, [str] and [repr] *)

Definition truthy (j : json) : bool :=
  match j with
  | JNull => false
  | JBool b => b
  | JInt z => negb (Z.eqb z 0)
  | JFloat f => float_truthy f
  | JStr s => match s with [] => false | _ => true end
  | JList l => match l with [] => false | _ => true end
  | JDict d => match d with [] => false | _ => true end
  end.
(** [x or y] *)
Definition py_or (x y : json) : json := if truthy x then x else y.

Fixpoint py_repr (j : json) : pystr :=
  match j with
  | JNull => u "None"
  | JBool b => if b then u "True" else u "False"
  | JInt z => str_of_Z z
  | JFloat f => float_repr f
  | JStr s => repr s
  | JList l => u "[" ++ join (u ", ") (map py_repr l) ++ u "]"
  | JDict d => u "{" ++ join (u ", ") (map (λ kv, repr kv.1 ++ u ": " ++ py_repr kv.2) d) ++ u "}"
  end.
Definition py_str (j : json) : pystr := match j with JStr s => s | _ => py_repr j end.

(** [type(x).__name__] *)
Definition type_name (j : json) : pystr :=
  match j with
  | JNull => u "NoneType" | JBool _ => u "bool" | JInt _ => u "int"
  | JFloat _ => u "float" | JStr _ => u "str" | JList _ => u "list" | JDict _ => u "dict"
  end.

(** The items [for x in j] yields; [None] stands for [TypeError]. *)
Definition py_iter (j : json) : option (list json) :=
  match j with
  | JStr s => Some (map (λ c, JStr [c]) s)
  | JList l => Some l
  | JDict d => Some (map (λ kv, JStr kv.1) d)
  | _ => None
  end.

(** ** [json.dumps] *)

Record dump_opts := {
  open_sep : nat → pystr;
  item_sep : nat → pystr;
  close_sep : nat → pystr;
  key_sep : pystr;
  ensure_ascii : bool
}.

Definition esc_u (c : N) : pystr := u "\u" ++ hex 4 c.
Definition esc_char (ascii : bool) (c : N) : pystr :=
  (if c =? 34 then u "\" ++ [34] else if c =? 92 then u "\\"
  else if c =? 10 then u "\n" else if c =? 13 then u "\r" else if c =? 9 then u "\t"
  else if c =? 12 then u "\f" else if c =? 8 then u "\b"
  else if c <? 32 then esc_u c
  else if negb ascii || (c <? 127) then [c]
  else if c <? 65536 then esc_u c
  else esc_u (55296 + (c - 65536) / 1024) ++ esc_u (56320 + (c - 65536) mod 1024))%N.
Definition render_str (ascii : bool) (s : pystr) : pystr :=
  34%N :: (s ≫= esc_char ascii) ++ [34%N].

Definition render_float (f : pyfloat) : pystr :=
  match f with
  | S754_nan => u "NaN"
  | S754_infinity s => if s then u "-Infinity" else u "Infinity"
  | _ => float_repr f
  end.

Fixpoint render (o : dump_opts) (lvl : nat) (j : json) : pystr :=
  match j with
  | JNull => u "null"
  | JBool b => if b then u "true" else u "false"
  | JInt z => str_of_Z z
  | JFloat f => render_float f
  | JStr s => render_str (ensure_ascii o) s
  | JList [] => u "[]"
  | JList l => u "[" ++ open_sep o lvl ++ join (item_sep o lvl) (map (render o (S lvl)) l)
                 ++ close_sep o lvl ++ u "]"
  | JDict [] => u "{}"
  | JDict d => u "{" ++ open_sep o lvl
                 ++ join (item_sep o lvl)
                      (map (λ kv, render_str (ensure_ascii o) kv.1 ++ key_sep o ++ render o (S lvl) kv.2) d)
                 ++ close_sep o lvl ++ u "}"
  end.

(** The three ways the source calls [dumps]: with the default separators, with
    [separators=(",", ":"), ensure_ascii=False], and with [indent=2]. *)
Definition opts_default : dump_opts :=
  {| open_sep _ := []; item_sep _ := u ", "; close_sep _ := []; key_sep := u ": "; ensure_ascii := true |}.
Definition opts_compact : dump_opts :=
  {| open_sep _ := []; item_sep _ := u ","; close_sep _ := []; key_sep := u ":"; ensure_ascii := false |}.
Definition newline_indent (n : nat) : pystr := 10%N :: List.repeat 32%N (2 * n).
Definition opts_indent2 : dump_opts :=
  {| open_sep n := newline_indent (S n); item_sep n := u "," ++ newline_indent (S n);
     close_sep n := newline_indent n; key_sep := u ": "; ensure_ascii := true |}.

(** [sort_keys=True] *)
Definition item_le (x y : pystr * json) : Prop := str_le x.1 y.1.
Global Instance item_le_dec : RelDecision item_le := λ x y, decide (str_le x.1 y.1).
Fixpoint sort_keys (j : json) : json :=
  match j with
  | JList l => JList (map sort_keys l)
  | JDict d => JDict (merge_sort item_le (map (λ kv, (kv.1, sort_keys kv.2)) d))
  | _ => j
  end.

Definition dumps (o : dump_opts) (sort : bool) (j : json) : pystr :=
  render o 0 (if sort then sort_keys j else j).

(** ** [json.loads]

    The scanner works on suffixes of the text; an error carries its message and
    the length of the suffix at its position. *)

Inductive perr := PErr (msg : pystr) (rem : nat) | PFuel.
Abbreviation pres_ A := (res perr A).

Definition is_ws (c : N) : bool := ((c =? 32) || (c =? 9) || (c =? 10) || (c =? 13))%N.
Definition skip_ws (s : pystr) : pystr := drop_while is_ws s.

Definition hex_value (c : N) : option N :=
  (if (48 <=? c) && (c <=? 57) then Some (c - 48)
  else if (97 <=? c) && (c <=? 102) then Some (c - 87)
  else if (65 <=? c) && (c <=? 70) then Some (c - 55) else None)%N.
Definition hex4 (a b c d : N) : option N :=
  x ← hex_value a; y ← hex_value b; z ← hex_value c; w ← hex_value d;
  Some (x * 4096 + y * 256 + z * 16 + w)%N.

Definition is_high (c : N) : bool := ((55296 <=? c) && (c <=? 56319))%N.
Definition is_low (c : N) : bool := ((56320 <=? c) && (c <=? 57343))%N.

Definition simple_escape (c : N) : option N :=
  (if c =? 34 then Some 34 else if c =? 92 then Some 92 else if c =? 47 then Some 47
  else if c =? 98 then Some 8 else if c =? 102 then Some 12 else if c =? 110 then Some 10
  else if c =? 114 then Some 13 else if c =? 116 then Some 9 else None)%N.

Definition bad_u (s : pystr) : pres_ (pystr * pystr) := Err (PErr (u "Invalid \uXXXX escape") (length s)).

(** [s] is what follows the opening quote; [b] is the length of the suffix at
    the quote. *)
Fixpoint scan_str (b : nat) (s acc : pystr) {struct s} : pres_ (pystr * pystr) :=
  match s with
  | [] => Err (PErr (u "Unterminated string starting at") b)
  | c :: s1 =>
      if (c =? 34)%N then Ok (reverse acc, s1)
      else if (c =? 92)%N then
        match s1 with
        | [] => Err (PErr (u "Unterminated string starting at") b)
        | e :: s2 =>
            if (e =? 117)%N then
              match s2 with
              | h1 :: h2 :: h3 :: h4 :: s3 =>
                  match s3, hex4 h1 h2 h3 h4 with
                  | _ :: _, Some x =>
                      if is_high x then
                        match s3 with
                        | e1 :: e2 :: k1 :: k2 :: k3 :: k4 :: s4 =>
                            if ((e1 =? 92) && (e2 =? 117))%N && negb (bool_decide (s4 = [])) then
                              match hex4 k1 k2 k3 k4 with
                              | Some y => if is_low y
                                          then scan_str b s4 ((65536 + (x - 55296) * 1024 + (y - 56320)) :: acc)%N
                                          else scan_str b s3 (x :: acc)
                              | None => bad_u (e2 :: k1 :: k2 :: k3 :: k4 :: s4)
                              end
                            else scan_str b s3 (x :: acc)
                        | _ => scan_str b s3 (x :: acc)
                        end
                      else scan_str b s3 (x :: acc)
                  | _, _ => bad_u s1
                  end
              | _ => bad_u s1
              end
            else match simple_escape e with
                 | Some x => scan_str b s2 (x :: acc)
                 | None => Err (PErr (u "Invalid \escape") (length s))
                 end
        end
      else if (c <=? 31)%N then Err (PErr (u "Invalid control character at") (length s))
      else scan_str b s1 (c :: acc)
  end.

(** ASCII digits: their value appended to [acc], how many there are, the rest. *)
Fixpoint take_digits (acc : N) (cnt : nat) (s : pystr) : N * nat * pystr :=
  match s with
  | c :: s' => match ascii_digit c with
               | Some d => take_digits (10 * acc + d) (S cnt) s'
               | None => (acc, cnt, s)
               end
  | [] => (acc, cnt, [])
  end.

(** [next_is c s]: the rest of [s] when it starts with [c]. *)
Definition next_is (c : N) (s : pystr) : option pystr :=
  match s with
  | c' :: r => if (c' =? c)%N then Some r else None
  | [] => None
  end.

Definition scan_frac (ip : N) (s : pystr) : option (N * nat * pystr) :=
  s1 ← next_is 46 s;
  let '(m, n, s2) := take_digits ip 0 s1 in
  match n with O => None | _ => Some (m, n, s2) end.
Definition scan_sign (s : pystr) : Z * pystr :=
  match next_is 43 s, next_is 45 s with
  | Some s', _ => (1%Z, s')
  | None, Some s' => ((-1)%Z, s')
  | None, None => (1%Z, s)
  end.
Definition scan_exp (s : pystr) : option (Z * pystr) :=
  s1 ← match next_is 101 s with Some r => Some r | None => next_is 69 s end;
  let '(sg, s2) := scan_sign s1 in
  let '(x, n, s3) := take_digits 0 0 s2 in
  match n with O => None | _ => Some ((sg * Z.of_N x)%Z, s3) end.

(** A number after its sign; [None] when no digit follows. *)
Definition scan_number (neg : bool) (s : pystr) : option (json * pystr) :=
  match s with
  | c :: s1 =>
      match ascii_digit c with
      | None => None
      | Some d =>
          let '(ip, s2) := if (c =? 48)%N then (0%N, s1)
                           else let '(ip, _, s2) := take_digits d 0 s1 in (ip, s2) in
          match scan_frac ip s2 with
          | Some (m, n, s3) =>
              let '(x, s4) := default (0%Z, s3) (scan_exp s3) in
              Some (JFloat (float_of_decimal neg m (x - Z.of_nat n)), s4)
          | None =>
              match scan_exp s2 with
              | Some (x, s3) => Some (JFloat (float_of_decimal neg ip x), s3)
              | None => Some (JInt (if neg then - Z.of_N ip else Z.of_N ip)%Z, s2)
              end
          end
      end
  | [] => None
  end.

Definition expecting_value {A} (s : pystr) : pres_ A := Err (PErr (u "Expecting value") (length s)).
Definition expecting {A} (what : pystr) (s : pystr) : pres_ A := Err (PErr (u "Expecting " ++ what) (length s)).
Definition literals : list (pystr * json) :=
  [(u "null", JNull); (u "true", JBool true); (u "false", JBool false); (u "NaN", JFloat S754_nan);
   (u "Infinity", JFloat (S754_infinity false)); (u "-Infinity", JFloat (S754_infinity true))].
Fixpoint scan_literal (ls : list (pystr * json)) (s : pystr) : option (json * pystr) :=
  match ls with
  | [] => None
  | (p, j) :: ls' => match drop_prefix p s with Some r => Some (j, r) | None => scan_literal ls' s end
  end.
Definition scan_scalar (s : pystr) : pres_ (json * pystr) :=
  match scan_literal literals s with
  | Some r => Ok r
  | None =>
      let num := match next_is 45 s with
                 | Some s1 => scan_number true s1
                 | None => scan_number false s
                 end in
      match num with Some r => Ok r | None => expecting_value s end
  end.

(** [scan_array] and [scan_object] start where an element is due, after any
    white space. *)
Fixpoint scan_value (fuel : nat) (s : pystr) {struct fuel} : pres_ (json * pystr) :=
  match fuel with
  | O => Err PFuel
  | S f =>
      match next_is 34 s, next_is 91 s, next_is 123 s with
      | Some s1, _, _ => '(x, r) ← scan_str (length s) s1 []; Ok (JStr x, r)
      | _, Some s1, _ =>
          match next_is 93 (skip_ws s1) with
          | Some r => Ok (JList [], r)
          | None => '(l, r) ← scan_array f (skip_ws s1) []; Ok (JList l, r)
          end
      | _, _, Some s1 =>
          match next_is 125 (skip_ws s1) with
          | Some r => Ok (JDict [], r)
          | None => '(d, r) ← scan_object f (skip_ws s1) []; Ok (JDict d, r)
          end
      | _, _, _ => scan_scalar s
      end
  end
with scan_array (fuel : nat) (s : pystr) (acc : list json) {struct fuel} : pres_ (list json * pystr) :=
  match fuel with
  | O => Err PFuel
  | S f =>
      '(v, s1) ← scan_value f s;
      match next_is 93 (skip_ws s1), next_is 44 (skip_ws s1) with
      | Some r, _ => Ok (acc ++ [v], r)
      | _, Some r => scan_array f (skip_ws r) (acc ++ [v])
      | _, _ => expecting (u "',' delimiter") (skip_ws s1)
      end
  end
with scan_object (fuel : nat) (s : pystr) (acc : dict) {struct fuel} : pres_ (dict * pystr) :=
  match fuel with
  | O => Err PFuel
  | S f =>
      match next_is 34 s with
      | None => expecting (u "property name enclosed in double quotes") s
      | Some s1 =>
          '(k, s2) ← scan_str (length s) s1 [];
          match next_is 58 (skip_ws s2) with
          | None => expecting (u "':' delimiter") (skip_ws s2)
          | Some s3 =>
              '(v, s4) ← scan_value f (skip_ws s3);
              match next_is 125 (skip_ws s4), next_is 44 (skip_ws s4) with
              | Some r, _ => Ok (dict_set k v acc, r)
              | _, Some r => scan_object f (skip_ws r) (dict_set k v acc)
              | _, _ => expecting (u "',' delimiter") (skip_ws s4)
              end
          end
      end
  end.

Definition scan_fuel (s : pystr) : nat := 2 * length s + 2.

Definition loads_raw (s : pystr) : pres_ json :=
  if startswith [65279%N] s then Err (PErr (u "Unexpected UTF-8 BOM (decode using utf-8-sig)") (length s)) else
  '(v, r) ← scan_value (scan_fuel s) (skip_ws s);
  match skip_ws r with
  | [] => Ok v
  | r' => Err (PErr (u "Extra data") (length r'))
  end.

(** [str(JSONDecodeError)]: the position as line, column and offset. *)
Definition decode_error (s : pystr) (e : perr) : pystr :=
  match e with
  | PErr msg rem =>
      let pos := length s - rem in
      let before := take pos s in
      let lines := split 10%N before in
      let col := S (length (List.last lines [])) in
      msg ++ u ": line " ++ str_of_Z (Z.of_nat (length lines)) ++ u " column " ++ str_of_Z (Z.of_nat col)
        ++ u " (char " ++ str_of_Z (Z.of_nat pos) ++ u ")"
  | PFuel => u ""
  end.

(** [json.loads(s)]: the value, or the text of the [JSONDecodeError]. *)
Definition loads (s : pystr) : res pystr json :=
  match loads_raw s with Ok v => Ok v | Err e => Err (decode_error s e) end.
