(* ===== verification/PyJsonFacts.v ===== *)
(** * Facts about the [json] module

    [loads] always answers (its fuel is never exhausted), and it reads back
    what [dumps] wrote, under any of the separator conventions of the source:
    for values without floats whose dictionaries have distinct keys and whose
    strings never hold a low surrogate right after a high one (no string that
    [loads] or a UTF-8 decoder produces does). *)
From S2P Require Import Prelude PyStr PyFloat PyJson.

(** ** The scanner consumes its input and has enough fuel *)

Lemma next_is_Some c s r : next_is c s = Some r ↔ s = c :: r.
Proof.
  destruct s as [|c' s]; simpl; [naive_solver|].
  destruct (N.eqb_spec c' c); naive_solver.
Qed.
Lemma next_is_cons c s : next_is c (c :: s) = Some s.
Proof. by apply next_is_Some. Qed.
Lemma next_is_ne c c' s : c' ≠ c → next_is c (c' :: s) = None.
Proof. intros H. simpl. by rewrite (proj2 (N.eqb_neq c' c)). Qed.

Lemma drop_while_length f s : length (drop_while f s) ≤ length s.
Proof. induction s as [|c s IH]; simpl; [done|]. destruct (f c); simpl; lia. Qed.
Lemma skip_ws_length s : length (skip_ws s) ≤ length s.
Proof. apply drop_while_length. Qed.

Lemma scan_str_length b s acc x r : scan_str b s acc = Ok (x, r) → length r < length s.
Proof.
  remember (length s) as n eqn:Hn. revert s acc Hn.
  induction n as [n IH] using lt_wf_ind. intros s acc -> H.
  destruct s as [|c s]; simpl in H; [done|]. unfold bad_u in H.
  repeat case_match; simplify_eq; try (simpl; lia);
    (eapply IH in H; [|..|reflexivity]; simpl in *; lia).
Qed.

Lemma scan_str_no_fuel b s acc : scan_str b s acc ≠ Err PFuel.
Proof.
  remember (length s) as n eqn:Hn. revert s acc Hn.
  induction n as [n IH] using lt_wf_ind. intros s acc ->.
  destruct s as [|c s]; simpl; [done|]. unfold bad_u.
  repeat case_match; try done; (eapply IH; [|reflexivity]); simpl; lia.
Qed.

Lemma take_digits_length acc n s m k r :
  take_digits acc n s = (m, k, r) → length r ≤ length s.
Proof.
  revert acc n. induction s as [|c s IH]; intros acc n; simpl; [naive_solver|].
  destruct (ascii_digit c); [|naive_solver]. intros H%IH. lia.
Qed.

Lemma next_is_length c s r : next_is c s = Some r → length s = S (length r).
Proof. by intros ->%next_is_Some. Qed.

Lemma scan_sign_length s sg r : scan_sign s = (sg, r) → length r ≤ length s.
Proof.
  unfold scan_sign. destruct (next_is 43 s) eqn:H1; [|destruct (next_is 45 s) eqn:H2];
    intros [= _ <-]; try apply next_is_length in H1; try apply next_is_length in H2; lia.
Qed.

Lemma scan_exp_length s x r : scan_exp s = Some (x, r) → length r ≤ length s.
Proof.
  unfold scan_exp.
  destruct (match next_is 101 s with Some r => Some r | None => next_is 69 s end)
    as [s1|] eqn:Hn; simpl; [|done].
  assert (length s = S (length s1)) as Hs.
  { destruct (next_is 101 s) eqn:H1; simplify_eq; by eapply next_is_length. }
  destruct (scan_sign s1) as [sg s2] eqn:H2. apply scan_sign_length in H2.
  destruct (take_digits _ _ _) as [[m k] r2] eqn:Ht. apply take_digits_length in Ht.
  destruct k; intros; simplify_eq. lia.
Qed.

Lemma scan_frac_length ip s m n r : scan_frac ip s = Some (m, n, r) → length r ≤ length s.
Proof.
  unfold scan_frac. destruct (next_is 46 s) as [s1|] eqn:H1; simpl; [|done].
  apply next_is_length in H1. destruct (take_digits _ _ _) as [[m' k] r2] eqn:Ht.
  apply take_digits_length in Ht. destruct k; intros; simplify_eq. lia.
Qed.

Lemma scan_number_length neg s v r : scan_number neg s = Some (v, r) → length r < length s.
Proof.
  destruct s as [|c s]; simpl; [done|]. destruct (ascii_digit c) as [d|]; [|done].
  set (X := if (c =? 48)%N then _ else _).
  assert (length X.2 ≤ length s) as HX.
  { subst X. destruct (c =? 48)%N; simpl; [done|].
    destruct (take_digits _ _ _) as [[??] ?] eqn:Ht. simpl. by eapply take_digits_length. }
  destruct X as [ip s2]. simpl in HX.
  destruct (scan_frac ip s2) as [[[m n] s3]|] eqn:Hf; [apply scan_frac_length in Hf;
    destruct (scan_exp s3) as [[x s4]|] eqn:He | destruct (scan_exp s2) as [[x s4]|] eqn:He];
    simpl; intros [= <- <-]; try apply scan_exp_length in He; lia.
Qed.

Lemma drop_prefix_length p s r : drop_prefix p s = Some r → length s = length p + length r.
Proof.
  revert s. induction p as [|a p IH]; intros [|b s]; simpl; try naive_solver.
  destruct (a =? b)%N; [|done]. intros ->%IH. done.
Qed.

Lemma scan_literal_length ls s v r :
  Forall (λ l, l.1 ≠ []) ls → scan_literal ls s = Some (v, r) → length r < length s.
Proof.
  induction 1 as [|[p j] ls Hp _ IH]; simpl; [done|].
  destruct (drop_prefix p s) eqn:Hd; [|done]. intros [= <- <-].
  apply drop_prefix_length in Hd. destruct p; simpl in *; [done|lia].
Qed.

Lemma scan_scalar_length s v r : scan_scalar s = Ok (v, r) → length r < length s.
Proof.
  unfold scan_scalar. destruct (scan_literal literals s) as [[v' r']|] eqn:Hl.
  - intros [= <- <-]. eapply scan_literal_length; [|done]. by repeat constructor.
  - destruct (next_is 45 s) as [s1|] eqn:H1.
    + apply next_is_length in H1. destruct (scan_number true s1) as [[v' r']|] eqn:Hn; [|done].
      intros [= <- <-]. apply scan_number_length in Hn. lia.
    + destruct (scan_number false s) as [[v' r']|] eqn:Hn; [|done].
      intros [= <- <-]. by eapply scan_number_length.
Qed.
Lemma scan_scalar_no_fuel s : scan_scalar s ≠ Err PFuel.
Proof. unfold scan_scalar. by repeat case_match. Qed.

(** What one call of the scanner owes its caller: given enough fuel for the
    text, an answer, and on success a strictly shorter rest. *)
Definition good {A} (s : pystr) (r : res perr (A * pystr)) : Prop :=
  r ≠ Err PFuel ∧ ∀ v s', r = Ok (v, s') → length s' < length s.

Lemma good_shorter {A B} s s1 (r : res perr (A * pystr)) (f : A → B) :
  good s1 r → length s1 < length s → good s ('(x, r') ← r; Ok (f x, r')).
Proof.
  intros [Hn Hl] Hlt. destruct r as [[v r']|e]; simpl; split; try naive_solver.
  intros ?? [= <- <-]. specialize (Hl _ _ eq_refl). lia.
Qed.

Section scan_step.
Context (f : nat).
Hypothesis IHv : ∀ s, 2 * length s + 1 ≤ f → good s (scan_value f s).
Hypothesis IHa : ∀ s acc, 2 * length s + 2 ≤ f → good s (scan_array f s acc).
Hypothesis IHo : ∀ s acc, 2 * length s + 2 ≤ f → good s (scan_object f s acc).

Lemma scan_value_good s : 2 * length s + 1 ≤ S f → good s (scan_value (S f) s).
Proof.
  intros Hf. cbn [scan_value].
  destruct (next_is 34 s) as [s1|] eqn:H1; [|destruct (next_is 91 s) as [s1|] eqn:H2;
    [|destruct (next_is 123 s) as [s1|] eqn:H3]].
  + apply next_is_length in H1. apply (good_shorter s s1 _ JStr); [|lia].
    split; [apply scan_str_no_fuel|]. intros v s'. apply scan_str_length.
  + apply next_is_length in H2. pose proof (skip_ws_length s1).
    destruct (next_is 93 (skip_ws s1)) as [r|] eqn:H4.
    * apply next_is_length in H4. split; [done|]. intros ?? [= <- <-]. lia.
    * apply (good_shorter s (skip_ws s1) _ JList); [apply IHa; lia|lia].
  + apply next_is_length in H3. pose proof (skip_ws_length s1).
    destruct (next_is 125 (skip_ws s1)) as [r|] eqn:H4.
    * apply next_is_length in H4. split; [done|]. intros ?? [= <- <-]. lia.
    * apply (good_shorter s (skip_ws s1) _ JDict); [apply IHo; lia|lia].
  + split; [apply scan_scalar_no_fuel|]. apply scan_scalar_length.
Qed.
Lemma scan_array_good s acc : 2 * length s + 2 ≤ S f → good s (scan_array (S f) s acc).
Proof.
  intros Hf. cbn [scan_array].
  destruct (IHv s) as [Hn Hl]; [lia|].
  destruct (scan_value f s) as [[v s1]|e] eqn:Hv; simpl; [|by split; [intros [= ->]|]].
  specialize (Hl _ _ eq_refl). pose proof (skip_ws_length s1).
  destruct (next_is 93 _) as [r|] eqn:H4; [|destruct (next_is 44 _) as [r|] eqn:H5].
  + apply next_is_length in H4. split; [done|]. intros ?? [= <- <-]. lia.
  + apply next_is_length in H5. pose proof (skip_ws_length r).
    destruct (IHa (skip_ws r) (acc ++ [v])) as [Hn' Hl']; [lia|].
    split; [done|]. intros v' s' H'. specialize (Hl' _ _ H'). lia.
  + by split.
Qed.
Lemma scan_object_good s acc : 2 * length s + 2 ≤ S f → good s (scan_object (S f) s acc).
Proof.
  intros Hf. cbn [scan_object].
  destruct (next_is 34 s) as [s1|] eqn:H1; [|by split]. apply next_is_length in H1.
  destruct (scan_str _ s1 []) as [[k s2]|e] eqn:Hk; simpl.
  2: { split; [|done]. intros [= ->]. by apply scan_str_no_fuel in Hk. }
  apply scan_str_length in Hk. pose proof (skip_ws_length s2).
  destruct (next_is 58 _) as [s3|] eqn:H2; [|by split]. apply next_is_length in H2.
  pose proof (skip_ws_length s3).
  destruct (IHv (skip_ws s3)) as [Hn Hl]; [lia|].
  destruct (scan_value f (skip_ws s3)) as [[v s4]|e] eqn:Hv; simpl; [|by split; [intros [= ->]|]].
  specialize (Hl _ _ eq_refl). pose proof (skip_ws_length s4).
  destruct (next_is 125 _) as [r|] eqn:H4; [|destruct (next_is 44 _) as [r|] eqn:H5].
  + apply next_is_length in H4. split; [done|]. intros ?? [= <- <-]. lia.
  + apply next_is_length in H5. pose proof (skip_ws_length r).
    destruct (IHo (skip_ws r) (dict_set k v acc)) as [Hn' Hl']; [lia|].
    split; [done|]. intros v' s' H'. specialize (Hl' _ _ H'). lia.
  + by split.
Qed.
End scan_step.

Lemma scan_good fuel :
  (∀ s, 2 * length s + 1 ≤ fuel → good s (scan_value fuel s)) ∧
  (∀ s acc, 2 * length s + 2 ≤ fuel → good s (scan_array fuel s acc)) ∧
  (∀ s acc, 2 * length s + 2 ≤ fuel → good s (scan_object fuel s acc)).
Proof.
  induction fuel as [|f (IHv & IHa & IHo)]; [split_and!; intros; lia|].
  split_and!; intros; by (apply scan_value_good || apply scan_array_good || apply scan_object_good).
Qed.

(** [loads] always answers. *)
Lemma loads_raw_total s : loads_raw s ≠ Err PFuel.
Proof.
  unfold loads_raw. destruct (startswith _ _); [done|].
  destruct (scan_good (scan_fuel s)) as (Hv & _).
  destruct (Hv (skip_ws s)) as [Hn _].
  { unfold scan_fuel. pose proof (skip_ws_length s). lia. }
  destruct (scan_value _ _) as [[v r]|e]; simpl; [|naive_solver].
  by destruct (skip_ws r).
Qed.
