(* ===== verification/PyJsonRoundtrip.v ===== *)
(** * Round trip of the [json] module

    [loads (dumps o sort j)] is [j] (with its keys sorted when [sort]), under
    any separators that are white space around the JSON punctuation, which the
    three conventions of the source are ([opts_default_ok] and its siblings). *)
From S2P Require Import Prelude PyStr PyFloat PyJson PyJsonFacts.

(** No low surrogate right after a high one: [json.loads] would join an escaped
    pair into one character. *)
Fixpoint no_pair (s : pystr) : bool :=
  match s with
  | c :: ((c' :: _) as s') => negb (is_high c && is_low c') && no_pair s'
  | _ => true
  end.
Definition str_ok (s : pystr) : bool := forallb (λ c, c <? 1114112)%N s && no_pair s.

Fixpoint wf_json (j : json) : bool :=
  match j with
  | JFloat _ => false
  | JStr s => str_ok s
  | JList l => forallb wf_json l
  | JDict d => bool_decide (NoDup (map fst d)) && forallb (λ kv, str_ok kv.1 && wf_json kv.2) d
  | _ => true
  end.

Definition all_ws (s : pystr) : Prop := Forall (λ c, is_ws c = true) s.
Record opts_ok (o : dump_opts) : Prop := {
  open_ok n : all_ws (open_sep o n);
  item_ok n : ∃ w, item_sep o n = 44%N :: w ∧ all_ws w;
  close_ok n : all_ws (close_sep o n);
  key_ok : ∃ w, key_sep o = 58%N :: w ∧ all_ws w
}.

(** What may follow a value: the end, white space, a comma or a bracket. *)
Definition stop (s : pystr) : Prop :=
  match s with
  | [] => True
  | c :: _ => is_ws c = true ∨ c = 44%N ∨ c = 93%N ∨ c = 125%N
  end.

Lemma opts_default_ok : opts_ok opts_default.
Proof. split; intros; simpl; [constructor|..]; try eexists; repeat constructor. Qed.
Lemma opts_compact_ok : opts_ok opts_compact.
Proof. split; intros; simpl; [constructor|..]; try eexists; repeat constructor. Qed.
Lemma newline_indent_ws n : all_ws (newline_indent n).
Proof.
  unfold newline_indent. constructor; [done|].
  induction (2 * n); simpl; constructor; done.
Qed.
Lemma opts_indent2_ok : opts_ok opts_indent2.
Proof.
  split; intros; simpl; eauto using newline_indent_ws.
  eexists. split; [done|repeat constructor].
Qed.

(** ** White space *)

Lemma skip_ws_app w s : all_ws w → skip_ws (w ++ s) = skip_ws s.
Proof. unfold skip_ws. induction 1 as [|c w Hc _ IH]; [done|]. cbn [app drop_while]. by rewrite Hc. Qed.
Lemma skip_ws_cons c s : is_ws c = false → skip_ws (c :: s) = c :: s.
Proof. intros H. unfold skip_ws. cbn [drop_while]. by rewrite H. Qed.

(** ** Strings *)

Lemma hex_value_digit (d : N) : (d < 16)%N → hex_value (hex_digit d) = Some d.
Proof.
  intros Hd. unfold hex_digit, hex_value. destruct (N.ltb_spec d 10).
  - rewrite (proj2 (N.leb_le 48 _)), (proj2 (N.leb_le _ 57)) by lia. simpl. f_equal. lia.
  - rewrite (proj2 (N.leb_gt (87 + d) 57)), andb_false_r by lia.
    rewrite (proj2 (N.leb_le 97 _)), (proj2 (N.leb_le _ 102)) by lia. simpl. f_equal. lia.
Qed.

Lemma hex4_hex c : (c < 65536)%N →
  ∃ a b d e, hex 4 c = [a; b; d; e] ∧ hex4 a b d e = Some c.
Proof.
  intros Hc. cbn [hex app]. do 4 eexists. split; [done|].
  assert (∀ n, n mod 16 < 16)%N as Hm by (intros; apply N.mod_lt; lia).
  unfold hex4. rewrite !hex_value_digit by done. simpl. f_equal.
  rewrite !N.Div0.div_div.
  pose proof (N.div_mod c 16). pose proof (N.div_mod (c / 16) 16).
  pose proof (N.div_mod (c / (16 * 16)) 16).
  assert (c / (16 * 16 * 16) < 16)%N by (apply N.Div0.div_lt_upper_bound; lia).
  rewrite (N.mod_small (c / (16 * 16 * 16))) by done.
  rewrite !N.Div0.div_div in *. lia.
Qed.

(** The text after an escaped high surrogate does not complete a pair. *)
Definition no_low (t : pystr) : Prop :=
  ∀ k1 k2 k3 k4 s, t = 92%N :: 117%N :: k1 :: k2 :: k3 :: k4 :: s →
    ∃ y, hex4 k1 k2 k3 k4 = Some y ∧ is_low y = false.

Lemma scan_str_esc_u b c t acc :
  (c < 65536)%N → t ≠ [] → (is_high c = true → no_low t) →
  scan_str b (esc_u c ++ t) acc = scan_str b t (c :: acc).
Proof.
  intros Hc Ht Hhigh. destruct (hex4_hex c Hc) as (a & x & d & e & Hhex & Hval).
  unfold esc_u. rewrite Hhex. cbn [u app]. simpl. rewrite Hval.
  destruct t as [|t0 t]; [done|].
  destruct (is_high c) eqn:Hh; [|done]. specialize (Hhigh eq_refl).
  destruct t as [|t1 [|k1 [|k2 [|k3 [|k4 s4]]]]]; try done.
  destruct (N.eqb_spec t0 92) as [->|]; [|done].
  destruct (N.eqb_spec t1 117) as [->|]; [|done].
  destruct (Hhigh k1 k2 k3 k4 s4 eq_refl) as (y & -> & ->).
  by destruct (_ && _).
Qed.

Lemma scan_str_pair b x y t acc :
  (x < 65536)%N → (y < 65536)%N → is_high x = true → is_low y = true → t ≠ [] →
  scan_str b (esc_u x ++ esc_u y ++ t) acc
  = scan_str b t ((65536 + (x - 55296) * 1024 + (y - 56320)) :: acc)%N.
Proof.
  intros Hx Hy Hhx Hly Ht.
  destruct (hex4_hex x Hx) as (a1 & a2 & a3 & a4 & Hhex & Hval).
  destruct (hex4_hex y Hy) as (b1 & b2 & b3 & b4 & Hhex' & Hval').
  unfold esc_u. rewrite Hhex, Hhex'. cbn [u app]. simpl.
  rewrite Hval, Hhx, Hval', Hly. by destruct t.
Qed.

(** One character of the string, whatever its escape. *)
Lemma scan_str_esc_char b ascii c t acc :
  (c < 1114112)%N → t ≠ [] → (is_high c = true → no_low t) →
  scan_str b (esc_char ascii c ++ t) acc = scan_str b t (c :: acc).
Proof.
  intros Hc Ht Hhigh. unfold esc_char.
  destruct (N.eqb_spec c 34) as [->|]; [done|].
  destruct (N.eqb_spec c 92) as [->|]; [done|].
  destruct (N.eqb_spec c 10) as [->|]; [done|]. destruct (N.eqb_spec c 13) as [->|]; [done|].
  destruct (N.eqb_spec c 9) as [->|]; [done|]. destruct (N.eqb_spec c 12) as [->|]; [done|].
  destruct (N.eqb_spec c 8) as [->|]; [done|].
  destruct (N.ltb_spec c 32).
  { apply scan_str_esc_u; [lia|done..]. }
  destruct (negb ascii || (c <? 127)%N).
  { simpl. rewrite (proj2 (N.eqb_neq c 34)), (proj2 (N.eqb_neq c 92)) by done.
    by rewrite (proj2 (N.leb_gt c 31)) by lia. }
  destruct (N.ltb_spec c 65536); [by apply scan_str_esc_u|].
  assert ((c - 65536) / 1024 < 1024)%N by (apply N.Div0.div_lt_upper_bound; lia).
  assert ((c - 65536) mod 1024 < 1024)%N by (apply N.mod_lt; lia).
  pose proof (N.div_mod (c - 65536) 1024).
  rewrite <-app_assoc, scan_str_pair; try done; try lia; [|unfold is_high; lia|unfold is_low; lia].
  do 2 f_equal. lia.
Qed.

Lemma esc_char_no_low ascii c t :
  (c < 1114112)%N → is_low c = false → no_low (esc_char ascii c ++ t).
Proof.
  intros Hc Hlow k1 k2 k3 k4 s.
  assert (∀ x t', (x < 65536)%N → is_low x = false →
    esc_u x ++ t' = 92%N :: 117%N :: k1 :: k2 :: k3 :: k4 :: s →
    ∃ y, hex4 k1 k2 k3 k4 = Some y ∧ is_low y = false) as Hu.
  { intros x t' Hx Hl. destruct (hex4_hex x Hx) as (a1 & a2 & a3 & a4 & Hhex & Hval).
    unfold esc_u. rewrite Hhex. cbn. intros [= -> -> -> -> ->]. eauto. }
  unfold esc_char.
  destruct (N.eqb_spec c 34); [done|]. destruct (N.eqb_spec c 92); [done|].
  destruct (N.eqb_spec c 10); [done|]. destruct (N.eqb_spec c 13); [done|].
  destruct (N.eqb_spec c 9); [done|]. destruct (N.eqb_spec c 12); [done|].
  destruct (N.eqb_spec c 8); [done|].
  destruct (N.ltb_spec c 32); [apply Hu; [lia|done]|].
  destruct (negb ascii || (c <? 127)%N); [simpl; intros [= ? _]; done|].
  destruct (N.ltb_spec c 65536); [by apply Hu|].
  assert ((c - 65536) / 1024 < 1024)%N by (apply N.Div0.div_lt_upper_bound; lia).
  rewrite <-app_assoc. apply Hu; [lia|]. unfold is_low. lia.
Qed.

Lemma scan_str_render b ascii s rest acc :
  str_ok s = true →
  scan_str b ((s ≫= esc_char ascii) ++ 34%N :: rest) acc = Ok (reverse acc ++ s, rest).
Proof.
  revert acc. induction s as [|c s IH]; intros acc Hs.
  { cbn. by rewrite app_nil_r. }
  unfold str_ok in Hs. simpl in Hs. apply andb_true_iff in Hs as [[Hc Hr]%andb_true_iff Hp].
  cbn [mbind list_bind]. rewrite <-app_assoc.
  rewrite scan_str_esc_char; [|lia|by destruct (s ≫= _)|].
  - rewrite IH.
    + rewrite reverse_cons, <-app_assoc. done.
    + unfold str_ok. rewrite Hr. destruct s; [done|]. by apply andb_true_iff in Hp as [_ ->].
  - intros Hhigh. destruct s as [|c' s]; simpl in *; [by intros k1 k2 k3 k4 s' [=]|].
    rewrite Hhigh in Hp. apply andb_true_iff in Hp as [Hp _]. simpl in Hp.
    rewrite <-app_assoc. apply esc_char_no_low; [lia|by destruct (is_low c')].
Qed.

(** ** Integers *)

Lemma stop_not_digit c t : stop (c :: t) → ascii_digit c = None.
Proof.
  intros [H|[->|[->| ->]]]; try done. unfold is_ws in H. unfold ascii_digit.
  destruct (N.leb_spec 48 c); [|done]. lia.
Qed.

Lemma take_digits_stop a k s v rest :
  Forall is_ascii_digit s → int_digits true a s = Some v → stop rest →
  take_digits a k (s ++ rest) = (v, k + length s, rest).
Proof.
  intros Hs. revert a k. induction Hs as [|c s Hc _ IH]; intros a k Hv Hstop.
  - simpl in Hv. simplify_eq/=. rewrite Nat.add_0_r.
    destruct rest as [|c t]; [done|]. cbn [take_digits]. by rewrite (stop_not_digit c t).
  - red in Hc. cbn [int_digits] in Hv. rewrite (proj2 (N.eqb_neq c 95)) in Hv by lia.
    destruct (ascii_digit c) as [d|] eqn:Hd; [|done].
    cbn [app take_digits]. rewrite Hd, (IH _ (S k)) by done. f_equal. f_equal. simpl. lia.
Qed.

Lemma str_of_N_head n c s : str_of_N n = c :: s → c = 48%N → n = 0%N ∧ s = [].
Proof.
  assert (∀ f n acc, (n < 10 ^ N.of_nat f)%N → f ≠ 0 → (0 < n)%N →
    ∃ c t, digits_go f n acc = c :: t ∧ c ≠ 48%N) as Hgo.
  { intros f. induction f as [|f IH]; intros m acc Hm Hf Hpos; [done|]. cbn [digits_go].
    destruct (N.ltb_spec m 10).
    - rewrite N.mod_small by done. do 2 eexists. split; [done|lia].
    - apply IH.
      + apply N.Div0.div_lt_upper_bound. rewrite <-N.pow_succ_r'. by rewrite <-Nat2N.inj_succ.
      + intros ->. change (10 ^ N.of_nat 1)%N with 10%N in Hm. lia.
      + apply N.div_str_pos. lia. }
  intros Hs ->. destruct (N.eq_dec n 0) as [->|Hn]; [by injection Hs as <-|].
  destruct (Hgo _ n [] (digits_fuel_enough n)) as (c & t & Hc & Hne); [done|lia|].
  unfold str_of_N in Hs. congruence.
Qed.

Lemma scan_number_str_of_N neg n rest :
  stop rest →
  scan_number neg (str_of_N n ++ rest) = Some (JInt (if neg then - Z.of_N n else Z.of_N n), rest).
Proof.
  intros Hstop.
  assert (∀ ip, scan_frac ip rest = None) as Hfrac.
  { intros ip. unfold scan_frac. destruct rest as [|c t]; [done|]. rewrite next_is_ne; [done|].
    destruct Hstop as [H|[->|[->| ->]]]; [|done..]. intros ->. done. }
  assert (scan_exp rest = None) as Hexp.
  { unfold scan_exp. destruct rest as [|c t]; [done|].
    rewrite !next_is_ne; [done|..]; intros ->; by destruct Hstop as [H|[[=]|[[=]|[=]]]]. }
  pose proof (str_of_N_digits n) as Hd. pose proof (int_digits_str_of_N n) as Hv.
  destruct (str_of_N n) as [|c s] eqn:Hs; [by apply str_of_N_nonempty in Hs|].
  inversion Hd as [|?? Hc Hd']; subst. red in Hc.
  cbn [int_digits] in Hv. rewrite (proj2 (N.eqb_neq c 95)) in Hv by lia.
  cbn [app scan_number]. destruct (ascii_digit c) as [d|] eqn:Hdig; [|done].
  destruct (N.eqb_spec c 48) as [->|Hne].
  - destruct (str_of_N_head _ _ _ Hs eq_refl) as [-> ->]. cbn [app].
    by rewrite Hfrac, Hexp.
  - rewrite (take_digits_stop _ 0 s n rest) by (rewrite ?N.mul_0_r in Hv; done).
    by rewrite Hfrac, Hexp.
Qed.

Lemma drop_prefix_head_ne a p b s : head p = Some a → a ≠ b → drop_prefix p (b :: s) = None.
Proof. destruct p; intros [= ->] H. simpl. by rewrite (proj2 (N.eqb_neq a b)). Qed.

Lemma scan_literal_number c t :
  (c = 45%N ∧ ∃ c' t', t = c' :: t' ∧ is_ascii_digit c') ∨ is_ascii_digit c →
  scan_literal literals (c :: t) = None.
Proof.
  intros [[-> (c' & t' & -> & Hc)]|Hc]; red in Hc; cbn [literals scan_literal].
  - do 5 (erewrite drop_prefix_head_ne; [|reflexivity|done]).
    change (u "-Infinity") with (45%N :: u "Infinity"). cbn [drop_prefix].
    rewrite N.eqb_refl. erewrite drop_prefix_head_ne; [done|reflexivity|simpl; lia].
  - do 6 (erewrite drop_prefix_head_ne; [|reflexivity|simpl; lia]). done.
Qed.

Lemma scan_scalar_int z rest :
  stop rest → scan_scalar (str_of_Z z ++ rest) = Ok (JInt z, rest).
Proof.
  intros Hstop. unfold scan_scalar, str_of_Z.
  destruct (Z.ltb_spec z 0) as [Hz|Hz].
  - pose proof (scan_number_str_of_N true (Z.to_N (- z)) rest Hstop) as Hn.
    pose proof (str_of_N_digits (Z.to_N (- z))) as Hd.
    destruct (str_of_N (Z.to_N (- z))) as [|c s] eqn:Hs; [by apply str_of_N_nonempty in Hs|].
    inversion Hd; subst. cbn [app].
    rewrite scan_literal_number by (left; split; [done|]; simpl; eauto).
    rewrite next_is_cons. cbn [app] in Hn. rewrite Hn. do 3 f_equal. lia.
  - pose proof (scan_number_str_of_N false (Z.to_N z) rest Hstop) as Hn.
    pose proof (str_of_N_digits (Z.to_N z)) as Hd.
    destruct (str_of_N (Z.to_N z)) as [|c s] eqn:Hs; [by apply str_of_N_nonempty in Hs|].
    inversion Hd as [|?? Hc _]; subst. cbn [app].
    rewrite scan_literal_number by (by right).
    rewrite next_is_ne by (red in Hc; lia). cbn [app] in Hn. rewrite Hn. do 3 f_equal. lia.
Qed.

(** ** Values *)

(** The first character of a rendered value: it starts no white space and
    closes no bracket. *)
Definition starts_value (s : pystr) : Prop :=
  ∃ c t, s = c :: t ∧ is_ws c = false ∧ c ≠ 93%N ∧ c ≠ 125%N.

Lemma str_of_Z_head z : ∃ c t, str_of_Z z = c :: t ∧ (c = 45%N ∨ is_ascii_digit c).
Proof.
  unfold str_of_Z. destruct (z <? 0)%Z; [eauto|].
  pose proof (str_of_N_digits (Z.to_N z)) as Hd.
  destruct (str_of_N (Z.to_N z)) as [|c s] eqn:Hs; [by apply str_of_N_nonempty in Hs|].
  inversion Hd; subst. eauto.
Qed.

Lemma render_starts o lvl j rest : wf_json j = true → starts_value (render o lvl j ++ rest).
Proof.
  unfold starts_value. destruct j as [|b|z|f|s|[|x l]|[|kv d]]; intros Hj; try done;
    try (do 2 eexists; split; [reflexivity|done]).
  - destruct b; do 2 eexists; (split; [reflexivity|done]).
  - destruct (str_of_Z_head z) as (c & t & Hz & Hc). cbn [render]. rewrite Hz.
    do 2 eexists. split; [reflexivity|]. unfold is_ws, is_ascii_digit in *. lia.
Qed.

Lemma stop_ws w c t : all_ws w → c = 44%N ∨ c = 93%N ∨ c = 125%N → stop (w ++ c :: t).
Proof. intros Hw Hc. destruct Hw as [|c' w Hc' _]; simpl; auto. Qed.

Lemma next_is_ws w c t : all_ws w → is_ws c = false → skip_ws (w ++ c :: t) = c :: t.
Proof. intros. by rewrite skip_ws_app, skip_ws_cons. Qed.

Lemma join_one sep w : join sep [w] = w.
Proof. done. Qed.
Lemma join_cons sep w v ws : join sep (w :: v :: ws) = w ++ sep ++ join sep (v :: ws).
Proof. done. Qed.

Section values.
Context (o : dump_opts) (Ho : opts_ok o).

Definition reads_back (j : json) : Prop := ∀ lvl fuel rest,
  stop rest → 2 * length (render o lvl j ++ rest) + 1 ≤ fuel →
  scan_value fuel (render o lvl j ++ rest) = Ok (j, rest).

Lemma scan_array_render lvl l acc fuel rest :
  l ≠ [] → Forall reads_back l → forallb wf_json l = true →
  let s := join (item_sep o lvl) (map (render o (S lvl)) l)
             ++ close_sep o lvl ++ 93%N :: rest in
  2 * length s + 2 ≤ fuel → scan_array fuel s acc = Ok (acc ++ l, rest).
Proof.
  intros Hne Hl. revert acc fuel Hne. induction Hl as [|x l Hx Hl IH]; [done|].
  intros acc fuel _ [Hwx Hwl]%andb_true_iff s Hf. subst s.
  destruct fuel as [|f]; [lia|]. cbn [scan_array].
  destruct l as [|y l]; cbn [map] in Hf |- *.
  - rewrite join_one in Hf |- *.
    rewrite Hx; [cbn [mbind res_bind]|by apply stop_ws; [apply close_ok|auto]|lia].
    rewrite next_is_ws by (done || by apply close_ok). by rewrite next_is_cons.
  - destruct (item_ok o Ho lvl) as (w & Hw & Hws).
    rewrite join_cons, Hw in Hf |- *. rewrite Hw in IH.
    rewrite <-!app_assoc in Hf |- *. cbn [app] in Hf |- *.
    rewrite Hx; [cbn [mbind res_bind]|simpl; auto|lia].
    rewrite skip_ws_cons by done. rewrite next_is_ne, next_is_cons by done.
    rewrite skip_ws_app by done. cbn [map] in IH.
    assert (Hst : starts_value (join (44%N :: w) (map (render o (S lvl)) (y :: l))
                                 ++ close_sep o lvl ++ 93%N :: rest)).
    { cbn [map]. apply andb_true_iff in Hwl as [Hwy _].
      destruct l; cbn [join map]; rewrite <-?app_assoc; by apply render_starts. }
    destruct Hst as (c & t & Hc & Hcw & _). cbn [map] in Hc.
    rewrite Hc, skip_ws_cons, <-Hc by done.
    rewrite IH; [by rewrite <-app_assoc|done|done|].
    cbn [map] in Hf |- *. match goal with |- 2 * length ?T + 2 ≤ _ => set (tail := T) in * end.
    rewrite length_app in Hf. cbn [length] in Hf. rewrite length_app in Hf. lia.
Qed.

Lemma dict_set_fresh k v d : k ∉ map fst d → dict_set k v d = d ++ [(k, v)].
Proof.
  induction d as [|[k' v'] d IH]; simpl; [done|]. intros Hk.
  apply not_elem_of_cons in Hk as [??]. by rewrite decide_False, IH.
Qed.

(** One item of an object, whatever follows it. *)
Lemma scan_item_render lvl k v kw f tail :
  key_sep o = 58%N :: kw → Forall (λ c, is_ws c = true) kw → str_ok k = true → wf_json v = true →
  reads_back v → stop tail → 2 * length (render o (S lvl) v ++ tail) + 1 ≤ f →
  ∃ s1 s2, render_str (ensure_ascii o) k ++ key_sep o ++ render o (S lvl) v ++ tail = 34%N :: s1
    ∧ scan_str (length (34%N :: s1)) s1 [] = Ok (k, s2)
    ∧ skip_ws s2 = 58%N :: kw ++ render o (S lvl) v ++ tail
    ∧ scan_value f (skip_ws (kw ++ render o (S lvl) v ++ tail)) = Ok (v, tail).
Proof.
  intros Hkw Hkws Hk Hwv Hx Htail Hft. unfold render_str. rewrite Hkw. cbn [app]. do 2 eexists.
  split; [by rewrite <-!app_assoc|].
  split; [by cbn [app]; rewrite scan_str_render|].
  split; [by rewrite skip_ws_cons|].
  rewrite skip_ws_app by done.
  destruct (render_starts o (S lvl) v tail Hwv) as (c & t & Hc & Hcw & _).
  rewrite Hc, skip_ws_cons, <-Hc by done. by apply Hx.
Qed.

Lemma scan_object_render lvl d acc fuel rest :
  d ≠ [] → Forall (λ kv, reads_back kv.2) d →
  forallb (λ kv, str_ok kv.1 && wf_json kv.2) d = true →
  NoDup (map fst (acc ++ d)) →
  let s := join (item_sep o lvl)
             (map (λ kv, render_str (ensure_ascii o) kv.1 ++ key_sep o ++ render o (S lvl) kv.2) d)
             ++ close_sep o lvl ++ 125%N :: rest in
  2 * length s + 2 ≤ fuel → scan_object fuel s acc = Ok (acc ++ d, rest).
Proof.
  intros Hne Hl. revert acc fuel Hne. induction Hl as [|[k v] d Hx Hl IH]; [done|].
  intros acc fuel _ Hwf Hnd s Hf. subst s.
  apply andb_true_iff in Hwf as [Hkv Hwl]. apply andb_true_iff in Hkv as [Hk Hwv].
  destruct (key_ok o Ho) as (kw & Hkw & Hkws). destruct (item_ok o Ho lvl) as (w & Hw & Hws).
  assert (Hfresh : k ∉ map fst acc).
  { rewrite map_app in Hnd. apply NoDup_app in Hnd as (_ & Hd & _). intros Hin.
    eapply Hd; [done|]. simpl. left. }
  simpl in Hx, Hk, Hwv.
  destruct fuel as [|f]; [lia|]. cbn [scan_object].
  pose proof (λ tail Ht Hft, scan_item_render lvl k v kw f tail Hkw Hkws Hk Hwv Hx Ht Hft) as Hitem.
  destruct d as [|kv2 d]; cbn [map] in Hf |- *.
  - cbn [fst snd] in *. rewrite join_one in Hf |- *. rewrite <-!app_assoc in Hf |- *.
    destruct (Hitem (close_sep o lvl ++ 125%N :: rest)) as (s1 & s2 & Hs & Hscan & Hsk & Hv).
    { apply stop_ws; [by apply close_ok|auto]. }
    { rewrite !length_app in *. simpl in *. lia. }
    rewrite Hs, next_is_cons, Hscan. cbn [mbind res_bind].
    rewrite Hsk, next_is_cons, Hv. cbn [mbind res_bind].
    rewrite next_is_ws by (done || by apply close_ok).
    by rewrite next_is_cons, dict_set_fresh.
  - cbn [fst snd] in *. rewrite join_cons, Hw in Hf |- *. rewrite <-!app_assoc in Hf |- *. cbn [app] in Hf |- *.
    match goal with |- context [44%N :: w ++ ?T] => set (tail := T) in * end.
    destruct (Hitem (44%N :: w ++ tail)) as (s1 & s2 & Hs & Hscan & Hsk & Hv).
    { simpl. auto. }
    { unfold render_str in Hf. cbn [app length] in Hf. rewrite !length_app in *. lia. }
    rewrite Hs, next_is_cons, Hscan. cbn [mbind res_bind].
    rewrite Hsk, next_is_cons, Hv. cbn [mbind res_bind].
    rewrite skip_ws_cons by done. rewrite next_is_ne, next_is_cons by done.
    rewrite skip_ws_app, dict_set_fresh by done.
    assert (Hst : skip_ws tail = tail).
    { subst tail. cbn [map]. destruct d; cbn [join map]; unfold render_str;
        rewrite <-?app_assoc; cbn [app]; by rewrite skip_ws_cons. }
    rewrite Hst. subst tail. rewrite Hw in IH. cbn [map] in IH.
    rewrite IH; [by rewrite <-app_assoc|done|done| |].
    + by rewrite <-app_assoc.
    + match goal with |- 2 * length ?T + 2 ≤ _ => set (tail := T) in * end.
      rewrite !length_app in Hf. cbn [length] in Hf. rewrite length_app in Hf. lia.
Qed.

Lemma list_reads_back l : Forall reads_back l → forallb wf_json l = true → reads_back (JList l).
Proof.
  intros Hl Hwf lvl fuel rest Hstop Hf. destruct fuel as [|fuel]; [lia|].
  destruct l as [|x l]; [done|].
  change (render o lvl (JList (x :: l))) with
    (91%N :: open_sep o lvl ++ join (item_sep o lvl) (map (render o (S lvl)) (x :: l))
       ++ close_sep o lvl ++ [93%N]) in Hf |- *.
  cbn [app] in Hf |- *. rewrite <-!app_assoc in Hf |- *. cbn [app] in Hf |- *.
  cbn [scan_value]. rewrite next_is_ne, next_is_cons by done.
  rewrite skip_ws_app by (by apply open_ok).
  set (body := join _ _ ++ _) in *.
  assert (starts_value body) as (c & t & Hc & Hcw & Hc93 & _).
  { subst body. simpl in Hwf. apply andb_true_iff in Hwf as [Hwx _].
    destruct l; cbn [join map]; rewrite <-?app_assoc; by apply render_starts. }
  rewrite Hc, skip_ws_cons, next_is_ne by done. rewrite <-Hc. subst body.
  rewrite scan_array_render; [done..|].
  cbn [length] in Hf. rewrite !length_app in *. lia.
Qed.
Lemma dict_reads_back d :
  Forall (λ kv, reads_back kv.2) d → NoDup (map fst d) →
  forallb (λ kv, str_ok kv.1 && wf_json kv.2) d = true → reads_back (JDict d).
Proof.
  intros Hl Hnd Hwf lvl fuel rest Hstop Hf. destruct fuel as [|fuel]; [lia|].
  destruct d as [|kv d]; [done|].
  change (render o lvl (JDict (kv :: d))) with
    (123%N :: open_sep o lvl ++ join (item_sep o lvl)
        (map (λ kv, render_str (ensure_ascii o) kv.1 ++ key_sep o ++ render o (S lvl) kv.2) (kv :: d))
       ++ close_sep o lvl ++ [125%N]) in Hf |- *.
  cbn [app] in Hf |- *. rewrite <-!app_assoc in Hf |- *. cbn [app] in Hf |- *.
  cbn [scan_value]. rewrite !next_is_ne, next_is_cons by done.
  rewrite skip_ws_app by (by apply open_ok).
  set (body := join _ _ ++ _) in *.
  assert (∃ t, body = 34%N :: t) as [t Hc].
  { subst body. destruct d; cbn [join map]; unfold render_str; rewrite <-?app_assoc; cbn [app]; eauto. }
  rewrite Hc, skip_ws_cons, next_is_ne by done. rewrite <-Hc. subst body.
  rewrite scan_object_render; [done..|].
  cbn [length] in Hf. rewrite !length_app in *. lia.
Qed.

Lemma scan_value_render j : wf_json j = true → reads_back j.
Proof.
  induction j as [|b|z|f|s|l IH|d IH] using json_ind; intros Hwf lvl fuel rest Hstop Hf;
    (destruct fuel as [|fuel]; [lia|]).
  - done.
  - by destruct b.
  - cbn [render scan_value]. destruct (str_of_Z_head z) as (c & t & Hz & Hc).
    rewrite <-(scan_scalar_int z rest Hstop). rewrite Hz. cbn [app].
    rewrite !next_is_ne by (unfold is_ascii_digit in Hc; lia). done.
  - done.
  - cbn [render]. unfold render_str. cbn [app scan_value]. rewrite next_is_cons.
    rewrite <-app_assoc. cbn [app]. by rewrite scan_str_render.
  - simpl in Hwf.
    assert (Forall reads_back l) as Hl.
    { apply forallb_True in Hwf || idtac. rewrite forallb_forall in Hwf.
      rewrite Forall_forall in IH |- *. intros x Hx. apply IH; [done|].
      apply Hwf. by apply list_elem_of_In. }
    by apply (list_reads_back l Hl Hwf lvl (S fuel)).
  - simpl in Hwf. apply andb_true_iff in Hwf as [Hnd%bool_decide_eq_true Hwf].
    assert (Forall (λ kv, reads_back kv.2) d) as Hl.
    { rewrite forallb_forall in Hwf. rewrite Forall_forall in IH |- *. intros kv Hx.
      apply IH; [done|]. apply list_elem_of_In in Hx.
      specialize (Hwf _ Hx). by apply andb_true_iff in Hwf as [_ ?]. }
    by apply (dict_reads_back d Hl Hnd Hwf lvl (S fuel)).
Qed.
End values.

(** [json.loads] reads back what [json.dumps] wrote. *)
Lemma loads_render_ws o j ws :
  opts_ok o → wf_json j = true → all_ws ws → loads (render o 0 j ++ ws) = Ok j.
Proof.
  intros Ho Hj Hws. unfold loads, loads_raw.
  destruct (render_starts o 0 j ws Hj) as (c & t & Hc & Hcw & _).
  assert (startswith [65279%N] (render o 0 j ++ ws) = false) as ->.
  { unfold startswith. apply bool_decide_eq_false. rewrite Hc. cbn [drop_prefix].
    destruct (N.eqb_spec 65279 c) as [<-|]; [|by intros [x Hx]].
    exfalso. clear Hcw. revert Hc. destruct j as [|[]|z|f|s|[|x l]|[|kv d]]; try done.
    destruct (str_of_Z_head z) as (c' & t' & Hz & Hd). cbn [render]. rewrite Hz.
    intros [= -> _]. unfold is_ascii_digit in Hd. lia. }
  assert (stop ws) as Hst by (destruct Hws; [done|by left]).
  pose proof (scan_value_render o Ho j Hj 0 (scan_fuel (render o 0 j ++ ws)) ws) as Hs.
  rewrite Hc in Hs |- *. rewrite skip_ws_cons by done.
  rewrite Hs; [|done|unfold scan_fuel; lia]. cbn [mbind res_bind].
  pose proof (skip_ws_app ws [] Hws) as Hsk. rewrite app_nil_r in Hsk. by rewrite Hsk.
Qed.
Lemma loads_render o j : opts_ok o → wf_json j = true → loads (render o 0 j) = Ok j.
Proof.
  intros Ho Hj. pose proof (loads_render_ws o j [] Ho Hj (Forall_nil_2 _)) as Hl.
  by rewrite app_nil_r in Hl.
Qed.

(** Sorting the keys keeps a value well-formed. *)
Lemma sort_keys_wf j : wf_json j = true → wf_json (sort_keys j) = true.
Proof.
  induction j as [|b|z|f|s|l IH|d IH] using json_ind; try done.
  - simpl. rewrite !forallb_forall. intros H x [y [<- Hy]]%in_map_iff.
    rewrite Forall_forall in IH. apply IH; [by apply list_elem_of_In|auto].
  - simpl. rewrite !andb_true_iff, !bool_decide_eq_true, !forallb_forall. intros [Hnd H].
    rewrite Forall_forall in IH. split.
    + assert (merge_sort item_le (map (λ kv, (kv.1, sort_keys kv.2)) d)
              ≡ₚ map (λ kv, (kv.1, sort_keys kv.2)) d) as Hp by apply merge_sort_Permutation.
      apply (Permutation_map fst) in Hp. rewrite Hp. rewrite map_map. simpl. done.
    + intros kv Hkv. apply list_elem_of_In in Hkv. rewrite merge_sort_Permutation in Hkv.
      apply list_elem_of_In, in_map_iff in Hkv as [y [<- Hy]]. simpl.
      specialize (H y Hy). apply andb_true_iff in H as [-> H]. simpl.
      apply IH; [by apply list_elem_of_In|done].
Qed.

Lemma loads_dumps o sort j :
  opts_ok o → wf_json j = true →
  loads (dumps o sort j) = Ok (if sort then sort_keys j else j).
Proof.
  intros Ho Hj. unfold dumps. destruct sort; apply loads_render; auto using sort_keys_wf.
Qed.
