(* ===== verification/PyDict.v ===== *)
(** * Objects

    Lookup, update and removal on the item lists of JSON objects, and the
    well-formedness of their keys. *)
From S2P Require Import Prelude PyStr PyJson PyJsonRoundtrip.

(** ** Lookup and update *)

Lemma dict_get_Some k v d : dict_get k d = Some v → (k, v) ∈ d.
Proof.
  induction d as [|[k' v'] d IH]; simpl; [done|]. case_decide as Hk; [|set_solver].
  intros [= ->]. subst. left.
Qed.
Lemma dict_get_elem k v d : NoDup (map fst d) → (k, v) ∈ d → dict_get k d = Some v.
Proof.
  induction d as [|[k' v'] d IH]; simpl; [by intros _ ?%elem_of_nil|].
  intros [Hk Hd]%NoDup_cons [[= -> ->]|Hin]%elem_of_cons; [by rewrite decide_True|].
  rewrite decide_False; [auto|]. intros ->. apply Hk, list_elem_of_fmap. by exists (k', v).
Qed.

Lemma dict_get_app k d d' : dict_get k d = None → dict_get k (d ++ d') = dict_get k d'.
Proof. induction d as [|[k' v] d IH]; simpl; [done|]. case_decide; [done|auto]. Qed.

Lemma dict_pop_set k v d : dict_pop k (dict_set k v d) = dict_pop k d.
Proof.
  unfold dict_pop. induction d as [|[k' v'] d IH]; simpl.
  - rewrite filter_cons_False by (simpl; naive_solver). done.
  - case_decide as Hk; [subst; by rewrite !filter_cons_False by (simpl; naive_solver)|].
    rewrite !filter_cons_True by (simpl; naive_solver). by rewrite IH.
Qed.
Lemma dict_pop_set_ne k k' v d : k ≠ k' → dict_pop k (dict_set k' v d) = dict_set k' v (dict_pop k d).
Proof.
  intros Hne. unfold dict_pop. induction d as [|[k0 v0] d IH]; simpl.
  - rewrite filter_cons_True by (simpl; naive_solver). done.
  - case_decide as Hk.
    + subst. rewrite !filter_cons_True by (simpl; naive_solver). simpl. by rewrite decide_True.
    + rewrite !filter_cons. case_decide; [|done]. simpl. rewrite decide_False by done. by rewrite IH.
Qed.
Lemma dict_pop_absent k d : k ∉ map fst d → dict_pop k d = d.
Proof.
  unfold dict_pop. induction d as [|[k' v'] d IH]; [done|]. cbn [map]. intros Hk.
  rewrite filter_cons_True by (simpl; set_solver). f_equal. apply IH. set_solver.
Qed.
Lemma dict_get_set_eq k v d : dict_get k (dict_set k v d) = Some v.
Proof.
  induction d as [|[k' v'] d IH]; simpl; [by rewrite decide_True|].
  case_decide as Hk; simpl; [by rewrite decide_True|by rewrite decide_False].
Qed.
Lemma dict_get_set_ne k k' v d : k ≠ k' → dict_get k (dict_set k' v d) = dict_get k d.
Proof.
  intros Hne. induction d as [|[k0 v0] d IH]; simpl; [by rewrite decide_False|].
  case_decide as Hk; simpl; [|by rewrite IH]. subst. by rewrite !decide_False.
Qed.

(** ** Distinct keys *)

(** Objects have distinct keys, as Python's do. *)
Fixpoint keys_ok (j : json) : bool :=
  match j with
  | JList l => forallb keys_ok l
  | JDict d => bool_decide (NoDup (map fst d)) && forallb (λ kv, keys_ok kv.2) d
  | _ => true
  end.

Lemma keys_ok_list l : keys_ok (JList l) = true ↔ Forall (λ j, keys_ok j = true) l.
Proof. simpl. by rewrite forallb_forall, List.Forall_forall. Qed.
Lemma keys_ok_dict d :
  keys_ok (JDict d) = true ↔ NoDup (map fst d) ∧ Forall (λ kv, keys_ok kv.2 = true) d.
Proof. simpl. by rewrite andb_true_iff, bool_decide_eq_true, forallb_forall, List.Forall_forall. Qed.

Lemma wf_keys_ok j : wf_json j = true → keys_ok j = true.
Proof.
  induction j as [|b|z|f|s|l IH|d IH] using json_ind; try done.
  - simpl. rewrite !forallb_forall, <-List.Forall_forall in *. intros H.
    rewrite <-List.Forall_forall. rewrite !Forall_forall in *. auto.
  - simpl. rewrite !andb_true_iff, !forallb_forall. intros [-> H]. split; [done|].
    intros kv Hkv. specialize (H kv Hkv). apply andb_true_iff in H as [_ H].
    rewrite Forall_forall in IH. by apply IH; [apply list_elem_of_In|].
Qed.
Lemma dict_set_NoDup k v d : NoDup (map fst d) → NoDup (map fst (dict_set k v d)).
Proof.
  induction d as [|[k' v'] d IH]; simpl; [intros; apply NoDup_singleton|].
  rewrite NoDup_cons. intros [Hk' Hd]. case_decide as Hk; simpl; rewrite NoDup_cons; [by split|].
  split; [|auto]. intros Hin. apply Hk'. clear -Hin Hk.
  induction d as [|[k2 v2] d IH]; simpl in *; [set_solver|]. case_decide; simpl in *; set_solver.
Qed.
Lemma wf_dict d :
  wf_json (JDict d) = true ↔ NoDup (map fst d) ∧ Forall (λ kv, str_ok kv.1 = true ∧ wf_json kv.2 = true) d.
Proof.
  cbn [wf_json]. rewrite andb_true_iff, bool_decide_eq_true, forallb_forall, Forall_forall.
  setoid_rewrite list_elem_of_In. split; (intros [? H]; split; [done|]); intros x Hx; by apply andb_true_iff, H.
Qed.
Lemma dict_set_wf k v d :
  str_ok k = true → wf_json v = true → wf_json (JDict d) = true → wf_json (JDict (dict_set k v d)) = true.
Proof.
  rewrite !wf_dict. intros Hk Hv [Hn Hd]. split; [by apply dict_set_NoDup|].
  clear Hn. induction Hd as [|[k' v'] d [Hk' Hv'] Hd IH]; simpl; [by repeat constructor|].
  case_decide; constructor; auto.
Qed.
Lemma dict_pop_keys k d : NoDup (map fst d) → NoDup (map fst (dict_pop k d)).
Proof. apply NoDup_map_filter. Qed.
Lemma dict_pop_keys_ok k d : keys_ok (JDict d) = true → keys_ok (JDict (dict_pop k d)) = true.
Proof.
  rewrite !keys_ok_dict. intros [Hd Hk]. split; [by apply dict_pop_keys|].
  rewrite !Forall_forall in *. intros x [_ Hx]%list_elem_of_filter. auto.
Qed.
