(* ===== verification/PyJsonStrings.v ===== *)
(** * The strings of the [json] module

    What [json.dumps] writes and what [json.loads] can produce, character by
    character: the default [dumps] writes one line of graphic ASCII, and a text
    decoded from UTF-8 only yields strings that [dumps] followed by [loads]
    gives back. *)
From S2P Require Import Prelude PyStr PyFloat PyJson PyJsonFacts PyJsonRoundtrip UnicodeData.
From Stdlib Require Import SpecFloat.

(** ** Graphic ASCII *)

Definition graphic (c : N) : Prop := (32 <= c ∧ c < 127)%N.
Definition line_ok (s : pystr) : Prop := Forall graphic s.

Create HintDb line discriminated.

Lemma line_ok_app s t : line_ok s → line_ok t → line_ok (s ++ t).
Proof. apply Forall_app_2. Qed.
Lemma line_ok_nil : line_ok [].
Proof. constructor. Qed.
Lemma line_ok_lit s : forallb (λ c, (32 <=? c) && (c <? 127))%N s = true → line_ok s.
Proof. intros H. apply Forall_forall. intros c Hc. rewrite forallb_forall in H. specialize (H c).
  rewrite <-list_elem_of_In in H. specialize (H Hc). unfold graphic. lia. Qed.
#[export] Hint Resolve line_ok_app line_ok_nil : line.
#[export] Hint Extern 5 (line_ok (u _)) => (apply line_ok_lit; reflexivity) : line.

Lemma hex_line n c : line_ok (hex n c).
Proof.
  revert c. induction n as [|n IH]; intros c; cbn [hex]; [constructor|].
  apply line_ok_app; [apply IH|]. constructor; [|constructor].
  assert (c mod 16 < 16)%N by (apply N.mod_lt; lia).
  unfold hex_digit, graphic. destruct (N.ltb_spec (c mod 16) 10); lia.
Qed.
Lemma esc_u_line c : line_ok (esc_u c).
Proof. unfold esc_u. apply line_ok_app; [auto with line|apply hex_line]. Qed.
Lemma esc_char_line c : line_ok (esc_char true c).
Proof.
  unfold esc_char.
  repeat match goal with |- line_ok (if (c =? _)%N then _ else _) =>
    destruct (c =? _)%N; [by apply line_ok_lit|] end.
  destruct (N.ltb_spec c 32); [apply esc_u_line|].
  destruct (N.ltb_spec c 127); [constructor; [unfold graphic; lia|constructor]|].
  destruct (c <? 65536)%N; [apply esc_u_line|]. apply line_ok_app; apply esc_u_line.
Qed.
Lemma render_str_line s : line_ok (render_str true s).
Proof.
  unfold render_str. constructor; [done|]. apply line_ok_app; [|by apply line_ok_lit].
  induction s as [|c s IH]; [constructor|]. apply line_ok_app; [apply esc_char_line|done].
Qed.
Lemma digits_line s : Forall is_ascii_digit s → line_ok s.
Proof. intros H. eapply Forall_impl; [exact H|]. unfold is_ascii_digit, graphic. lia. Qed.
Lemma str_of_Z_line z : line_ok (str_of_Z z).
Proof.
  unfold str_of_Z. destruct (z <? 0)%Z; [constructor; [done|]|]; apply digits_line, str_of_N_digits.
Qed.

Lemma drop_while_Forall (P : N → Prop) f s : Forall P s → Forall P (drop_while f s).
Proof. induction 1 as [|c s Hc Hs IH]; simpl; [constructor|]. destruct (f c); [done|by constructor]. Qed.
Lemma zeros_line n : line_ok (zeros n).
Proof. unfold zeros, line_ok. induction (Z.to_nat n); simpl; constructor; [done|auto]. Qed.
#[export] Hint Resolve hex_line esc_u_line render_str_line str_of_Z_line zeros_line Forall_take Forall_drop : line.

Lemma repr_pos_float_line m e : line_ok (repr_pos_float m e).
Proof.
  unfold repr_pos_float. destruct (float_fraction m e) as [a b].
  destruct (shortest _ _ _ _ _ _) as [d e10].
  assert (line_ok (reverse (drop_while (N.eqb 48) (reverse (str_of_N d))))) as Hds.
  { apply Forall_reverse, drop_while_Forall, Forall_reverse, digits_line, str_of_N_digits. }
  set (ds := reverse _) in *. clearbody ds.
  repeat case_match; repeat apply line_ok_app; auto with line;
    try (apply Forall_take; done); try (apply Forall_drop; done).
Qed.
Lemma float_repr_line f : line_ok (float_repr f).
Proof.
  destruct f as [s|s| |s m e]; [destruct s; by apply line_ok_lit|destruct s; by apply line_ok_lit|
    by apply line_ok_lit|].
  apply line_ok_app; [destruct s; by apply line_ok_lit|apply repr_pos_float_line].
Qed.
Lemma render_float_line f : line_ok (render_float f).
Proof. unfold render_float. destruct f as [s|s| |s m e]; try apply float_repr_line; [destruct s|]; by apply line_ok_lit. Qed.

Lemma join_line sep ws : line_ok sep → Forall line_ok ws → line_ok (join sep ws).
Proof.
  intros Hsep. induction 1 as [|w ws Hw Hws IH]; [constructor|].
  destruct ws as [|v ws]; [done|]. rewrite join_cons. auto with line.
Qed.

(** The default [dumps] writes a line of graphic ASCII. *)
Lemma render_line lvl j : line_ok (render opts_default lvl j).
Proof.
  revert lvl. induction j as [|b|z|f|s|l IH|d IH] using json_ind; intros lvl.
  - by apply line_ok_lit.
  - destruct b; by apply line_ok_lit.
  - apply str_of_Z_line.
  - apply render_float_line.
  - apply render_str_line.
  - destruct l as [|x l]; [by apply line_ok_lit|].
    change (line_ok (u "[" ++ [] ++ join (u ", ") (map (render opts_default (S lvl)) (x :: l)) ++ [] ++ u "]")).
    assert (line_ok (join (u ", ") (map (render opts_default (S lvl)) (x :: l)))); [|auto 10 with line].
    apply join_line; [auto with line|]. apply Forall_map. eapply Forall_impl; [exact IH|]. auto.
  - destruct d as [|x d]; [by apply line_ok_lit|].
    set (f := λ kv : pystr * json, render_str true kv.1 ++ u ": " ++ render opts_default (S lvl) kv.2).
    change (line_ok (u "{" ++ [] ++ join (u ", ") (map f (x :: d)) ++ [] ++ u "}")).
    assert (line_ok (join (u ", ") (map f (x :: d)))); [|auto 10 with line].
    apply join_line; [auto with line|]. apply Forall_map. eapply Forall_impl; [exact IH|].
    intros kv Hkv. unfold f. auto with line.
Qed.
Lemma dumps_line sort j : line_ok (dumps opts_default sort j).
Proof. apply render_line. Qed.

Lemma line_no_newline s : line_ok s → 10%N ∉ s.
Proof. intros H Hin. unfold line_ok in H. rewrite Forall_forall in H. specialize (H 10%N Hin). unfold graphic in H. lia. Qed.

(** ** Decoded text *)

(** A character that UTF-8 can encode. *)
Definition text_char (c : N) : Prop := (c < 1114112)%N ∧ is_surrogate c = false.
Definition text_ok (s : pystr) : Prop := Forall text_char s.

Lemma line_text s : line_ok s → text_ok s.
Proof.
  intros H. eapply Forall_impl; [exact H|]. unfold graphic, text_char, is_surrogate. lia.
Qed.
Lemma text_no_surrogate s : text_ok s → Forall (λ c, is_surrogate c = false) s.
Proof. intros H. eapply Forall_impl; [exact H|]. by intros c [_ ?]. Qed.

Lemma surrogate_unprintable c : is_surrogate c = true → is_printable c = false.
Proof.
  intros Hc. unfold is_printable. rewrite negb_false_iff. unfold in_ranges. rewrite existsb_exists.
  assert (existsb (λ r, (r.1 <=? 55296) && (57343 <=? r.2))%N nonprintable_ranges = true) as Hr
    by (vm_compute; reflexivity).
  apply existsb_exists in Hr as (r & Hin & Hr). exists r. split; [done|].
  unfold is_surrogate in Hc. lia.
Qed.

Lemma text_str_ok s : text_ok s → str_ok s = true.
Proof.
  unfold str_ok. intros H. apply andb_true_iff. split.
  - apply forallb_forall. intros c Hc%list_elem_of_In. unfold text_ok in H. rewrite Forall_forall in H.
    destruct (H c Hc). lia.
  - induction H as [|c s [Hc1 Hc2] _ IH]; simpl; [done|]. destruct s; [done|].
    rewrite IH, andb_true_r. unfold is_high, is_low. unfold is_surrogate in Hc2. lia.
Qed.

(** ** The scanner's strings *)

(** [s] starts with an escape that the scanner would take for the second half
    of a surrogate pair. *)
Definition low_escape (s : pystr) : Prop :=
  ∃ k1 k2 k3 k4 c s' y, s = 92%N :: 117%N :: k1 :: k2 :: k3 :: k4 :: c :: s' ∧
    hex4 k1 k2 k3 k4 = Some y ∧ is_low y = true.
(** The characters scanned so far, last one first. *)
Definition scanned (acc s : pystr) : Prop :=
  str_ok (reverse acc) = true ∧
  match acc with c :: _ => is_high c = true → ¬ low_escape s | [] => True end.

Lemma str_ok_snoc s c : (c < 1114112)%N → str_ok s = true →
  (∀ d, last s = Some d → is_high d = true → is_low c = false) → str_ok (s ++ [c]) = true.
Proof.
  unfold str_ok. intros Hc [Hs Hp]%andb_true_iff Hl. apply andb_true_iff. split.
  - rewrite forallb_app, Hs. simpl. lia.
  - induction s as [|a s IH]; [done|]. destruct s as [|b s].
    + simpl in *. destruct (is_high a) eqn:Ha; simpl; [|done]. by rewrite (Hl a).
    + simpl in Hs. simpl in Hp. apply andb_true_iff in Hp as [Hab Hp]. apply andb_true_iff in Hs as [_ Hs].
      change ((b :: s) ++ [c]) with (b :: (s ++ [c])). cbn [app no_pair]. rewrite Hab. simpl.
      apply IH; [by simpl|done|]. intros d Hd. apply Hl. by rewrite last_cons_cons.
Qed.
Lemma scanned_push acc s s' c :
  (c < 1114112)%N → scanned acc s → (is_low c = true → low_escape s) →
  (is_high c = true → ¬ low_escape s') → scanned (c :: acc) s'.
Proof.
  intros Hc [Hok Hh] Hlow Hhigh. split; [|done]. rewrite reverse_cons. apply str_ok_snoc; [done..|].
  intros d Hd Hdh. destruct (is_low c); [|done]. exfalso.
  destruct acc as [|a acc]; [done|]. rewrite last_reverse in Hd. injection Hd as ->. by apply Hh; auto.
Qed.

Lemma hex_value_lt c v : hex_value c = Some v → (v < 16)%N.
Proof. unfold hex_value. repeat case_match; intros; simplify_eq; lia. Qed.
Lemma hex4_lt a b c d v : hex4 a b c d = Some v → (v < 65536)%N.
Proof.
  unfold hex4. intros H.
  destruct (hex_value a) eqn:Ha; simpl in H; [|done]. destruct (hex_value b) eqn:Hb; simpl in H; [|done].
  destruct (hex_value c) eqn:Hc; simpl in H; [|done]. destruct (hex_value d) eqn:Hd; simpl in H; [|done].
  injection H as <-. apply hex_value_lt in Ha, Hb, Hc, Hd. lia.
Qed.
Lemma simple_escape_text c x : simple_escape c = Some x → (x < 128)%N.
Proof. unfold simple_escape. repeat case_match; intros; simplify_eq; lia. Qed.

Lemma scanned_text acc s s' c : text_char c → scanned acc s → scanned (c :: acc) s'.
Proof.
  intros [Hc1 Hc2] Hs. unfold is_surrogate in Hc2. eapply scanned_push; [done|exact Hs| |];
    unfold is_low, is_high; lia.
Qed.

Lemma scan_str_ok b s acc x r :
  text_ok s → scanned acc s → scan_str b s acc = Ok (x, r) → str_ok x = true ∧ text_ok r.
Proof.
  remember (length s) as n eqn:Hn. revert s acc Hn.
  induction n as [n IH] using lt_wf_ind. intros s acc -> Hs Hacc H.
  destruct s as [|c s]; [done|]. cbn [scan_str] in H.
  pose proof (Forall_inv Hs) as Hc. pose proof (Forall_inv_tail Hs) as Hs1.
  destruct (N.eqb_spec c 34) as [->|_]; [injection H as <- <-; split; [apply Hacc|done]|].
  destruct (N.eqb_spec c 92) as [->|_].
  - destruct s as [|e s2]; [done|]. pose proof (Forall_inv_tail Hs1) as Hs2.
    destruct (N.eqb_spec e 117) as [->|_].
    2: { destruct (simple_escape e) as [v|] eqn:He; [|done]. apply simple_escape_text in He.
         eapply IH in H; [done| |done|done|]; [simpl; lia|].
         eapply scanned_text; [|done]. unfold text_char, is_surrogate. lia. }
    destruct s2 as [|h1 [|h2 [|h3 [|h4 s3]]]]; try done.
    assert (text_ok s3) as Hs3 by (by repeat apply Forall_inv_tail in Hs2).
    destruct s3 as [|t s3']; [done|]. set (s3 := t :: s3') in *.
    destruct (hex4 h1 h2 h3 h4) as [v|] eqn:Hv; [|done]. pose proof (hex4_lt _ _ _ _ _ Hv) as Hlt.
    assert (is_low v = true → low_escape (92 :: 117 :: h1 :: h2 :: h3 :: h4 :: s3)%N) as Hlow.
    { intros Hl. do 7 eexists. split_and!; [reflexivity|done|done]. }
    assert (∀ acc', scanned acc' s3 → scan_str b s3 acc' = Ok (x, r) → str_ok x = true ∧ text_ok r) as IH3.
    { intros acc' Hacc' H'. eapply IH in H'; [done| |done|done|done]. simpl; lia. }
    assert ((is_high v = true → ¬ low_escape s3) → scan_str b s3 (v :: acc) = Ok (x, r) →
      str_ok x = true ∧ text_ok r) as Hpush.
    { intros Hh. apply IH3. eapply scanned_push; [lia|exact Hacc|exact Hlow|exact Hh]. }
    destruct (is_high v) eqn:Hvh; [|by apply Hpush in H].
    unfold s3 in H at 1. clear Hlow.
    destruct s3' as [|e2 [|k1 [|k2 [|k3 [|k4 s4]]]]];
      try (apply Hpush in H; [done|]; intros _ (?&?&?&?&?&?&?&?&_); by simplify_eq).
    destruct ((t =? 92) && (e2 =? 117) && negb (bool_decide (s4 = [])))%N eqn:Hcond.
    2: { apply Hpush in H; [done|]. intros _ (?&?&?&?&?&?&?&[= -> -> -> -> -> -> ->]&_). done. }
    destruct (hex4 k1 k2 k3 k4) as [y|] eqn:Hy; [|done]. destruct (is_low y) eqn:Hyl.
    + eapply IH in H; [done| |done| |].
      * simpl; lia.
      * by repeat apply Forall_inv_tail in Hs3.
      * eapply scanned_text; [|exact Hacc]. unfold is_high in Hvh. unfold is_low in Hyl.
        unfold text_char, is_surrogate. lia.
    + apply Hpush in H; [done|]. intros _ (?&?&?&?&?&?&?&[= -> -> -> -> -> -> ->]&?&?). congruence.
  - destruct (c <=? 31)%N; [done|]. eapply IH in H; [done| |done|done|]; [simpl; lia|].
    by eapply scanned_text.
Qed.

(** ** Every string of a decoded value *)

Fixpoint strs_ok (j : json) : bool :=
  match j with
  | JStr s => str_ok s
  | JList l => forallb strs_ok l
  | JDict d => forallb (λ kv, str_ok kv.1 && strs_ok kv.2) d
  | _ => true
  end.
Definition dict_ok (d : dict) : Prop := Forall (λ kv, str_ok kv.1 = true ∧ strs_ok kv.2 = true) d.

Lemma strs_ok_list l : strs_ok (JList l) = true ↔ Forall (λ j, strs_ok j = true) l.
Proof. simpl. rewrite forallb_forall, Forall_forall. setoid_rewrite list_elem_of_In. done. Qed.
Lemma strs_ok_dict d : strs_ok (JDict d) = true ↔ dict_ok d.
Proof.
  simpl. unfold dict_ok. rewrite forallb_forall, Forall_forall. setoid_rewrite list_elem_of_In.
  split; intros H x Hx; specialize (H x Hx); by apply andb_true_iff.
Qed.
Lemma dict_set_ok k v d : str_ok k = true → strs_ok v = true → dict_ok d → dict_ok (dict_set k v d).
Proof.
  intros Hk Hv. induction 1 as [|[k' v'] d [Hk' Hv'] Hd IH]; simpl; [by repeat constructor|].
  case_decide; constructor; auto.
Qed.
Lemma dict_get_ok k v d : dict_ok d → dict_get k d = Some v → strs_ok v = true.
Proof.
  induction 1 as [|[k' v'] d [Hk' Hv'] Hd IH]; simpl; [done|]. case_decide; [naive_solver|done].
Qed.

(** What the scanner leaves of a text is a suffix of it. *)
Lemma text_suffix s r : r `suffix_of` s → text_ok s → text_ok r.
Proof. intros [k ->]. by intros [_ ?]%Forall_app. Qed.
Lemma drop_while_suffix f s : drop_while f s `suffix_of` s.
Proof. induction s as [|c s IH]; simpl; [done|]. destruct (f c); [by apply suffix_cons_r|done]. Qed.
Lemma skip_ws_suffix s : skip_ws s `suffix_of` s.
Proof. apply drop_while_suffix. Qed.
Lemma next_is_suffix c s r : next_is c s = Some r → r `suffix_of` s.
Proof. intros ->%next_is_Some. by apply suffix_cons_r. Qed.
Lemma take_digits_suffix a n s m k r : take_digits a n s = (m, k, r) → r `suffix_of` s.
Proof.
  revert a n. induction s as [|c s IH]; intros a n; simpl; [naive_solver|].
  destruct (ascii_digit c); [|naive_solver]. intros H%IH. by apply suffix_cons_r.
Qed.
Lemma scan_sign_suffix s sg r : scan_sign s = (sg, r) → r `suffix_of` s.
Proof.
  unfold scan_sign. destruct (next_is 43 s) eqn:H1; [|destruct (next_is 45 s) eqn:H2]; intros [= _ <-];
    eauto using next_is_suffix.
Qed.
Lemma scan_exp_suffix s x r : scan_exp s = Some (x, r) → r `suffix_of` s.
Proof.
  unfold scan_exp.
  destruct (match next_is 101 s with Some r => Some r | None => next_is 69 s end) as [s1|] eqn:Hn; simpl; [|done].
  assert (s1 `suffix_of` s) by (destruct (next_is 101 s) eqn:H1; simplify_eq; eauto using next_is_suffix).
  destruct (scan_sign s1) as [sg s2] eqn:H2. apply scan_sign_suffix in H2.
  destruct (take_digits _ _ _) as [[m k] r2] eqn:Ht. apply take_digits_suffix in Ht.
  destruct k; intros; simplify_eq. by do 2 (etrans; [eassumption|]).
Qed.
Lemma scan_frac_suffix ip s m n r : scan_frac ip s = Some (m, n, r) → r `suffix_of` s.
Proof.
  unfold scan_frac. destruct (next_is 46 s) as [s1|] eqn:H1; simpl; [|done].
  apply next_is_suffix in H1. destruct (take_digits _ _ _) as [[m' k] r2] eqn:Ht.
  apply take_digits_suffix in Ht. destruct k; intros; simplify_eq. by etrans.
Qed.
Lemma scan_number_suffix neg s v r : scan_number neg s = Some (v, r) → strs_ok v = true ∧ r `suffix_of` s.
Proof.
  destruct s as [|c s]; simpl; [done|]. destruct (ascii_digit c) as [d|]; [|done].
  set (X := if (c =? 48)%N then _ else _).
  assert (X.2 `suffix_of` c :: s) as HX.
  { apply suffix_cons_r. subst X. destruct (c =? 48)%N; simpl; [done|].
    destruct (take_digits _ _ _) as [[??] ?] eqn:Ht. simpl. by eapply take_digits_suffix. }
  destruct X as [ip s2]. simpl in HX.
  destruct (scan_frac ip s2) as [[[m n] s3]|] eqn:Hf; [apply scan_frac_suffix in Hf;
    destruct (scan_exp s3) as [[x s4]|] eqn:He | destruct (scan_exp s2) as [[x s4]|] eqn:He];
    simpl; intros [= <- <-]; try apply scan_exp_suffix in He; (split; [done|]); repeat (etrans; [eassumption|]); done.
Qed.
Lemma drop_prefix_suffix p s r : drop_prefix p s = Some r → r `suffix_of` s.
Proof.
  revert s. induction p as [|a p IH]; intros [|b s]; simpl; try naive_solver.
  destruct (a =? b)%N; [|done]. intros ?%IH. by apply suffix_cons_r.
Qed.
Lemma scan_literal_suffix ls s v r :
  Forall (λ l, strs_ok l.2 = true) ls → scan_literal ls s = Some (v, r) → strs_ok v = true ∧ r `suffix_of` s.
Proof.
  induction 1 as [|[p j] ls Hp _ IH]; simpl; [done|].
  destruct (drop_prefix p s) eqn:Hd; [|done]. intros [= <- <-]. eauto using drop_prefix_suffix.
Qed.
Lemma scan_scalar_suffix s v r : scan_scalar s = Ok (v, r) → strs_ok v = true ∧ r `suffix_of` s.
Proof.
  unfold scan_scalar. destruct (scan_literal literals s) as [[v' r']|] eqn:Hl.
  - intros [= <- <-]. eapply scan_literal_suffix; [|done]. by repeat constructor.
  - destruct (next_is 45 s) as [s1|] eqn:H1.
    + apply next_is_suffix in H1. destruct (scan_number true s1) as [[v' r']|] eqn:Hn; [|done].
      intros [= <- <-]. apply scan_number_suffix in Hn as [??]. split; [done|by etrans].
    + destruct (scan_number false s) as [[v' r']|] eqn:Hn; [|done].
      intros [= <- <-]. by eapply scan_number_suffix.
Qed.

Lemma text_skip s : text_ok s → text_ok (skip_ws s).
Proof. apply text_suffix, skip_ws_suffix. Qed.
Lemma text_next c s r : next_is c s = Some r → text_ok s → text_ok r.
Proof. intros H. eapply text_suffix, next_is_suffix, H. Qed.
#[export] Hint Resolve text_skip : line.
#[export] Hint Extern 2 (text_ok _) => (eapply text_next; [eassumption|]) : line.

Lemma scan_ok fuel :
  (∀ s v r, text_ok s → scan_value fuel s = Ok (v, r) → strs_ok v = true ∧ text_ok r) ∧
  (∀ s acc l r, text_ok s → Forall (λ j, strs_ok j = true) acc → scan_array fuel s acc = Ok (l, r) →
     Forall (λ j, strs_ok j = true) l ∧ text_ok r) ∧
  (∀ s acc d r, text_ok s → dict_ok acc → scan_object fuel s acc = Ok (d, r) → dict_ok d ∧ text_ok r).
Proof.
  induction fuel as [|f (IHv & IHa & IHo)]; [by split_and!|]. split_and!.
  - intros s v r Hs H. cbn [scan_value] in H.
    destruct (next_is 34 s) as [s1|] eqn:H1; [|destruct (next_is 91 s) as [s1|] eqn:H2;
      [|destruct (next_is 123 s) as [s1|] eqn:H3]].
    + destruct (scan_str _ s1 []) as [[x r']|] eqn:Hx; [|done]. injection H as <- <-.
      eapply scan_str_ok in Hx; eauto with line. by split.
    + destruct (next_is 93 (skip_ws s1)) as [r'|] eqn:H4; [injection H as <- <-; eauto 6 with line|].
      destruct (scan_array f _ []) as [[l r']|] eqn:Hl; [|done]. injection H as <- <-.
      rewrite strs_ok_list. eapply IHa; [|constructor|done]. eauto with line.
    + destruct (next_is 125 (skip_ws s1)) as [r'|] eqn:H4; [injection H as <- <-; eauto 6 with line|].
      destruct (scan_object f _ []) as [[d r']|] eqn:Hl; [|done]. injection H as <- <-.
      rewrite strs_ok_dict. eapply IHo; [|constructor|done]. eauto with line.
    + apply scan_scalar_suffix in H as [? Hr]. eauto using text_suffix.
  - intros s acc l r Hs Hacc H. cbn [scan_array] in H.
    destruct (scan_value f s) as [[v s1]|e] eqn:Hv; [|done]. cbn [mbind res_bind] in H.
    apply IHv in Hv as [Hv Hs1]; [|done].
    assert (Forall (λ j, strs_ok j = true) (acc ++ [v])) as Hacc' by (apply Forall_app_2; [done|by constructor]).
    destruct (next_is 93 _) as [r'|] eqn:H4; [injection H as <- <-; eauto with line|].
    destruct (next_is 44 _) as [r'|] eqn:H5; [|done]. eapply IHa; [|done|done]. eauto with line.
  - intros s acc d r Hs Hacc H. cbn [scan_object] in H.
    destruct (next_is 34 s) as [s1|] eqn:H1; [|done].
    destruct (scan_str _ s1 []) as [[k s2]|e] eqn:Hk; [|done]. cbn [mbind res_bind] in H.
    eapply scan_str_ok in Hk as [Hk Hs2]; [|eauto with line|by split].
    destruct (next_is 58 _) as [s3|] eqn:H2; [|done].
    destruct (scan_value f (skip_ws s3)) as [[v s4]|e] eqn:Hv; [|done]. cbn [mbind res_bind] in H.
    apply IHv in Hv as [Hv Hs4]; [|eauto with line].
    pose proof (dict_set_ok k v acc Hk Hv Hacc) as Hacc'.
    destruct (next_is 125 _) as [r'|] eqn:H4; [injection H as <- <-; eauto with line|].
    destruct (next_is 44 _) as [r'|] eqn:H5; [|done]. eapply IHo; [|done|done]. eauto with line.
Qed.

(** A text without surrogates decodes to a value whose strings [dumps] and
    [loads] preserve. *)
Lemma loads_strs_ok s j : text_ok s → loads s = Ok j → strs_ok j = true.
Proof.
  unfold loads, loads_raw. intros Hs H. destruct (startswith _ _); [done|].
  destruct (scan_value _ _) as [[v r]|e] eqn:Hv; [|done]. cbn [mbind res_bind] in H.
  apply scan_ok in Hv as [Hv _]; [|auto with line].
  destruct (skip_ws r); [|done]. by injection H as <-.
Qed.

(** ** [str] of a decoded value *)

Definition in_unicode (s : pystr) : Prop := Forall (λ c, c < 1114112)%N s.
Lemma str_ok_unicode s : str_ok s = true → in_unicode s.
Proof.
  unfold str_ok. intros [H _]%andb_true_iff. apply Forall_forall. intros c Hc%list_elem_of_In.
  rewrite forallb_forall in H. specialize (H c Hc). simpl in H. lia.
Qed.

Lemma text_app s t : text_ok s → text_ok t → text_ok (s ++ t).
Proof. apply Forall_app_2. Qed.
Lemma text_lit s : forallb (λ c, (32 <=? c) && (c <? 127))%N s = true → text_ok s.
Proof. intros H. by apply line_text, line_ok_lit. Qed.

Lemma repr_char_text q c : (q = 34 ∨ q = 39)%N → (c < 1114112)%N → text_ok (repr_char q c).
Proof.
  intros Hq Hc. unfold repr_char.
  destruct ((c =? 92) || (c =? q))%N eqn:H1.
  { repeat constructor; unfold is_surrogate; lia. }
  repeat match goal with |- text_ok (if (c =? _)%N then _ else _) =>
    destruct (c =? _)%N; [by apply text_lit|] end.
  destruct ((c <? 32) || (c =? 127))%N; [apply text_app; [by apply text_lit|apply line_text, hex_line]|].
  destruct (is_printable c) eqn:Hp.
  { constructor; [|constructor]. split; [done|]. destruct (is_surrogate c) eqn:Hs; [|done].
    apply surrogate_unprintable in Hs. congruence. }
  destruct (c <=? 255)%N; [|destruct (c <=? 65535)%N];
    (apply text_app; [by apply text_lit|apply line_text, hex_line]).
Qed.
Lemma repr_text s : in_unicode s → text_ok (repr s).
Proof.
  intros Hs. unfold repr. set (q := if _ : bool then 34%N else 39%N).
  assert (q = 34 ∨ q = 39)%N as Hq by (subst q; case_match; auto). clearbody q.
  constructor; [destruct Hq as [-> | ->]; done|]. apply text_app.
  - induction Hs as [|c s Hc _ IH]; [constructor|]. apply text_app; [by apply repr_char_text|done].
  - constructor; [destruct Hq as [-> | ->]; done|constructor].
Qed.

Lemma join_text sep ws : text_ok sep → Forall text_ok ws → text_ok (join sep ws).
Proof.
  intros Hsep. induction 1 as [|w ws Hw Hws IH]; [constructor|].
  destruct ws as [|v ws]; [done|]. rewrite join_cons. by repeat apply text_app.
Qed.
Lemma py_repr_text j : strs_ok j = true → text_ok (py_repr j).
Proof.
  induction j as [|b|z|f|s|l IH|d IH] using json_ind; intros Hj.
  - by apply text_lit.
  - destruct b; by apply text_lit.
  - apply line_text, str_of_Z_line.
  - apply line_text, float_repr_line.
  - by apply repr_text, str_ok_unicode.
  - apply strs_ok_list in Hj. apply text_app; [by apply text_lit|]. apply text_app; [|by apply text_lit].
    apply join_text; [by apply text_lit|]. apply Forall_map.
    induction IH as [|x l Hx _ IH]; [constructor|]. inversion_clear Hj. constructor; auto.
  - apply strs_ok_dict in Hj. apply text_app; [by apply text_lit|]. apply text_app; [|by apply text_lit].
    apply join_text; [by apply text_lit|]. apply Forall_map.
    induction IH as [|x d Hx _ IH]; [constructor|]. inversion_clear Hj as [|?? [Hk Hv]]. constructor; [|auto].
    apply text_app; [by apply repr_text, str_ok_unicode|]. apply text_app; [by apply text_lit|auto].
Qed.
Lemma py_str_ok j : strs_ok j = true → str_ok (py_str j) = true.
Proof.
  intros Hj. destruct j; try (apply text_str_ok, py_repr_text, Hj). exact Hj.
Qed.
Lemma py_iter_ok j l : strs_ok j = true → py_iter j = Some l → Forall (λ x, strs_ok x = true) l.
Proof.
  destruct j as [| | | |s|l'|d]; simpl; try done; intros Hj [= <-].
  - apply Forall_map. eapply Forall_impl; [by apply str_ok_unicode|]. intros c Hc. simpl.
    unfold str_ok. simpl. simpl in Hc. lia.
  - by apply strs_ok_list.
  - apply Forall_map. apply strs_ok_dict in Hj. eapply Forall_impl; [exact Hj|]. by intros kv [? _].
Qed.

(** ** Decoding bytes *)

Lemma utf8_decode_text bs : text_ok (utf8_decode_replace bs).
Proof.
  remember (length bs) as n eqn:Hn. revert bs Hn. induction n as [n IH] using lt_wf_ind. intros bs ->.
  assert (∀ r, length r < length bs → text_ok (utf8_decode_replace r)) as IH'.
  { intros r Hr. by eapply IH. }
  clear IH. destruct bs as [|b0 r0]; [constructor|]. cbn [utf8_decode_replace].
  assert (text_char 65533) as Hrep by done.
  assert (∀ r c, length r < length (b0 :: r0) → text_char c → text_ok (c :: utf8_decode_replace r)) as Hc.
  { intros r c Hr Hc. constructor; [done|]. by apply IH'. }
  repeat case_match; subst; repeat first [constructor; [exact Hrep|constructor] | apply Hc; [simpl; lia|]];
    try exact Hrep;
    unfold text_char, is_surrogate, is_cont, ok3, ok4, is_cont in *; repeat case_match; lia.
Qed.
Lemma strip_text s : text_ok s → text_ok (strip s).
Proof.
  intros H. unfold strip, strip_by. by apply Forall_reverse, drop_while_Forall, Forall_reverse, drop_while_Forall.
Qed.
