(* ===== verification/Errors.v ===== *)
(** * Exceptions (src/src/sourceos_gate/errors.py)

    The classes the gate defines, the builtin and library classes its code can
    meet, and the class hierarchy [isinstance] walks. *)
From S2P Require Import Prelude PyStr.

Inductive exn_class :=
  (* sourceos_gate.errors *)
  | GateError
  | ReplayError
  | ExpiredGrantError
  | BaselineMissingError
  | PermissionError
  | NftError
  | ValidationError
  (* builtins, json, sqlite3 *)
  | BaseException
  | Exception
  | SystemExit
  | ValueError
  | JSONDecodeError
  | UnicodeError
  | UnicodeEncodeError
  | TypeError
  | AttributeError
  | LookupError
  | KeyError
  | ArithmeticError
  | OverflowError
  | ZeroDivisionError
  | RuntimeError
  | OSError
  | FileNotFoundError
  | FileExistsError
  | NotADirectoryError
  | IsADirectoryError
  | SqliteError
  | DatabaseError
  | IntegrityError
  | OperationalError
  | ImportError
  | ModuleNotFoundError.

Global Instance exn_class_eq_dec : EqDecision exn_class.
Proof. solve_decision. Defined.

(** The base class of each class. *)
Definition parent (c : exn_class) : option exn_class :=
  match c with
  | BaseException => None
  | Exception | SystemExit => Some BaseException
  | GateError => Some Exception
  | ReplayError | ExpiredGrantError | BaselineMissingError | PermissionError
  | NftError | ValidationError => Some GateError
  | ValueError | TypeError | AttributeError | LookupError | ArithmeticError
  | RuntimeError | OSError | SqliteError | ImportError => Some Exception
  | ModuleNotFoundError => Some ImportError
  | JSONDecodeError | UnicodeError => Some ValueError
  | UnicodeEncodeError => Some UnicodeError
  | KeyError => Some LookupError
  | OverflowError | ZeroDivisionError => Some ArithmeticError
  | FileNotFoundError | FileExistsError | NotADirectoryError | IsADirectoryError => Some OSError
  | DatabaseError => Some SqliteError
  | IntegrityError | OperationalError => Some DatabaseError
  end.

(** [c.__name__] *)
Definition class_name (c : exn_class) : pystr :=
  match c with
  | GateError => u "GateError" | ReplayError => u "ReplayError"
  | ExpiredGrantError => u "ExpiredGrantError"
  | BaselineMissingError => u "BaselineMissingError"
  | PermissionError => u "PermissionError" | NftError => u "NftError"
  | ValidationError => u "ValidationError" | BaseException => u "BaseException"
  | Exception => u "Exception" | SystemExit => u "SystemExit"
  | ValueError => u "ValueError" | JSONDecodeError => u "JSONDecodeError"
  | UnicodeError => u "UnicodeError" | UnicodeEncodeError => u "UnicodeEncodeError"
  | TypeError => u "TypeError" | AttributeError => u "AttributeError"
  | LookupError => u "LookupError" | KeyError => u "KeyError"
  | ArithmeticError => u "ArithmeticError" | OverflowError => u "OverflowError" | ZeroDivisionError => u "ZeroDivisionError"
  | RuntimeError => u "RuntimeError" | OSError => u "OSError"
  | FileNotFoundError => u "FileNotFoundError" | FileExistsError => u "FileExistsError"
  | NotADirectoryError => u "NotADirectoryError" | IsADirectoryError => u "IsADirectoryError"
  | SqliteError => u "Error"
  | DatabaseError => u "DatabaseError" | IntegrityError => u "IntegrityError"
  | OperationalError => u "OperationalError"
  | ImportError => u "ImportError" | ModuleNotFoundError => u "ModuleNotFoundError"
  end.

(** A raised exception: its class and [str(e)]. *)
Record exn := Exn { exn_type : exn_class; exn_str : pystr }.
Global Instance exn_eq_dec : EqDecision exn.
Proof. solve_decision. Defined.

(** [issubclass(c, d)]; the hierarchy is less than six levels deep
    ([depth_enough]). *)
Fixpoint subclass_fuel (fuel : nat) (c d : exn_class) : bool :=
  bool_decide (c = d) ||
  match fuel, parent c with
  | S f, Some p => subclass_fuel f p d
  | _, _ => false
  end.
Definition issubclass (c d : exn_class) : bool := subclass_fuel 6 c d.
(** [isinstance(e, d)] *)
Definition isinstance (e : exn) (d : exn_class) : bool := issubclass (exn_type e) d.

(** ** Lemmas *)

(** Every class reaches [BaseException] within the fuel. *)
Lemma depth_enough c : issubclass c BaseException = true.
Proof. by destruct c. Qed.

Lemma issubclass_spec c d :
  issubclass c d = true ↔ rtc (λ x y, parent x = Some y) c d.
Proof.
  split.
  - unfold issubclass. generalize 6. intros n. revert c.
    induction n as [|n IH]; intros c; simpl.
    + rewrite orb_false_r. intros ->%bool_decide_eq_true. done.
    + intros [->%bool_decide_eq_true|H]%orb_true_iff; [done|].
      destruct (parent c) as [p|] eqn:Hp; [|done]. eapply rtc_l; eauto.
  - intros H. induction H as [c|c p d Hp Hpd IH]; [by destruct c|].
    destruct c; simpl in Hp; try done; injection Hp as <-;
      destruct d; try done; vm_compute in IH; done.
Qed.
