(* ===== verification/PyOps.v ===== *)
(** * Builtins that raise

    [int], iteration and attribute access on a value of unknown type, with the
    exceptions of CPython 3.11. *)
From S2P Require Import Prelude PyStr PyFloat PyJson Errors.
From Stdlib Require Import SpecFloat.

Abbreviation pyres A := (res exn A).

(** [int(x)] *)
Definition py_int (x : json) : pyres Z :=
  match x with
  | JInt z => Ok z
  | JBool b => Ok (if b then 1 else 0)%Z
  | JFloat f =>
      match float_trunc f, f with
      | Some z, _ => Ok z
      | None, S754_nan => Err (Exn ValueError (u "cannot convert float NaN to integer"))
      | None, _ => Err (Exn OverflowError (u "cannot convert float infinity to integer"))
      end
  | JStr s =>
      res_of_option
        (Exn ValueError (u "invalid literal for int() with base 10: " ++ take 200 (repr s)))
        (int_of_str s)
  | _ => Err (Exn TypeError (u "int() argument must be a string, a bytes-like object or a real number, not '"
                              ++ type_name x ++ u "'"))
  end.
(** [int(s)] on a [str] *)
Definition py_int_str (s : pystr) : pyres Z := py_int (JStr s).

(** [for y in x] *)
Definition py_for (x : json) : pyres (list json) :=
  res_of_option (Exn TypeError (u "'" ++ type_name x ++ u "' object is not iterable")) (py_iter x).

(** [x.get(k)] and [x.get(k, dflt)] *)
Definition no_attr {A} (x : json) (attr : pystr) : pyres A :=
  Err (Exn AttributeError (u "'" ++ type_name x ++ u "' object has no attribute '" ++ attr ++ u "'")).
Definition py_get (x : json) (k : pystr) (dflt : json) : pyres json :=
  match x with
  | JDict d => Ok (dict_get_or dflt k d)
  | _ => no_attr x (u "get")
  end.
(** [d[k]] *)
Definition py_item (d : dict) (k : pystr) : pyres json :=
  res_of_option (Exn KeyError (repr k)) (dict_get k d).

(** [json.loads(s)] *)
Definition py_loads (s : pystr) : pyres json :=
  match loads s with Ok v => Ok v | Err msg => Err (Exn JSONDecodeError msg) end.

(** [[f(x) for x in l]] *)
Fixpoint map_res {E A B} (f : A → res E B) (l : list A) : res E (list B) :=
  match l with
  | [] => Ok []
  | x :: l' => y ← f x; ys ← map_res f l'; Ok (y :: ys)
  end.

(** [a / b] on integers and on floats, and [float(z)]; an integer that no float
    can hold overflows. *)
Definition int_truediv (a b : Z) : pyres pyfloat :=
  if (b =? 0)%Z then Err (Exn ZeroDivisionError (u "division by zero"))
  else let f := int_quotient a b in
       if float_is_inf f then Err (Exn OverflowError (u "integer division result too large for a float"))
       else Ok f.
Definition float_truediv (f g : pyfloat) : pyres pyfloat :=
  match g with
  | S754_zero _ => Err (Exn ZeroDivisionError (u "float division by zero"))
  | _ => Ok (SFdiv 53 1024 f g)
  end.
Definition py_float (z : Z) : pyres pyfloat :=
  if float_is_inf (float_of_int z) then Err (Exn OverflowError (u "int too large to convert to float"))
  else Ok (float_of_int z).

(** ** UTF-8

    [s.encode()] raises on a surrogate. *)

(** The index of the first surrogate, and how many follow in a row. *)
Fixpoint surrogate_run (i : nat) (s : pystr) : option (nat * N * nat) :=
  match s with
  | [] => None
  | c :: s' =>
      if is_surrogate c
      then Some (i, c, length s - length (drop_while is_surrogate s))
      else surrogate_run (S i) s'
  end.
Definition encode_error (i : nat) (c : N) (n : nat) : pystr :=
  let pos := str_of_Z (Z.of_nat i) in
  let what := match n with
              | 1 => u "character '\u" ++ hex 4 c ++ u "' in position " ++ pos
              | _ => u "characters in position " ++ pos ++ u "-" ++ str_of_Z (Z.of_nat (i + n - 1))
              end in
  u "'utf-8' codec can't encode " ++ what ++ u ": surrogates not allowed".
Definition check_utf8 (s : pystr) : pyres unit :=
  match surrogate_run 0 s with
  | None => Ok tt
  | Some (i, c, n) => Err (Exn UnicodeEncodeError (encode_error i c n))
  end.

(** ** Lemmas *)

Lemma res_ok_bind {E A B} {r : res E A} {a : A} {f : A → res E B} (H : r = Ok a) : (r ≫= f) = f a.
Proof. by rewrite H. Qed.
Lemma map_res_Ok {E A B} (f : A → res E B) l k :
  map_res f l = Ok k ↔ Forall2 (λ x y, f x = Ok y) l k.
Proof.
  split.
  - revert k. induction l as [|x l IH]; intros k; simpl; [intros [= <-]; constructor|].
    destruct (f x) as [y|] eqn:Hx; simpl; [|done].
    destruct (map_res f l) as [ys|] eqn:Hl; simpl; [|done].
    intros [= <-]. constructor; [done|]. by apply IH.
  - induction 1 as [|x y l k Hx _ IH]; simpl; [done|]. by rewrite Hx; simpl; rewrite IH.
Qed.

Lemma map_res_pure {E A B} (f : A → res E B) (g : A → B) l :
  Forall (λ x, f x = Ok (g x)) l → map_res f l = Ok (map g l).
Proof. intros H. apply map_res_Ok. induction H; constructor; done. Qed.

Lemma py_int_str_of_Z z : py_int (JStr (str_of_Z z)) = Ok z.
Proof. unfold py_int. by rewrite int_of_str_of_Z. Qed.
Lemma py_int_str_decimal z : py_int_str (str_of_Z z) = Ok z.
Proof. apply py_int_str_of_Z. Qed.

Lemma surrogate_run_None i s :
  surrogate_run i s = None ↔ Forall (λ c, is_surrogate c = false) s.
Proof.
  revert i. induction s as [|c s IH]; intros i; simpl; [done|].
  rewrite Forall_cons, <-(IH (S i)). by destruct (is_surrogate c); split; [|intros [? ?]| |intros [? ?]].
Qed.
Lemma check_utf8_ok s : check_utf8 s = Ok tt ↔ Forall (λ c, is_surrogate c = false) s.
Proof.
  rewrite <-(surrogate_run_None 0). unfold check_utf8.
  by destruct (surrogate_run 0 s) as [[[??]?]|].
Qed.

(** ** What the builtins raise *)

Definition is_exception (e : exn) : Prop := isinstance e Exception = true.
Lemma exception_of (c : exn_class) m : issubclass c Exception = true → is_exception (Exn c m).
Proof. done. Qed.

Lemma res_bind_raises {A B} (P : exn → Prop) (r : pyres A) (f : A → pyres B) :
  raises_only P r → (∀ a, raises_only P (f a)) → raises_only P (r ≫= f).
Proof. destruct r; simpl; auto. Qed.
Lemma check_utf8_raises s : raises_only is_exception (check_utf8 s).
Proof. unfold check_utf8. by repeat case_match. Qed.
Lemma py_int_raises j : raises_only is_exception (py_int j).
Proof. destruct j; unfold py_int, res_of_option; by repeat case_match. Qed.
Lemma py_for_raises j : raises_only is_exception (py_for j).
Proof. unfold py_for. by destruct (py_iter j). Qed.
Lemma py_loads_raises s : raises_only is_exception (py_loads s).
Proof. unfold py_loads. by destruct (loads s). Qed.
Lemma map_res_raises {A B} (f : A → pyres B) l :
  (∀ a, raises_only is_exception (f a)) → raises_only is_exception (map_res f l).
Proof.
  intros Hf. induction l as [|a l IH]; simpl; [done|].
  apply res_bind_raises; [done|intros b]. by apply res_bind_raises.
Qed.
#[export] Hint Resolve res_bind_raises check_utf8_raises py_int_raises py_for_raises
  py_loads_raises map_res_raises exception_of : within.
#[export] Hint Extern 1 (issubclass _ _ = true) => reflexivity : within.
#[export] Hint Extern 2 (is_exception _) => reflexivity : within.
#[export] Hint Extern 2 (raises_only _ (Ok _)) => exact I : within.

Ltac raises :=
  repeat first [solve [eauto 3 with within] | apply res_bind_raises; [|intros ?] | progress simpl | case_match].
