(* ===== verification/Protocol.v ===== *)
(** * The daemon's wire protocol (src/src/sourceos_gate/protocol.py)

    Response objects, the mapping from exceptions to error codes, and the
    required-field check. *)
From S2P Require Import Prelude PyStr PyJson Errors PyOps.

Record RpcError := { code : pystr; message : pystr }.

Definition to_dict (e : RpcError) : json :=
  JDict [(u "code", JStr (code e)); (u "message", JStr (message e))].

Definition ok_response (req_id : json) (result : json) : json :=
  JDict [(u "id", req_id); (u "ok", JBool true); (u "result", result); (u "error", JNull)].

Definition err_response (req_id : json) (err : RpcError) : json :=
  JDict [(u "id", req_id); (u "ok", JBool false); (u "result", JNull); (u "error", to_dict err)].

(** [str(e) or dflt] *)
Definition str_or (e : exn) (dflt : pystr) : pystr :=
  match exn_str e with [] => dflt | s => s end.

Definition map_error (e : exn) : RpcError :=
  if isinstance e ReplayError then {| code := u "replay"; message := str_or e (u "replay detected") |}
  else if isinstance e ExpiredGrantError then {| code := u "expired"; message := str_or e (u "grant expired") |}
  else if isinstance e BaselineMissingError then
    {| code := u "baseline_missing"; message := str_or e (u "nft baseline missing") |}
  else if isinstance e NftError then {| code := u "nft"; message := str_or e (u "nft error") |}
  else if isinstance e ValidationError then {| code := u "invalid"; message := str_or e (u "invalid request") |}
  else if isinstance e GateError then {| code := u "gate"; message := str_or e (u "gate error") |}
  else {| code := u "internal"; message := class_name (exn_type e) ++ u ": " ++ exn_str e |}.

Fixpoint require_fields (obj : dict) (fields : list pystr) : pyres unit :=
  match fields with
  | [] => Ok tt
  | f :: fs => if dict_has f obj then require_fields obj fs
               else Err (Exn ValidationError (u "missing field: " ++ f))
  end.

(** ** Lemmas *)

Lemma require_fields_ok obj fields :
  require_fields obj fields = Ok tt ↔ Forall (λ f, is_Some (dict_get f obj)) fields.
Proof.
  induction fields as [|f fs IH]; simpl; [done|]. unfold dict_has.
  case_bool_decide as H; rewrite Forall_cons; [|naive_solver]. rewrite IH. naive_solver.
Qed.
