(* ===== verification/TimeUtil.v ===== *)
(** * Time formatting (src/src/sourceos_gate/timeutil.py)

    [iso_utc t] is [time.strftime("%Y-%m-%dT%H:%M:%SZ", time.gmtime(t))] for a
    whole number of seconds [t] since 1970: the proleptic Gregorian date of the
    day [t / 86400] by era of 400 years, then the time of day. *)
From S2P Require Import Prelude PyStr.
#[local] Open Scope Z_scope.

Record civil := Civil { year : Z; month : Z; day : Z }.

Definition civil_from_days (days : Z) : civil :=
  let z := days + 719468 in
  let era := z / 146097 in
  let doe := z mod 146097 in
  let yoe := (doe - doe / 1460 + doe / 36524 - doe / 146096) / 365 in
  let doy := doe - (365 * yoe + yoe / 4 - yoe / 100) in
  let mp := (5 * doy + 2) / 153 in
  let m := if mp <? 10 then mp + 3 else mp - 9 in
  Civil (yoe + era * 400 + (if m <=? 2 then 1 else 0)) m (doy - (153 * mp + 2) / 5 + 1).

Definition pad2 (z : Z) : pystr := (if z <? 10 then u "0" else []) ++ str_of_Z z.

Definition iso_utc (t : Z) : pystr :=
  let c := civil_from_days (t / 86400) in
  let s := t mod 86400 in
  str_of_Z (year c) ++ u "-" ++ pad2 (month c) ++ u "-" ++ pad2 (day c) ++ u "T"
    ++ pad2 (s / 3600) ++ u ":" ++ pad2 (s / 60 mod 60) ++ u ":" ++ pad2 (s mod 60) ++ u "Z".

(** Lemmas *)

Lemma pad2_length z : 0 <= z < 100 → length (pad2 z) = 2%nat.
Proof.
  intros Hz. unfold pad2.
  assert (∀ n : nat, (n < 100)%nat →
    length ((if Z.of_nat n <? 10 then u "0" else []) ++ str_of_Z (Z.of_nat n)) = 2%nat) as H.
  { intros n Hn. do 100 (destruct n as [|n]; [reflexivity|]). lia. }
  specialize (H (Z.to_nat z)). rewrite Z2Nat.id in H by lia. apply H. lia.
Qed.
