(* ===== verification/World.v ===== *)
(** * The world the gate runs in

    What the gate's code reads and changes outside its own variables: the wall
    clock, the sqlite database of the store root, the files under it, the nft
    kernel state, and the process's effective user.  The clock and the [nft]
    program are not part of the repository: they are the parameters of [Env]. *)
From S2P Require Import Prelude PyStr PyJson Errors PyOps TimeUtil.

(** ** Processes: [subprocess.CompletedProcess] *)

Record completed := { returncode : Z; stdout : pystr; stderr : pystr }.

(** The external world: [clock n] is the value, in whole seconds, of the [n]-th
    reading of the wall clock; [spawn argv stdin k] runs a command when the
    kernel's nft state is [k], and either completes or cannot be started (the
    message of the [FileNotFoundError]). *)
Class Env (K : Type) := {
  clock : nat → Z;
  spawn : list pystr → pystr → K → K * res pystr completed
}.

(** ** The sqlite database (the schema of [GateStore.init])

    A table is the list of its rows in insertion order, [None] before the
    [CREATE TABLE]. *)

Record ReplayRow := {
  rp_token_id : pystr; rp_nonce : pystr; rp_exp : Z; rp_seen_at : Z
}.
Record GrantRow := {
  gr_token_id : pystr; gr_nonce : pystr; gr_exp : Z; gr_proto : pystr;
  gr_targets_json : pystr; gr_ports_json : pystr; gr_installed_at : Z
}.
Record Db := {
  replay : option (list ReplayRow);
  grants : option (list GrantRow);
  grants_exp_idx : bool
}.
Definition empty_db : Db := {| replay := None; grants := None; grants_exp_idx := false |}.

Abbreviation path := (list pystr).
(** [p.as_posix()] of an absolute path *)
Definition posix (p : path) : pystr := u "/" ++ join (u "/") p.

Record World (K : Type) := {
  w_db : option Db;            (* None: no database file *)
  w_fs : gmap path pystr;      (* the text files: under the store root for the gate, by absolute path for the tools *)
  w_kernel : K;
  w_euid : Z;
  w_tick : nat                 (* readings of the outside (clock and random source) so far *)
}.
Arguments w_db {_} _. Arguments w_fs {_} _. Arguments w_kernel {_} _.
Arguments w_euid {_} _. Arguments w_tick {_} _.

Definition set_db {K : Type} (d : option Db) (w : World K) : World K :=
  {| w_db := d; w_fs := w_fs w; w_kernel := w_kernel w; w_euid := w_euid w; w_tick := w_tick w |}.
Definition set_fs {K : Type} (f : gmap path pystr) (w : World K) : World K :=
  {| w_db := w_db w; w_fs := f; w_kernel := w_kernel w; w_euid := w_euid w; w_tick := w_tick w |}.
Definition set_kernel {K : Type} (k : K) (w : World K) : World K :=
  {| w_db := w_db w; w_fs := w_fs w; w_kernel := k; w_euid := w_euid w; w_tick := w_tick w |}.
Definition tick {K : Type} (w : World K) : World K :=
  {| w_db := w_db w; w_fs := w_fs w; w_kernel := w_kernel w; w_euid := w_euid w; w_tick := S (w_tick w) |}.

(** Programs over the world. *)
Abbreviation W K := (M exn (World K)).

Section world.
Context {K : Type} `{Env K}.

Definition now_epoch : W K Z := λ w, (tick w, Ok (clock (w_tick w))).
Definition now_iso_utc : W K pystr := λ w, (tick w, Ok (iso_utc (clock (w_tick w)))).

(** [subprocess.run(argv, input=stdin, text=True, capture_output=True)]: an
    input that UTF-8 cannot encode is refused after the child has started, and
    the child is killed before it has read anything. *)
Definition subprocess_run (argv : list pystr) (stdin : pystr) : W K completed := λ w,
  match check_utf8 stdin, spawn argv stdin (w_kernel w), spawn argv [] (w_kernel w) with
  | Ok _, (k, Ok r), _ => (set_kernel k w, Ok r)
  | Ok _, (_, Err msg), _ | Err _, _, (_, Err msg) => (w, Err (Exn FileNotFoundError msg))
  | Err e, _, _ => (w, Err e)
  end.
End world.
