(* ===== verification/Store.v ===== *)
(** * The grant store (src/src/sourceos_gate/store.py)

    Each definition is the method of [GateStore] of the same name.  Statements
    run on the database of the world; [with_conn] is [with self.connect() as
    conn:], which commits when its body returns and rolls back when it raises.
    SQL leaves the order of rows with equal [installed_at] open; [list_active]
    keeps them in insertion order, and no theorem depends on it. *)
From S2P Require Import Prelude PyStr PyJson Errors PyOps World.

Record Grant := {
  g_token_id : pystr; g_nonce : pystr; g_exp : Z;
  g_targets : json; g_ports : list Z; g_proto : pystr; g_installed_at : Z
}.

(** ** sqlite3 parameters and statements *)

(** A Python [int] parameter is a 64-bit integer; a [str] is encoded in UTF-8. *)
Definition int64 (z : Z) : bool := ((- 2 ^ 63 <=? z) && (z <? 2 ^ 63))%Z.
Definition bind_int (z : Z) : pyres unit :=
  if int64 z then Ok tt
  else Err (Exn OverflowError (u "Python int too large to convert to SQLite INTEGER")).

Definition bind_text (s : pystr) : pyres unit := check_utf8 s.

Definition no_such_table {A} (t : pystr) : pyres A := Err (Exn OperationalError (u "no such table: " ++ t)).

Definition create_tables (db : Db) : Db :=
  {| replay := Some (default [] (replay db));
     grants := Some (default [] (grants db));
     grants_exp_idx := true |}.

Definition replay_key (r : ReplayRow) : pystr * pystr := (rp_token_id r, rp_nonce r).
Definition grant_key (r : GrantRow) : pystr * pystr := (gr_token_id r, gr_nonce r).

Definition insert_replay (r : ReplayRow) (db : Db) : pyres Db :=
  match replay db with
  | None => no_such_table (u "replay")
  | Some rows =>
      _ ← bind_text (rp_token_id r); _ ← bind_text (rp_nonce r);
      _ ← bind_int (rp_exp r); _ ← bind_int (rp_seen_at r);
      if decide (replay_key r ∈ map replay_key rows)
      then Err (Exn IntegrityError (u "UNIQUE constraint failed: replay.token_id, replay.nonce"))
      else Ok {| replay := Some (rows ++ [r]); grants := grants db; grants_exp_idx := grants_exp_idx db |}
  end.

Definition insert_grant (r : GrantRow) (db : Db) : pyres Db :=
  match grants db with
  | None => no_such_table (u "grants")
  | Some rows =>
      _ ← bind_text (gr_token_id r); _ ← bind_text (gr_nonce r); _ ← bind_int (gr_exp r);
      _ ← bind_text (gr_proto r); _ ← bind_text (gr_targets_json r);
      _ ← bind_text (gr_ports_json r); _ ← bind_int (gr_installed_at r);
      if decide (grant_key r ∈ map grant_key rows)
      then Err (Exn IntegrityError (u "UNIQUE constraint failed: grants.token_id, grants.nonce"))
      else Ok {| replay := replay db; grants := Some (rows ++ [r]); grants_exp_idx := grants_exp_idx db |}
  end.

Definition expired (cutoff : Z) (r : GrantRow) : Prop := (gr_exp r <= cutoff)%Z.
Definition active (cutoff : Z) (r : GrantRow) : Prop := (cutoff < gr_exp r)%Z.
Global Instance expired_dec c r : Decision (expired c r) := decide (gr_exp r <= c)%Z.
Global Instance active_dec c r : Decision (active c r) := decide (c < gr_exp r)%Z.

Definition count_expired (cutoff : Z) (db : Db) : pyres Z :=
  match grants db with
  | None => no_such_table (u "grants")
  | Some rows => _ ← bind_int cutoff; Ok (Z.of_nat (length (filter (expired cutoff) rows)))
  end.
Definition delete_expired (cutoff : Z) (db : Db) : pyres Db :=
  match grants db with
  | None => no_such_table (u "grants")
  | Some rows =>
      _ ← bind_int cutoff;
      Ok {| replay := replay db; grants := Some (filter (λ r, ¬ expired cutoff r) rows);
            grants_exp_idx := grants_exp_idx db |}
  end.

Definition installed_le (a b : GrantRow) : Prop := (gr_installed_at a <= gr_installed_at b)%Z.
Global Instance installed_le_dec : RelDecision installed_le :=
  λ a b, decide (gr_installed_at a <= gr_installed_at b)%Z.
Definition select_active (cutoff : Z) (db : Db) : pyres (list GrantRow) :=
  match grants db with
  | None => no_such_table (u "grants")
  | Some rows => _ ← bind_int cutoff; Ok (merge_sort installed_le (filter (active cutoff) rows))
  end.

(** ** The methods *)

Section store.
Context {K : Type} `{Env K}.

Definition connect : W K unit :=
  modify (λ w, set_db (Some (default empty_db (w_db w))) w).

Definition with_conn {A} (body : W K A) : W K A := λ w,
  let w1 := (connect w).1 in
  match body w1 with
  | (w2, Ok a) => (w2, Ok a)
  | (w2, Err e) => (set_db (w_db w1) w2, Err e)
  end.

(** [conn.execute] of a statement that writes, and of one that reads. *)
Definition execute (f : Db → pyres Db) : W K unit := λ w,
  match f (default empty_db (w_db w)) with
  | Ok db => (set_db (Some db) w, Ok tt)
  | Err e => (w, Err e)
  end.
Definition query {A} (f : Db → pyres A) : W K A := λ w, (w, f (default empty_db (w_db w))).

Definition init : W K unit := with_conn (execute (λ db, Ok (create_tables db))).

(** [except sqlite3.IntegrityError as e: raise ReplayError("replay detected")] *)
Definition record_replay (token_id nonce : pystr) (exp : Z) : W K unit :=
  seen_at ← now_epoch;
  catch
    (execute (insert_replay {| rp_token_id := token_id; rp_nonce := nonce; rp_exp := exp; rp_seen_at := seen_at |}))
    (λ e, if isinstance e IntegrityError then raise (Exn ReplayError (u "replay detected")) else raise e).

(** [p = (proto or "tcp").lower()], anything but tcp and udp becoming tcp *)
Definition normalize_proto (proto : pystr) : pystr :=
  let p := lower (match proto with [] => u "tcp" | _ => proto end) in
  if decide (p ∈ [u "tcp"; u "udp"]) then p else u "tcp".

Definition install_grant (token_id nonce : pystr) (exp : Z) (targets : list pystr) (ports : list Z)
    (proto : pystr) : W K Grant :=
  now ← now_epoch;
  if (exp <=? now)%Z then raise (Exn ExpiredGrantError (u "grant expired")) else
  let tlist := JList (map JStr targets) in
  let plist := JList (map JInt ports) in
  let p := normalize_proto proto in
  _ ← init;
  _ ← with_conn (
    _ ← record_replay token_id nonce exp;
    at_ ← now_epoch;
    execute (insert_grant
      {| gr_token_id := token_id; gr_nonce := nonce; gr_exp := exp; gr_proto := p;
         gr_targets_json := dumps opts_default false tlist;
         gr_ports_json := dumps opts_default false plist; gr_installed_at := at_ |}));
  installed_at ← now_epoch;
  mret {| g_token_id := token_id; g_nonce := nonce; g_exp := exp; g_targets := tlist; g_ports := ports;
          g_proto := p; g_installed_at := installed_at |}.

Definition prune_expired : W K Z :=
  _ ← init;
  cutoff ← now_epoch;
  with_conn (
    to_delete ← query (count_expired cutoff);
    _ ← execute (delete_expired cutoff);
    mret to_delete).

Definition grant_of_row (r : GrantRow) : pyres Grant :=
  targets ← py_loads (gr_targets_json r);
  ports_json ← py_loads (gr_ports_json r);
  items ← py_for ports_json;
  ports ← map_res py_int items;
  Ok {| g_token_id := gr_token_id r; g_nonce := gr_nonce r; g_exp := gr_exp r; g_targets := targets;
        g_ports := ports; g_proto := gr_proto r; g_installed_at := gr_installed_at r |}.

Definition list_active : W K (list Grant) :=
  _ ← init;
  cutoff ← now_epoch;
  with_conn (
    rows ← query (select_active cutoff);
    lift (map_res grant_of_row rows)).

Definition sets : Type := gset pystr * gset pystr * gset pystr.

(** [addrs.add(t.replace("/32", ""))] *)
Definition add_target (addrs : gset pystr) (t : json) : pyres (gset pystr) :=
  match t with
  | JStr s => Ok ({[ replace (u "/32") [] s ]} ∪ addrs)
  | _ => no_attr t (u "replace")
  end.
Fixpoint add_targets (addrs : gset pystr) (ts : list json) : pyres (gset pystr) :=
  match ts with
  | [] => Ok addrs
  | t :: ts' => addrs' ← add_target addrs t; add_targets addrs' ts'
  end.
Definition add_ports (s : gset pystr) (ports : list Z) : gset pystr :=
  foldl (λ s p, {[ str_of_Z p ]} ∪ s) s ports.

Definition add_grant (acc : sets) (g : Grant) : pyres sets :=
  let '(addrs, tcp_ports, udp_ports) := acc in
  ts ← py_for (g_targets g);
  addrs' ← add_targets addrs ts;
  Ok (if decide (g_proto g = u "udp")
      then (addrs', tcp_ports, add_ports udp_ports (g_ports g))
      else (addrs', add_ports tcp_ports (g_ports g), udp_ports)).
Fixpoint add_grants (acc : sets) (gs : list Grant) : pyres sets :=
  match gs with
  | [] => Ok acc
  | g :: gs' => acc' ← add_grant acc g; add_grants acc' gs'
  end.

Definition compute_active_sets : W K sets :=
  gs ← list_active;
  lift (add_grants (∅, ∅, ∅) gs).
End store.
