(* ===== verification/StoreFacts.v ===== *)
(** * Facts about the grant store

    The two tables as the store's methods observe them, the well-formedness
    invariant of the rows, and the effect of each method on the tables. *)
From S2P Require Import Prelude PyStr PyJson PyJsonRoundtrip PyJsonStrings Errors PyOps World.
From S2P Require Import Store.

(** ** Observations *)

Definition replay_rows {K : Type} (w : World K) : list ReplayRow :=
  default [] (replay (default empty_db (w_db w))).
Definition grant_rows {K : Type} (w : World K) : list GrantRow :=
  default [] (grants (default empty_db (w_db w))).

(** What [install_grant] writes in a row. *)
Record row_ok (r : GrantRow) : Prop := {
  row_proto : gr_proto r ∈ [u "tcp"; u "udp"];
  row_targets : ∃ ts, Forall (λ t, str_ok t = true) ts ∧
    gr_targets_json r = dumps opts_default false (JList (map JStr ts));
  row_ports : ∃ ps, gr_ports_json r = dumps opts_default false (JList (map JInt ps))
}.

(** Primary keys are distinct, every grant was recorded against replay with its
    expiry, and every row is one [install_grant] writes. *)
Record rows_ok (rs : list ReplayRow) (gs : list GrantRow) : Prop := {
  replay_keys : NoDup (map replay_key rs);
  grant_keys : NoDup (map grant_key gs);
  grants_seen : ∀ g, g ∈ gs → ∃ r, r ∈ rs ∧ replay_key r = grant_key g ∧ rp_exp r = gr_exp g;
  grants_row_ok : ∀ g, g ∈ gs → row_ok g
}.
Definition store_inv {K : Type} (w : World K) : Prop := rows_ok (replay_rows w) (grant_rows w).

(** The parameter checks sqlite makes on the key and the integers of a row. *)
Definition bind_row (token_id nonce : pystr) (exp t : Z) : pyres unit :=
  _ ← bind_text token_id; _ ← bind_text nonce; _ ← bind_int exp; bind_int t.

(** What a row says, decoded. *)
Definition json_strs (j : json) : list pystr :=
  match j with JList l => omap (λ x, match x with JStr s => Some s | _ => None end) l | _ => [] end.
Definition json_ints (j : json) : list Z :=
  match j with JList l => omap (λ x, match x with JInt z => Some z | _ => None end) l | _ => [] end.
Definition targets_of_row (r : GrantRow) : list pystr :=
  match py_loads (gr_targets_json r) with Ok j => json_strs j | Err _ => [] end.
Definition ports_of_row (r : GrantRow) : list Z :=
  match py_loads (gr_ports_json r) with Ok j => json_ints j | Err _ => [] end.
Definition decoded (r : GrantRow) : Grant :=
  {| g_token_id := gr_token_id r; g_nonce := gr_nonce r; g_exp := gr_exp r;
     g_targets := JList (map JStr (targets_of_row r)); g_ports := ports_of_row r;
     g_proto := gr_proto r; g_installed_at := gr_installed_at r |}.

(** The sets a list of rows grants: the /32 suffix dropped from the targets,
    the ports in decimal, split by protocol. *)
Definition norm_target (t : pystr) : pystr := replace (u "/32") [] t.
Definition row_addrs (r : GrantRow) : gset pystr := list_to_set (map norm_target (targets_of_row r)).
Definition row_port_set (r : GrantRow) : gset pystr := list_to_set (map str_of_Z (ports_of_row r)).
Definition is_udp (r : GrantRow) : Prop := gr_proto r = u "udp".
Global Instance is_udp_dec r : Decision (is_udp r) := decide (gr_proto r = u "udp").
Definition rows_sets (gs : list GrantRow) : sets :=
  (⋃ map row_addrs gs, ⋃ map row_port_set (filter (λ r, ¬ is_udp r) gs),
   ⋃ map row_port_set (filter is_udp gs)).

(** ** sqlite parameters *)

Lemma bind_text_line s : line_ok s → bind_text s = Ok tt.
Proof. intros H. by apply check_utf8_ok, text_no_surrogate, line_text. Qed.

(** ** Reading rows back *)

Lemma wf_strs ts : Forall (λ t, str_ok t = true) ts → wf_json (JList (map JStr ts)) = true.
Proof. intros H. simpl. induction H as [|t ts Ht _ IH]; [done|]. simpl. by rewrite Ht. Qed.
Lemma wf_ints ps : wf_json (JList (map JInt ps)) = true.
Proof. simpl. by induction ps. Qed.

Lemma loads_strs ts : Forall (λ t, str_ok t = true) ts →
  py_loads (dumps opts_default false (JList (map JStr ts))) = Ok (JList (map JStr ts)).
Proof.
  intros H. unfold py_loads.
  by rewrite (loads_dumps opts_default false _ opts_default_ok (wf_strs ts H)).
Qed.
Lemma loads_ints ps :
  py_loads (dumps opts_default false (JList (map JInt ps))) = Ok (JList (map JInt ps)).
Proof.
  unfold py_loads. by rewrite (loads_dumps opts_default false _ opts_default_ok (wf_ints ps)).
Qed.
Lemma map_py_int ps : map_res py_int (map JInt ps) = Ok ps.
Proof. induction ps as [|p ps IH]; simpl; [done|]. by rewrite IH. Qed.

(** A row written by [install_grant] decodes to what was installed. *)
Lemma grant_of_row_ok r ts ps :
  Forall (λ t, str_ok t = true) ts →
  gr_targets_json r = dumps opts_default false (JList (map JStr ts)) →
  gr_ports_json r = dumps opts_default false (JList (map JInt ps)) →
  grant_of_row r =
    Ok {| g_token_id := gr_token_id r; g_nonce := gr_nonce r; g_exp := gr_exp r;
          g_targets := JList (map JStr ts); g_ports := ps; g_proto := gr_proto r;
          g_installed_at := gr_installed_at r |}.
Proof.
  intros Hts Ht Hp. unfold grant_of_row. rewrite Ht, Hp, loads_strs by done.
  cbn [mbind res_bind]. rewrite loads_ints. cbn [mbind res_bind py_for py_iter res_of_option].
  by rewrite map_py_int.
Qed.

Lemma json_strs_map ts : json_strs (JList (map JStr ts)) = ts.
Proof. simpl. induction ts as [|t ts IH]; [done|]. simpl. f_equal. exact IH. Qed.
Lemma json_ints_map ps : json_ints (JList (map JInt ps)) = ps.
Proof. simpl. induction ps as [|p ps IH]; [done|]. simpl. f_equal. exact IH. Qed.

Lemma targets_of_row_dumps r ts :
  Forall (λ t, str_ok t = true) ts →
  gr_targets_json r = dumps opts_default false (JList (map JStr ts)) → targets_of_row r = ts.
Proof. intros Hts H. unfold targets_of_row. by rewrite H, loads_strs, json_strs_map. Qed.
Lemma ports_of_row_dumps r ps :
  gr_ports_json r = dumps opts_default false (JList (map JInt ps)) → ports_of_row r = ps.
Proof. intros H. unfold ports_of_row. by rewrite H, loads_ints, json_ints_map. Qed.

Lemma grant_of_row_decoded r : row_ok r → grant_of_row r = Ok (decoded r).
Proof.
  intros [_ (ts & Hts & Ht) (ps & Hp)]. rewrite (grant_of_row_ok r ts ps) by done.
  unfold decoded. by rewrite (targets_of_row_dumps r ts), (ports_of_row_dumps r ps).
Qed.

(** ** The sets of decoded grants *)

Lemma add_targets_strs A ts :
  add_targets A (map JStr ts) = Ok (list_to_set (map norm_target ts) ∪ A).
Proof.
  revert A. induction ts as [|t ts IH]; intros A; simpl; [by rewrite (left_id_L ∅ (∪))|].
  rewrite IH. f_equal. unfold norm_target. set_solver.
Qed.
Lemma add_ports_union A ps : add_ports A ps = list_to_set (map str_of_Z ps) ∪ A.
Proof.
  unfold add_ports. revert A. induction ps as [|p ps IH]; intros A; simpl; [by rewrite (left_id_L ∅ (∪))|].
  rewrite IH. set_solver.
Qed.
Lemma union_map_Permutation (f : GrantRow → gset pystr) l l' :
  l ≡ₚ l' → ⋃ map f l = ⋃ map f l'.
Proof.
  induction 1 as [|x l l' _ IH|x y l|l l' l'' _ IH1 _ IH2]; simpl; [done|by rewrite IH| |congruence].
  by rewrite !(assoc_L (∪)), (comm_L (∪) (f x)).
Qed.
Lemma rows_sets_Permutation gs gs' : gs ≡ₚ gs' → rows_sets gs = rows_sets gs'.
Proof.
  intros Hp. unfold rows_sets. rewrite (union_map_Permutation row_addrs gs gs' Hp).
  by rewrite !(union_map_Permutation row_port_set _ _ (filter_Permutation _ _ _ Hp)).
Qed.
Lemma rows_sets_cons g gs :
  rows_sets (g :: gs) =
    let '(A, T, U) := rows_sets gs in
    if decide (is_udp g) then (row_addrs g ∪ A, T, row_port_set g ∪ U)
    else (row_addrs g ∪ A, row_port_set g ∪ T, U).
Proof.
  unfold rows_sets. rewrite !filter_cons. destruct (decide (is_udp g)) as [Hu|Hu].
  - by rewrite decide_False by tauto.
  - by rewrite decide_True by done.
Qed.
Lemma add_grant_decoded A T U g :
  add_grant (A, T, U) (decoded g) =
    Ok (if decide (is_udp g) then (row_addrs g ∪ A, T, row_port_set g ∪ U)
        else (row_addrs g ∪ A, row_port_set g ∪ T, U)).
Proof.
  unfold add_grant, decoded. cbn [g_targets g_proto g_ports py_for py_iter res_of_option mbind res_bind].
  rewrite add_targets_strs. cbn [mbind res_bind]. by rewrite !add_ports_union.
Qed.
Lemma add_grants_decoded A T U gs :
  add_grants (A, T, U) (map decoded gs) =
    Ok ((rows_sets gs).1.1 ∪ A, (rows_sets gs).1.2 ∪ T, (rows_sets gs).2 ∪ U).
Proof.
  revert A T U. induction gs as [|g gs IH]; intros A T U.
  { cbn. by rewrite !(left_id_L ∅ (∪)). }
  cbn [map add_grants]. rewrite add_grant_decoded, rows_sets_cons. cbn [mbind res_bind].
  destruct (rows_sets gs) as [[A' T'] U']. cbn [fst snd] in IH.
  destruct (decide (is_udp g)); rewrite IH; cbn [fst snd]; by rewrite !(assoc_L (∪)), ?(comm_L (∪) _ (row_addrs g)),
    ?(comm_L (∪) _ (row_port_set g)).
Qed.

Lemma normalize_proto_ok p : normalize_proto p ∈ [u "tcp"; u "udp"].
Proof. unfold normalize_proto. case_decide; [done|]. set_solver. Qed.

Lemma proto_line p : p ∈ [u "tcp"; u "udp"] → line_ok p.
Proof.
  intros Hp. assert (p = u "tcp" ∨ p = u "udp") as [-> | ->] by set_solver; by repeat constructor.
Qed.

(** ** Running the methods *)

Section run.
Context {K : Type} `{Env K}.
Implicit Types w : World K.

(** The database after [init], whatever was there. *)
Definition ready w : World K := set_db (Some (create_tables (default empty_db (w_db w)))) w.

Lemma run_init w : init w = (ready w, Ok tt).
Proof. done. Qed.
Lemma ready_rows w : replay_rows (ready w) = replay_rows w ∧ grant_rows (ready w) = grant_rows w.
Proof. done. Qed.
Lemma ready_tables w :
  w_db (ready w) = Some {| replay := Some (replay_rows w); grants := Some (grant_rows w);
                           grants_exp_idx := true |}.
Proof. done. Qed.

Lemma run_with_conn {A} (body : W K A) w db :
  w_db w = Some db →
  with_conn body w =
    match body w with
    | (w', Ok a) => (w', Ok a)
    | (w', Err e) => (set_db (Some db) w', Err e)
    end.
Proof.
  intros Hdb. unfold with_conn, connect, modify. cbn [fst]. rewrite Hdb. cbn [from_option id].
  assert (set_db (Some db) w = w) as -> by (destruct w; simpl in Hdb; by subst).
  by rewrite Hdb.
Qed.

Lemma insert_replay_ready db rs tok nonce exp t :
  replay db = Some rs →
  insert_replay {| rp_token_id := tok; rp_nonce := nonce; rp_exp := exp; rp_seen_at := t |} db =
    _ ← bind_row tok nonce exp t;
    if decide ((tok, nonce) ∈ map replay_key rs)
    then Err (Exn IntegrityError (u "UNIQUE constraint failed: replay.token_id, replay.nonce"))
    else Ok {| replay := Some (rs ++ [{| rp_token_id := tok; rp_nonce := nonce; rp_exp := exp; rp_seen_at := t |}]);
               grants := grants db; grants_exp_idx := grants_exp_idx db |}.
Proof.
  intros Hdb. unfold insert_replay, bind_row. rewrite Hdb. simpl.
  destruct (bind_text tok); simpl; [|done]. destruct (bind_text nonce); simpl; [|done].
  destruct (bind_int exp); simpl; [|done]. by destruct (bind_int t).
Qed.

Lemma insert_grant_ready db gs g :
  grants db = Some gs → line_ok (gr_proto g) → line_ok (gr_targets_json g) →
  line_ok (gr_ports_json g) → grant_key g ∉ map grant_key gs →
  insert_grant g db =
    _ ← bind_row (gr_token_id g) (gr_nonce g) (gr_exp g) (gr_installed_at g);
    Ok {| replay := replay db; grants := Some (gs ++ [g]); grants_exp_idx := grants_exp_idx db |}.
Proof.
  intros Hdb Hp Ht Hq Hkey. unfold insert_grant, bind_row. rewrite Hdb.
  destruct (bind_text (gr_token_id g)); simpl; [|done].
  destruct (bind_text (gr_nonce g)); simpl; [|done].
  destruct (bind_int (gr_exp g)); simpl; [|done].
  rewrite !bind_text_line by done. simpl. destruct (bind_int (gr_installed_at g)); simpl; [|done].
  by rewrite decide_False.
Qed.

Lemma run_prune w :
  let c := clock (w_tick w) in
  prune_expired w =
    match bind_int c with
    | Err e => (tick (ready w), Err e)
    | Ok _ =>
        (set_db (Some {| replay := Some (replay_rows w);
                         grants := Some (filter (λ r, ¬ expired c r) (grant_rows w));
                         grants_exp_idx := true |}) (tick w),
         Ok (Z.of_nat (length (filter (expired c) (grant_rows w)))))
    end.
Proof.
  intros c. unfold prune_expired. rewrite run_bind, run_init, run_bind. cbn [now_epoch].
  change (clock (w_tick (ready w))) with c.
  rewrite (run_with_conn _ _ _ (ready_tables (tick w))). rewrite run_bind.
  unfold query, count_expired. cbn [w_db tick ready set_db from_option id create_tables grants].
  destruct (bind_int c) as [[]|e] eqn:Hc; cbn [mbind res_bind]; [|reflexivity].
  rewrite run_bind. unfold execute, delete_expired.
  cbn [w_db tick ready set_db from_option id create_tables grants]. rewrite Hc. reflexivity.
Qed.

Lemma run_list_active w :
  let c := clock (w_tick w) in
  list_active w =
    (tick (ready w),
     _ ← bind_int c;
     map_res grant_of_row (merge_sort installed_le (filter (active c) (grant_rows w)))).
Proof.
  intros c. unfold list_active. rewrite run_bind, run_init, run_bind. cbn [now_epoch].
  change (clock (w_tick (ready w))) with c.
  rewrite (run_with_conn _ _ _ (ready_tables (tick w))). rewrite run_bind.
  unfold query, select_active. cbn [w_db tick ready set_db from_option id create_tables grants].
  destruct (bind_int c) as [[]|e] eqn:Hc; cbn [mbind res_bind]; [|reflexivity].
  unfold lift. by destruct (map_res _ _).
Qed.

(** The grants and the sets computed from well-formed rows. *)
Lemma run_list_active_inv w :
  store_inv w →
  let c := clock (w_tick w) in
  list_active w =
    (tick (ready w),
     _ ← bind_int c; Ok (map decoded (merge_sort installed_le (filter (active c) (grant_rows w))))).
Proof.
  intros Hinv c. rewrite run_list_active. fold c. f_equal. destruct (bind_int c); [|done]. simpl.
  apply map_res_pure, Forall_forall. intros r Hr. apply grant_of_row_decoded.
  rewrite merge_sort_Permutation in Hr. apply list_elem_of_filter in Hr as [_ Hr].
  by apply (grants_row_ok _ _ Hinv).
Qed.

Lemma run_compute_active_sets w :
  store_inv w →
  let c := clock (w_tick w) in
  compute_active_sets w =
    (tick (ready w), _ ← bind_int c; Ok (rows_sets (filter (active c) (grant_rows w)))).
Proof.
  intros Hinv c. unfold compute_active_sets. rewrite run_bind, run_list_active_inv by done.
  fold c. destruct (bind_int c); [|done]. cbn [mbind res_bind]. unfold lift. f_equal.
  rewrite add_grants_decoded, !(right_id_L ∅ (∪)).
  rewrite (rows_sets_Permutation _ (filter (active c) (grant_rows w)))
    by apply merge_sort_Permutation.
  by destruct (rows_sets _) as [[??]?].
Qed.

(** The row [install_grant] writes. *)
Definition new_row (tok nonce : pystr) (exp : Z) (targets : list pystr) (ports : list Z)
    (proto : pystr) (t : Z) : GrantRow :=
  {| gr_token_id := tok; gr_nonce := nonce; gr_exp := exp; gr_proto := normalize_proto proto;
     gr_targets_json := dumps opts_default false (JList (map JStr targets));
     gr_ports_json := dumps opts_default false (JList (map JInt ports)); gr_installed_at := t |}.

Lemma bind_row_time tok nonce exp t t' :
  bind_row tok nonce exp t = Ok tt →
  bind_row tok nonce exp t' = bind_int t'.
Proof.
  unfold bind_row. destruct (bind_text tok); simpl; [|done].
  destruct (bind_text nonce); simpl; [|done]. by destruct (bind_int exp).
Qed.

(** [install_grant], on every branch. *)
Lemma run_install_grant tok nonce exp targets ports proto w :
  store_inv w →
  let t i := clock (i + w_tick w) in
  install_grant tok nonce exp targets ports proto w =
    if (exp <=? t 0%nat)%Z then (tick w, Err (Exn ExpiredGrantError (u "grant expired")))
    else match bind_row tok nonce exp (t 1) with
    | Err e => (tick (tick (ready w)), Err e)
    | Ok _ =>
        if decide ((tok, nonce) ∈ map replay_key (replay_rows w))
        then (tick (tick (ready w)), Err (Exn ReplayError (u "replay detected")))
        else match bind_int (t 2) with
        | Err e => (tick (tick (tick (ready w))), Err e)
        | Ok _ =>
            (set_db (Some {|
               replay := Some (replay_rows w ++ [{| rp_token_id := tok; rp_nonce := nonce;
                                                    rp_exp := exp; rp_seen_at := t 1 |}]);
               grants := Some (grant_rows w ++ [new_row tok nonce exp targets ports proto (t 2)]);
               grants_exp_idx := true |}) (tick (tick (tick (tick w)))),
             Ok {| g_token_id := tok; g_nonce := nonce; g_exp := exp;
                   g_targets := JList (map JStr targets); g_ports := ports;
                   g_proto := normalize_proto proto; g_installed_at := t 3 |})
        end
    end.
Proof.
  intros Hinv t. unfold install_grant. rewrite run_bind. cbn [now_epoch].
  change (clock (w_tick w)) with (t 0). destruct (exp <=? t 0%nat)%Z; [done|].
  rewrite run_bind, run_init, run_bind.
  rewrite (run_with_conn _ _ _ (ready_tables (tick w))).
  rewrite run_bind. unfold record_replay at 1. rewrite run_bind. cbn [now_epoch].
  change (clock (w_tick (ready (tick w)))) with (t 1).
  unfold catch, execute at 1. cbn [w_db tick ready set_db from_option id].
  rewrite (insert_replay_ready _ (replay_rows w)) by done.
  destruct (bind_row tok nonce exp (t 1)) as [[]|e] eqn:Hb; cbn [mbind res_bind].
  2: { assert (isinstance e IntegrityError = false) as ->; [|done].
       clear -Hb. unfold bind_row, bind_text, check_utf8, bind_int in Hb.
       repeat case_match; simplify_eq/=; done. }
  case_decide as Hkey; [done|].
  rewrite run_bind. cbn [now_epoch]. change (clock (w_tick (set_db _ _))) with (t 2).
  unfold execute at 1. cbn [w_db tick ready set_db from_option id].
  fold (new_row tok nonce exp targets ports proto (t 2)).
  rewrite (insert_grant_ready _ (grant_rows w)).
  - lazymatch goal with |- context [bind_row ?a ?b ?c ?d] =>
      change (bind_row a b c d) with (bind_row tok nonce exp (t 2)) end.
    rewrite (bind_row_time _ _ _ _ (t 2) Hb). destruct (bind_int (t 2)); done.
  - done.
  - apply proto_line, normalize_proto_ok.
  - apply dumps_line.
  - apply dumps_line.
  - intros Hin. apply Hkey. apply list_elem_of_In, in_map_iff in Hin as (g & Hg & Hin).
    apply list_elem_of_In in Hin. destruct (grants_seen _ _ Hinv g Hin) as (r & Hr & Hk & _).
    apply list_elem_of_In, in_map_iff. exists r. split; [|by apply list_elem_of_In].
    rewrite Hk, Hg. done.
Qed.
End run.

(** ** What the store touches

    Only the database and the clock; and it only raises [Exception]s. *)

Definition store_frame {K : Type} (w w' : World K) : Prop :=
  w_fs w = w_fs w' ∧ w_kernel w = w_kernel w' ∧ w_euid w = w_euid w'.
#[export] Instance store_frame_preorder {K} : PreOrder (@store_frame K).
Proof. split; [done|]. intros ??? (?&?&?) (?&?&?). split_and!; congruence. Qed.

Lemma bind_int_raises z : raises_only is_exception (bind_int z).
Proof. unfold bind_int. by case_match. Qed.
#[export] Hint Resolve bind_int_raises : within.

Section frame.
Context {K : Type} `{Env K}.
Abbreviation inside := (within (@store_frame K) is_exception).

Lemma now_epoch_frame : inside now_epoch.
Proof. by intros w. Qed.
Lemma execute_frame f : (∀ db, raises_only is_exception (f db)) → inside (execute f).
Proof. intros Hf w. unfold execute. specialize (Hf (default empty_db (w_db w))). by destruct (f _). Qed.
Lemma query_frame {A} (f : Db → pyres A) : (∀ db, raises_only is_exception (f db)) → inside (query f).
Proof. intros Hf w. split; [done|apply Hf]. Qed.
Lemma with_conn_frame {A} (body : W K A) : inside body → inside (with_conn body).
Proof.
  intros Hb w. unfold with_conn. destruct (Hb (connect w).1) as [Hf Hr].
  by destruct (body _) as [w2 [a|e]].
Qed.
End frame.
#[export] Hint Resolve now_epoch_frame execute_frame query_frame : within.
#[export] Hint Extern 3 (within store_frame _ (with_conn _)) => (apply with_conn_frame; within) : within.

Section frame_methods.
Context {K : Type} `{Env K}.
Abbreviation inside := (within (@store_frame K) is_exception).

Lemma insert_replay_raises r db : raises_only is_exception (insert_replay r db).
Proof. unfold insert_replay. raises. Qed.
Lemma insert_grant_raises r db : raises_only is_exception (insert_grant r db).
Proof. unfold insert_grant. raises. Qed.
Lemma count_expired_raises c db : raises_only is_exception (count_expired c db).
Proof. unfold count_expired. raises. Qed.
Lemma delete_expired_raises c db : raises_only is_exception (delete_expired c db).
Proof. unfold delete_expired. raises. Qed.
Lemma select_active_raises c db : raises_only is_exception (select_active c db).
Proof. unfold select_active. raises. Qed.
Lemma grant_of_row_raises r : raises_only is_exception (grant_of_row r).
Proof. unfold grant_of_row. raises. Qed.
Lemma add_grants_raises acc gs : raises_only is_exception (add_grants acc gs).
Proof.
  revert acc. induction gs as [|g gs IH]; intros [[A T] U]; simpl; [done|].
  apply res_bind_raises; [|auto]. apply res_bind_raises; [auto with within|intros ts].
  apply res_bind_raises; [|by intros; case_match].
  revert A. induction ts as [|t ts IHt]; intros A; simpl; [done|].
  apply res_bind_raises; [by destruct t|auto].
Qed.
#[local] Hint Resolve insert_replay_raises insert_grant_raises count_expired_raises
  delete_expired_raises select_active_raises grant_of_row_raises add_grants_raises : within.

Lemma init_frame : inside init.
Proof. apply with_conn_frame, execute_frame. done. Qed.
#[local] Hint Resolve init_frame : within.
Lemma record_replay_frame tok nonce exp : inside (record_replay tok nonce exp).
Proof.
  unfold record_replay. within. eapply (within_catch _ is_exception); [by within|].
  intros e He. by within.
Qed.
#[local] Hint Resolve record_replay_frame : within.
Lemma install_grant_frame tok nonce exp ts ps proto : inside (install_grant tok nonce exp ts ps proto).
Proof. unfold install_grant. within. Qed.
Lemma prune_expired_frame : inside prune_expired.
Proof. unfold prune_expired. within. Qed.
Lemma list_active_frame : inside list_active.
Proof. unfold list_active. within. Qed.
#[local] Hint Resolve list_active_frame : within.
Lemma compute_active_sets_frame : inside compute_active_sets.
Proof. unfold compute_active_sets. within. Qed.
End frame_methods.
#[export] Hint Resolve init_frame install_grant_frame prune_expired_frame list_active_frame
  compute_active_sets_frame : within.
