(* ===== verification/StoreSpec.v ===== *)
(** * What the grant store promises

    The abstract store: the set of (token, nonce) pairs ever accepted, with
    their expiry, and a finite map of live grants.  Each method of [GateStore]
    refines an operation on it; the theorems below are the store's contract,
    error branches included. *)
From S2P Require Import Prelude PyStr PyJson PyJsonRoundtrip Errors PyOps World Store StoreFacts.

Abbreviation key := (pystr * pystr)%type.

Record AbsGrant := {
  a_exp : Z; a_proto : pystr; a_targets : list pystr; a_ports : list Z; a_installed_at : Z
}.
Record AbsStore := { seen : gmap key Z; live : gmap key AbsGrant }.

Definition abs_row (r : GrantRow) : AbsGrant :=
  {| a_exp := gr_exp r; a_proto := gr_proto r; a_targets := targets_of_row r;
     a_ports := ports_of_row r; a_installed_at := gr_installed_at r |}.
Definition seen_item (r : ReplayRow) : key * Z := (replay_key r, rp_exp r).
Definition live_item (r : GrantRow) : key * AbsGrant := (grant_key r, abs_row r).
Definition abs_rows (rs : list ReplayRow) (gs : list GrantRow) : AbsStore :=
  {| seen := list_to_map (seen_item <$> rs); live := list_to_map (live_item <$> gs) |}.
Definition abs_of {K : Type} (w : World K) : AbsStore := abs_rows (replay_rows w) (grant_rows w).

(** The contract of [install_grant]: [t i] is its [i]-th clock reading.  The
    grant must not be expired, its parameters must fit sqlite, and its key must
    be new; otherwise the store is left as it was. *)
Definition spec_install (t : nat → Z) (tok nonce : pystr) (exp : Z) (targets : list pystr)
    (ports : list Z) (proto : pystr) (s : AbsStore) : AbsStore * pyres Grant :=
  if (exp <=? t 0%nat)%Z then (s, Err (Exn ExpiredGrantError (u "grant expired"))) else
  match bind_row tok nonce exp (t 1%nat) with
  | Err e => (s, Err e)
  | Ok _ =>
      if decide (is_Some (seen s !! (tok, nonce))) then (s, Err (Exn ReplayError (u "replay detected")))
      else match bind_int (t 2%nat) with
      | Err e => (s, Err e)
      | Ok _ =>
          ({| seen := <[(tok, nonce) := exp]> (seen s);
              live := <[(tok, nonce) := {| a_exp := exp; a_proto := normalize_proto proto;
                                           a_targets := targets; a_ports := ports;
                                           a_installed_at := t 2%nat |}]> (live s) |},
           Ok {| g_token_id := tok; g_nonce := nonce; g_exp := exp;
                 g_targets := JList (map JStr targets); g_ports := ports;
                 g_proto := normalize_proto proto; g_installed_at := t 3%nat |})
      end
  end.

(** The contract of [prune_expired]. *)
Definition spec_prune (c : Z) (s : AbsStore) : AbsStore * pyres Z :=
  match bind_int c with
  | Err e => (s, Err e)
  | Ok _ => ({| seen := seen s; live := filter (λ kv, ¬ (a_exp kv.2 <= c)%Z) (live s) |},
             Ok (Z.of_nat (size (filter (λ kv, (a_exp kv.2 <= c)%Z) (live s)))))
  end.

(** What [compute_active_sets] must return at cutoff [c]. *)
Definition granted_addr (s : AbsStore) (c : Z) (x : pystr) : Prop :=
  ∃ k g, live s !! k = Some g ∧ (c < a_exp g)%Z ∧ ∃ t, t ∈ a_targets g ∧ x = replace (u "/32") [] t.
Definition granted_port (s : AbsStore) (c : Z) (udp : bool) (x : pystr) : Prop :=
  ∃ k g, live s !! k = Some g ∧ (c < a_exp g)%Z ∧ bool_decide (a_proto g = u "udp") = udp ∧
         ∃ p, p ∈ a_ports g ∧ x = str_of_Z p.

(** A small world for the witnesses: the clock ticks once a second from 1000,
    and there is no nft program. *)
Definition demo_env : Env unit :=
  {| clock n := (Z.of_nat n + 1000)%Z;
     spawn _ _ k := (k, Err (u "[Errno 2] No such file or directory: 'nft'")) |}.
Definition demo_world : World unit :=
  {| w_db := None; w_fs := ∅; w_kernel := tt; w_euid := 0; w_tick := 0 |}.
Definition demo_install (tok nonce : pystr) (exp : Z) : W unit Grant :=
  @install_grant unit demo_env tok nonce exp [u "10.0.0.1/32"] [443%Z] (u "tcp").
Definition demo_world1 : World unit := (demo_install (u "tok") (u "n1") 5000 demo_world).1.

(** ** Keyed tables as maps *)

Section keyed.
Context {R V : Type} (kv : R → key * V).

Lemma keyed_None rows k :
  (list_to_map (kv <$> rows) : gmap key V) !! k = None ↔ k ∉ map (fst ∘ kv) rows.
Proof. rewrite <-not_elem_of_list_to_map. by rewrite <-list_fmap_compose. Qed.

Lemma keyed_Some rows k v :
  NoDup (map (fst ∘ kv) rows) →
  (list_to_map (kv <$> rows) : gmap key V) !! k = Some v ↔ ∃ r, r ∈ rows ∧ kv r = (k, v).
Proof.
  intros Hnd. rewrite <-elem_of_list_to_map by (by rewrite <-list_fmap_compose).
  rewrite list_elem_of_fmap. naive_solver.
Qed.

End keyed.

Lemma keyed_snoc {R V : Type} (kv : R → key * V) rows r k v :
  kv r = (k, v) → k ∉ map (fst ∘ kv) rows →
  (list_to_map (kv <$> (rows ++ [r])) : gmap key V) = <[k := v]> (list_to_map (kv <$> rows)).
Proof.
  intros Hr Hk. rewrite fmap_app. cbn [fmap list_fmap]. rewrite Hr.
  apply list_to_map_snoc. by rewrite <-list_fmap_compose.
Qed.

Lemma keyed_filter {R V : Type} (kv : R → key * V) (P : R → Prop) (Q : V → Prop)
    `{!∀ r, Decision (P r), !∀ x : key * V, Decision (Q x.2)} rows :
  NoDup (map (fst ∘ kv) rows) → (∀ r, P r ↔ Q (kv r).2) →
  (list_to_map (kv <$> filter P rows) : gmap key V) =
    filter (λ x, Q x.2) (list_to_map (kv <$> rows)).
Proof.
  intros Hnd HPQ. apply map_eq. intros k. apply option_eq. intros v.
  assert (NoDup (map (fst ∘ kv) (filter P rows))) as Hnd'.
  { by apply NoDup_map_filter. }
  rewrite map_lookup_filter_Some, !keyed_Some by done. simpl. split.
  - intros (r & [Hp Hr]%list_elem_of_filter & Hkv). split; [by eauto|].
    apply HPQ in Hp. by rewrite Hkv in Hp.
  - intros [(r & Hr & Hkv) Hq]. exists r. split; [|done]. apply list_elem_of_filter.
    split; [|done]. apply HPQ. by rewrite Hkv.
Qed.

Lemma keyed_size {R V : Type} (kv : R → key * V) rows :
  NoDup (map (fst ∘ kv) rows) →
  size (list_to_map (kv <$> rows) : gmap key V) = length rows.
Proof.
  intros Hnd. rewrite map_size_list_to_map by (by rewrite <-list_fmap_compose).
  apply length_fmap.
Qed.

(** ** The invariant is preserved *)

Lemma rows_ok_install rs gs tok nonce exp targets ports proto t1 t2 :
  rows_ok rs gs → Forall (λ t, str_ok t = true) targets → (tok, nonce) ∉ map replay_key rs →
  rows_ok (rs ++ [{| rp_token_id := tok; rp_nonce := nonce; rp_exp := exp; rp_seen_at := t1 |}])
          (gs ++ [new_row tok nonce exp targets ports proto t2]).
Proof.
  intros [Hrk Hgk Hseen Hrow] Hts Hnew. split.
  - rewrite map_app. apply NoDup_app. split; [done|]. split; [set_solver|apply NoDup_singleton].
  - rewrite map_app. apply NoDup_app. split; [done|]. split; [|apply NoDup_singleton].
    intros k Hk Hin. apply list_elem_of_singleton in Hin as ->. apply Hnew.
    apply list_elem_of_fmap in Hk as (g & Hk & Hg). destruct (Hseen g Hg) as (r & Hr & Hrg & _).
    apply list_elem_of_fmap. exists r. split; [|done]. rewrite Hrg, <-Hk. done.
  - intros g [Hg|Hg%list_elem_of_singleton]%elem_of_app.
    + destruct (Hseen g Hg) as (r & Hr & ?). exists r. split; [set_solver|done].
    + subst g. eexists. split; [apply elem_of_app; right; by apply list_elem_of_singleton|done].
  - intros g [Hg|Hg%list_elem_of_singleton]%elem_of_app; [by apply Hrow|subst g].
    split; [apply normalize_proto_ok|by exists targets|by exists ports].
Qed.

Lemma rows_ok_filter rs gs (P : GrantRow → Prop) `{!∀ r, Decision (P r)} :
  rows_ok rs gs → rows_ok rs (filter P gs).
Proof.
  intros [Hrk Hgk Hseen Hrow]. split; [done| | |].
  - by apply NoDup_map_filter.
  - intros g [_ Hg]%list_elem_of_filter. by apply Hseen.
  - intros g [_ Hg]%list_elem_of_filter. by apply Hrow.
Qed.

(** The abstract store after an install. *)
Lemma abs_install rs gs tok nonce exp targets ports proto t1 t2 :
  rows_ok rs gs → Forall (λ t, str_ok t = true) targets → (tok, nonce) ∉ map replay_key rs →
  abs_rows (rs ++ [{| rp_token_id := tok; rp_nonce := nonce; rp_exp := exp; rp_seen_at := t1 |}])
           (gs ++ [new_row tok nonce exp targets ports proto t2]) =
  {| seen := <[(tok, nonce) := exp]> (seen (abs_rows rs gs));
     live := <[(tok, nonce) := {| a_exp := exp; a_proto := normalize_proto proto; a_targets := targets;
                                  a_ports := ports; a_installed_at := t2 |}]> (live (abs_rows rs gs)) |}.
Proof.
  intros Hok Hts Hnew. unfold abs_rows. cbn [seen live]. f_equal; [by apply keyed_snoc|].
  apply keyed_snoc.
  - unfold live_item, abs_row, new_row. cbn. f_equal. f_equal.
    + by apply targets_of_row_dumps.
    + by apply ports_of_row_dumps.
  - intros Hin. apply Hnew. apply list_elem_of_fmap in Hin as (g & Hk & Hg).
    destruct (grants_seen _ _ Hok g Hg) as (r & Hr & Hrg & _).
    apply list_elem_of_fmap. exists r. split; [|done]. by rewrite Hrg.
Qed.

Section contract.
Context {K : Type} `{Env K}.
Implicit Types w : World K.

Lemma seen_key w tok nonce :
  is_Some (seen (abs_of w) !! (tok, nonce)) ↔ (tok, nonce) ∈ map replay_key (replay_rows w).
Proof.
  rewrite <-not_eq_None_Some. cbn [abs_of abs_rows seen]. rewrite keyed_None.
  change (map (fst ∘ seen_item) (replay_rows w)) with (map replay_key (replay_rows w)).
  split; [apply dec_stable|auto].
Qed.

(** C4: [install_grant] refines its contract: on every branch (expired,
    parameters sqlite refuses, replayed key, success) it leaves the abstract
    store and returns the result the contract says, and keeps the table
    invariant. *)
Theorem install_grant_refines tok nonce exp targets ports proto w :
  store_inv w → Forall (λ t, str_ok t = true) targets →
  let '(w', r) := install_grant tok nonce exp targets ports proto w in
  let '(s', r') := spec_install (λ i, clock (i + w_tick w)) tok nonce exp targets ports proto (abs_of w) in
  abs_of w' = s' ∧ r = r' ∧ store_inv w'.
Proof.
  intros Hinv Hts. rewrite run_install_grant by done. unfold spec_install.
  destruct (exp <=? _)%Z; [by split_and!|].
  destruct (bind_row _ _ _ _) as [[]|e]; [|by split_and!].
  pose proof (seen_key w tok nonce) as Hseen.
  destruct (decide (_ ∈ map replay_key _)) as [Hin|Hnew].
  { rewrite decide_True by tauto. by split_and!. }
  rewrite decide_False by tauto.
  destruct (bind_int _) as [[]|e]; [|by split_and!].
  split; [|split; [done|by apply rows_ok_install]].
  by apply (abs_install (replay_rows w) (grant_rows w)).
Qed.

(** C22: [prune_expired] refines its contract: it deletes exactly the grants
    whose expiry is not after the clock, returns how many they were, and
    forgets no replay key. *)
Theorem prune_expired_refines w :
  store_inv w →
  let '(w', r) := prune_expired w in
  let '(s', r') := spec_prune (clock (w_tick w)) (abs_of w) in
  abs_of w' = s' ∧ r = r' ∧ store_inv w'.
Proof.
  intros Hinv. rewrite run_prune. unfold spec_prune.
  destruct (bind_int _) as [[]|e]; [|by split_and!].
  pose proof (grant_keys _ _ Hinv) as Hnd.
  split_and!; [| |by apply rows_ok_filter].
  - unfold abs_of at 1. cbn. unfold abs_of, abs_rows. cbn [seen live]. f_equal.
    by apply (keyed_filter live_item _ (λ g, ¬ (a_exp g <= clock (w_tick w))%Z)).
  - do 2 f_equal. cbn [abs_of abs_rows live].
    rewrite <-(keyed_filter live_item (expired (clock (w_tick w)))
      (λ g, (a_exp g <= clock (w_tick w))%Z)) by done.
    rewrite keyed_size; [done|]. by apply NoDup_map_filter.
Qed.

Lemma elem_of_union_map {A} (f : A → gset pystr) l x :
  x ∈ ⋃ map f l ↔ ∃ a, a ∈ l ∧ x ∈ f a.
Proof.
  induction l as [|a l IH]; simpl; [set_solver|]. rewrite elem_of_union, IH. set_solver.
Qed.

Lemma live_rows w (P : key → AbsGrant → Prop) :
  store_inv w →
  (∃ k g, live (abs_of w) !! k = Some g ∧ P k g) ↔
  (∃ r, r ∈ grant_rows w ∧ P (grant_key r) (abs_row r)).
Proof.
  intros Hinv. cbn [abs_of abs_rows live]. split.
  - intros (k & g & Hk & HP). apply keyed_Some in Hk as (r & Hr & [= <- <-]);
      [by eauto|by apply (grant_keys _ _ Hinv)].
  - intros (r & Hr & HP). do 2 eexists. split; [|exact HP].
    apply keyed_Some; [by apply (grant_keys _ _ Hinv)|]. by exists r.
Qed.

Lemma elem_of_row_ports (Q : GrantRow → Prop) `{!∀ r, Decision (Q r)} c x w :
  x ∈ ⋃ map row_port_set (filter Q (filter (active c) (grant_rows w))) ↔
  ∃ r, r ∈ grant_rows w ∧ (c < gr_exp r)%Z ∧ Q r ∧ ∃ p, p ∈ ports_of_row r ∧ x = str_of_Z p.
Proof.
  rewrite elem_of_union_map. setoid_rewrite list_elem_of_filter. setoid_rewrite list_elem_of_filter.
  unfold row_port_set. setoid_rewrite elem_of_list_to_set. setoid_rewrite list_elem_of_fmap.
  unfold active. naive_solver.
Qed.

(** The sets of the active rows are the granted addresses and ports. *)
Lemma rows_sets_granted w c :
  store_inv w →
  let '(A, T, U) := rows_sets (filter (active c) (grant_rows w)) in
  (∀ x, x ∈ A ↔ granted_addr (abs_of w) c x) ∧
  (∀ x, x ∈ T ↔ granted_port (abs_of w) c false x) ∧
  (∀ x, x ∈ U ↔ granted_port (abs_of w) c true x).
Proof.
  intros Hinv. unfold rows_sets, granted_addr, granted_port. split_and!; intros x; rewrite live_rows by done.
  - rewrite elem_of_union_map. setoid_rewrite list_elem_of_filter.
    unfold row_addrs. setoid_rewrite elem_of_list_to_set. setoid_rewrite list_elem_of_fmap.
    unfold active, norm_target, abs_row. cbn. naive_solver.
  - rewrite elem_of_row_ports. cbn. setoid_rewrite bool_decide_eq_false. done.
  - rewrite elem_of_row_ports. cbn. setoid_rewrite bool_decide_eq_true. done.
Qed.

(** C15: [compute_active_sets] returns exactly the addresses (without /32) and
    the ports, by protocol, of the grants whose expiry is after the clock:
    nothing expired, nothing missing; and it changes no table. *)
Theorem compute_active_sets_exact w :
  store_inv w → int64 (clock (w_tick w)) = true →
  ∃ A T U, compute_active_sets w = (tick (ready w), Ok (A, T, U)) ∧
    (∀ x, x ∈ A ↔ granted_addr (abs_of w) (clock (w_tick w)) x) ∧
    (∀ x, x ∈ T ↔ granted_port (abs_of w) (clock (w_tick w)) false x) ∧
    (∀ x, x ∈ U ↔ granted_port (abs_of w) (clock (w_tick w)) true x) ∧
    abs_of (tick (ready w)) = abs_of w.
Proof.
  intros Hinv Hc. rewrite run_compute_active_sets by done.
  unfold bind_int. rewrite Hc. cbn [mbind res_bind].
  pose proof (rows_sets_granted w (clock (w_tick w)) Hinv) as Hg.
  destruct (rows_sets _) as [[A T] U]. destruct Hg as (HA & HT & HU). by exists A, T, U.
Qed.

(** What [list_active] returns for a live grant. *)
Definition grant_of (k : key) (a : AbsGrant) : Grant :=
  {| g_token_id := k.1; g_nonce := k.2; g_exp := a_exp a; g_targets := JList (map JStr (a_targets a));
     g_ports := a_ports a; g_proto := a_proto a; g_installed_at := a_installed_at a |}.
Definition grant_le (a b : Grant) : Prop := (g_installed_at a <= g_installed_at b)%Z.

Lemma sorted_decoded rows :
  StronglySorted installed_le rows → StronglySorted grant_le (map decoded rows).
Proof.
  induction 1 as [|r rows _ IH Hr]; constructor; [done|]. apply Forall_map. exact Hr.
Qed.

(** [list_active] returns exactly the live grants whose expiry is after the
    clock, each once, oldest installation first, with the targets, ports and
    protocol they were installed with; and it changes no table. *)
Theorem list_active_exact w :
  store_inv w → int64 (clock (w_tick w)) = true →
  ∃ gs, list_active w = (tick (ready w), Ok gs) ∧ StronglySorted grant_le gs ∧
    NoDup (map (λ g, (g_token_id g, g_nonce g)) gs) ∧
    (∀ g, g ∈ gs ↔ ∃ k a, live (abs_of w) !! k = Some a ∧ (clock (w_tick w) < a_exp a)%Z ∧ g = grant_of k a).
Proof.
  intros Hinv Hc. rewrite run_list_active_inv by done. unfold bind_int. rewrite Hc. cbn [mbind res_bind].
  set (rows := filter _ _). pose proof (merge_sort_Permutation installed_le rows) as Hperm.
  eexists. split; [reflexivity|]. split; [|split].
  - apply sorted_decoded. apply StronglySorted_merge_sort.
    + intros a b c' Hab Hbc. unfold installed_le in *. lia.
    + intros a b. unfold installed_le. lia.
  - rewrite map_map. change (NoDup (map grant_key (merge_sort installed_le rows))).
    rewrite (Permutation_map grant_key Hperm). apply NoDup_map_filter, (grant_keys _ _ Hinv).
  - intros g. rewrite live_rows by done. split.
    + intros (r & -> & Hr)%list_elem_of_fmap. rewrite Hperm in Hr.
      apply list_elem_of_filter in Hr as [Ha Hr]. exists r. by split.
    + intros (r & Hr & Ha & ->). apply list_elem_of_fmap. exists r. split; [done|].
      rewrite Hperm. by apply list_elem_of_filter.
Qed.
End contract.

(** ** Witnesses *)

#[local] Existing Instance demo_env.

Lemma demo_world_inv : store_inv demo_world.
Proof. split; [constructor|constructor|set_solver|set_solver]. Qed.
Lemma demo_targets_ok : Forall (λ t, str_ok t = true) [u "10.0.0.1/32"].
Proof. by repeat constructor. Qed.
Lemma demo_world1_inv : store_inv demo_world1.
Proof.
  apply (rows_ok_install [] [] (u "tok") (u "n1") 5000 [u "10.0.0.1/32"] [443%Z] (u "tcp") 1001 1002).
  - apply demo_world_inv.
  - apply demo_targets_ok.
  - set_solver.
Qed.

Lemma demo_clock_ok : int64 (clock (w_tick demo_world1)) = true.
Proof. vm_compute. reflexivity. Qed.

(** Installing the same nonce again is refused, and leaves the store alone. *)
Lemma install_grant_refines_witness :
  (demo_install (u "tok") (u "n1") 5000 demo_world1).2 = Err (Exn ReplayError (u "replay detected")) ∧
  abs_of (demo_install (u "tok") (u "n1") 5000 demo_world1).1 = abs_of demo_world1.
Proof.
  pose proof (install_grant_refines (u "tok") (u "n1") 5000 [u "10.0.0.1/32"] [443%Z] (u "tcp")
    demo_world1 demo_world1_inv demo_targets_ok) as H.
  unfold demo_install in *. destruct (install_grant _ _ _ _ _ _ demo_world1) as [w' r].
  destruct H as (Hs & Hr & _). cbn [fst snd]. rewrite Hs, Hr. split; vm_compute; reflexivity.
Defined.

(** At 5500 the grant has expired: it is removed, and its key is still used. *)
Definition later_world := Nat.iter 4500 tick demo_world1.
Lemma later_world_inv : store_inv later_world.
Proof. exact demo_world1_inv. Qed.
Lemma prune_expired_refines_witness :
  (prune_expired later_world).2 = Ok 1%Z ∧ live (abs_of (prune_expired later_world).1) = ∅ ∧
  is_Some (seen (abs_of (prune_expired later_world).1) !! (u "tok", u "n1")).
Proof.
  pose proof (prune_expired_refines later_world later_world_inv) as H.
  destruct (prune_expired later_world) as [w' r]. destruct H as (Hs & Hr & _).
  cbn [fst snd]. rewrite Hs, Hr. split; [vm_compute; reflexivity|]. split; [vm_compute; reflexivity|].
  eexists. vm_compute. reflexivity.
Defined.

Lemma compute_active_sets_exact_witness :
  ∃ A T U, (compute_active_sets demo_world1).2 = Ok (A, T, U) ∧
    (∀ x, x ∈ A ↔ granted_addr (abs_of demo_world1) 1004 x).
Proof.
  destruct (compute_active_sets_exact demo_world1 demo_world1_inv demo_clock_ok)
    as (A & T & U & Hr & HA & _).
  exists A, T, U. rewrite Hr. split; [reflexivity|exact HA].
Defined.

Lemma list_active_exact_witness :
  ∃ gs, (list_active demo_world1).2 = Ok gs ∧ NoDup (map (λ g, (g_token_id g, g_nonce g)) gs).
Proof.
  destruct (list_active_exact demo_world1 demo_world1_inv demo_clock_ok) as (gs & Hr & _ & Hn & _).
  exists gs. rewrite Hr. split; [reflexivity|exact Hn].
Defined.
