(* ===== verification/AuditLog.v ===== *)
(** * The audit log (src/src/sourceos_gate/audit.py)

    [path_for] and [append] are the methods of [AuditLog]; the files are those
    of the world, under the store root. *)
From S2P Require Import Prelude PyStr PyJson Errors PyOps TimeUtil World.

Section audit.
Context {K : Type} `{Env K}.

Definition path_for (stream : pystr) : W K path :=
  now ← now_iso_utc;
  let day := take 10 now in
  mret [u "audit"; u "events"; day; stream ++ u ".ndjson"].

(** [with p.open("a") as f: f.write(s)] *)
Definition append_file (p : path) (s : pystr) : W K unit :=
  modify (λ w, set_fs (<[p := default [] (w_fs w !! p) ++ s]> (w_fs w)) w).

Definition append (stream : pystr) (record : dict) : W K unit :=
  p ← path_for stream;
  ts ← now_iso_utc;
  let rec := dict_setdefault (u "ts") (JStr ts) record in
  let line := dumps opts_default true (JDict rec) in
  append_file p (line ++ [10%N]).
End audit.
