(* ===== verification/Nft.v ===== *)
(** * The nftables driver (src/src/sourceos_gate/nft.py)

    Each definition is the function of the same name.  Every [nft] command goes
    through [subprocess_run], so the kernel and the [nft] program stay
    parameters.  The functions take sets where the source takes iterables (the
    gate only passes sets); a set is traversed in the order of [elements],
    which decides only which of several errors is reported. *)
From S2P Require Import Prelude PyStr PyJson Errors PyOps World.

Record NftConfig := {
  table_family : pystr; table_name : pystr; set_allow_v4 : pystr;
  set_tcp_ports : pystr; set_udp_ports : pystr; chain_output : pystr
}.
Definition default_cfg : NftConfig :=
  {| table_family := u "inet"; table_name := u "sourceos"; set_allow_v4 := u "frontier_allow_v4";
     set_tcp_ports := u "frontier_allow_tcp_ports"; set_udp_ports := u "frontier_allow_udp_ports";
     chain_output := u "output" |}.

(** [s1 or s2] on strings *)
Definition or_str (s1 s2 : pystr) : pystr := match s1 with [] => s2 | _ => s1 end.
Definition nonblank (s : pystr) : Prop := strip s ≠ [].
Definition strip_32 (s : pystr) : pystr := replace (u "/32") [] s.
Definition raise_nft {A} (msg : pystr) : pyres A := Err (Exn NftError msg).

(** ** The script of [apply_sets] *)

(** [{str(int(p)) for p in ports if str(p).strip()}] *)
Definition norm_ports (ports : gset pystr) : pyres (gset pystr) :=
  ns ← map_res py_int_str (elements (filter nonblank ports));
  Ok (list_to_set (map str_of_Z ns)).
(** [{str(x).replace("/32", "") for x in addrs if str(x).strip()}] *)
Definition norm_addrs (addrs : gset pystr) : gset pystr := set_map strip_32 (filter nonblank addrs).

Definition flush_line (cfg : NftConfig) (setname : pystr) : pystr :=
  u "flush set " ++ table_family cfg ++ u " " ++ table_name cfg ++ u " " ++ setname.
(** The closing literal of the source is not an f-string: both of its braces
    are written. *)
Definition add_line (cfg : NftConfig) (setname : pystr) (elems : list pystr) : list pystr :=
  match elems with
  | [] => []
  | _ => [u "add element " ++ table_family cfg ++ u " " ++ table_name cfg ++ u " " ++ setname ++ u " { "
          ++ join (u ", ") elems ++ u " }}"]
  end.
Definition apply_lines (cfg : NftConfig) (a t us : list pystr) : list pystr :=
  [flush_line cfg (set_allow_v4 cfg); flush_line cfg (set_tcp_ports cfg); flush_line cfg (set_udp_ports cfg)]
    ++ add_line cfg (set_allow_v4 cfg) a ++ add_line cfg (set_tcp_ports cfg) t
    ++ add_line cfg (set_udp_ports cfg) us.
Definition apply_script (cfg : NftConfig) (a t us : list pystr) : pystr :=
  join [10%N] (apply_lines cfg a t us) ++ [10%N].

(** ** Reading a set back *)

(** [v["val"]] when [v] is a dict that has it, else [v]. *)
Definition unwrap_val (v : json) : json :=
  match v with JDict d => default v (dict_get (u "val") d) | _ => v end.
(** [str(v)] unless [v is None] *)
Definition str_unless_none (v : json) : list pystr :=
  match v with JNull => [] | _ => [py_str v] end.
Definition item_elems (it : json) : list pystr :=
  match it with
  | JDict d => match dict_get (u "elem") d with
               | Some v => str_unless_none (unwrap_val v)
               | None => [py_str it]
               end
  | _ => str_unless_none it
  end.
Definition entry_elems (entry : json) : list pystr :=
  match entry with
  | JDict e =>
      match dict_get (u "set") e with
      | Some (JDict s) => match dict_get (u "elem") s with Some (JList raw) => raw ≫= item_elems | _ => [] end
      | _ => []
      end
      ++ match dict_get (u "elem") e with
         | Some (JDict e') => str_unless_none (unwrap_val (dict_get_or JNull (u "elem") e'))
         | _ => []
         end
  | _ => []
  end.
(** [{e.strip() for e in elems if str(e).strip()}] *)
Definition stripped_set (elems : list pystr) : gset pystr :=
  list_to_set (map strip (filter nonblank elems)).

Definition parse_nft_set_elements_json (obj : json) : pyres (option (gset pystr)) :=
  nftables ← py_get obj (u "nftables") JNull;
  match nftables with
  | JList l => Ok (Some (stripped_set (l ≫= entry_elems)))
  | _ => Ok None
  end.

(** [re.search(r"elements\s*=\s*\{(.*?)\}\s*", out, flags=re.S).group(1)] *)
Fixpoint until (c : N) (s : pystr) : option pystr :=
  match s with
  | [] => None
  | c' :: s' => if (c' =? c)%N then Some [] else (λ g, c' :: g) <$> until c s'
  end.
Definition match_elements (s : pystr) : option pystr :=
  s1 ← drop_prefix (u "elements") s;
  s2 ← next_is 61 (drop_while is_space s1);
  s3 ← next_is 123 (drop_while is_space s2);
  until 125 s3.
Fixpoint search_elements (s : pystr) : option pystr :=
  match match_elements s, s with
  | Some g, _ => Some g
  | None, [] => None
  | None, _ :: s' => search_elements s'
  end.
Definition parse_text (out : pystr) : gset pystr :=
  match search_elements out with
  | None => ∅
  | Some g => match strip g with
              | [] => ∅
              | inside => stripped_set (split 44 inside)
              end
  end.

(** [{str(int(p)) for p in ports if str(p).isdigit()}] *)
Definition digit_ports (ports : gset pystr) : pyres (gset pystr) :=
  ns ← map_res py_int_str (elements (filter (λ p, isdigit p = true) ports));
  Ok (list_to_set (map str_of_Z ns)).

Definition show_set (X : gset pystr) : pystr := py_repr (JList (map JStr (sorted_set X))).
Definition mismatch (what : pystr) (expected actual : gset pystr) : pystr :=
  what ++ u " mismatch: expected=" ++ show_set expected ++ u " actual=" ++ show_set actual.

(** ** The functions *)

Section nft.
Context {K : Type} `{Env K}.

(** Every call of [_run] passes [check=False]. *)
Definition _run (cmd : list pystr) : W K completed := subprocess_run cmd [].

Definition _run_script (script : pystr) : W K unit :=
  r ← subprocess_run [u "nft"; u "-f"; u "-"] script;
  if decide (returncode r = 0%Z) then mret tt
  else raise (Exn NftError (or_str (stderr r) (or_str (stdout r) (u "nft failed")))).

Definition _exists (kind : pystr) (parts : list pystr) : W K bool :=
  r ← _run ([u "nft"; u "list"; kind] ++ parts);
  mret (bool_decide (returncode r = 0%Z)).

Fixpoint require_sets (cfg : NftConfig) (ss : list pystr) : W K unit :=
  match ss with
  | [] => mret tt
  | s :: ss' =>
      b ← _exists (u "set") [table_family cfg; table_name cfg; s];
      if b : bool then require_sets cfg ss'
      else raise (Exn BaselineMissingError (u "missing nft baseline set: " ++ s))
  end.
Definition require_baseline (cfg : NftConfig) : W K unit :=
  b ← _exists (u "table") [table_family cfg; table_name cfg];
  if b : bool then
    _ ← require_sets cfg [set_allow_v4 cfg; set_tcp_ports cfg; set_udp_ports cfg];
    c ← _exists (u "chain") [table_family cfg; table_name cfg; chain_output cfg];
    if c : bool then mret tt
    else raise (Exn BaselineMissingError (u "missing nft baseline output chain"))
  else raise (Exn BaselineMissingError (u "missing nft baseline table")).

Definition apply_sets (addrs tcp_ports udp_ports : gset pystr) (cfg : NftConfig) : W K unit :=
  euid ← gets w_euid;
  if negb (euid =? 0)%Z then raise (Exn PermissionError (u "root required")) else
  _ ← require_baseline cfg;
  t ← lift (norm_ports tcp_ports);
  us ← lift (norm_ports udp_ports);
  _run_script (apply_script cfg (sorted_set (norm_addrs addrs)) (sorted_set t) (sorted_set us)).

Definition _list_set_json (setname : pystr) (cfg : NftConfig) : W K (option (gset pystr)) :=
  r ← _run [u "nft"; u "-j"; u "list"; u "set"; table_family cfg; table_name cfg; setname];
  if negb (returncode r =? 0)%Z then mret None else
  match loads (stdout r) with
  | Err _ => mret None
  | Ok obj => lift (parse_nft_set_elements_json obj)
  end.
Definition _list_set_text (setname : pystr) (cfg : NftConfig) : W K (gset pystr) :=
  r ← _run [u "nft"; u "list"; u "set"; table_family cfg; table_name cfg; setname];
  if negb (returncode r =? 0)%Z then raise (Exn NftError (u "cannot list set " ++ setname)) else
  mret (parse_text (stdout r)).
Definition list_set (setname : pystr) (cfg : NftConfig) : W K (gset pystr) :=
  j ← _list_set_json setname cfg;
  match j with Some s => mret s | None => _list_set_text setname cfg end.

Definition verify_sets (expected_addrs expected_tcp expected_udp : gset pystr) (cfg : NftConfig) : W K unit :=
  _ ← require_baseline cfg;
  la ← list_set (set_allow_v4 cfg) cfg;
  let act_addrs : gset pystr := set_map strip_32 la in
  lt ← list_set (set_tcp_ports cfg) cfg;
  act_tcp ← lift (digit_ports lt);
  lu ← list_set (set_udp_ports cfg) cfg;
  act_udp ← lift (digit_ports lu);
  if negb (bool_decide (act_addrs = expected_addrs))
  then raise (Exn NftError (mismatch (u "allow_v4") expected_addrs act_addrs))
  else if negb (bool_decide (act_tcp = expected_tcp))
  then raise (Exn NftError (mismatch (u "tcp ports") expected_tcp act_tcp))
  else if negb (bool_decide (act_udp = expected_udp))
  then raise (Exn NftError (mismatch (u "udp ports") expected_udp act_udp))
  else mret tt.
End nft.
