(* ===== verification/Egress.v ===== *)
(** * The egress gate (src/src/sourceos_gate/egress.py)

    [EgressGate]: the grant store, the nft driver and the audit log put
    together.  Each definition is the method of the same name.

    Its clients, the daemon and the command line, are written against the
    interface [GateOps] of Interface.v, which EgressFacts.v implements. *)
From S2P Require Import Prelude PyStr PyJson Errors PyOps TimeUtil World AuditLog Nft.
From S2P Require Store.

Definition sorted_json (X : gset pystr) : json := JList (map JStr (sorted_set X)).

Section egress.
Context {K : Type} `{Env K} (cfg : NftConfig).

Definition stream : pystr := u "gate.egress".

Definition init : W K unit := Store.init.

Definition apply : W K unit :=
  _ ← require_baseline cfg;
  '(addrs, tcp_ports, udp_ports) ← Store.compute_active_sets;
  _ ← apply_sets addrs tcp_ports udp_ports cfg;
  append stream
    [(u "action", JStr (u "apply")); (u "allow_v4", sorted_json addrs);
     (u "tcp_ports", sorted_json tcp_ports); (u "udp_ports", sorted_json udp_ports)].

Definition install_record (g : Store.Grant) : dict :=
  [(u "action", JStr (u "grant.install")); (u "token_id", JStr (Store.g_token_id g));
   (u "nonce", JStr (Store.g_nonce g)); (u "exp", JInt (Store.g_exp g));
   (u "proto", JStr (Store.g_proto g)); (u "targets", Store.g_targets g);
   (u "ports", JList (map JInt (Store.g_ports g)))].
Definition install_grant (token_id nonce : pystr) (exp : Z) (targets : list pystr) (ports : list Z)
    (proto : pystr) (do_apply : bool) : W K unit :=
  g ← Store.install_grant token_id nonce exp targets ports proto;
  _ ← append stream (install_record g);
  when do_apply apply.

Definition prune (do_apply : bool) : W K Z :=
  removed ← Store.prune_expired;
  _ ← append stream [(u "action", JStr (u "grant.prune")); (u "removed", JInt removed)];
  _ ← when do_apply apply;
  mret removed.

Definition verify : W K unit :=
  _ ← require_baseline cfg;
  '(addrs, tcp_ports, udp_ports) ← Store.compute_active_sets;
  _ ← verify_sets addrs tcp_ports udp_ports cfg;
  append stream
    [(u "action", JStr (u "verify")); (u "status", JStr (u "ok")); (u "allow_v4", sorted_json addrs);
     (u "tcp_ports", sorted_json tcp_ports); (u "udp_ports", sorted_json udp_ports)].

Definition snapshot : W K json :=
  '(addrs, tcp_ports, udp_ports) ← Store.compute_active_sets;
  ts ← now_iso_utc;
  mret (JDict
    [(u "ts", JStr ts);
     (u "active", JDict [(u "allow_v4", sorted_json addrs); (u "tcp_ports", sorted_json tcp_ports);
                         (u "udp_ports", sorted_json udp_ports)])]).
End egress.
