(* ===== verification/Interface.v ===== *)
(** * What the gate promises to its clients

    [GateOps] are the operations of [EgressGate] that the daemon and the command
    line call; [GateLaws R] is the contract their proofs use: every operation
    makes only [R]-steps, whether it returns or raises, and raises only
    [Exception]s.  [EgressFacts.egress_laws] discharges it for the real gate. *)
From S2P Require Import Prelude PyStr PyJson PyJsonRoundtrip Errors PyOps World.

Class GateOps (K : Type) := {
  op_init : W K unit;
  op_install_grant : pystr → pystr → Z → list pystr → list Z → pystr → bool → W K unit;
  op_prune : bool → W K Z;
  op_apply : W K unit;
  op_verify : W K unit;
  op_snapshot : W K json
}.

Class GateLaws {K : Type} (ops : GateOps K) (R : relation (World K)) := {
  laws_preorder :: PreOrder R;
  laws_tick w : R w (tick w);
  laws_init : within R is_exception op_init;
  laws_install tok nonce exp targets ports proto b :
    Forall (λ t, str_ok t = true) targets →
    within R is_exception (op_install_grant tok nonce exp targets ports proto b);
  laws_prune b : within R is_exception (op_prune b);
  laws_apply : within R is_exception op_apply;
  laws_verify : within R is_exception op_verify;
  laws_snapshot : within R is_exception op_snapshot
}.
#[export] Hint Resolve laws_init laws_install laws_prune laws_apply laws_verify laws_snapshot : within.
