(* ===== verification/GateSteps.v ===== *)
(** * Relations that the gate's operations respect

    [StepLaws R]: the actions the gate is built from (reading the clock, running
    nft, appending to the log, the store's methods other than [install_grant])
    make only [R]-steps.  Then so do the operations of [EgressGate], and an
    install whenever the store's does: [gate_laws].  The log's growth, the
    store's invariant, its bounds and the history of its rows are instances. *)
From S2P Require Import Prelude PyStr PyJson PyJsonRoundtrip Errors PyOps World Store StoreFacts.
From S2P Require Import AuditLog Nft Interface.
From S2P Require Egress.

(** The operations of the gate of a root. *)
Definition egress_ops {K : Type} `{Env K} (cfg : NftConfig) : GateOps K := {|
  op_init := Egress.init; op_install_grant := Egress.install_grant cfg; op_prune := Egress.prune cfg;
  op_apply := Egress.apply cfg; op_verify := Egress.verify cfg; op_snapshot := Egress.snapshot
  |}.

Class StepLaws {K : Type} `{Env K} (R : relation (World K)) := {
  step_preorder :: PreOrder R;
  step_tick w : R w (tick w);
  step_kernel w k : R w (set_kernel k w);
  step_append stream record : within R is_exception (append stream record);
  step_init : within R is_exception Store.init;
  step_prune : within R is_exception prune_expired;
  step_compute : within R is_exception compute_active_sets
}.
#[export] Hint Resolve step_append step_init step_prune step_compute : within.

(** ** What the driver's pure parts raise *)

Lemma norm_ports_raises X : raises_only is_exception (norm_ports X).
Proof. unfold norm_ports. raises. Qed.
Lemma digit_ports_raises X : raises_only is_exception (digit_ports X).
Proof. unfold digit_ports. raises. Qed.
Lemma parse_json_raises j : raises_only is_exception (parse_nft_set_elements_json j).
Proof. unfold parse_nft_set_elements_json, py_get, no_attr. raises. Qed.
#[local] Hint Resolve norm_ports_raises digit_ports_raises parse_json_raises : within.

Section steps.
Context {K : Type} `{Env K} (R : relation (World K)) {laws : StepLaws R}.
Abbreviation safe := (within R is_exception).

Lemma now_epoch_step : safe now_epoch.
Proof. split; [apply step_tick|done]. Qed.
Lemma now_iso_step : safe now_iso_utc.
Proof. split; [apply step_tick|done]. Qed.
Lemma subprocess_step argv stdin : safe (subprocess_run argv stdin).
Proof.
  intros w. unfold subprocess_run. pose proof (check_utf8_raises stdin) as Hu.
  destruct (check_utf8 stdin); repeat case_match; split; try done; try reflexivity; apply step_kernel.
Qed.
#[local] Hint Resolve now_epoch_step now_iso_step subprocess_step : within.

(** ** The nft driver *)

Lemma run_script_step s : safe (_run_script s).
Proof. unfold _run_script. within. Qed.
Lemma exists_step kind parts : safe (_exists kind parts).
Proof. unfold _exists, _run. within. Qed.
#[local] Hint Resolve run_script_step exists_step : within.
Lemma require_sets_step cfg ss : safe (require_sets cfg ss).
Proof. induction ss; cbn [require_sets]; within. Qed.
#[local] Hint Resolve require_sets_step : within.
Lemma require_baseline_step cfg : safe (require_baseline cfg).
Proof. unfold require_baseline. within. Qed.
#[local] Hint Resolve require_baseline_step : within.
Lemma apply_sets_step a t us cfg : safe (apply_sets a t us cfg).
Proof. unfold apply_sets. within. Qed.
Lemma list_set_step n cfg : safe (list_set n cfg).
Proof. unfold list_set, _list_set_json, _list_set_text, _run. within. Qed.
#[local] Hint Resolve apply_sets_step list_set_step : within.
Lemma verify_sets_step a t us cfg : safe (verify_sets a t us cfg).
Proof. unfold verify_sets. within. Qed.
#[local] Hint Resolve verify_sets_step : within.

(** ** The gate *)

Lemma apply_step cfg : safe (Egress.apply cfg).
Proof. unfold Egress.apply. within. Qed.
#[local] Hint Resolve apply_step : within.
Lemma verify_step cfg : safe (Egress.verify cfg).
Proof. unfold Egress.verify. within. Qed.
Lemma snapshot_step : safe Egress.snapshot.
Proof. unfold Egress.snapshot. within. Qed.
Lemma gate_prune_step cfg b : safe (Egress.prune cfg b).
Proof. unfold Egress.prune. within. Qed.
Lemma gate_install_step cfg tok nonce exp targets ports proto b :
  safe (Store.install_grant tok nonce exp targets ports proto) →
  safe (Egress.install_grant cfg tok nonce exp targets ports proto b).
Proof. intros Hs. unfold Egress.install_grant. within. Qed.

Lemma gate_laws cfg :
  (∀ tok nonce exp targets ports proto, Forall (λ t, str_ok t = true) targets →
     safe (Store.install_grant tok nonce exp targets ports proto)) →
  GateLaws (egress_ops cfg) R.
Proof.
  intros Hi. split; simpl; intros; [typeclasses eauto|apply step_tick|apply step_init| |apply gate_prune_step
    |apply apply_step|apply verify_step|apply snapshot_step].
  by apply gate_install_step, Hi.
Qed.
End steps.
