(* ===== verification/EgressFacts.v ===== *)
(** * The gate's steps

    Every operation of the gate extends the audit log and never rewrites it,
    keeps it line-delimited, keeps the store's invariant, and never forgets a
    replay key: [gate_step], which instantiates the interface of the gate. *)
From S2P Require Import Prelude PyStr PyJson PyJsonRoundtrip PyJsonStrings Errors PyOps TimeUtil.
From S2P Require Import PyDict World Store StoreFacts StoreSpec AuditLog Nft Interface GateSteps.

(** ** The audit log *)

(** No file is removed, and each one only grows at its end. *)
Definition log_extends (f f' : gmap path pystr) : Prop :=
  ∀ p s, f !! p = Some s → ∃ t, f' !! p = Some (s ++ t).
#[export] Instance log_extends_preorder : PreOrder log_extends.
Proof.
  split.
  - intros f p s Hp. exists []. by rewrite app_nil_r.
  - intros f g h Hfg Hgh p s Hp. destruct (Hfg p s Hp) as [t Ht].
    destruct (Hgh p _ Ht) as [t' Ht']. exists (t ++ t'). by rewrite assoc_L by apply _.
Qed.

(** A sequence of lines, each the rendering of an object with a time stamp. *)
Definition record_line (d : dict) : pystr := dumps opts_default true (JDict d) ++ [10%N].
Definition ndjson (s : pystr) : Prop :=
  ∃ recs : list dict, Forall (λ d, dict_has (u "ts") d = true) recs ∧ s = recs ≫= record_line.
Definition log_wf (f : gmap path pystr) : Prop := ∀ p s, f !! p = Some s → ndjson s.

Lemma setdefault_has k v d : dict_has k (dict_setdefault k v d) = true.
Proof.
  unfold dict_setdefault. destruct (dict_has k d) eqn:Hd; [done|].
  unfold dict_has. apply bool_decide_eq_true. rewrite dict_get_set_eq. eauto.
Qed.

Section audit.
Context {K : Type} `{Env K}.

(** The effect of [append]: the day of the file is read from the clock before
    the time stamp. *)
Definition log_path (stream : pystr) (t : Z) : path :=
  [u "audit"; u "events"; take 10 (iso_utc t); stream ++ u ".ndjson"].
Definition stamped (t : Z) (record : dict) : dict := dict_setdefault (u "ts") (JStr (iso_utc t)) record.
Definition logged (p : path) (d : dict) (f : gmap path pystr) : gmap path pystr :=
  <[p := default [] (f !! p) ++ record_line d]> f.

Lemma run_append stream record (w : World K) :
  append stream record w =
    (set_fs (logged (log_path stream (clock (w_tick w))) (stamped (clock (S (w_tick w))) record) (w_fs w))
       (tick (tick w)), Ok tt).
Proof. reflexivity. Qed.
End audit.

Lemma append_extends f p t : log_extends f (<[p := default [] (f !! p) ++ t]> f).
Proof.
  intros q s Hq. destruct (decide (q = p)) as [->|Hne].
  - exists t. by rewrite lookup_insert_eq, Hq.
  - exists []. by rewrite lookup_insert_ne, app_nil_r.
Qed.
Lemma append_wf f p d : dict_has (u "ts") d = true → log_wf f →
  log_wf (<[p := default [] (f !! p) ++ record_line d]> f).
Proof.
  intros Hd Hf q s [[<- <-]|[Hne Hq]]%lookup_insert_Some; [|by eapply Hf].
  assert (ndjson (default [] (f !! p))) as (recs & Hrecs & ->).
  { destruct (f !! p) as [s|] eqn:Hp; [by eapply Hf|]. by exists []. }
  exists (recs ++ [d]). split; [apply Forall_app_2; [done|by repeat constructor]|].
  rewrite bind_app. simpl. by rewrite app_nil_r.
Qed.

(** ** Records read back *)

Lemma pad2_line z : line_ok (pad2 z).
Proof. unfold pad2. apply line_ok_app; [destruct (z <? 10)%Z; by apply line_ok_lit|apply str_of_Z_line]. Qed.
Lemma iso_utc_line t : line_ok (iso_utc t).
Proof.
  unfold iso_utc. repeat first [apply pad2_line | apply str_of_Z_line | by apply line_ok_lit | apply line_ok_app].
Qed.
Lemma stamped_wf t d : wf_json (JDict d) = true → wf_json (JDict (stamped t d)) = true.
Proof.
  intros Hd. unfold stamped, dict_setdefault. destruct (dict_has _ _); [done|].
  apply dict_set_wf; [done| |done]. cbn [wf_json]. apply text_str_ok, line_text, iso_utc_line.
Qed.

(** C31: an audit record reads back: [append] adds one line at the end of the
    file of the stream and the day, the line ends at the only line break it
    adds, and [json.loads] of it is the record with its time stamp, keys
    sorted. *)
Theorem audit_round_trip {K : Type} `{Env K} stream record (w : World K) :
  wf_json (JDict record) = true →
  ∃ w' line ts,
    append stream record w = (w', Ok tt) ∧
    w_fs w' = <[log_path stream (clock (w_tick w)) :=
                default [] (w_fs w !! log_path stream (clock (w_tick w))) ++ line ++ [10%N]]> (w_fs w) ∧
    (10%N ∉ line) ∧ loads line = Ok (sort_keys (JDict (dict_setdefault (u "ts") ts record))).
Proof.
  intros Hwf. rewrite run_append. eexists _, _, _. split; [reflexivity|]. split; [reflexivity|].
  split; [apply line_no_newline, dumps_line|].
  rewrite (loads_dumps opts_default true); [done|apply opts_default_ok|by apply stamped_wf].
Qed.

(** ** The steps *)

Definition keys_grow {K : Type} (w w' : World K) : Prop :=
  ∀ k, k ∈ map replay_key (replay_rows w) → k ∈ map replay_key (replay_rows w').

Record gate_step {K : Type} (w w' : World K) : Prop := {
  step_log : log_extends (w_fs w) (w_fs w');
  step_wf : log_wf (w_fs w) → log_wf (w_fs w');
  step_euid : w_euid w = w_euid w';
  step_store : store_inv w → store_inv w' ∧ keys_grow w w'
}.
#[export] Instance gate_step_preorder {K : Type} : PreOrder (@gate_step K).
Proof.
  split.
  - intros w. split; [reflexivity|done|done|]. intros Hw. split; [done|]. by intros k.
  - intros w1 w2 w3 [H1 H2 H3 H4] [H1' H2' H3' H4']. split; [by etrans|auto|congruence|].
    intros Hw. destruct (H4 Hw) as [Hw2 Hk]. destruct (H4' Hw2) as [Hw3 Hk']. split; [done|].
    intros k Hin. auto.
Qed.

(** A step of the store: the files stay, the tables keep their invariant. *)
Lemma store_step {K : Type} (w w' : World K) :
  store_frame w w' → (store_inv w → store_inv w' ∧ keys_grow w w') → gate_step w w'.
Proof. intros (Hfs & _ & Heuid) Hs. split; rewrite ?Hfs; [reflexivity|done..]. Qed.

Ltac same_keys := split; [assumption|intros ??; assumption].

Section steps.
Context {K : Type} `{Env K}.
Abbreviation safe := (within (@gate_step K) is_exception).

Lemma store_within {A} (m : W K A) :
  within store_frame is_exception m →
  (∀ w, store_inv w → store_inv (m w).1 ∧ keys_grow w (m w).1) → safe m.
Proof. intros Hf Hs w. destruct (Hf w) as [Hw He]. split; [|done]. apply store_step; auto. Qed.

Lemma tick_safe (w : World K) : gate_step w (tick w).
Proof. apply store_step; [done|]. intros Hw. split; [done|]. by intros k. Qed.
Lemma append_safe stream record : safe (append stream record).
Proof.
  intros w. rewrite run_append. split; [|done].
  split; [apply append_extends|apply append_wf, setdefault_has|done|intros Hw; same_keys].
Qed.
Lemma kernel_step (w : World K) k : gate_step w (set_kernel k w).
Proof. split; [reflexivity|done|done|]. intros Hw. same_keys. Qed.

Lemma init_safe : safe Store.init.
Proof. apply store_within; [auto with within|]. intros w Hw. rewrite run_init. same_keys. Qed.
Lemma prune_safe : safe prune_expired.
Proof.
  apply store_within; [auto with within|]. intros w Hw. rewrite run_prune.
  destruct (bind_int _); [|same_keys]. split; [by apply rows_ok_filter|by intros k].
Qed.
Lemma install_safe tok nonce exp targets ports proto :
  Forall (λ t, str_ok t = true) targets → safe (install_grant tok nonce exp targets ports proto).
Proof.
  intros Hts. apply store_within; [auto with within|]. intros w Hw.
  rewrite run_install_grant by done. cbv zeta. destruct (exp <=? _)%Z; [same_keys|].
  destruct (bind_row _ _ _ _); [|same_keys]. case_decide as Hnew; [same_keys|].
  destruct (bind_int _); [|same_keys]. split; [by apply rows_ok_install|].
  intros k Hk. change (k ∈ map replay_key (replay_rows w ++ [{| rp_token_id := tok; rp_nonce := nonce;
    rp_exp := exp; rp_seen_at := clock (1 + w_tick w) |}])). rewrite map_app. set_solver.
Qed.
Lemma compute_safe : safe compute_active_sets.
Proof.
  apply store_within; [auto with within|]. intros w Hw.
  rewrite run_compute_active_sets by done. same_keys.
Qed.
#[export] Instance gate_step_laws : StepLaws (@gate_step K).
Proof.
  split; [typeclasses eauto|apply tick_safe|apply kernel_step|apply append_safe|apply init_safe
    |apply prune_safe|apply compute_safe].
Qed.

(** The contract of the gate's operations. *)
#[export] Instance egress_laws cfg : GateLaws (egress_ops cfg) (@gate_step K).
Proof. apply gate_laws; [typeclasses eauto|apply install_safe]. Qed.
End steps.
