(* ===== verification/Daemon.v ===== *)
(** * The daemon (src/src/sourceos_gate/daemon.py)

    [handle_client] on the bytes of one connection, over the operations of the
    gate's interface.  A request is handled without an [await], so requests of
    several clients interleave between lines, never inside one: [transition].
    The client is assumed to keep reading; Serve.v has the incremental reader,
    clients that are lost, and the event loop. *)
From S2P Require Import Prelude PyStr PyJson Errors PyOps TimeUtil World Protocol Interface.

(** What [getattr(params, ...)] of a grant.install request amounts to. *)
Record install_args := {
  ia_token_id : pystr; ia_nonce : pystr; ia_exp : Z; ia_targets : list pystr;
  ia_ports : list Z; ia_proto : pystr; ia_apply : bool
}.
Definition apply_flag (params : dict) : bool := truthy (dict_get_or (JBool false) (u "apply") params).
Definition parse_install (params : dict) : pyres install_args :=
  _ ← require_fields params [u "token_id"; u "nonce"; u "exp"; u "targets"; u "ports"; u "proto"];
  token_id ← py_item params (u "token_id");
  nonce ← py_item params (u "nonce");
  exp ← py_item params (u "exp");
  exp ← py_int exp;
  targets ← py_item params (u "targets");
  targets ← py_for targets;
  ports ← py_item params (u "ports");
  ports ← py_for ports;
  ports ← map_res py_int ports;
  proto ← py_item params (u "proto");
  Ok {| ia_token_id := py_str token_id; ia_nonce := py_str nonce; ia_exp := exp;
        ia_targets := map py_str targets; ia_ports := ports; ia_proto := py_str proto;
        ia_apply := apply_flag params |}.

Definition value_error {A} (msg : pystr) : pyres A := Err (Exn ValueError msg).

(** The checks on the request object: its method and its parameters. *)
Definition parse_call (req : dict) : pyres (pystr * dict) :=
  let method := dict_get_or JNull (u "method") req in
  let params := py_or (dict_get_or JNull (u "params") req) (JDict []) in
  match method, params with
  | JStr m, JDict p => Ok (m, p)
  | JStr _, _ => value_error (u "params must be object")
  | _, _ => value_error (u "missing method")
  end.

(** The limit of [StreamReader], in bytes. *)
Definition stream_limit : Z := 65536.

Section daemon.
Context {K : Type} `{Env K} {ops : GateOps K}.

Definition install (a : install_args) : W K unit :=
  op_install_grant (ia_token_id a) (ia_nonce a) (ia_exp a) (ia_targets a) (ia_ports a) (ia_proto a) (ia_apply a).

Definition status (s : pystr) : json := JDict [(u "status", JStr s)].

(** The result of a call. *)
Definition call (method : pystr) (params : dict) : W K json :=
  if decide (method = u "health") then
    ts ← now_iso_utc; mret (JDict [(u "ts", JStr ts); (u "status", JStr (u "ok"))])
  else if decide (method = u "snapshot") then op_snapshot
  else if decide (method = u "grant.install") then
    a ← lift (parse_install params); _ ← install a; mret (status (u "installed"))
  else if decide (method = u "prune") then
    removed ← op_prune (apply_flag params); mret (JDict [(u "removed", JInt removed)])
  else if decide (method = u "apply") then _ ← op_apply; mret (status (u "applied"))
  else if decide (method = u "verify") then _ ← op_verify; mret (status (u "ok"))
  else raise (Exn ValueError (u "unknown method: " ++ method)).

(** One request: [raw] is a non-empty stripped line. *)
Definition handle_request (raw : pystr) : W K json :=
  match py_loads raw with
  | Err e => mret (err_response JNull (map_error e))
  | Ok (JDict req) =>
      let req_id := dict_get_or JNull (u "id") req in
      catch
        ('(method, params) ← lift (parse_call req);
         result ← call method params;
         mret (ok_response req_id result))
        (λ e, if isinstance e Exception then mret (err_response req_id (map_error e)) else raise e)
  | Ok _ => mret (err_response JNull (map_error (Exn ValueError (u "request is not an object"))))
  end.

(** One line: what is written for it. *)
Definition handle_line (line : list N) : W K (list pystr) :=
  match strip (utf8_decode_replace line) with
  | [] => mret []
  | raw => res ← handle_request raw; mret [dumps opts_default true res ++ [10%N]]
  end.

(** The lines of a connection, [segs] being its bytes cut at the newlines; the
    last segment has none.  A segment longer than the limit makes [readline]
    raise, which ends the connection: [false]. *)
Fixpoint serve_lines (segs : list (list N)) : W K (list pystr * bool) :=
  match segs with
  | [] => mret ([], true)
  | seg :: rest =>
      let line := seg ++ match rest with [] => [] | _ => [10%N] end in
      match line with
      | [] => mret ([], true)
      | _ =>
          if (stream_limit <? Z.of_nat (length seg))%Z then mret ([], false) else
          out ← handle_line line;
          '(outs, finished) ← serve_lines rest;
          mret (out ++ outs, finished)
      end
  end.
Definition handle_client (input : list N) : W K (list pystr * bool) := serve_lines (split 10 input).

(** The daemon's states: any client's next request, the clock, and the other
    users of the kernel. *)
Inductive transition : relation (World K) :=
  | t_request line w w' out : handle_line line w = (w', Ok out) → transition w w'
  | t_time w : transition w (tick w)
  | t_kernel w k : transition w (set_kernel k w).
End daemon.

(** ** Socket activation *)

(** [_systemd_listen_fds()] under the environment [env] and the pid [pid]. *)
Definition environ_get (env : gmap pystr pystr) (k dflt : pystr) : pystr := default dflt (env !! k).
Definition _systemd_listen_fds (env : gmap pystr pystr) (pid : Z) : list Z :=
  match py_int_str (environ_get env (u "LISTEN_PID") (u "0")),
        py_int_str (environ_get env (u "LISTEN_FDS") (u "0")) with
  | Ok listen_pid, Ok listen_fds =>
      if negb (listen_pid =? pid)%Z || (listen_fds <=? 0)%Z then []
      else seqZ 3 listen_fds
  | _, _ => []
  end.
