(* ===== verification/DaemonFacts.v ===== *)
(** * What the daemon answers

    Proved against the interface of the gate: every non-blank line of a
    connection gets exactly one line back, in order, which echoes the id of the
    request and is either a result or an error with a known code; no request
    makes the handler raise; and the steps of the handler are those of the gate. *)
From S2P Require Import Prelude PyStr PyJson PyJsonRoundtrip PyJsonStrings Errors PyOps TimeUtil.
From S2P Require Import World Protocol Interface Daemon.

Definition request_id (raw : pystr) : json :=
  match loads raw with Ok (JDict req) => dict_get_or JNull (u "id") req | _ => JNull end.
Definition error_codes : list pystr :=
  [u "replay"; u "expired"; u "baseline_missing"; u "nft"; u "invalid"; u "gate"; u "internal"].
(** A reply to the request [id]: a result, or an error. *)
Definition is_reply (id resp : json) : Prop :=
  (∃ result, resp = ok_response id result) ∨
  (∃ e, resp = err_response id e ∧ code e ∈ error_codes).

(** The texts of the non-blank lines of a connection that the reader delivers:
    those before the first one longer than the limit. *)
Definition fits (seg : list N) : Prop := (Z.of_nat (length seg) <= stream_limit)%Z.
Global Instance fits_dec seg : Decision (fits seg) := decide (Z.of_nat (length seg) <= stream_limit)%Z.
Fixpoint delivered (segs : list (list N)) : list (list N) :=
  match segs with
  | [] => []
  | seg :: rest => if decide (fits seg) then seg :: delivered rest else []
  end.
Definition request_texts (segs : list (list N)) : list pystr :=
  filter (λ raw, raw ≠ []) (map (strip ∘ utf8_decode_replace) segs).
Definition replies (raws outs : list pystr) : Prop :=
  Forall2 (λ raw out, ∃ resp, out = dumps opts_default true resp ++ [10%N] ∧ is_reply (request_id raw) resp) raws outs.

(** ** Lemmas *)

Lemma map_error_code e : code (map_error e) ∈ error_codes.
Proof. unfold map_error, error_codes. repeat case_match; cbn [code]; set_solver. Qed.

Lemma dict_ok_get k d j : dict_ok d → dict_get_or j k d = j ∨ strs_ok (dict_get_or j k d) = true.
Proof.
  intros Hd. unfold dict_get_or. destruct (dict_get k d) as [v|] eqn:Hv; [|by left].
  right. by eapply dict_get_ok.
Qed.
Lemma py_item_ok d k v : dict_ok d → py_item d k = Ok v → strs_ok v = true.
Proof.
  unfold py_item. destruct (dict_get k d) as [v'|] eqn:Hv; [|done].
  intros Hd [= <-]. by eapply dict_get_ok.
Qed.
Lemma py_for_ok j l : strs_ok j = true → py_for j = Ok l → Forall (λ x, strs_ok x = true) l.
Proof.
  unfold py_for. destruct (py_iter j) as [l'|] eqn:Hl; [|done]. intros Hj [= <-]. by eapply py_iter_ok.
Qed.
Lemma bind_Ok {E A B} (r : res E A) (f : A → res E B) b :
  r ≫= f = Ok b → ∃ a, r = Ok a ∧ f a = Ok b.
Proof. destruct r as [a|]; [|done]. by exists a. Qed.

Lemma parse_install_targets params a :
  dict_ok params → parse_install params = Ok a → Forall (λ t, str_ok t = true) (ia_targets a).
Proof.
  intros Hp H. unfold parse_install in H.
  repeat match goal with H : _ ≫= _ = Ok _ |- _ => apply bind_Ok in H as (? & ? & H) end.
  injection H as <-. cbn [ia_targets].
  match goal with Ht : py_item params (u "targets") = Ok ?t, Hf : py_for ?t = Ok _ |- _ =>
    apply (py_item_ok _ _ _ Hp) in Ht; apply (py_for_ok _ _ Ht) in Hf end.
  apply Forall_map. eapply Forall_impl; [eassumption|]. apply py_str_ok.
Qed.
Lemma parse_call_params req m p : dict_ok req → parse_call req = Ok (m, p) → dict_ok p.
Proof.
  intros Hr H. unfold parse_call in H. destruct (dict_get_or JNull (u "method") req); try done.
  unfold py_or in H. pose proof (dict_ok_get (u "params") req JNull Hr) as Hok.
  destruct (dict_get_or JNull (u "params") req) as [| | | | | |d]; simpl in H; repeat case_match; simplify_eq;
    try (by constructor). destruct Hok as [?|Hok]; [done|]. by apply strs_ok_dict.
Qed.

(** A newline ends a line without changing its text. *)
Lemma utf8_decode_newline bs : utf8_decode_replace (bs ++ [10%N]) = utf8_decode_replace bs ++ [10%N].
Proof.
  remember (length bs) as n eqn:Hn. revert bs Hn. induction n as [n IH] using lt_wf_ind. intros bs ->.
  assert (∀ r, length r < length bs →
    utf8_decode_replace (r ++ [10%N]) = utf8_decode_replace r ++ [10%N]) as IH'.
  { intros r Hr. by apply (IH (length r)). }
  clear IH. destruct bs as [|b0 r0]; [done|]. cbn [app utf8_decode_replace].
  assert (∀ r c, length r < length (b0 :: r0) →
    c :: utf8_decode_replace (r ++ [10%N]) = (c :: utf8_decode_replace r) ++ [10%N]) as Hc.
  { intros r c Hr. simpl. f_equal. by apply IH'. }
  destruct r0 as [|b1 r1].
  { cbn [app]. repeat case_match; simplify_eq; done. }
  cbn [app]. destruct r1 as [|b2 r2].
  { cbn [app]. repeat case_match; simplify_eq; try done;
      try (apply (Hc [b1]); simpl; lia); apply (Hc []); simpl; lia. }
  destruct r2 as [|b3 r3].
  { cbn [app]. repeat case_match; simplify_eq; try done;
      try (apply (Hc [b1; b2]); simpl; lia); try (apply (Hc [b2]); simpl; lia); apply (Hc []); simpl; lia. }
  cbn [app]. repeat case_match; simplify_eq;
    first [apply (Hc (b1 :: b2 :: b3 :: r3)); simpl; lia | apply (Hc (b2 :: b3 :: r3)); simpl; lia
          |apply (Hc (b3 :: r3)); simpl; lia | apply (Hc r3); simpl; lia].
Qed.
Lemma line_text_newline bs :
  strip (utf8_decode_replace (bs ++ [10%N])) = strip (utf8_decode_replace bs).
Proof.
  rewrite utf8_decode_newline. by apply strip_by_snoc.
Qed.

(** ** The handler *)

Section daemon.
Context {K : Type} `{Env K} {ops : GateOps K} (R : relation (World K)) {laws : GateLaws ops R}.
Abbreviation safe := (within R is_exception).

Lemma now_iso_within : safe now_iso_utc.
Proof. intros w. split; [apply laws_tick|done]. Qed.
Lemma parse_install_raises p : raises_only is_exception (parse_install p).
Proof.
  unfold parse_install, py_item, res_of_option. apply res_bind_raises; [|intros; raises].
  generalize [u "token_id"; u "nonce"; u "exp"; u "targets"; u "ports"; u "proto"].
  intros fs. induction fs as [|f fs IH]; simpl; [done|]. by destruct (dict_has f p).
Qed.
Lemma parse_call_raises req : raises_only is_exception (parse_call req).
Proof. unfold parse_call, value_error. by repeat case_match. Qed.
#[local] Hint Resolve now_iso_within parse_install_raises parse_call_raises : within.

Lemma call_within m p : dict_ok p → safe (call m p).
Proof.
  intros Hp. unfold call.
  destruct (decide (m = u "grant.install")) as [->|_]; [|within].
  rewrite !decide_False by done.
  intros w. rewrite run_bind. unfold lift at 1. pose proof (parse_install_raises p) as Hr.
  destruct (parse_install p) as [a|e] eqn:Ha; [|by split].
  revert w. change (safe (install a ≫= λ _, mret (status (u "installed")))).
  apply within_bind; [apply laws_preorder| |intros; apply within_ret, laws_preorder].
  apply laws_install. by eapply parse_install_targets.
Qed.

(** The reply to a request whose call ran as [call] did. *)
Lemma run_handle_request raw req m p w w' r :
  loads raw = Ok (JDict req) → parse_call req = Ok (m, p) → call m p w = (w', r) →
  raises_only is_exception r →
  handle_request raw w =
    (w', Ok match r with
            | Ok result => ok_response (request_id raw) result
            | Err e => err_response (request_id raw) (map_error e)
            end).
Proof.
  intros Hraw Hcall Hrun He. unfold handle_request, py_loads, request_id. rewrite Hraw.
  unfold catch. rewrite run_bind. unfold lift. rewrite Hcall, run_bind, Hrun.
  destruct r as [result|e]; [done|]. simpl in He. unfold is_exception in He. by rewrite He.
Qed.

(** The handler answers every decoded line: it never raises, its steps are
    steps of the gate, and the answer echoes the request's id and is either a
    result or an error with one of the seven codes. *)
Lemma handle_request_replies raw w :
  text_ok raw →
  ∃ w' resp, handle_request raw w = (w', Ok resp) ∧ R w w' ∧ is_reply (request_id raw) resp.
Proof.
  intros Hraw. assert (∀ e, is_reply (request_id raw) (err_response (request_id raw) (map_error e))) as Herr.
  { intros e. right. eexists. split; [done|apply map_error_code]. }
  destruct laws.(laws_preorder) as [Hrefl _].
  destruct (loads raw) as [j|msg] eqn:Hl.
  2: { do 2 eexists. unfold handle_request, py_loads. rewrite Hl. split; [done|]. split; [done|].
       specialize (Herr (Exn JSONDecodeError msg)). unfold request_id in *. by rewrite Hl in *. }
  assert (request_id raw = match j with JDict req => dict_get_or JNull (u "id") req | _ => JNull end) as Hid.
  { unfold request_id. by rewrite Hl. }
  assert ((∃ req, j = JDict req) ∨ ∀ req, j ≠ JDict req) as [[req ->]|Hnd] by (destruct j; eauto).
  2: { exists w, (err_response JNull (map_error (Exn ValueError (u "request is not an object")))).
       split; [|split; [done|]].
       - unfold handle_request, py_loads. rewrite Hl. destruct j; try done. by destruct (Hnd d).
       - assert (request_id raw = JNull) as <-; [|apply Herr]. rewrite Hid. destruct j; try done. by destruct (Hnd d). }
  assert (dict_ok req) as Hreq by (by eapply strs_ok_dict, loads_strs_ok).
  destruct (parse_call req) as [[m p]|e] eqn:Hc.
  - destruct (call m p w) as [w' r] eqn:Hr.
    destruct (call_within m p (parse_call_params _ _ _ Hreq Hc) w) as [HR He]. rewrite Hr in HR, He.
    exists w', match r with Ok result => ok_response (request_id raw) result
               | Err e => err_response (request_id raw) (map_error e) end.
    split; [by eapply run_handle_request|]. split; [done|].
    destruct r; [left; eauto|apply Herr].
  - exists w, (err_response (request_id raw) (map_error e)). split; [|by split].
    pose proof (parse_call_raises req) as He. rewrite Hc in He.
    unfold handle_request, py_loads. rewrite Hl. unfold catch. rewrite run_bind. unfold lift. rewrite Hc.
    simpl in He. unfold is_exception in He. by rewrite He, Hid.
Qed.

Lemma handle_line_replies line w :
  ∃ w' outs, handle_line line w = (w', Ok outs) ∧ R w w' ∧
    replies (filter (λ raw, raw ≠ []) [strip (utf8_decode_replace line)]) outs.
Proof.
  unfold handle_line. destruct (strip (utf8_decode_replace line)) as [|c raw] eqn:Hraw.
  - exists w, []. split; [done|]. destruct laws.(laws_preorder). split; [done|constructor].
  - destruct (handle_request_replies (c :: raw) w) as (w' & resp & Hr & HR & Hreply).
    { rewrite <-Hraw. apply strip_text, utf8_decode_text. }
    exists w', [dumps opts_default true resp ++ [10%N]]. rewrite run_bind, Hr.
    split; [done|]. split; [done|]. rewrite filter_cons_True by done.
    constructor; [|constructor]. eauto.
Qed.

Lemma serve_lines_replies segs w :
  ∃ w' outs finished, serve_lines segs w = (w', Ok (outs, finished)) ∧ R w w' ∧
    (finished = true ↔ Forall fits segs) ∧ replies (request_texts (delivered segs)) outs.
Proof.
  pose proof laws.(laws_preorder) as [Hrefl Htrans].
  revert w. induction segs as [|seg rest IH]; intros w.
  { exists w, [], true. split; [done|]. split; [done|]. split; [done|constructor]. }
  cbn [serve_lines]. set (nl := match rest with [] => [] | _ => [10%N] end).
  destruct (seg ++ nl) as [|b line] eqn:Hline.
  { apply app_nil in Hline as [-> Hnl]. destruct rest; [|done].
    exists w, [], true. split; [done|]. split; [done|]. split; [|constructor].
    split; [|done]. by repeat constructor. }
  rewrite <-Hline. clear b line Hline.
  destruct (Z.ltb_spec stream_limit (Z.of_nat (length seg))) as [Hlong|Hfit].
  { exists w, [], false. split; [done|]. split; [done|]. split.
    - split; [done|]. intros Hall. apply Forall_inv in Hall. unfold fits in Hall. lia.
    - cbn [delivered]. rewrite decide_False by (unfold fits; lia). constructor. }
  destruct (handle_line_replies (seg ++ nl) w) as (w1 & out & Hl & HR & Hout).
  destruct (IH w1) as (w2 & outs & fin & Hs & HR2 & Hfin & Houts).
  exists w2, (out ++ outs), fin. rewrite run_bind, Hl, run_bind, Hs.
  split; [done|]. split; [by etrans|]. split.
  - rewrite Hfin, Forall_cons. unfold fits at 2. naive_solver.
  - cbn [delivered]. rewrite decide_True by done. unfold request_texts. cbn [map].
    rewrite filter_cons. unfold replies in *.
    assert (strip (utf8_decode_replace (seg ++ nl)) = (strip ∘ utf8_decode_replace) seg) as Hnl.
    { subst nl. destruct rest; [by rewrite app_nil_r|apply line_text_newline]. }
    rewrite Hnl in Hout. rewrite filter_cons in Hout. change (filter (λ raw : pystr, raw ≠ []) [] : list pystr) with (@nil pystr) in Hout.
    case_decide; inversion_clear Hout; [|done].
    match goal with H : Forall2 _ [] _ |- _ => inversion_clear H end. by constructor.
Qed.

(** C6: a connection's bytes, whatever they are, are answered line by line: one
    reply, on a line of its own, for each non-blank line the reader delivers, in
    order, echoing the request's id and holding either a result or an error with
    one of the seven codes.  Nothing a client sends makes the handler raise,
    except a line over the stream limit, which ends the connection; and the
    handler only makes steps of the gate. *)
Theorem handle_client_replies input w :
  ∃ w' outs finished, handle_client input w = (w', Ok (outs, finished)) ∧ R w w' ∧
    (finished = true ↔ Forall fits (split 10 input)) ∧
    replies (request_texts (delivered (split 10 input))) outs.
Proof. apply serve_lines_replies. Qed.
End daemon.

(** ** Socket activation *)

(** Socket activation follows the systemd protocol: the descriptors are 3, 4,
    ... as many as [LISTEN_FDS] says, when [LISTEN_PID] is this process and
    both are integers, and none otherwise. *)
Lemma systemd_listen_fds_elem env pid fd :
  fd ∈ _systemd_listen_fds env pid ↔
     ∃ n, py_int_str (environ_get env (u "LISTEN_PID") (u "0")) = Ok pid ∧
          py_int_str (environ_get env (u "LISTEN_FDS") (u "0")) = Ok n ∧ (3 <= fd < 3 + n)%Z.
Proof.
  unfold _systemd_listen_fds.
  destruct (py_int_str (environ_get env (u "LISTEN_PID") (u "0"))) as [p|e];
    [|rewrite elem_of_nil; naive_solver].
  destruct (py_int_str (environ_get env (u "LISTEN_FDS") (u "0"))) as [n|e];
    [|rewrite elem_of_nil; naive_solver].
  destruct (Z.eqb_spec p pid) as [->|Hp], (Z.leb_spec n 0) as [Hn|Hn]; cbn [negb orb];
    rewrite ?elem_of_nil, ?elem_of_seqZ; naive_solver lia.
Qed.
(** The first of them, if any, is 3. *)
Lemma systemd_listen_fds_head env pid :
  match _systemd_listen_fds env pid with [] => True | fd :: _ => fd = 3%Z end.
Proof.
  unfold _systemd_listen_fds. repeat case_match; try done; simplify_eq.
  all: match goal with H : seqZ 3 ?n = _ :: _ |- _ =>
    destruct (decide (0 < n)%Z); [rewrite seqZ_cons in H by lia|rewrite seqZ_nil in H by lia] end.
  all: by simplify_eq.
Qed.
