(* ===== verification/GateSafety.v ===== *)
(** * Safety of the running gate

    What holds of every execution of the daemon over the real gate, whatever
    its clients send, however their requests interleave, and whatever the other
    users of the kernel do. *)
From S2P Require Import Prelude PyStr PyJson PyJsonRoundtrip PyJsonStrings Errors PyOps TimeUtil.
From S2P Require Import World Protocol Store StoreFacts StoreSpec Nft Interface GateSteps.
From S2P Require Import EgressFacts.
From S2P Require Import Daemon DaemonFacts.
From S2P Require Egress AuditLog.

(** The install request a line carries. *)
Definition install_request (raw : pystr) : option install_args :=
  match loads raw with
  | Ok (JDict req) =>
      match parse_call req with
      | Ok (m, p) => if decide (m = u "grant.install")
                     then match parse_install p with Ok a => Some a | Err _ => None end
                     else None
      | Err _ => None
      end
  | _ => None
  end.
Definition ia_key (a : install_args) : key := (ia_token_id a, ia_nonce a).
(** [resp["ok"] is True] *)
Definition accepted (resp : json) : Prop :=
  match resp with JDict d => dict_get (u "ok") d = Some (JBool true) | _ => False end.

(** The key of [a] has been recorded against replay. *)
Definition recorded {K : Type} (w : World K) (k : key) : Prop := k ∈ map replay_key (replay_rows w).

Definition tables_kept {K : Type} (w w' : World K) : Prop :=
  replay_rows w' = replay_rows w ∧ grant_rows w' = grant_rows w.
#[export] Instance tables_kept_preorder {K : Type} : PreOrder (@tables_kept K).
Proof. split; [done|]. intros ??? [??] [??]. split; congruence. Qed.

Section install.
Context {K : Type} `{Env K} (cfg : NftConfig).
Implicit Types w : World K.

(** ** One install *)

Lemma install_records tok nonce exp targets ports proto w w' g :
  store_inv w → Store.install_grant tok nonce exp targets ports proto w = (w', Ok g) →
  recorded w' (tok, nonce).
Proof.
  intros Hw. rewrite run_install_grant by done. cbv zeta. repeat case_match; intros; simplify_eq.
  unfold recorded.
  lazymatch goal with |- _ ∈ map replay_key (replay_rows ?x) =>
    change (replay_rows x) with (replay_rows w ++ [{| rp_token_id := tok; rp_nonce := nonce;
       rp_exp := exp; rp_seen_at := clock (1 + w_tick w) |}]) end.
  rewrite map_app. set_solver.
Qed.

Lemma install_refused tok nonce exp targets ports proto w :
  store_inv w → recorded w (tok, nonce) →
  ∃ w' e, Store.install_grant tok nonce exp targets ports proto w = (w', Err e) ∧ tables_kept w w'.
Proof.
  intros Hw Hk. rewrite run_install_grant by done. cbv zeta.
  destruct (exp <=? _)%Z; [by do 2 eexists|]. destruct (bind_row _ _ _ _); [|by do 2 eexists].
  rewrite decide_True by done. by do 2 eexists.
Qed.

(** ** Requests *)

(** The daemon's gate. *)
#[local] Instance gate : GateOps K := egress_ops cfg.

Lemma install_request_call raw a :
  install_request raw = Some a →
  ∃ req p, loads raw = Ok (JDict req) ∧ parse_call req = Ok (u "grant.install", p) ∧
    parse_install p = Ok a.
Proof.
  unfold install_request. intros Ha. repeat case_match; simplify_eq. naive_solver.
Qed.

(** An install request runs the gate's [install_grant] and answers its result. *)
Lemma run_install_request raw a w w' r :
  text_ok raw → install_request raw = Some a → install a w = (w', r) →
  handle_request raw w =
    (w', Ok match r with
            | Ok _ => ok_response (request_id raw) (status (u "installed"))
            | Err e => err_response (request_id raw) (map_error e)
            end).
Proof.
  intros Hraw (req & p & Hl & Hc & Hp)%install_request_call Hrun.
  assert (call (u "grant.install") p w = (w', (λ _, status (u "installed")) <$> r)) as Hcall.
  { unfold call. rewrite !decide_False by done. rewrite decide_True by done.
    rewrite run_bind. unfold lift. rewrite Hp, run_bind, Hrun. by destruct r. }
  rewrite (run_handle_request raw req _ _ _ _ _ Hl Hc Hcall); [by destruct r|].
  assert (dict_ok req) as Hreq by (by eapply strs_ok_dict, loads_strs_ok).
  destruct (call_within gate_step (u "grant.install") p (parse_call_params _ _ _ Hreq Hc) w) as [_ He].
  by rewrite Hcall in He.
Qed.

Lemma accepted_install id r s :
  accepted match r : pyres unit with
           | Ok _ => ok_response id s
           | Err e => err_response id (map_error e)
           end → r = Ok tt.
Proof. destruct r as [[]|e]; [done|]. by unfold accepted, err_response. Qed.

Lemma install_request_targets raw a :
  text_ok raw → install_request raw = Some a → Forall (λ t, str_ok t = true) (ia_targets a).
Proof.
  intros Hraw (req & p & Hl & Hc & Hp)%install_request_call.
  eapply parse_install_targets; [|done]. eapply parse_call_params; [|done].
  by eapply strs_ok_dict, loads_strs_ok.
Qed.

(** After the store has installed, the rest of [install_grant] only makes steps
    of the gate. *)
Lemma after_install g b : within gate_step is_exception
  (_ ← AuditLog.append Egress.stream (Egress.install_record g); when b (Egress.apply cfg)).
Proof.
  apply within_bind; [typeclasses eauto|apply append_safe|intros _].
  apply within_when; [typeclasses eauto|intros _; apply (apply_step gate_step)].
Qed.

Lemma install_accepted a w w' :
  store_inv w → Forall (λ t, str_ok t = true) (ia_targets a) → install a w = (w', Ok tt) →
  store_inv w' ∧ recorded w' (ia_key a).
Proof.
  intros Hw Hts. unfold install, op_install_grant. cbn [gate egress_ops]. unfold Egress.install_grant.
  rewrite run_bind. destruct (Store.install_grant _ _ _ _ _ _ w) as [w0 [g|e]] eqn:Hs; [|done].
  intros Hrest. destruct (install_safe (ia_token_id a) (ia_nonce a) (ia_exp a) (ia_targets a)
    (ia_ports a) (ia_proto a) Hts w) as [[_ _ _ H0] _]. rewrite Hs in H0. cbn [fst] in H0.
  destruct (H0 Hw) as [Hw0 _]. destruct (after_install g (ia_apply a) w0) as [[_ _ _ H1] _].
  rewrite Hrest in H1. destruct (H1 Hw0) as [Hw' Hgrow]. split; [done|].
  apply Hgrow. change (recorded w0 (ia_token_id a, ia_nonce a)). eapply install_records; [|exact Hs]; exact Hw.
Qed.

Lemma install_again a w :
  store_inv w → recorded w (ia_key a) → ∃ w' e, install a w = (w', Err e) ∧ tables_kept w w'.
Proof.
  intros Hw Hk. unfold install, op_install_grant. cbn [gate egress_ops]. unfold Egress.install_grant.
  destruct (install_refused _ _ (ia_exp a) (ia_targets a) (ia_ports a) (ia_proto a) w Hw Hk)
    as (w' & e & Hr & Ht).
  exists w', e. rewrite run_bind, Hr. by split.
Qed.

(** Every line of every client makes a step of the gate. *)
Lemma transition_step w w' : transition w w' → gate_step w w'.
Proof.
  intros [line w1 w2 out Hl|w1|w1 k].
  - destruct (handle_line_replies gate_step line w1) as (w2' & outs & Hl' & HR & _).
    rewrite Hl in Hl'. by simplify_eq.
  - apply tick_safe.
  - apply kernel_step.
Qed.

Lemma daemon_execution w w' : rtc transition w w' → gate_step w w'.
Proof.
  induction 1 as [w|w1 w2 w3 Hstep _ IH]; [reflexivity|].
  etrans; [by apply transition_step|done].
Qed.

(** C5: over any execution of the daemon (any lines from any clients in any
    order, the clock advancing, other processes changing the kernel), the audit
    files only grow at their ends and stay line-delimited records, the tables
    of the store keep their invariant, and no replay key is forgotten. *)
Theorem daemon_execution_safe w w' :
  rtc transition w w' → store_inv w → log_wf (w_fs w) →
  log_extends (w_fs w) (w_fs w') ∧ log_wf (w_fs w') ∧ store_inv w' ∧ keys_grow w w'.
Proof.
  intros [Hlog Hwf _ Hs]%daemon_execution Hw Hf. destruct (Hs Hw). split_and!; auto.
Qed.

(** C1: a grant is installed at most once: after a request to install a token
    and nonce has been accepted, no later request for the same token and nonce
    is, whatever happened in between, and the refused one leaves the tables as
    they were. *)
Theorem no_double_install raw1 raw2 a1 a2 w w1 w2 r1 :
  store_inv w → text_ok raw1 → text_ok raw2 →
  install_request raw1 = Some a1 → install_request raw2 = Some a2 → ia_key a1 = ia_key a2 →
  handle_request raw1 w = (w1, Ok r1) → accepted r1 → rtc transition w1 w2 →
  ∃ w3 r2, handle_request raw2 w2 = (w3, Ok r2) ∧ ¬ accepted r2 ∧ tables_kept w2 w3.
Proof.
  intros Hw Ht1 Ht2 Ha1 Ha2 Hkey Hr1 Hok Htr.
  destruct (install a1 w) as [w1' r] eqn:Hrun.
  rewrite (run_install_request _ _ _ _ _ Ht1 Ha1 Hrun) in Hr1. injection Hr1 as <- <-.
  apply accepted_install in Hok as ->.
  destruct (install_accepted _ _ _ Hw (install_request_targets _ _ Ht1 Ha1) Hrun) as [Hw1 Hk1].
  destruct (step_store _ _ (daemon_execution _ _ Htr) Hw1) as [Hw2 Hgrow].
  rewrite Hkey in Hk1. destruct (install_again a2 w2 Hw2 (Hgrow _ Hk1)) as (w3 & e & Hrun2 & Ht).
  do 2 eexists. split; [by eapply run_install_request|]. by split.
Qed.
End install.
