(* ===== verification/Concurrent.v ===== *)
(** * The gate under several processes

    The daemon, the command line tool and the timer may run at once on one store
    root.  Here the methods of the gate are cut at the actions other processes
    can come between: a reading of the clock, a transaction, one [nft] command,
    one append to the log.  [proc] is a program so cut, [run_alone] runs it
    without interference, and [pool_step] interleaves any number of them.

    A transaction is one action: sqlite holds the write lock from the first
    INSERT or DELETE to the commit.  A SELECT outside a write opens no
    transaction in the [sqlite3] module's default mode, so counting and deleting
    in [prune_expired] are two actions.  The CREATE ... IF NOT EXISTS statements
    of [init] commit one by one, but are one action here: a process runs all of
    them before its own first look at a table, so no process sees half a schema. *)
From S2P Require Import Prelude PyStr PyJson PyJsonRoundtrip Errors PyOps TimeUtil World.
From S2P Require Import AuditLog Store Nft Daemon.
From S2P Require Egress.

Inductive proc (K A : Type) : Type :=
  | Done (r : pyres A)
  | Act {X : Type} (m : W K X) (k : pyres X → proc K A).
Arguments Done {_ _} _. Arguments Act {_ _ _} _ _.

Section proc.
Context {K : Type}.

Fixpoint pbind {A B} (f : A → proc K B) (p : proc K A) : proc K B :=
  match p with
  | Done (Ok a) => f a
  | Done (Err e) => Done (Err e)
  | Act m k => Act m (λ r, pbind f (k r))
  end.
Global Instance proc_ret : MRet (proc K) := λ A a, Done (Ok a).
Global Instance proc_bind : MBind (proc K) := @pbind.
Definition atom {A} (m : W K A) : proc K A := Act m Done.
Definition praise {A} (e : exn) : proc K A := Done (Err e).
Definition plift {A} (r : pyres A) : proc K A := Done r.
Definition pwhen (b : bool) (p : proc K unit) : proc K unit := if b then p else mret tt.

Fixpoint run_alone {A} (p : proc K A) : W K A := λ w,
  match p with
  | Done r => (w, r)
  | Act m k => let '(w', r) := m w in run_alone (k r) w'
  end.
(** One action of a program. *)
Definition step_proc {A} (p : proc K A) (w : World K) : option (World K * proc K A) :=
  match p with
  | Done _ => None
  | Act m k => let '(w', r) := m w in Some (w', k r)
  end.
End proc.

(** ** The methods, cut *)

Section methods.
Context {K : Type} `{Env K} (cfg : NftConfig).

(** The transaction of [GateStore.install_grant]. *)
Definition install_tx (a : install_args) : W K unit :=
  with_conn (
    _ ← record_replay (ia_token_id a) (ia_nonce a) (ia_exp a);
    at_ ← now_epoch;
    execute (insert_grant
      {| gr_token_id := ia_token_id a; gr_nonce := ia_nonce a; gr_exp := ia_exp a;
         gr_proto := normalize_proto (ia_proto a);
         gr_targets_json := dumps opts_default false (JList (map JStr (ia_targets a)));
         gr_ports_json := dumps opts_default false (JList (map JInt (ia_ports a))); gr_installed_at := at_ |})).

Definition p_commit (a : install_args) : proc K Grant :=
  _ ← atom (install_tx a);
  installed_at ← atom now_epoch;
  mret {| g_token_id := ia_token_id a; g_nonce := ia_nonce a; g_exp := ia_exp a;
          g_targets := JList (map JStr (ia_targets a)); g_ports := ia_ports a;
          g_proto := normalize_proto (ia_proto a); g_installed_at := installed_at |}.
Definition p_checked (a : install_args) : proc K Grant := _ ← atom init; p_commit a.
Definition p_install (a : install_args) : proc K Grant :=
  now ← atom now_epoch;
  if (ia_exp a <=? now)%Z then praise (Exn ExpiredGrantError (u "grant expired")) else p_checked a.

Definition p_prune_expired : proc K Z :=
  _ ← atom init;
  cutoff ← atom now_epoch;
  to_delete ← atom (with_conn (query (count_expired cutoff)));
  _ ← atom (with_conn (execute (delete_expired cutoff)));
  mret to_delete.

Definition p_list_active : proc K (list Grant) :=
  _ ← atom init;
  cutoff ← atom now_epoch;
  rows ← atom (with_conn (query (select_active cutoff)));
  plift (map_res grant_of_row rows).
Definition p_compute_active_sets : proc K sets :=
  gs ← p_list_active; plift (add_grants (∅, ∅, ∅) gs).

Definition p_append (stream : pystr) (record : dict) : proc K unit :=
  p ← atom (path_for stream);
  ts ← atom now_iso_utc;
  atom (append_file p (dumps opts_default true (JDict (dict_setdefault (u "ts") (JStr ts) record)) ++ [10%N])).

Definition p_run (cmd : list pystr) : proc K completed := atom (_run cmd).
Definition p_exists (kind : pystr) (parts : list pystr) : proc K bool :=
  r ← p_run ([u "nft"; u "list"; kind] ++ parts);
  mret (bool_decide (returncode r = 0%Z)).
Fixpoint p_require_sets (ss : list pystr) : proc K unit :=
  match ss with
  | [] => mret tt
  | s :: ss' =>
      b ← p_exists (u "set") [table_family cfg; table_name cfg; s];
      if b : bool then p_require_sets ss'
      else praise (Exn BaselineMissingError (u "missing nft baseline set: " ++ s))
  end.
Definition p_require_baseline : proc K unit :=
  b ← p_exists (u "table") [table_family cfg; table_name cfg];
  if b : bool then
    _ ← p_require_sets [set_allow_v4 cfg; set_tcp_ports cfg; set_udp_ports cfg];
    c ← p_exists (u "chain") [table_family cfg; table_name cfg; chain_output cfg];
    if c : bool then mret tt
    else praise (Exn BaselineMissingError (u "missing nft baseline output chain"))
  else praise (Exn BaselineMissingError (u "missing nft baseline table")).

Definition p_apply_sets (addrs tcp_ports udp_ports : gset pystr) : proc K unit :=
  euid ← atom (gets w_euid);
  if negb (euid =? 0)%Z then praise (Exn PermissionError (u "root required")) else
  _ ← p_require_baseline;
  t ← plift (norm_ports tcp_ports);
  us ← plift (norm_ports udp_ports);
  atom (_run_script (apply_script cfg (sorted_set (norm_addrs addrs)) (sorted_set t) (sorted_set us))).

Definition p_apply : proc K unit :=
  _ ← p_require_baseline;
  '(addrs, tcp_ports, udp_ports) ← p_compute_active_sets;
  _ ← p_apply_sets addrs tcp_ports udp_ports;
  p_append Egress.stream
    [(u "action", JStr (u "apply")); (u "allow_v4", Egress.sorted_json addrs);
     (u "tcp_ports", Egress.sorted_json tcp_ports); (u "udp_ports", Egress.sorted_json udp_ports)].

(** [EgressGate.install_grant] after the store has installed [g]. *)
Definition p_installed (b : bool) (g : Grant) : proc K unit :=
  _ ← p_append Egress.stream (Egress.install_record g); pwhen b p_apply.
Definition p_gate_install (a : install_args) : proc K unit := g ← p_install a; p_installed (ia_apply a) g.

Definition p_gate_prune (b : bool) : proc K Z :=
  removed ← p_prune_expired;
  _ ← p_append Egress.stream [(u "action", JStr (u "grant.prune")); (u "removed", JInt removed)];
  _ ← pwhen b p_apply;
  mret removed.

(** ** The pool *)

(** What a process is asked to do. *)
Inductive job := JInstall (a : install_args) | JPrune (do_apply : bool) | JApply.
Definition start (j : job) : proc K Z :=
  match j with
  | JInstall a => _ ← p_gate_install a; mret 0%Z
  | JPrune b => p_gate_prune b
  | JApply => _ ← p_apply; mret 0%Z
  end.
(** The same, as the gate's methods. *)
Definition whole (j : job) : W K Z :=
  match j with
  | JInstall a =>
      _ ← Egress.install_grant cfg (ia_token_id a) (ia_nonce a) (ia_exp a) (ia_targets a) (ia_ports a)
            (ia_proto a) (ia_apply a); mret 0%Z
  | JPrune b => Egress.prune cfg b
  | JApply => _ ← Egress.apply cfg; mret 0%Z
  end.
Definition job_ok (j : job) : Prop :=
  match j with JInstall a => Forall (λ t, str_ok t = true) (ia_targets a) | _ => True end.

Record Pool := { pl_world : World K; pl_procs : gmap nat (job * proc K Z) }.
Inductive pool_step : relation Pool :=
  | pool_start i j s : pl_procs s !! i = None → job_ok j →
      pool_step s {| pl_world := pl_world s; pl_procs := <[i := (j, start j)]> (pl_procs s) |}
  | pool_act i j p p' w s : pl_procs s !! i = Some (j, p) → step_proc p (pl_world s) = Some (w, p') →
      pool_step s {| pl_world := w; pl_procs := <[i := (j, p')]> (pl_procs s) |}
  | pool_time s : pool_step s {| pl_world := tick (pl_world s); pl_procs := pl_procs s |}
  | pool_kernel k s : pool_step s {| pl_world := set_kernel k (pl_world s); pl_procs := pl_procs s |}.
End methods.
Arguments Pool _ : clear implicits.
