(* ===== verification/ConcurrentFacts.v ===== *)
(** * The gate under several processes: facts

    Run without interference, the cut methods are the methods ([alone_whole]).
    Interleaved with any others, a grant is still installed at most once and the
    store and the log keep their invariants; but two prunes may both count the
    grant that one of them deletes. *)
From S2P Require Import Prelude PyStr PyJson PyJsonRoundtrip Errors PyOps TimeUtil World.
From S2P Require Import AuditLog Store StoreFacts StoreSpec.
From S2P Require Import Nft Interface GateSteps EgressFacts Daemon DaemonFacts GateSafety.
From S2P Require Import Concurrent.
From S2P Require Egress.

(** ** Without interference *)

Section alone.
Context {K : Type}.

Definition agrees {A} (p : proc K A) (m : W K A) : Prop := ∀ w, run_alone p w = m w.

Lemma agrees_ret {A} (a : A) : agrees (mret a) (mret a).
Proof. done. Qed.
Lemma agrees_raise {A} e : agrees (A:=A) (praise e) (raise e).
Proof. done. Qed.
Lemma agrees_lift {A} (r : pyres A) : agrees (plift r) (lift r).
Proof. done. Qed.
Lemma agrees_atom {A} (m : W K A) : agrees (atom m) m.
Proof. intros w. simpl. by destruct (m w). Qed.
Lemma run_alone_bind {A B} (p : proc K A) (f : A → proc K B) w :
  run_alone (p ≫= f) w = match run_alone p w with
                         | (w', Ok a) => run_alone (f a) w'
                         | (w', Err e) => (w', Err e)
                         end.
Proof.
  revert w. induction p as [[a|e]|X m k IH]; intros w; [done|done|].
  cbn [run_alone]. change (Act m k ≫= f) with (Act m (λ r, k r ≫= f)). cbn [run_alone].
  destruct (m w) as [w' r]. apply IH.
Qed.
Lemma agrees_bind {A B} (p : proc K A) (m : W K A) (f : A → proc K B) (g : A → W K B) :
  agrees p m → (∀ a, agrees (f a) (g a)) → agrees (p ≫= f) (m ≫= g).
Proof.
  intros Hp Hf w. rewrite run_alone_bind, run_bind, Hp. destruct (m w) as [w' [a|e]]; [apply Hf|done].
Qed.
Lemma agrees_when b p m : agrees p m → agrees (pwhen b p) (when b m).
Proof. by destruct b. Qed.
(** Moving a binder, which [proc] and the monad both allow. *)
Lemma agrees_ext {A} (p : proc K A) (m m' : W K A) : agrees p m → (∀ w, m w = m' w) → agrees p m'.
Proof. intros Hp Hm w. by rewrite Hp. Qed.
End alone.

Create HintDb agree discriminated.
#[export] Hint Resolve agrees_ret agrees_raise agrees_lift agrees_atom agrees_when : agree.
Ltac agree_step :=
  match goal with
  | |- agrees (if ?b then _ else _) _ => destruct b eqn:?
  | |- agrees (match ?x with _ => _ end) _ => destruct x eqn:?
  | |- agrees (_ ≫= _) (_ ≫= _) => apply agrees_bind; [|intros ?]
  | |- agrees (pwhen _ _) (when _ _) => apply agrees_when
  end.
Ltac agree := repeat first [solve [eauto 2 with agree nocore] | agree_step].

Section methods.
Context {K : Type} `{Env K} (cfg : NftConfig).

Lemma agrees_install a :
  agrees (p_install (K:=K) a)
    (Store.install_grant (ia_token_id a) (ia_nonce a) (ia_exp a) (ia_targets a) (ia_ports a) (ia_proto a)).
Proof. unfold p_install, p_checked, p_commit, install_tx, Store.install_grant. agree. Qed.

(** Each statement on its own connection, or both in one [with]. *)
Lemma split_prune c (w : World K) :
  (n ← with_conn (query (count_expired c)); _ ← with_conn (execute (delete_expired c)); mret n) w =
  with_conn (n ← query (count_expired c); _ ← execute (delete_expired c); mret n) w.
Proof.
  rewrite !run_bind. unfold with_conn, query, execute. set (w1 := (connect w).1).
  assert (set_db (w_db w1) w1 = w1) as Hw1 by (by destruct w).
  assert ((connect w1).1 = w1) as Hc by done.
  rewrite !run_bind. destruct (count_expired c _) as [n|e]; [|done].
  rewrite run_bind, Hc, run_bind. by destruct (delete_expired c _).
Qed.
Lemma agrees_prune : agrees (K:=K) p_prune_expired prune_expired.
Proof.
  unfold p_prune_expired, prune_expired. agree_step; [agree|]. agree_step; [agree|].
  eapply agrees_ext; [|apply split_prune]. agree.
Qed.
Lemma split_list c (w : World K) :
  (rows ← with_conn (query (select_active c)); lift (map_res grant_of_row rows)) w =
  with_conn (rows ← query (select_active c); lift (map_res grant_of_row rows)) w.
Proof.
  rewrite run_bind. unfold with_conn, query. rewrite run_bind.
  destruct (select_active c _) as [rows|e]; [|done]. unfold lift. by destruct (map_res _ _).
Qed.
Lemma agrees_list_active : agrees (K:=K) p_list_active list_active.
Proof.
  unfold p_list_active, list_active. agree_step; [agree|]. agree_step; [agree|].
  eapply agrees_ext; [|apply split_list]. agree.
Qed.
#[local] Hint Resolve agrees_install agrees_prune agrees_list_active : agree.
Lemma agrees_compute : agrees (K:=K) p_compute_active_sets compute_active_sets.
Proof. unfold p_compute_active_sets, compute_active_sets. agree. Qed.
Lemma agrees_append stream record : agrees (K:=K) (p_append stream record) (append stream record).
Proof. unfold p_append, append. agree. Qed.
Lemma agrees_exists kind parts : agrees (K:=K) (p_exists kind parts) (_exists kind parts).
Proof. unfold p_exists, _exists, p_run. agree. Qed.
#[local] Hint Resolve agrees_compute agrees_append agrees_exists : agree.
Lemma agrees_require_sets ss : agrees (K:=K) (p_require_sets cfg ss) (require_sets cfg ss).
Proof. induction ss; cbn [p_require_sets require_sets]; agree. Qed.
#[local] Hint Resolve agrees_require_sets : agree.
Lemma agrees_require_baseline : agrees (K:=K) (p_require_baseline cfg) (require_baseline cfg).
Proof. unfold p_require_baseline, require_baseline. agree. Qed.
#[local] Hint Resolve agrees_require_baseline : agree.
Lemma agrees_apply_sets a t us : agrees (K:=K) (p_apply_sets cfg a t us) (apply_sets a t us cfg).
Proof. unfold p_apply_sets, apply_sets. agree. Qed.
#[local] Hint Resolve agrees_apply_sets : agree.
Lemma agrees_apply : agrees (K:=K) (p_apply cfg) (Egress.apply cfg).
Proof. unfold p_apply, Egress.apply. agree. Qed.
#[local] Hint Resolve agrees_apply : agree.

(** run without interference, a cut method is the method of the gate it
    cuts: the same world and the same result, from every world. *)
Theorem alone_whole j (w : World K) : run_alone (start cfg j) w = whole cfg j w.
Proof.
  revert w. change (agrees (start cfg j) (whole cfg j)). destruct j as [a|b|]; cbn [start whole].
  - unfold p_gate_install, p_installed, Egress.install_grant. agree.
  - unfold p_gate_prune, Egress.prune. agree.
  - agree.
Qed.
End methods.

(** ** Every action is a step of the gate *)

Section safe.
Context {K : Type} `{Env K}.
Abbreviation safe := (within (@gate_step K) is_exception).

Fixpoint psafe {A} (p : proc K A) : Prop :=
  match p with
  | Done r => raises_only is_exception r
  | Act m k => safe m ∧ ∀ r, raises_only is_exception r → psafe (k r)
  end.
Lemma psafe_atom {A} (m : W K A) : safe m → psafe (atom m).
Proof. intros Hm. by split. Qed.
Lemma psafe_raise {A} e : is_exception e → psafe (A:=A) (praise e).
Proof. done. Qed.
Lemma psafe_lift {A} (r : pyres A) : raises_only is_exception r → psafe (plift r).
Proof. done. Qed.
Lemma psafe_ret {A} (a : A) : psafe (mret a).
Proof. done. Qed.
Lemma psafe_bind {A B} (p : proc K A) (f : A → proc K B) :
  psafe p → (∀ a, psafe (f a)) → psafe (p ≫= f).
Proof.
  intros Hp Hf. induction p as [[a|e]|X m k IH]; [apply Hf|done|].
  destruct Hp as [Hm Hk]. split; [done|]. intros r Hr. by apply IH, Hk.
Qed.
Lemma psafe_when b p : psafe p → psafe (pwhen b p).
Proof. by destruct b. Qed.

(** A safe program's action is a step of the gate, and leaves a safe program. *)
Lemma psafe_step {A} (p p' : proc K A) w w' :
  psafe p → step_proc p w = Some (w', p') → gate_step w w' ∧ psafe p'.
Proof.
  destruct p as [|X m k]; [done|]. intros [Hm Hk]. simpl. destruct (Hm w) as [HR Hr].
  destruct (m w) as [w1 r]. intros [= <- <-]. auto.
Qed.
End safe.
Create HintDb psafe discriminated.
#[export] Hint Resolve psafe_atom psafe_raise psafe_lift psafe_ret psafe_bind psafe_when : psafe.
Ltac psafe_step_tac :=
  match goal with
  | |- psafe (if ?b then _ else _) => destruct b eqn:?
  | |- psafe (match ?x with _ => _ end) => destruct x eqn:?
  | |- psafe (_ ≫= _) => apply psafe_bind; [|intros ?]
  | |- psafe (pwhen _ _) => apply psafe_when
  | |- psafe (atom _) => apply psafe_atom
  | |- psafe (plift _) => apply psafe_lift
  end.
Ltac psafe := repeat first [solve [eauto 3 with psafe within nocore] | psafe_step_tac].

Section actions.
Context {K : Type} `{Env K} (cfg : NftConfig).
Abbreviation safe := (within (@gate_step K) is_exception).

(** A connection whose body reads, or deletes. *)
Lemma conn_rows (w : World K) : replay_rows (connect w).1 = replay_rows w ∧ grant_rows (connect w).1 = grant_rows w.
Proof. done. Qed.
Lemma query_safe {A} (f : Db → pyres A) :
  (∀ db, raises_only is_exception (f db)) → safe (with_conn (query f)).
Proof.
  intros Hf w. unfold with_conn, query. specialize (Hf (default empty_db (w_db (connect w).1))).
  assert (gate_step w (connect w).1) as Hc by (apply store_step; [done|]; intros Hw; same_keys).
  destruct (f _) as [a|e]; [done|]. split; [|done]. exact Hc.
Qed.
Lemma delete_safe c : safe (with_conn (execute (delete_expired c))).
Proof.
  intros w. unfold with_conn, execute. set (w1 := (connect w).1).
  pose proof (delete_expired_raises c (default empty_db (w_db w1))) as He.
  assert (gate_step w w1) as Hc by (apply store_step; [done|]; intros Hw; same_keys).
  destruct (delete_expired c _) as [db'|e] eqn:Hd; (split; [|done]); [|exact Hc].
  etrans; [exact Hc|]. apply store_step; [done|]. unfold delete_expired in Hd.
  destruct (grants (default empty_db (w_db w1))) as [rows|] eqn:Hrows; [|done].
  destruct (bind_int c); [|done]. injection Hd as <-. intros Hw.
  assert (grant_rows w1 = rows) as Hg by (unfold grant_rows; by rewrite Hrows).
  unfold store_inv in Hw. rewrite Hg in Hw. split; [by apply rows_ok_filter|by intros k].
Qed.

(** The transaction of an install: the key was new and both rows are written,
    or nothing is. *)
Lemma install_tx_inv a (w w' : World K) r :
  install_tx a w = (w', r) →
  store_frame w w' ∧ raises_only is_exception r ∧
  match r with
  | Ok _ => ¬ recorded w (ia_key a) ∧ ∃ t1 t2,
      replay_rows w' = replay_rows w ++ [{| rp_token_id := ia_token_id a; rp_nonce := ia_nonce a;
                                            rp_exp := ia_exp a; rp_seen_at := t1 |}] ∧
      grant_rows w' = grant_rows w ++ [new_row (ia_token_id a) (ia_nonce a) (ia_exp a) (ia_targets a)
                                         (ia_ports a) (ia_proto a) t2]
  | Err _ => tables_kept w w'
  end.
Proof.
  unfold install_tx, with_conn. set (w1 := (connect w).1).
  unfold record_replay. rewrite !run_bind. cbn [now_epoch]. unfold catch, execute at 1.
  set (rp := {| rp_token_id := _ |}). cbn [w_db tick].
  pose proof (insert_replay_raises rp (default empty_db (w_db w1))) as He1.
  destruct (insert_replay rp _) as [db1|e] eqn:H1.
  2: { intros Hr. assert (∃ e', r = Err e' ∧ is_exception e' ∧ w' = set_db (w_db w1) (tick w1)) as (e' & -> & He & ->).
       { destruct (isinstance e IntegrityError); injection Hr as <- <-; by eexists. }
       by split_and!. }
  rewrite run_bind. cbn [now_epoch]. unfold execute. cbn [w_db tick set_db from_option id].
  set (gr := {| gr_token_id := _ |}). pose proof (insert_grant_raises gr db1) as He2.
  destruct (insert_grant gr db1) as [db2|e] eqn:H2; cbn; intros Hr; injection Hr as <- <-; [|by split_and!].
  split; [done|]. split; [done|]. unfold insert_replay in H1. change (w_db w1) with (Some (default empty_db (w_db w))) in H1.
  cbn [from_option id] in H1. unfold recorded, replay_rows, grant_rows.
  destruct (replay (default empty_db (w_db w))) as [rows|]; [|done].
  repeat (apply bind_Ok in H1 as (? & _ & H1)). case_decide as Hnew; [done|]. injection H1 as <-.
  unfold insert_grant in H2. cbn [grants replay] in H2.
  destruct (grants (default empty_db (w_db w))) as [grs|]; [|done].
  repeat (apply bind_Ok in H2 as (? & _ & H2)). case_decide; [done|]. injection H2 as <-.
  split; [exact Hnew|]. by exists (rp_seen_at rp), (gr_installed_at gr).
Qed.
Lemma install_tx_safe a : Forall (λ t, str_ok t = true) (ia_targets a) → safe (install_tx a).
Proof.
  intros Hts w. destruct (install_tx a w) as [w' r] eqn:Hr.
  destruct (install_tx_inv _ _ _ _ Hr) as (Hf & He & Hcase). split; [|done]. apply store_step; [done|]. intros Hw.
  destruct r as [[]|e].
  - destruct Hcase as (Hnew & t1 & t2 & Hrp & Hg). unfold store_inv, keys_grow in *. cbn [fst]. rewrite Hrp, Hg.
    split; [by apply rows_ok_install|]. intros k Hk. rewrite map_app. set_solver.
  - destruct Hcase as [Hrp Hg]. unfold store_inv, keys_grow in *. cbn [fst]. rewrite Hrp, Hg. by split.
Qed.

Lemma append_file_safe p d : dict_has (u "ts") d = true → safe (append_file p (record_line d)).
Proof.
  intros Hd w. split; [|done]. split; [apply append_extends|by apply append_wf|done|intros Hw; same_keys].
Qed.
Lemma path_for_safe stream : safe (path_for stream).
Proof. unfold path_for. apply within_bind; [typeclasses eauto|apply (now_iso_step gate_step)|intros]. within. Qed.
#[local] Hint Resolve query_safe delete_safe install_tx_safe path_for_safe : within.
#[local] Hint Resolve count_expired_raises select_active_raises grant_of_row_raises add_grants_raises : within.

Lemma now_atom : psafe (atom (K:=K) now_epoch).
Proof. apply psafe_atom, (now_epoch_step gate_step). Qed.
Lemma init_atom : psafe (atom (K:=K) init).
Proof. apply psafe_atom, init_safe. Qed.
Lemma run_atom cmd : psafe (p_run (K:=K) cmd).
Proof. apply psafe_atom, (subprocess_step gate_step). Qed.
Lemma script_atom s : psafe (atom (K:=K) (_run_script s)).
Proof. apply psafe_atom, (run_script_step gate_step). Qed.
#[local] Hint Resolve now_atom init_atom run_atom script_atom : psafe.

Lemma p_append_safe stream record : psafe (K:=K) (p_append stream record).
Proof.
  unfold p_append. psafe; [apply (now_iso_step gate_step)|]. apply append_file_safe, setdefault_has.
Qed.
Lemma p_install_safe a : Forall (λ t, str_ok t = true) (ia_targets a) → psafe (K:=K) (p_install a).
Proof. intros Hts. unfold p_install, p_checked, p_commit. psafe. Qed.
Lemma p_prune_safe : psafe (K:=K) p_prune_expired.
Proof. unfold p_prune_expired. psafe; apply query_safe; auto with within. Qed.
Lemma p_compute_safe : psafe (K:=K) p_compute_active_sets.
Proof.
  unfold p_compute_active_sets, p_list_active. psafe.
Qed.
Lemma p_exists_safe kind parts : psafe (K:=K) (p_exists kind parts).
Proof. unfold p_exists. psafe. Qed.
#[local] Hint Resolve p_append_safe p_install_safe p_prune_safe p_compute_safe p_exists_safe : psafe.
Lemma p_require_sets_safe ss : psafe (K:=K) (p_require_sets cfg ss).
Proof. induction ss; cbn [p_require_sets]; psafe. Qed.
#[local] Hint Resolve p_require_sets_safe : psafe.
Lemma p_require_baseline_safe : psafe (K:=K) (p_require_baseline cfg).
Proof. unfold p_require_baseline. psafe. Qed.
#[local] Hint Resolve p_require_baseline_safe : psafe.
Lemma p_apply_sets_safe a t us : psafe (K:=K) (p_apply_sets cfg a t us).
Proof. unfold p_apply_sets. psafe; within; auto using norm_ports_raises. Qed.
#[local] Hint Resolve p_apply_sets_safe : psafe.
Lemma p_apply_safe : psafe (K:=K) (p_apply cfg).
Proof. unfold p_apply. psafe. Qed.
#[local] Hint Resolve p_apply_safe : psafe.
Lemma start_safe j : job_ok j → psafe (K:=K) (start cfg j).
Proof.
  destruct j as [a|b|]; cbn [start job_ok]; intros Hj;
    unfold p_gate_install, p_installed, p_gate_prune; psafe.
Qed.
End actions.

(** ** Any interleaving *)

Section pool.
Context {K : Type} `{Env K} (cfg : NftConfig).
Abbreviation step := (pool_step (K:=K) cfg).

(** An install that has not committed: where it can be, or it has failed. *)
Definition finish (a : install_args) (p : proc K Grant) : proc K Z :=
  _ ← (g ← p; p_installed cfg (ia_apply a) g); mret 0%Z.
Definition waiting (a : install_args) (p : proc K Z) : Prop :=
  p ∈ [finish a (p_install a); finish a (p_checked a); finish a (p_commit a)] ∨ ∃ e, p = Done (Err e).

(** Its next action leaves it waiting, or is the commit of a new key. *)
Lemma waiting_step a p p' w w' :
  waiting a p → step_proc p w = Some (w', p') →
  waiting a p' ∨ (¬ recorded w (ia_key a) ∧ recorded w' (ia_key a)).
Proof.
  intros [Hp|[e ->]]; [|done]. rewrite !elem_of_cons, elem_of_nil in Hp. destruct Hp as [->|[->|[->|[]]]]; simpl.
  - intros [= <- <-]. left. destruct (_ <=? _)%Z; [right; by eexists|left]. set_solver.
  - intros [= <- <-]. left. left. set_solver.
  - destruct (install_tx a w) as [w1 r] eqn:Hr. intros [= <- <-].
    destruct (install_tx_inv _ _ _ _ Hr) as (_ & _ & Hcase). destruct r as [[]|e].
    + right. destruct Hcase as (Hnew & t1 & t2 & Hrp & _). split; [done|]. unfold recorded.
      rewrite Hrp, map_app. set_solver.
    + left. right. by eexists.
Qed.

(** Each key belongs to the process that committed it. *)
Record pool_inv (s : Pool K) : Prop := {
  pi_safe i j p : pl_procs s !! i = Some (j, p) → psafe p;
  pi_owner : ∃ own : gmap key nat,
    (∀ k i, own !! k = Some i → recorded (pl_world s) k) ∧
    ∀ i a p, pl_procs s !! i = Some (JInstall a, p) → waiting a p ∨ own !! ia_key a = Some i
}.

(** An action of process [i] keeps the owners, or makes [i] the owner of the key
    it commits. *)
Lemma owner_step i j p p' w (s : Pool K) :
  pl_procs s !! i = Some (j, p) → step_proc p (pl_world s) = Some (w, p') →
  (∀ k, recorded (pl_world s) k → recorded w k) →
  pool_inv s → psafe p' → pool_inv {| pl_world := w; pl_procs := <[i := (j, p')]> (pl_procs s) |}.
Proof.
  intros Hi Hp Hgrow [Hsafe (own & Ho & Hw)] Hp'. split; cbn.
  { intros i' j' q [[<- [= <- <-]]|[_ Hi']]%lookup_insert_Some; [done|by eapply Hsafe]. }
  assert ((∃ a, j = JInstall a ∧ ¬ recorded (pl_world s) (ia_key a) ∧ recorded w (ia_key a)) ∨
          ∀ a, j = JInstall a → waiting a p' ∨ own !! ia_key a = Some i) as [(a & -> & Hnew & Hrec)|Hold].
  { destruct j as [a|b|]; [|by right..]. destruct (Hw _ _ _ Hi) as [Hwt|Hown];
      [|right; intros a' [= <-]; by right].
    destruct (waiting_step _ _ _ _ _ Hwt Hp) as [Hwt'|[Hnew Hrec]];
      [right; intros a' [= <-]; by left|left; by exists a]. }
  - exists (<[ia_key a := i]> own). split.
    + intros k i' [[<- _]|[_ Hk]]%lookup_insert_Some; [done|eauto].
    + intros i' a' q [[<- [= <- _]]|[_ Hi']]%lookup_insert_Some; [right; apply lookup_insert_eq|].
      destruct (Hw _ _ _ Hi') as [?|Hown]; [by left|right]. rewrite lookup_insert_ne; [done|].
      intros Heq. apply Hnew. rewrite Heq. eauto.
  - exists own. split; [eauto|]. intros i' a' q [[<- [= -> <-]]|[_ Hi']]%lookup_insert_Some; [by apply Hold|by eapply Hw].
Qed.

Lemma pool_step_inv s s' :
  step s s' → store_inv (pl_world s) → pool_inv s → gate_step (pl_world s) (pl_world s') ∧ pool_inv s'.
Proof.
  intros Hstep Hinv Hpool. destruct Hstep as [i j s Hi Hj|i j p p' w s Hi Hp|s|k s].
  - split; [reflexivity|]. destruct Hpool as [Hsafe (own & Ho & Hw)]. split; cbn.
    + intros i' j' p' [[<- [= <- <-]]|[_ Hi']]%lookup_insert_Some; [by apply start_safe|by eapply Hsafe].
    + exists own. split; [done|]. intros i' a p' [[<- [= -> <-]]|[_ Hi']]%lookup_insert_Some; [|by eapply Hw].
      left. left. change (start cfg (JInstall a)) with (finish a (p_install a)). left.
  - destruct (psafe_step _ _ _ _ (pi_safe _ Hpool _ _ _ Hi) Hp) as [Hg Hp'].
    split; [done|]. eapply owner_step; [done..| |done|done]. by apply (step_store _ _ Hg Hinv).
  - split; [apply tick_safe|]. destruct Hpool as [? (own & ? & ?)]. split; [done|]. by exists own.
  - split; [apply kernel_step|]. destruct Hpool as [? (own & ? & ?)]. split; [done|]. by exists own.
Qed.
Lemma pool_execution s s' :
  rtc step s s' → store_inv (pl_world s) → pool_inv s → gate_step (pl_world s) (pl_world s') ∧ pool_inv s'.
Proof.
  induction 1 as [s|s1 s2 s3 Hstep _ IH]; intros Hinv Hpool; [by split|].
  destruct (pool_step_inv _ _ Hstep Hinv Hpool) as [Hg Hpool2].
  destruct (IH (proj1 (step_store _ _ Hg Hinv)) Hpool2) as [Hg' Hpool3]. split; [by etrans|done].
Qed.

(** C2: however many processes install, prune and apply at once on one store,
    and however their transactions, nft commands and log records interleave,
    two installs of one token and nonce never both succeed; and the store keeps
    its invariant, forgets no key, and the log only grows. *)
Theorem concurrent_install_once (w : World K) s i i' a a' r r' :
  store_inv w → rtc step {| pl_world := w; pl_procs := ∅ |} s →
  pl_procs s !! i = Some (JInstall a, Done (Ok r)) →
  pl_procs s !! i' = Some (JInstall a', Done (Ok r')) → i ≠ i' →
  ia_key a ≠ ia_key a' ∧ gate_step w (pl_world s).
Proof.
  intros Hinv Hrun Hi Hi' Hne.
  destruct (pool_execution _ _ Hrun Hinv) as [Hg [_ (own & _ & Hw)]].
  { split; [done|]. exists ∅. split; [done|]. intros j b p Hj. done. }
  split; [|done]. intros Heq.
  assert (∀ j b x, pl_procs s !! j = Some (JInstall b, Done (Ok x)) → own !! ia_key b = Some j) as Hown.
  { intros j b x Hj. destruct (Hw _ _ _ Hj) as [[Hin|[e He]]|?]; [|done|done].
    rewrite !elem_of_cons, elem_of_nil in Hin. destruct Hin as [Hin|[Hin|[Hin|[]]]]; done. }
  pose proof (Hown _ _ _ Hi) as H1. pose proof (Hown _ _ _ Hi') as H2. rewrite Heq in H1. congruence.
Qed.
End pool.
