(* ===== verification/Serve.v ===== *)
(** * The server around the handler (src/src/sourceos_gate/daemon.py, [serve];
      src/tools/sourceos_gate_egressd.py)

    How the daemon starts (the store, then the socket it listens on), and the
    event loop behind it: any number of clients, each with the bytes its stream
    holds, whose lines are handled one at a time in any order.  [readline] is
    the rule of [asyncio.StreamReader]; [start_unix_server] checks and binds as
    asyncio does. *)
From S2P Require Import Prelude PyStr PyJson Errors PyOps World Interface Daemon.

(** ** Start *)

Record DaemonConfig := { socket_path : path; store_root : path }.

(** The launcher's defaults. *)
Definition default_socket : path := [u "run"; u "sourceos"; u "gate-egress.sock"].
Definition default_store_root : path := [u "var"; u "lib"; u "sourceos"].
Definition launcher_config (socket root : option path) : DaemonConfig :=
  {| socket_path := default default_socket socket; store_root := default default_store_root root |}.

(** What may be found at an absolute path outside the store. *)
Inductive node := NFile | NSocket | NDir.
Global Instance node_eq_dec : EqDecision node.
Proof. solve_decision. Defined.

(** What a descriptor the process inherits is; [OtherSocket] carries its repr. *)
Inductive fd_kind := UnixStream | OtherSocket (repr : pystr) | NotASocket.

(** The daemon's world: that of the gate, and the tree its socket lives in. *)
Record Boot (K : Type) := { bt_world : World K; bt_nodes : gmap path node }.
Arguments bt_world {_} _. Arguments bt_nodes {_} _.

Definition os_error (c : exn_class) (errno : Z) (msg : pystr) (p : path) : exn :=
  Exn c (u "[Errno " ++ str_of_Z errno ++ u "] " ++ msg ++ u ": " ++ repr (posix p)).

(** [Path(p).mkdir(parents=True, exist_ok=True)]: the directories on the way
    that do not exist are made; anything else on the way is an error about the
    whole path. *)
Fixpoint mkdirs_from (full done rest : path) (t : gmap path node) : pyres (gmap path node) :=
  match rest with
  | [] => Ok t
  | c :: rest' =>
      let p := done ++ [c] in
      match t !! p, rest' with
      | None, _ => mkdirs_from full p rest' (<[p := NDir]> t)
      | Some NDir, _ => mkdirs_from full p rest' t
      | Some _, [] => Err (os_error FileExistsError 17 (u "File exists") full)
      | Some _, _ => Err (os_error NotADirectoryError 20 (u "Not a directory") full)
      end
  end.
Definition mkdirs (p : path) (t : gmap path node) : pyres (gmap path node) := mkdirs_from p [] p t.
(** [p.parent] *)
Definition parent_dir (p : path) : path := removelast p.
(** What is at a path; the root is a directory. *)
Definition node_at (t : gmap path node) (p : path) : option node :=
  match p with [] => Some NDir | _ => t !! p end.
(** [if p.exists(): p.unlink()] *)
Definition unlink_existing (p : path) (t : gmap path node) : pyres (gmap path node) :=
  match node_at t p with
  | None => Ok t
  | Some NDir => Err (os_error IsADirectoryError 21 (u "Is a directory") p)
  | Some _ => Ok (delete p t)
  end.

(** The socket the server listens on. *)
Inductive listener := Activated (fd : Z) | Bound (p : path).

(** [socket(fileno=fd)], and [start_unix_server(..., sock=sock)]. *)
Definition listen_fd (fds : gmap Z fd_kind) (fd : Z) : pyres listener :=
  match fds !! fd with
  | None => Err (Exn OSError (u "[Errno 9] Bad file descriptor"))
  | Some NotASocket => Err (Exn OSError (u "[Errno 88] Socket operation on non-socket"))
  | Some (OtherSocket r) => Err (Exn ValueError (u "A UNIX Domain Stream Socket was expected, got " ++ r))
  | Some UnixStream => Ok (Activated fd)
  end.

Section serve.
Context {K : Type} `{Env K} {ops : GateOps K}.

(** A program of the gate, run in the daemon's world. *)
Definition in_gate {A} (m : W K A) : M exn (Boot K) A := λ b,
  let '(w, r) := m (bt_world b) in ({| bt_world := w; bt_nodes := bt_nodes b |}, r).
(** A step on the tree, which keeps it when it fails. *)
Definition on_nodes (f : gmap path node → pyres (gmap path node)) : M exn (Boot K) unit := λ b,
  match f (bt_nodes b) with
  | Ok t => ({| bt_world := bt_world b; bt_nodes := t |}, Ok tt)
  | Err e => (b, Err e)
  end.

(** [serve] up to [serve_forever]: the listener it serves. *)
Definition serve (cfg : DaemonConfig) (env : gmap pystr pystr) (pid : Z) (fds : gmap Z fd_kind) :
    M exn (Boot K) listener :=
  _ ← in_gate op_init;
  match _systemd_listen_fds env pid with
  | fd :: _ => lift (listen_fd fds fd)
  | [] =>
      _ ← on_nodes (mkdirs (parent_dir (socket_path cfg)));
      _ ← on_nodes (unlink_existing (socket_path cfg));
      _ ← on_nodes (λ t, Ok (<[socket_path cfg := NSocket]> t));
      mret (Bound (socket_path cfg))
  end.
End serve.

(** ** The stream of one client *)

(** [await reader.readline()] on what the stream holds: a line, the end of the
    stream, a line over the limit ([ValueError]), or nothing yet. *)
Inductive line_read := Line (line rest : list N) | Overrun | AtEof | Wait.

Fixpoint cut_line (buf : list N) : option (list N * list N) :=
  match buf with
  | [] => None
  | b :: buf' =>
      if (b =? 10)%N then Some ([], buf')
      else match cut_line buf' with Some (l, rest) => Some (b :: l, rest) | None => None end
  end.
Definition over_limit (bs : list N) : bool := (stream_limit <? Z.of_nat (length bs))%Z.
Definition readline (buf : list N) (eof : bool) : line_read :=
  match cut_line buf with
  | Some (l, rest) => if over_limit l then Overrun else Line (l ++ [10%N]) rest
  | None =>
      if over_limit buf then Overrun
      else if eof then match buf with [] => AtEof | _ => Line buf [] end
      else Wait
  end.

(** One client: the bytes its stream holds, whether it has ended, what has been
    written to it, and whether its handler still runs.  [cl_got] is a history
    variable: every byte the stream was fed. *)
Record Client := {
  cl_in : list N; cl_eof : bool; cl_out : list pystr; cl_open : bool; cl_got : list N
}.
Definition new_client : Client :=
  {| cl_in := []; cl_eof := false; cl_out := []; cl_open := true; cl_got := [] |}.
Definition feed (bs : list N) (c : Client) : Client :=
  {| cl_in := cl_in c ++ bs; cl_eof := cl_eof c; cl_out := cl_out c; cl_open := cl_open c;
     cl_got := cl_got c ++ bs |}.
Definition feed_eof (c : Client) : Client :=
  {| cl_in := cl_in c; cl_eof := true; cl_out := cl_out c; cl_open := cl_open c; cl_got := cl_got c |}.
Definition close (c : Client) : Client :=
  {| cl_in := cl_in c; cl_eof := cl_eof c; cl_out := cl_out c; cl_open := false; cl_got := cl_got c |}.
Definition reply (rest : list N) (out : list pystr) (c : Client) : Client :=
  {| cl_in := rest; cl_eof := cl_eof c; cl_out := cl_out c ++ out; cl_open := cl_open c;
     cl_got := cl_got c |}.

Section server.
Context {K : Type} `{Env K} {ops : GateOps K}.

(** One turn of [handle_client]'s loop; [None] when it waits for bytes. *)
Definition client_turn (c : Client) : W K (option Client) :=
  match readline (cl_in c) (cl_eof c) with
  | Wait => mret None
  | AtEof | Overrun => mret (Some (close c))
  | Line line rest => out ← handle_line line; mret (Some (reply rest out c))
  end.

(** The handler of one client run until it waits or ends. *)
Fixpoint run_client (fuel : nat) (c : Client) : W K Client :=
  match fuel with
  | O => mret c
  | S fuel' =>
      if cl_open c then
        oc ← client_turn c;
        match oc with Some c' => run_client fuel' c' | None => mret c end
      else mret c
  end.

(** ** The event loop *)

Record Server := { sv_world : World K; sv_clients : gmap nat Client }.
Definition set_client (i : nat) (c : Client) (w : World K) (s : Server) : Server :=
  {| sv_world := w; sv_clients := <[i := c]> (sv_clients s) |}.

(** A client connects, sends, ends its stream or is lost; the handler of some
    client takes a turn; time passes; another process changes the kernel. *)
Inductive server_step : relation Server :=
  | sv_accept i s : sv_clients s !! i = None →
      server_step s (set_client i new_client (sv_world s) s)
  | sv_receive i c bs s : sv_clients s !! i = Some c → cl_open c = true → cl_eof c = false →
      server_step s (set_client i (feed bs c) (sv_world s) s)
  | sv_eof i c s : sv_clients s !! i = Some c → cl_open c = true →
      server_step s (set_client i (feed_eof c) (sv_world s) s)
  | sv_lost i c s : sv_clients s !! i = Some c →
      server_step s (set_client i (close c) (sv_world s) s)
  | sv_turn i c c' w s : sv_clients s !! i = Some c → cl_open c = true →
      client_turn c (sv_world s) = (w, Ok (Some c')) →
      server_step s (set_client i c' w s)
  | sv_time s : server_step s {| sv_world := tick (sv_world s); sv_clients := sv_clients s |}
  | sv_kernel k s : server_step s {| sv_world := set_kernel k (sv_world s); sv_clients := sv_clients s |}.

(** The server when [serve_forever] is reached. *)
Definition started (b : Boot K) : Server := {| sv_world := bt_world b; sv_clients := ∅ |}.
End server.
Arguments Server _ : clear implicits.
