(* ===== verification/ServeFacts.v ===== *)
(** * What the server guarantees

    Starting: which socket is served, and that it is a UNIX one.  Serving: for
    any interleaving of any clients, each client's replies are those of its own
    lines, in its order, and the world only makes steps of the gate.  The
    incremental reader handles a whole stream as [handle_client] does. *)
From S2P Require Import Prelude PyStr PyJson PyJsonRoundtrip Errors PyOps World Protocol.
From S2P Require Import Interface.
From S2P Require Import Store StoreFacts Nft GateSteps EgressFacts Daemon DaemonFacts GateSafety.
From S2P Require Import Serve.

(** ** Lines *)

(** [segs] as complete lines. *)
Definition lines (segs : list (list N)) : list N := mjoin (map (λ s, s ++ [10%N]) segs).

Lemma lines_snoc segs s : lines (segs ++ [s]) = lines segs ++ s ++ [10%N].
Proof. unfold lines. rewrite map_app, join_app. simpl. by rewrite app_nil_r. Qed.
Lemma split_lines_app segs tail : Forall (λ s, 10%N ∉ s) segs →
  split 10 (lines segs ++ tail) = segs ++ split 10 tail.
Proof.
  induction 1 as [|s segs Hs _ IH]; [done|].
  change (lines (s :: segs)) with ((s ++ [10%N]) ++ lines segs).
  rewrite <-!app_assoc, split_app by done. cbn [app]. rewrite split_sep, IH. by rewrite app_nil_r.
Qed.
Lemma split_single s : 10%N ∉ s → split 10 s = [s].
Proof. intros Hs. rewrite <-(app_nil_r s) at 1. rewrite split_app by done. simpl. by rewrite app_nil_r. Qed.

Lemma cut_line_spec buf :
  match cut_line buf with
  | Some (l, rest) => buf = l ++ 10%N :: rest ∧ 10%N ∉ l
  | None => 10%N ∉ buf
  end.
Proof.
  induction buf as [|b buf IH]; simpl; [set_solver|].
  destruct (N.eqb_spec b 10) as [->|Hb]; [split; [done|set_solver]|].
  destruct (cut_line buf) as [[l rest]|]; [|set_solver].
  destruct IH as [-> Hl]. split; [done|set_solver].
Qed.
Lemma cut_line_app l rest : 10%N ∉ l → cut_line (l ++ 10%N :: rest) = Some (l, rest).
Proof.
  induction l as [|b l IH]; intros Hl; simpl; [done|].
  destruct (N.eqb_spec b 10); [set_solver|]. rewrite IH by set_solver. done.
Qed.
Lemma over_limit_fits s : over_limit s = false ↔ fits s.
Proof. unfold over_limit, fits. rewrite Z.ltb_ge. done. Qed.

(** What [readline] returns, by what the stream holds. *)
Lemma readline_spec buf eof :
  match readline buf eof with
  | Line line rest =>
      ∃ l, 10%N ∉ l ∧ fits l ∧
        (line = l ++ [10%N] ∧ buf = l ++ 10%N :: rest ∨ line = l ∧ buf = l ∧ rest = [] ∧ eof = true ∧ l ≠ [])
  | Overrun => True
  | AtEof => buf = [] ∧ eof = true
  | Wait => 10%N ∉ buf ∧ fits buf ∧ eof = false
  end.
Proof.
  unfold readline. pose proof (cut_line_spec buf) as Hcut.
  destruct (cut_line buf) as [[l rest]|].
  - destruct Hcut as [-> Hl]. destruct (over_limit l) eqn:Hf; [done|].
    apply over_limit_fits in Hf. exists l. eauto 10.
  - destruct (over_limit buf) eqn:Hf; [done|]. apply over_limit_fits in Hf.
    destruct eof; [|done]. destruct buf; [done|]. eexists. split_and!; [done|done|]. right. done.
Qed.

Lemma request_texts_app segs segs' :
  request_texts (segs ++ segs') = request_texts segs ++ request_texts segs'.
Proof. unfold request_texts. by rewrite map_app, filter_app. Qed.
Lemma delivered_app segs segs' : Forall fits segs → delivered (segs ++ segs') = segs ++ delivered segs'.
Proof. induction 1 as [|s segs Hs _ IH]; simpl; [done|]. by rewrite decide_True, IH by done. Qed.
Lemma request_texts_line l : request_texts [l ++ [10%N]] = request_texts [l].
Proof. unfold request_texts. simpl. by rewrite line_text_newline. Qed.

(** ** One client *)

(** The bytes a client was fed are complete lines, answered in order, and what
    its stream still holds; once the stream has ended, the bytes after the last
    newline count as a line too. *)
Definition client_inv (c : Client) : Prop :=
  ∃ segs tail, Forall (λ s, 10%N ∉ s) segs ∧ Forall fits segs ∧ cl_got c = lines segs ++ tail ∧
    (tail = cl_in c ∧ replies (request_texts segs) (cl_out c) ∨
     cl_in c = [] ∧ cl_eof c = true ∧ 10%N ∉ tail ∧ fits tail ∧
       replies (request_texts (segs ++ [tail])) (cl_out c)).

Lemma client_inv_new : client_inv new_client.
Proof. exists [], []. split_and!; [done..|]. left. split; [done|constructor]. Qed.
Lemma client_inv_feed bs c : cl_eof c = false → client_inv c → client_inv (feed bs c).
Proof.
  intros He (segs & tail & Hn & Hf & Hg & [[-> Hr]|(_ & He' & _)]); [|congruence].
  exists segs, (cl_in c ++ bs). split_and!; [done|done| |by left].
  cbn [feed cl_got]. by rewrite Hg, <-app_assoc.
Qed.
Lemma client_inv_close c : client_inv c → client_inv (close c).
Proof. done. Qed.
Lemma client_inv_eof c : client_inv c → client_inv (feed_eof c).
Proof. intros (segs & tail & Hn & Hf & Hg & [H|H]); exists segs, tail; split_and!; naive_solver. Qed.

Lemma replies_app raws raws' outs outs' :
  replies raws outs → replies raws' outs' → replies (raws ++ raws') (outs ++ outs').
Proof. apply Forall2_app. Qed.

(** Taking a line off the stream and answering it keeps the invariant. *)
Lemma client_inv_reply line rest out c :
  readline (cl_in c) (cl_eof c) = Line line rest →
  replies (request_texts [line]) out → client_inv c → client_inv (reply rest out c).
Proof.
  intros Hl Hout (segs & tail & Hn & Hf & Hg & [[-> Hr]|(Hin & He & _)]).
  2: { by rewrite Hin, He in Hl. }
  pose proof (readline_spec (cl_in c) (cl_eof c)) as Hspec. rewrite Hl in Hspec.
  destruct Hspec as (l & Hnl & Hfl & [[-> Hin]|(-> & Hin & -> & He & _)]).
  - exists (segs ++ [l]), rest. split_and!; [by apply Forall_app_2; auto..| |left; split; [done|]].
    + cbn [reply cl_got]. rewrite Hg, Hin, lines_snoc. by rewrite <-!app_assoc.
    + rewrite request_texts_app. rewrite request_texts_line in Hout. by apply replies_app.
  - exists segs, l. split_and!; [done|done|by rewrite <-Hin|]. right. split_and!; [done..|].
    rewrite request_texts_app. by apply replies_app.
Qed.

(** What the invariant says of the replies: they are those of the first
    requests; of all complete lines when the handler waits; of all lines when
    the stream has ended and is empty. *)
Lemma client_inv_replies c : client_inv c →
  (∃ n, replies (take n (request_texts (delivered (split 10 (cl_got c))))) (cl_out c)) ∧
  (readline (cl_in c) (cl_eof c) = Wait →
     replies (request_texts (removelast (split 10 (cl_got c)))) (cl_out c)) ∧
  (cl_in c = [] → cl_eof c = true →
     Forall fits (split 10 (cl_got c)) ∧ replies (request_texts (split 10 (cl_got c))) (cl_out c)).
Proof.
  assert (∀ segs tail, request_texts (segs ++ [tail]) = request_texts segs ++ request_texts [tail]) as Hsnoc
    by (intros; apply request_texts_app).
  assert (fits []) as Hnil by (unfold fits; simpl; unfold stream_limit; lia).
  intros (segs & tail & Hn & Hf & Hg & Hcase). rewrite Hg, split_lines_app by done.
  rewrite delivered_app by done. destruct Hcase as [[-> Hr]|(Hin & He & Hnt & Hft & Hr)].
  - split_and!.
    + exists (length (request_texts segs)). by rewrite request_texts_app, take_app_length.
    + intros Hw. pose proof (readline_spec (cl_in c) (cl_eof c)) as Hspec. rewrite Hw in Hspec.
      destruct Hspec as (Hno & _). rewrite split_single by done. by rewrite removelast_last.
    + intros -> _. cbn [split]. split; [by apply Forall_app_2; auto|].
      rewrite Hsnoc. unfold request_texts at 2. cbn. by rewrite app_nil_r.
  - rewrite split_single by done. split_and!.
    + exists (length (request_texts (segs ++ [tail]))). simpl. rewrite decide_True by done.
      by rewrite firstn_all.
    + rewrite Hin, He. done.
    + intros _ _. split; [by apply Forall_app_2; auto|done].
Qed.

Section server.
Context {K : Type} `{Env K} {ops : GateOps K} (R : relation (World K)) {laws : GateLaws ops R}.

(** A turn never fails, makes steps of the gate, keeps the invariant, and
    blocks only when the stream holds no complete line. *)
Lemma client_turn_spec c w :
  ∃ w' oc, client_turn c w = (w', Ok oc) ∧ R w w' ∧
    (oc = None ↔ readline (cl_in c) (cl_eof c) = Wait) ∧
    (client_inv c → ∀ c', oc = Some c' → client_inv c').
Proof.
  destruct laws.(laws_preorder) as [Hrefl _]. unfold client_turn.
  destruct (readline (cl_in c) (cl_eof c)) as [line rest| | |] eqn:Hl.
  2-4: do 2 eexists; split_and!; [done|done|done|]; intros ? ? [= <-]; by apply client_inv_close.
  destruct (handle_line_replies R line w) as (w' & out & Hr & HR & Hout).
  exists w', (Some (reply rest out c)). rewrite run_bind, Hr. split_and!; [done|done|done|].
  intros Hc ? [= <-]. by eapply client_inv_reply.
Qed.

(** Runs of one handler. *)
Lemma run_client_turn fuel c c1 w w1 :
  cl_open c = true → client_turn c w = (w1, Ok (Some c1)) →
  run_client (S fuel) c w = run_client fuel c1 w1.
Proof. intros Ho Ht. cbn [run_client]. by rewrite Ho, run_bind, Ht. Qed.
Lemma run_client_closed fuel c w : run_client fuel (close c) w = (w, Ok (close c)).
Proof. by destruct fuel. Qed.
Lemma run_client_ends fuel c w :
  cl_open c = true → readline (cl_in c) (cl_eof c) ∈ [Overrun; AtEof] →
  run_client (S fuel) c w = (w, Ok (close c)).
Proof.
  intros Ho Hl. rewrite <-(run_client_closed fuel c w). apply run_client_turn; [done|].
  unfold client_turn. by apply elem_of_cons in Hl as [-> | ->%list_elem_of_singleton].
Qed.
Lemma run_client_reply fuel c line rest w w1 out :
  cl_open c = true → readline (cl_in c) (cl_eof c) = Line line rest →
  handle_line line w = (w1, Ok out) →
  run_client (S fuel) c w = run_client fuel (reply rest out c) w1.
Proof.
  intros Ho Hl Hh. apply run_client_turn; [done|]. unfold client_turn. by rewrite Hl, run_bind, Hh.
Qed.

Lemma readline_complete seg rest eof : 10%N ∉ seg →
  readline (seg ++ 10%N :: rest) eof = if over_limit seg then Overrun else Line (seg ++ [10%N]) rest.
Proof. intros Hs. unfold readline. by rewrite cut_line_app. Qed.
Lemma readline_last seg : 10%N ∉ seg →
  readline seg true = if over_limit seg then Overrun else match seg with [] => AtEof | _ => Line seg [] end.
Proof.
  intros Hs. unfold readline. pose proof (cut_line_spec seg) as Hcut.
  destruct (cut_line seg) as [[l r]|]; [destruct Hcut as [-> _]; set_solver|done].
Qed.

(** The handler run on a stream that has ended, its lines being [segs]. *)
Lemma run_client_lines fuel segs c w w' outs fin :
  segs ≠ [] → Forall (λ s, 10%N ∉ s) segs → cl_open c = true → cl_eof c = true →
  cl_in c = join [10%N] segs → length segs < fuel →
  serve_lines segs w = (w', Ok (outs, fin)) →
  ∃ c', run_client fuel c w = (w', Ok c') ∧ cl_out c' = cl_out c ++ outs ∧ cl_open c' = false.
Proof.
  intros Hne Hsegs. revert fuel c w w' outs fin. induction Hsegs as [|seg rest Hseg Hrest IH]; [done|].
  intros [|fuel] c w w' outs fin Ho He Hin Hfuel Hs; [simpl in Hfuel; lia|]. cbn [serve_lines] in Hs.
  destruct (over_limit seg) eqn:Hlim.
  { rewrite run_client_ends; [|done|].
    - exists (close c). unfold over_limit in Hlim. rewrite Hlim in Hs. destruct seg; [done|].
      apply ret_inv in Hs as [-> [= <- <-]]. by rewrite app_nil_r.
    - rewrite Hin, He. destruct rest; cbn [join]; [|cbn [app]]; rewrite ?readline_last, ?readline_complete, Hlim by done; set_solver. }
  pose proof Hlim as Hlim'. unfold over_limit in Hlim'. destruct rest as [|seg2 rest].
  - rewrite app_nil_r, Hlim' in Hs. destruct seg as [|b seg].
    { rewrite run_client_ends; [|done|rewrite Hin, He; set_solver].
      exists (close c). apply ret_inv in Hs as [-> [= <- <-]]. by rewrite app_nil_r. }
    rewrite run_bind in Hs. destruct (handle_line (b :: seg) w) as [w1 [out|e]] eqn:Hh; [|done].
    cbn [serve_lines] in Hs. rewrite run_bind, run_ret in Hs. apply ret_inv in Hs as [-> [= <- <-]]. rewrite app_nil_r.
    rewrite (run_client_reply _ _ (b :: seg) [] _ _ out Ho) by (rewrite ?Hin, ?He; cbn [join]; by rewrite ?readline_last, ?Hlim).
    destruct fuel as [|fuel]; [simpl in Hfuel; lia|].
    rewrite run_client_ends; [|done|cbn [reply cl_in cl_eof]; rewrite He; set_solver]. by eexists.
  - rewrite Hlim' in Hs. destruct (seg ++ [10%N]) as [|b line] eqn:Hline; [by destruct seg|].
    rewrite run_bind in Hs. destruct (handle_line (b :: line) w) as [w1 [out|e]] eqn:Hh; [|done].
    rewrite run_bind in Hs. destruct (serve_lines (seg2 :: rest) w1) as [w2 [[outs2 fin2]|e]] eqn:Hs2; [|done].
    apply ret_inv in Hs as [-> [= <- <-]]. rewrite <-Hline in Hh.
    rewrite (run_client_reply _ _ (seg ++ [10%N]) (join [10%N] (seg2 :: rest)) w w1 out Ho);
      [|rewrite Hin, He; cbn [join app]; by rewrite readline_complete, Hlim|exact Hh].
    destruct (IH ltac:(done) fuel (reply (join [10%N] (seg2 :: rest)) out c) w1 w2 outs2 fin2)
      as (c' & Hr & Hout & Hcl); [done|done|done|simpl in *; lia|done|].
    exists c'. split_and!; [done| |done]. rewrite Hout. cbn [reply cl_out]. by rewrite app_assoc.
Qed.

(** feeding a whole stream to the incremental reader and running its handler
    does what [handle_client] specifies: the same world, the same replies, in
    one turn per line and one for the end. *)
Theorem reader_refines input w :
  ∃ c' fin, handle_client input w = ((handle_client input w).1, Ok (cl_out c', fin)) ∧
    run_client (2 + length input) (feed_eof (feed input new_client)) w =
      ((handle_client input w).1, Ok c') ∧ cl_open c' = false.
Proof.
  destruct (serve_lines_replies R (split 10 input) w) as (w' & outs & fin & Hs & _).
  destruct (run_client_lines (2 + length input) (split 10 input) (feed_eof (feed input new_client)) w w' outs fin)
    as (c' & Hr & Hout & Hcl); [apply split_nonempty|apply split_no_sep|done|done| | |done|].
  - by rewrite join_split.
  - pose proof (split_length 10 input). lia.
  - exists c', fin. unfold handle_client. rewrite Hs. cbn [fst]. rewrite Hr, Hout. done.
Qed.

(** ** Any interleaving *)

Definition server_inv (s s' : Server K) : Prop :=
  R (sv_world s) (sv_world s') ∧
  ((∀ i c, sv_clients s !! i = Some c → client_inv c) → ∀ i c, sv_clients s' !! i = Some c → client_inv c).

Lemma server_inv_client i c w s :
  R (sv_world s) w →
  ((∀ i c, sv_clients s !! i = Some c → client_inv c) → client_inv c) →
  server_inv s (set_client i c w s).
Proof.
  intros HR Hc. split; [done|]. intros Hall j d Hj. cbn [set_client sv_clients] in Hj.
  apply lookup_insert_Some in Hj as [[_ <-]|[_ Hj]]; [by apply Hc|by eapply Hall].
Qed.

Lemma server_step_inv s s' :
  (∀ w k, R w (set_kernel k w)) → server_step s s' → server_inv s s'.
Proof.
  intros HK. pose proof laws.(laws_preorder) as [Hrefl _]. destruct 1 as [i s Hi|i c bs s Hc Ho He|i c s Hc Ho|i c s Hc|i c c' w s Hc Ho Ht|s|k s].
  - apply server_inv_client; [done|]. intros _. apply client_inv_new.
  - apply server_inv_client; [done|]. intros Hall. apply client_inv_feed; eauto.
  - apply server_inv_client; [done|]. intros Hall. apply client_inv_eof; eauto.
  - apply server_inv_client; [done|]. intros Hall. apply client_inv_close; eauto.
  - destruct (client_turn_spec c (sv_world s)) as (w' & oc & Hr & HR & _ & Hinv).
    rewrite Ht in Hr. injection Hr as <- <-. apply server_inv_client; [done|]. intros Hall. eapply Hinv; eauto.
  - split; [apply laws_tick|done].
  - split; [apply HK|done].
Qed.
Lemma server_execution s s' :
  (∀ w k, R w (set_kernel k w)) → rtc server_step s s' → server_inv s s'.
Proof.
  intros HK. pose proof laws.(laws_preorder) as [Hrefl Htrans].
  induction 1 as [s|s1 s2 s3 Hstep _ [HR Hc]]; [by split|].
  destruct (server_step_inv _ _ HK Hstep) as [HR1 Hc1]. split; [by etrans|].
  intros Hall. apply Hc, Hc1, Hall.
Qed.

(** A handler that is not waiting can always take its turn. *)
Lemma server_progress i c s :
  sv_clients s !! i = Some c → cl_open c = true → readline (cl_in c) (cl_eof c) ≠ Wait →
  ∃ s' c', server_step s s' ∧ sv_clients s' !! i = Some c' ∧ client_turn c (sv_world s) = (sv_world s', Ok (Some c')).
Proof.
  intros Hc Ho Hw. destruct (client_turn_spec c (sv_world s)) as (w' & [c'|] & Hr & _ & Hb & _).
  - exists (set_client i c' w' s), c'. split; [by eapply sv_turn|]. split; [apply lookup_insert_eq|done].
  - exfalso. by apply Hw, Hb.
Qed.
End server.

(** ** Start *)

(** The directories a socket path needs. *)
Definition above (p q : path) : Prop := q ≠ [] ∧ q `prefix_of` parent_dir p.
(** A socket can be bound at [p]: it is not a directory, and nothing but
    directories is above it. *)
Definition can_bind (t : gmap path node) (p : path) : Prop :=
  node_at t p ≠ Some NDir ∧ ∀ q n, above p q → t !! q = Some n → n = NDir.

Lemma mkdirs_from_spec full done_ rest t :
  let up q := ∃ r, r ≠ [] ∧ r `prefix_of` rest ∧ q = done_ ++ r in
  match mkdirs_from full done_ rest t with
  | Ok t' => (∀ q n, up q → t !! q = Some n → n = NDir) ∧
             (∀ q, up q → t' !! q = Some NDir) ∧ (∀ q, ¬ up q → t' !! q = t !! q)
  | Err e => ∃ q n, up q ∧ t !! q = Some n ∧ n ≠ NDir
  end.
Proof.
  revert done_ t. induction rest as [|c rest IH]; intros d t up.
  { simpl. split_and!; [|by intros ? (r & Hr & ->%prefix_nil_inv & _)..|done].
    intros ? ? (r & Hr & ->%prefix_nil_inv & _). done. }
  assert (∀ q, up q ↔ q = d ++ [c] ∨ ∃ r, r ≠ [] ∧ r `prefix_of` rest ∧ q = (d ++ [c]) ++ r) as Hup.
  { intros q. split.
    - intros (r & Hr & Hpre & ->). destruct r as [|c' r]; [done|].
      apply prefix_cons_inv_1 in Hpre as Hc'. subst c'. apply prefix_cons_inv_2 in Hpre.
      destruct r as [|c' r]; [by left|right]. exists (c' :: r). by rewrite <-app_assoc.
    - intros [->|(r & Hr & Hpre & ->)]; [exists [c]|exists (c :: r)].
      + split_and!; [done|by apply prefix_cons, prefix_nil|done].
      + split_and!; [done|by apply prefix_cons|by rewrite <-app_assoc]. }
  assert (∀ r : path, r ≠ [] → (d ++ [c]) ++ r ≠ d ++ [c]) as Hne.
  { intros r Hr Heq. destruct Hr. apply (app_inv_head (d ++ [c])). by rewrite app_nil_r. }
  cbn [mkdirs_from]. destruct (t !! (d ++ [c])) as [n|] eqn:Hn; [destruct (decide (n = NDir)) as [->|Hnd]|].
  2: { assert (up (d ++ [c])) by (apply Hup; by left). destruct n; [| |done]; destruct rest; eauto. }
  - specialize (IH (d ++ [c]) t). cbv zeta in IH. destruct (mkdirs_from _ _ _ _) as [t'|e].
    + destruct IH as (H1 & H2 & H3). split_and!.
      * intros q m [->|Hq]%Hup Hm; [congruence|by eapply H1].
      * intros q [->|Hq]%Hup; [|by apply H2]. rewrite H3; [done|].
        intros (r & Hr & _ & Heq). by apply (Hne r).
      * intros q Hq. apply H3. intros Hr. apply Hq, Hup. by right.
    + destruct IH as (q & m & Hq & Hm). exists q, m. split; [|done]. apply Hup. by right.
  - specialize (IH (d ++ [c]) (<[d ++ [c] := NDir]> t)). cbv zeta in IH.
    destruct (mkdirs_from _ _ _ _) as [t'|e].
    + destruct IH as (H1 & H2 & H3). split_and!.
      * intros q m [->|Hq]%Hup Hm; [congruence|]. apply (H1 q); [done|].
        rewrite lookup_insert_ne; [done|]. destruct Hq as (r & Hr & _ & ->). by apply not_eq_sym, Hne.
      * intros q [->|Hq]%Hup; [|by apply H2]. rewrite H3; [apply lookup_insert_eq|].
        intros (r & Hr & _ & Heq). by apply (Hne r).
      * intros q Hq. rewrite H3; [apply lookup_insert_ne; intros <-; apply Hq, Hup; by left|].
        intros Hr. apply Hq, Hup. by right.
    + destruct IH as (q & m & Hq & Hm & Hmd). exists q, m. split; [apply Hup; by right|].
      split; [|done]. rewrite lookup_insert_ne in Hm; [done|].
      intros <-. destruct Hq as (r & Hr & _ & Heq). by apply (Hne r).
Qed.
Lemma mkdirs_spec p t :
  match mkdirs (parent_dir p) t with
  | Ok t' => (∀ q n, above p q → t !! q = Some n → n = NDir) ∧
             (∀ q, above p q → t' !! q = Some NDir) ∧ (∀ q, ¬ above p q → t' !! q = t !! q)
  | Err e => ∃ q n, above p q ∧ t !! q = Some n ∧ n ≠ NDir
  end.
Proof.
  pose proof (mkdirs_from_spec (parent_dir p) [] (parent_dir p) t) as H. cbv zeta in H.
  assert (∀ q, above p q ↔ ∃ r, r ≠ [] ∧ r `prefix_of` parent_dir p ∧ q = [] ++ r) as Hup
    by (intros q; unfold above; naive_solver).
  unfold mkdirs. destruct (mkdirs_from _ _ _ _) as [t'|e]; setoid_rewrite Hup; [exact H|exact H].
Qed.
(** Nothing lies above itself. *)
Lemma not_above p : ¬ above p p.
Proof.
  intros [Hne Hpre%prefix_length]. unfold parent_dir in Hpre.
  destruct p as [|c p _] using rev_ind; [done|]. rewrite removelast_last, length_app in Hpre. simpl in Hpre. lia.
Qed.

Section gate.
Context {K : Type} `{Env K} (cfg : NftConfig).
#[local] Instance server_gate : GateOps K := gate cfg.

Lemma serve_init {A} (f : M exn (Boot K) A) b :
  (_ ← in_gate op_init; f) b = f {| bt_world := ready (bt_world b); bt_nodes := bt_nodes b |}.
Proof. done. Qed.
(** the daemon starts with the store's tables made, and listens on one UNIX
    socket only: descriptor 3 when systemd passes sockets to this process, and
    then only if it is a UNIX stream socket; else a fresh socket at the
    configured path, in place of what was there, with the directories above it
    made and nothing else touched.  When it cannot, it stops with an error and
    what was at the path is still there. *)
Theorem serve_listens dc env pid fds (b : Boot K) :
  ∃ b' r, serve dc env pid fds b = (b', r) ∧ bt_world b' = ready (bt_world b) ∧
    let p := socket_path dc in
    match _systemd_listen_fds env pid with
    | _ :: _ =>
        bt_nodes b' = bt_nodes b ∧
        (fds !! 3%Z = Some UnixStream ∧ r = Ok (Activated 3) ∨
         fds !! 3%Z ≠ Some UnixStream ∧ is_ok r = false)
    | [] =>
        can_bind (bt_nodes b) p ∧ r = Ok (Bound p) ∧ bt_nodes b' !! p = Some NSocket ∧
          (∀ q, above p q → bt_nodes b' !! q = Some NDir) ∧
          (∀ q, q ≠ p → ¬ above p q → bt_nodes b' !! q = bt_nodes b !! q) ∨
        ¬ can_bind (bt_nodes b) p ∧ is_ok r = false ∧ bt_nodes b' !! p = bt_nodes b !! p
    end.
Proof.
  set (p := socket_path dc).
  unfold serve. rewrite serve_init. pose proof (systemd_listen_fds_head env pid) as Hfd.
  destruct (_systemd_listen_fds env pid) as [|fd more]; cbv zeta.
  2: { subst fd. do 2 eexists. split_and!; [done|done|done|]. unfold listen_fd.
       destruct (fds !! 3%Z) as [[]|]; naive_solver. }
  rewrite run_bind. unfold on_nodes at 1. cbn [bt_nodes bt_world]. fold p.
  pose proof (mkdirs_spec p (bt_nodes b)) as Hmk.
  destruct (mkdirs (parent_dir p) (bt_nodes b)) as [t'|e].
  2: { do 2 eexists. split_and!; [done|done|]. right. split_and!; [|done|done].
       intros [_ Hall]. destruct Hmk as (q & n & Hq & Hn & Hnd). by eapply Hnd, Hall. }
  destruct Hmk as (Hdirs & Habove & Hother). rewrite run_bind. unfold on_nodes at 1. cbn [bt_nodes bt_world].
  assert (node_at t' p = node_at (bt_nodes b) p) as Hp.
  { pose proof (Hother p (not_above p)) as Hsame. unfold node_at. by destruct p. }
  unfold unlink_existing. rewrite Hp.
  assert (∀ q, q ≠ p → ¬ above p q → <[p := NSocket]> t' !! q = bt_nodes b !! q ∧
                 <[p := NSocket]> (delete p t') !! q = bt_nodes b !! q) as Hq.
  { intros q Hne Ha. by rewrite !lookup_insert_ne, ?lookup_delete_ne, Hother by done. }
  assert (∀ q, above p q → <[p := NSocket]> t' !! q = Some NDir ∧
                 <[p := NSocket]> (delete p t') !! q = Some NDir) as Ha.
  { intros q Ha. assert (p ≠ q) by (intros <-; by apply (not_above p)).
    by rewrite !lookup_insert_ne, ?lookup_delete_ne, Habove by done. }
  destruct (node_at (bt_nodes b) p) as [n|] eqn:Hnode; [destruct (decide (n = NDir)) as [->|Hnd]|].
  2: destruct n; [| |done].
  1: { do 2 eexists. split_and!; [done|done|]. right. split_and!; [by intros [? _]|done|].
       cbn [bt_nodes]. apply Hother, not_above. }
  all: do 2 eexists; (split_and!; [done|done|]); left; unfold can_bind; rewrite Hnode;
    split_and!; [done|done|done|apply lookup_insert_eq|by intros; apply Ha|by intros; apply Hq].
Qed.

(** Once past [init], starting leaves the gate's world alone. *)
Lemma serve_start dc env pid fds (b : Boot K) :
  ∃ b' r, serve dc env pid fds b = (b', r) ∧ bt_world b' = ready (bt_world b).
Proof.
  unfold serve. rewrite serve_init. destruct (_systemd_listen_fds env pid); [|by do 2 eexists].
  rewrite run_bind. unfold on_nodes at 1. destruct (mkdirs _ _); [|by do 2 eexists].
  rewrite run_bind. unfold on_nodes at 1. destruct (unlink_existing _ _); by do 2 eexists.
Qed.

(** C7: from its launch on, whatever its clients send, however their bytes and
    turns interleave, whichever are lost, and whatever other processes do to the
    kernel: the store and the audit log keep their invariants and lose nothing;
    and each client has been answered its own requests, in its own order, one
    reply each, up to the first line over the limit: all the complete lines
    when its handler waits, every line when its stream has ended and is empty;
    and a handler that does not wait can take its turn. *)
Theorem server_serves dc env pid fds (b b' : Boot K) l s :
  store_inv (bt_world b) → log_wf (w_fs (bt_world b)) →
  serve dc env pid fds b = (b', Ok l) → rtc server_step (started b') s →
  log_extends (w_fs (bt_world b)) (w_fs (sv_world s)) ∧ log_wf (w_fs (sv_world s)) ∧
  store_inv (sv_world s) ∧ keys_grow (bt_world b) (sv_world s) ∧
  ∀ i c, sv_clients s !! i = Some c →
    let segs := split 10 (cl_got c) in
    (∃ n, replies (take n (request_texts (delivered segs))) (cl_out c)) ∧
    (readline (cl_in c) (cl_eof c) = Wait → replies (request_texts (removelast segs)) (cl_out c)) ∧
    (cl_in c = [] → cl_eof c = true → Forall fits segs ∧ replies (request_texts segs) (cl_out c)) ∧
    (cl_open c = true → readline (cl_in c) (cl_eof c) ≠ Wait →
       ∃ s' c', server_step s s' ∧ sv_clients s' !! i = Some c' ∧
         client_turn c (sv_world s) = (sv_world s', Ok (Some c'))).
Proof.
  intros Hw Hf Hb Hs. destruct (serve_start dc env pid fds b) as (b1 & r & Hb1 & Hready).
  rewrite Hb in Hb1. injection Hb1 as <- <-.
  destruct (server_execution gate_step _ _ kernel_step Hs) as [HR Hc].
  assert (gate_step (bt_world b) (sv_world s)) as [Hlog Hwf _ Hst].
  { etrans; [|exact HR]. cbn [started sv_world]. rewrite Hready.
    destruct (laws_init (R:=gate_step) (bt_world b)) as [Hi _]. exact Hi. }
  destruct (Hst Hw) as [Hinv Hkeys]. split_and!; auto. intros i c Hi. cbv zeta.
  destruct (client_inv_replies c) as (H1 & H2 & H3); [by eapply Hc|].
  split_and!; [done..|]. intros Ho Hne. by eapply (server_progress gate_step).
Qed.
End gate.
