(* ===== verification/StoreBounds.v ===== *)
(** * 64-bit bounds of the store

    JSON integers have any size; sqlite columns hold 64 bits.  Over any
    execution of the daemon every integer in the two tables fits, and a grant
    whose expiry does not is refused and leaves no row. *)
From S2P Require Import Prelude PyStr PyJson PyJsonRoundtrip Errors PyOps World.
From S2P Require Import Store StoreFacts Nft Interface GateSteps EgressFacts Daemon DaemonFacts.
From S2P Require Import GateSafety.
From S2P Require Egress AuditLog.

Definition replay_fits (r : ReplayRow) : Prop := int64 (rp_exp r) = true ∧ int64 (rp_seen_at r) = true.
Definition grant_fits (r : GrantRow) : Prop := int64 (gr_exp r) = true ∧ int64 (gr_installed_at r) = true.
Definition db_fits (db : Db) : Prop :=
  Forall replay_fits (default [] (replay db)) ∧ Forall grant_fits (default [] (grants db)).
Definition world_fits {K} (w : World K) : Prop := db_fits (default empty_db (w_db w)).
Definition fit_step {K} (w w' : World K) : Prop := world_fits w → world_fits w'.
#[export] Instance fit_step_preorder {K} : PreOrder (@fit_step K).
Proof. split; [intros w Hw; exact Hw|]. intros w1 w2 w3. unfold fit_step. auto. Qed.

(** ** Statements *)

Lemma bind_int_ok z : bind_int z = Ok tt → int64 z = true.
Proof. unfold bind_int. by destruct (int64 z). Qed.
Lemma insert_replay_fits r db : db_fits db → returns db_fits (insert_replay r db).
Proof.
  intros [Hr Hg] db'. unfold insert_replay. destruct (replay db) as [rows|] eqn:Hdb; [|done].
  intros H. run_inv. case_decide; [done|]. injection H as <-. split; [|done]. simpl.
  apply Forall_app. split; [done|].
  repeat match goal with x : () |- _ => destruct x end. constructor; [|constructor]. by split; apply bind_int_ok.
Qed.
Lemma insert_grant_fits r db : db_fits db → returns db_fits (insert_grant r db).
Proof.
  intros [Hr Hg] db'. unfold insert_grant. destruct (grants db) as [rows|] eqn:Hdb; [|done].
  intros H. run_inv. case_decide; [done|]. injection H as <-. split; [done|]. simpl.
  apply Forall_app. split; [done|].
  repeat match goal with x : () |- _ => destruct x end. constructor; [|constructor]. by split; apply bind_int_ok.
Qed.
Lemma delete_expired_fits c db : db_fits db → returns db_fits (delete_expired c db).
Proof.
  intros [Hr Hg] db'. unfold delete_expired. destruct (grants db) as [rows|] eqn:Hdb; [|done].
  intros H. run_inv. injection H as <-. split; [done|]. simpl in *.
  apply Forall_forall. intros r' [_ Hin]%list_elem_of_filter. rewrite Forall_forall in Hg. by apply Hg.
Qed.

(** ** Operations *)

Section ops.
Context {K : Type} `{Env K}.
Abbreviation fit := (within (@fit_step K) (λ _, True)).

Lemma same_db_fits {A} (m : W K A) : within (λ w w', w_db w' = w_db w) (λ _, True) m → fit m.
Proof.
  intros Hm w. destruct (Hm w) as [Hdb Hr]. split; [|done]. intros Hw. unfold world_fits. by rewrite Hdb.
Qed.
Lemma execute_fits f : (∀ db, db_fits db → returns db_fits (f db)) → fit (execute f).
Proof.
  intros Hf w. unfold execute. destruct (f (default empty_db (w_db w))) as [db|e] eqn:He; [|by split].
  split; [|done]. intros Hw. by apply (Hf _ Hw).
Qed.
Lemma with_conn_fits {A} (body : W K A) : fit body → fit (with_conn body).
Proof.
  intros Hb w. unfold with_conn. specialize (Hb (connect w).1). simpl in *.
  destruct (body _) as [w2 [a|e]]; simpl in *; (split; [|done]).
  - intros Hw. by apply Hb.
  - intros Hw. exact Hw.
Qed.
Lemma gate_fits {A} (m : W K A) : within gate_step is_exception m → fit m → within fit_step is_exception m.
Proof. intros Hs Hf w. split; [apply Hf|apply Hs]. Qed.
Lemma fits_weaken {A} (m : W K A) : within fit_step is_exception m → fit m.
Proof. intros Hm w. split; [apply Hm|]. by destruct ((m w).2). Qed.

Lemma db_now : fit now_epoch.
Proof. by apply same_db_fits. Qed.
Lemma db_now_iso : fit now_iso_utc.
Proof. by apply same_db_fits. Qed.
Lemma db_append stream record : fit (AuditLog.append stream record).
Proof. apply same_db_fits. intros w. by rewrite run_append. Qed.
Lemma db_subprocess argv stdin : fit (subprocess_run argv stdin).
Proof. apply same_db_fits. intros w. unfold subprocess_run. by repeat case_match. Qed.
Lemma db_query {A} (f : Db → pyres A) : fit (query f).
Proof. apply same_db_fits. intros w. unfold query. split; [done|]. by destruct (f _). Qed.
Lemma any_exn {A} (r : pyres A) : raises_only (λ _, True) r.
Proof. by destruct r. Qed.
#[local] Hint Resolve db_now db_now_iso db_append db_subprocess db_query : within.
#[local] Hint Extern 5 (raises_only (λ _, True) _) => apply any_exn : within.

Lemma init_fits : fit Store.init.
Proof. by apply with_conn_fits, execute_fits; intros db Hdb db' [= <-]. Qed.
Lemma record_replay_fits tok nonce exp : fit (record_replay tok nonce exp).
Proof.
  unfold record_replay. within_step; [auto with within|]. eapply within_catch; [typeclasses eauto| |].
  - apply execute_fits. intros db. apply insert_replay_fits.
  - intros e _. within_step; by apply within_raise; [typeclasses eauto|].
Qed.
#[local] Hint Resolve init_fits record_replay_fits : within.
Lemma install_fits tok nonce exp targets ports proto : fit (Store.install_grant tok nonce exp targets ports proto).
Proof.
  unfold Store.install_grant. within; try done.
  apply with_conn_fits. within. apply execute_fits. intros db. apply insert_grant_fits.
Qed.
Lemma prune_fits : fit prune_expired.
Proof.
  unfold prune_expired. within. apply with_conn_fits. within. apply execute_fits. intros db. apply delete_expired_fits.
Qed.
Lemma compute_fits : fit compute_active_sets.
Proof. unfold compute_active_sets, list_active. within. apply with_conn_fits. within. Qed.
#[local] Hint Resolve install_fits prune_fits compute_fits : within.

Lemma db_kernel (w : World K) k : fit_step w (set_kernel k w).
Proof. by intros Hw. Qed.
#[export] Instance fit_step_laws : StepLaws (@fit_step K).
Proof.
  split; [typeclasses eauto|by intros w Hw|apply db_kernel| | | |]; intros; apply gate_fits; auto with within.
  - apply append_safe.
  - apply init_safe.
  - apply prune_safe.
  - apply compute_safe.
Qed.

(** The second contract of the gate's operations. *)
Lemma egress_fits cfg : GateLaws (egress_ops cfg) fit_step.
Proof.
  apply gate_laws; [typeclasses eauto|]. intros. by apply gate_fits; [apply install_safe|apply install_fits].
Qed.
End ops.

Section theorems.
Context {K : Type} `{Env K} (cfg : NftConfig).
Implicit Types w : World K.
#[local] Existing Instance egress_fits.
#[local] Instance bounded_gate : GateOps K := egress_ops cfg.

Lemma transition_fits w w' : transition w w' → fit_step w w'.
Proof.
  intros [line w1 w2 out Hl|w1|w1 k].
  - destruct (handle_line_replies fit_step line w1) as (w2' & outs & Hl' & HR & _).
    rewrite Hl in Hl'. by simplify_eq.
  - by intros Hw.
  - by intros Hw.
Qed.

(** C24: machine bounds: over any execution of the daemon every expiry and time
    stamp in the two tables fits in the 64 bits of its column, though requests
    carry integers of any size; and installing a grant whose expiry does not
    fit is refused and leaves the tables as they were. *)
Theorem store_integers_fit w w' :
  rtc transition w w' → world_fits w →
  world_fits w' ∧
  ∀ tok nonce exp targets ports proto, store_inv w' → int64 exp = false →
    ∃ v e, Store.install_grant tok nonce exp targets ports proto w' = (v, Err e) ∧ tables_kept w' v.
Proof.
  intros Hrun Hw. split.
  - induction Hrun as [w|w1 w2 w3 Hstep _ IH]; [done|]. apply IH. by apply transition_fits in Hstep; apply Hstep.
  - intros tok nonce exp targets ports proto Hinv Hexp. rewrite run_install_grant by done. cbv zeta.
    destruct (exp <=? _)%Z; [by do 2 eexists|].
    assert (∃ e, bind_row tok nonce exp (clock (1 + w_tick w')) = Err e) as [e ->]; [|by do 2 eexists].
    unfold bind_row. destruct (bind_text tok); [|eauto]. destruct (bind_text nonce); [|eauto].
    destruct (bind_int exp) as [[]|e] eqn:Hb; [apply bind_int_ok in Hb; congruence|]. simpl. eauto.
Qed.
End theorems.
