(* ===== verification/NftSpec.v ===== *)
(** * What the nftables driver does to the kernel

    [NftLaws] is what the driver relies on of the [nft] program, as its manual
    documents it: listing changes nothing and fails exactly when the object is
    missing; [nft -j list set] prints the elements as a JSON object; [nft -f -]
    applies a script as a whole or not at all, and refuses one whose braces do
    not match.  [NftModel.toy_laws] shows that a program satisfies them. *)
From S2P Require Import Prelude PyStr PyJson PyJsonFacts PyJsonRoundtrip PyJsonStrings Errors.
From S2P Require Import PyDict PyOps World Nft UnicodeData.

(** Opening braces less closing ones. *)
Definition brace (c : N) : Z := if (c =? 123)%N then 1%Z else if (c =? 125)%N then (-1)%Z else 0%Z.
Definition balance (s : pystr) : Z := foldr (λ c n, (brace c + n)%Z) 0%Z s.
(** No braces, quotes, comments or line ends. *)
Definition plain_char (c : N) : bool :=
  negb (bool_decide (c ∈ [123; 125; 34; 35; 10; 13]))%N.
Definition plain (s : pystr) : Prop := Forall (λ c, plain_char c = true) s.
Definition cfg_plain (cfg : NftConfig) : Prop :=
  Forall (λ s, plain s ∧ text_ok s ∧ (32%N ∉ s))
    [table_family cfg; table_name cfg; set_allow_v4 cfg; set_tcp_ports cfg; set_udp_ports cfg].
(** No quoted string and no comment. *)
Definition unquoted (s : pystr) : Prop := (34%N ∉ s) ∧ (35%N ∉ s).
Lemma default_cfg_plain : cfg_plain default_cfg.
Proof. apply (bool_decide_unpack _). vm_compute. exact I. Qed.

Definition flush_script (fam tbl : pystr) (names : list pystr) : pystr :=
  join [10%N] (map (λ n, u "flush set " ++ fam ++ u " " ++ tbl ++ u " " ++ n) names) ++ [10%N].

(** The output of [nft -j list set]: the elements are left out when empty. *)
Definition set_doc (meta : json) (attrs : dict) (es : list json) : json :=
  JDict [(u "nftables", JList
    [JDict [(u "metainfo", meta)];
     JDict [(u "set", JDict (attrs ++ match es with [] => [] | _ => [(u "elem", JList es)] end))]])].

Class NftLaws (K : Type) {E : Env K} := {
  nft_has : list pystr → K → bool;
  nft_elems : list pystr → K → list json;
  nft_eval : pystr → K → option K;
  law_list kind parts k :
    ∃ c, spawn ([u "nft"; u "list"; kind] ++ parts) [] k = (k, Ok c) ∧
         (returncode c = 0%Z ↔ nft_has (kind :: parts) k = true);
  law_json fam tbl name k :
    nft_has [u "set"; fam; tbl; name] k = true →
    ∃ c meta attrs,
      spawn [u "nft"; u "-j"; u "list"; u "set"; fam; tbl; name] [] k = (k, Ok c) ∧
      returncode c = 0%Z ∧ dict_get (u "elem") attrs = None ∧
      loads (stdout c) = Ok (set_doc meta attrs (nft_elems [fam; tbl; name] k));
  law_script script k :
    ∃ c, spawn [u "nft"; u "-f"; u "-"] script k = (default k (nft_eval script k), Ok c) ∧
         (returncode c = 0%Z ↔ is_Some (nft_eval script k));
  law_braces script k : unquoted script → balance script ≠ 0%Z → nft_eval script k = None;
  law_flush fam tbl names k :
    Forall (λ s, plain s ∧ (32%N ∉ s)) (fam :: tbl :: names) → names ≠ [] →
    Forall (λ n, nft_has [u "set"; fam; tbl; n] k = true) names →
    ∃ k', nft_eval (flush_script fam tbl names) k = Some k' ∧
      (∀ n, n ∈ names → nft_elems [fam; tbl; n] k' = []) ∧
      (∀ s, (∀ n, n ∈ names → s ≠ [fam; tbl; n]) → nft_elems s k' = nft_elems s k) ∧
      (∀ o, nft_has o k' = nft_has o k)
}.

(** ** The script *)

Lemma balance_app s t : balance (s ++ t) = (balance s + balance t)%Z.
Proof. induction s as [|c s IH]; simpl; [done|]. lia. Qed.
Lemma plain_balance s : plain s → balance s = 0%Z.
Proof.
  induction 1 as [|c s Hc _ IH]; simpl; [done|]. rewrite IH. unfold plain_char in Hc. unfold brace.
  apply negb_true_iff, bool_decide_eq_false in Hc.
  destruct (N.eqb_spec c 123); [set_solver|]. destruct (N.eqb_spec c 125); [set_solver|done].
Qed.
Lemma plain_no_newline s : plain s → 10%N ∉ s.
Proof.
  intros Hs Hin. unfold plain in Hs. rewrite Forall_forall in Hs. specialize (Hs _ Hin).
  vm_compute in Hs. done.
Qed.
Lemma balance_join sep ws : balance sep = 0%Z → Forall (λ w, balance w = 0%Z) ws → balance (join sep ws) = 0%Z.
Proof.
  intros Hs. induction 1 as [|w ws Hw _ IH]; [done|]. destruct ws as [|v ws]; [done|].
  rewrite join_cons, !balance_app. lia.
Qed.
Definition total_balance (ws : list pystr) : Z := foldr (λ w n, (balance w + n)%Z) 0%Z ws.
Lemma total_balance_app ws vs : total_balance (ws ++ vs) = (total_balance ws + total_balance vs)%Z.
Proof. unfold total_balance. induction ws as [|w ws IH]; simpl; lia. Qed.
Lemma balance_join_sum sep ws : balance sep = 0%Z → balance (join sep ws) = total_balance ws.
Proof.
  intros Hs. induction ws as [|w ws IH]; [done|]. destruct ws as [|v ws]; [simpl; lia|].
  rewrite join_cons, !balance_app, IH, Hs. done.
Qed.

(** The number of non-empty lists. *)
Definition nonempty (l : list pystr) : Z := match l with [] => 0%Z | _ => 1%Z end.

Section script.
Variable cfg : NftConfig.
Hypothesis Hcfg : cfg_plain cfg.

Lemma cfg_plain_all s :
  s ∈ [table_family cfg; table_name cfg; set_allow_v4 cfg; set_tcp_ports cfg; set_udp_ports cfg] →
  plain s ∧ text_ok s ∧ (32%N ∉ s).
Proof. intros Hs. unfold cfg_plain in Hcfg. rewrite Forall_forall in Hcfg. by apply Hcfg. Qed.
Lemma flush_line_balance n : balance n = 0%Z → balance (flush_line cfg n) = 0%Z.
Proof.
  intros Hn. unfold flush_line. rewrite !balance_app, Hn.
  rewrite !(plain_balance (table_family cfg)), !(plain_balance (table_name cfg)) by (apply cfg_plain_all; set_solver).
  done.
Qed.
Lemma add_line_balance n es :
  balance n = 0%Z → Forall plain es →
  total_balance (add_line cfg n es) = (- nonempty es)%Z.
Proof.
  intros Hn Hes. destruct es as [|e es]; [done|]. cbn [add_line nonempty]. unfold total_balance. cbn [foldr].
  rewrite !balance_app, Hn, balance_join; [|done|].
  2: { eapply Forall_impl; [exact Hes|]. apply plain_balance. }
  rewrite !(plain_balance (table_family cfg)), !(plain_balance (table_name cfg)) by (apply cfg_plain_all; set_solver).
  done.
Qed.

(** Each non-empty list of elements leaves one closing brace too many. *)
Lemma apply_script_balance a t us :
  Forall plain a → Forall plain t → Forall plain us →
  balance (apply_script cfg a t us) = (- (nonempty a + nonempty t + nonempty us))%Z.
Proof.
  intros Ha Ht Hu. unfold apply_script. rewrite balance_app, balance_join_sum by done.
  assert (∀ n, n ∈ [set_allow_v4 cfg; set_tcp_ports cfg; set_udp_ports cfg] → balance n = 0%Z) as Hn.
  { intros n Hn. apply plain_balance, cfg_plain_all. set_solver. }
  unfold apply_lines. rewrite !total_balance_app, !add_line_balance by (done || apply Hn; set_solver).
  unfold total_balance. cbn [foldr]. rewrite !flush_line_balance by (apply Hn; set_solver).
  change (balance [10%N]) with 0%Z. lia.
Qed.
End script.

(** ** The baseline *)

(** What [require_baseline] must find, in order, and what it says otherwise. *)
Definition baseline_objects (cfg : NftConfig) : list (list pystr * pystr) :=
  let obj kind parts := kind :: table_family cfg :: table_name cfg :: parts in
  [(obj (u "table") [], u "missing nft baseline table");
   (obj (u "set") [set_allow_v4 cfg], u "missing nft baseline set: " ++ set_allow_v4 cfg);
   (obj (u "set") [set_tcp_ports cfg], u "missing nft baseline set: " ++ set_tcp_ports cfg);
   (obj (u "set") [set_udp_ports cfg], u "missing nft baseline set: " ++ set_udp_ports cfg);
   (obj (u "chain") [chain_output cfg], u "missing nft baseline output chain")].

Section driver.
Context {K : Type} `{E : Env K} {laws : NftLaws K}.
Implicit Types w : World K.

(** The message for the first object of the baseline that is missing. *)
Fixpoint first_missing (k : K) (os : list (list pystr * pystr)) : pyres unit :=
  match os with
  | [] => Ok tt
  | (o, msg) :: os' => if nft_has o k then first_missing k os' else Err (Exn BaselineMissingError msg)
  end.
Definition baseline_present (cfg : NftConfig) (k : K) : Prop :=
  Forall (λ o, nft_has o.1 k = true) (baseline_objects cfg).

Lemma first_missing_ok k os : first_missing k os = Ok tt ↔ Forall (λ o, nft_has o.1 k = true) os.
Proof.
  induction os as [|[o msg] os IH]; simpl; [done|]. rewrite Forall_cons. simpl.
  destruct (nft_has o k); [|naive_solver]. naive_solver.
Qed.

Lemma baseline_set cfg k n : baseline_present cfg k →
  n ∈ [set_allow_v4 cfg; set_tcp_ports cfg; set_udp_ports cfg] →
  nft_has [u "set"; table_family cfg; table_name cfg; n] k = true.
Proof.
  intros Hb Hn. unfold baseline_present in Hb. rewrite Forall_forall in Hb.
  rewrite !elem_of_cons, elem_of_nil in Hn.
  destruct Hn as [->|[->|[->|[]]]]; [eapply (Hb (_, _)) | eapply (Hb (_, _)) | eapply (Hb (_, _))];
    unfold baseline_objects; rewrite !elem_of_cons; [right; left|do 2 right; left|do 3 right; left]; reflexivity.
Qed.

Lemma set_kernel_id w : set_kernel (w_kernel w) w = w.
Proof. by destruct w. Qed.

Lemma run_list kind parts w :
  ∃ c, _run ([u "nft"; u "list"; kind] ++ parts) w = (w, Ok c) ∧
       (returncode c = 0%Z ↔ nft_has (kind :: parts) (w_kernel w) = true).
Proof.
  destruct (law_list kind parts (w_kernel w)) as (c & Hc & Hrc). exists c. split; [|done].
  unfold _run, subprocess_run. cbn [check_utf8 surrogate_run]. rewrite Hc. by rewrite set_kernel_id.
Qed.
Lemma run_exists kind parts w : _exists kind parts w = (w, Ok (nft_has (kind :: parts) (w_kernel w))).
Proof.
  unfold _exists. destruct (run_list kind parts w) as (c & Hc & Hrc). rewrite run_bind, Hc, run_ret.
  do 2 f_equal. destruct (nft_has _ _); [by apply bool_decide_eq_true, Hrc|].
  apply bool_decide_eq_false. intros H0. by apply Hrc in H0.
Qed.

Lemma run_require_baseline cfg w :
  require_baseline cfg w = (w, first_missing (w_kernel w) (baseline_objects cfg)).
Proof.
  unfold require_baseline, baseline_objects. rewrite run_bind, run_exists. cbn [first_missing].
  destruct (nft_has (u "table" :: _) _); [|done]. rewrite run_bind. cbn [require_sets].
  rewrite run_bind, run_exists. destruct (nft_has _ _); [|done].
  rewrite run_bind, run_exists. destruct (nft_has _ _); [|done].
  rewrite run_bind, run_exists. destruct (nft_has _ _); [|done].
  rewrite run_ret, run_bind, run_exists. destruct (nft_has _ _); done.
Qed.

(** [require_baseline] changes nothing; it succeeds exactly when the table,
    the three sets and the output chain all exist, and otherwise raises
    [BaselineMissingError] with the message of the first object missing. *)
Theorem require_baseline_spec cfg w :
  (require_baseline cfg w).1 = w ∧
  ((require_baseline cfg w).2 = Ok tt ↔ baseline_present cfg (w_kernel w)) ∧
  (∀ pre o msg post, baseline_objects cfg = pre ++ (o, msg) :: post →
     Forall (λ x, nft_has x.1 (w_kernel w) = true) pre → nft_has o (w_kernel w) = false →
     (require_baseline cfg w).2 = Err (Exn BaselineMissingError msg)).
Proof.
  rewrite run_require_baseline. cbn [fst snd]. split; [done|]. split; [apply first_missing_ok|].
  intros pre o msg post -> Hpre Ho. induction Hpre as [|[o' msg'] pre Ho' _ IH]; cbn [app first_missing].
  - by rewrite Ho.
  - cbn in Ho'. by rewrite Ho'.
Qed.
End driver.

(** ** Ports in decimal *)

Definition decimal (X : gset pystr) : Prop := ∀ p, p ∈ X → ∃ n, p = str_of_Z n.

Lemma not_space c : (33 <= c ∧ c < 127)%N → is_space c = false.
Proof. intros Hc. unfold is_space, in_ranges, space_ranges. cbn [existsb fst snd]. lia. Qed.
Lemma nonblank_visible s : s ≠ [] → Forall (λ c, 33 <= c ∧ c < 127)%N s → nonblank s.
Proof.
  intros Hs Hv. unfold nonblank, strip. rewrite strip_by_all; [done|].
  eapply Forall_impl; [exact Hv|]. apply not_space.
Qed.
Lemma str_of_Z_visible n : str_of_Z n ≠ [] ∧ Forall (λ c, 33 <= c ∧ c < 127)%N (str_of_Z n).
Proof.
  assert (∀ m, Forall (λ c, 33 <= c ∧ c < 127)%N (str_of_N m)) as Hd.
  { intros m. eapply Forall_impl; [apply str_of_N_digits|]. unfold is_ascii_digit. lia. }
  unfold str_of_Z. destruct (n <? 0)%Z; [|split; [apply str_of_N_nonempty|apply Hd]].
  split; [done|]. constructor; [lia|apply Hd].
Qed.
Lemma map_res_decimal l :
  (∀ p, p ∈ l → ∃ n, p = str_of_Z n) → ∃ ns, map_res py_int_str l = Ok ns ∧ map str_of_Z ns = l.
Proof.
  induction l as [|p l IH]; intros Hl; [by exists []|].
  destruct (Hl p) as [n ->]; [set_solver|]. destruct IH as (ns & Hns & <-); [set_solver|].
  exists (n :: ns). cbn [map_res]. rewrite py_int_str_decimal. simpl. by rewrite Hns.
Qed.
Lemma norm_ports_decimal X : decimal X → norm_ports X = Ok X.
Proof.
  intros HX. unfold norm_ports.
  assert (filter nonblank X = X) as ->.
  { apply set_eq. intros p. rewrite elem_of_filter. split; [by intros [_ ?]|]. intros Hp. split; [|done].
    destruct (HX p Hp) as [n ->]. by apply nonblank_visible; apply str_of_Z_visible. }
  destruct (map_res_decimal (elements X)) as (ns & -> & Hns); [set_solver|].
  simpl. rewrite Hns. f_equal. apply set_eq. set_solver.
Qed.

(** ** [apply_sets] *)

Section apply.
Context {K : Type} `{E : Env K} {laws : NftLaws K}.
Implicit Types w : World K.

Lemma run_script_eval script w :
  check_utf8 script = Ok tt →
  match nft_eval script (w_kernel w) with
  | Some k => _run_script script w = (set_kernel k w, Ok tt)
  | None => ∃ msg, _run_script script w = (w, Err (Exn NftError msg))
  end.
Proof.
  intros Hs. destruct (law_script script (w_kernel w)) as (c & Hc & Hrc).
  unfold _run_script. rewrite run_bind. unfold subprocess_run. rewrite Hs, Hc.
  destruct (nft_eval script (w_kernel w)) as [k|]; cbn [default from_option id].
  - rewrite decide_True by by apply Hrc. done.
  - rewrite set_kernel_id, decide_False; [by eexists|]. intros H0%Hrc. by destruct H0.
Qed.

(** A property of characters that holds of the script's own words, of the
    names of the configuration and of the elements holds of the whole script. *)
Definition script_words : pystr := u "flush set add element {} , " ++ [10%N].
Lemma apply_script_Forall (P : N → Prop) cfg a t us :
  Forall P script_words →
  Forall (Forall P) [table_family cfg; table_name cfg; set_allow_v4 cfg; set_tcp_ports cfg; set_udp_ports cfg] →
  Forall (Forall P) a → Forall (Forall P) t → Forall (Forall P) us → Forall P (apply_script cfg a t us).
Proof.
  intros Hw Hc Ha Ht Hu. inversion_clear Hc as [|?? Hfam Hc1]. inversion_clear Hc1 as [|?? Htbl Hc2].
  inversion_clear Hc2 as [|?? H4 Hc3]. inversion_clear Hc3 as [|?? Htcp Hc4]. inversion_clear Hc4 as [|?? Hudp _].
  assert (∀ s, forallb (λ c, bool_decide (c ∈ script_words)) s = true → Forall P s) as Hlit.
  { intros s Hs. apply Forall_forall. intros c Hin%list_elem_of_In. rewrite forallb_forall in Hs.
    apply Hs, bool_decide_eq_true in Hin. rewrite Forall_forall in Hw. by apply Hw. }
  assert (∀ sep ws, Forall P sep → Forall (Forall P) ws → Forall P (join sep ws)) as Hjoin.
  { intros sep ws Hsep. induction 1 as [|w ws Hw' _ IH]; [constructor|].
    destruct ws; [done|]. rewrite join_cons. by repeat apply Forall_app_2. }
  assert (∀ n, Forall P n → Forall P (flush_line cfg n)) as Hflush.
  { intros n Hn. unfold flush_line. repeat apply Forall_app_2; try done; by apply Hlit. }
  assert (∀ n es, Forall P n → Forall (Forall P) es → Forall (Forall P) (add_line cfg n es)) as Hadd.
  { intros n es Hn Hes. unfold add_line. destruct es as [|e es]; constructor; [|constructor].
    repeat apply Forall_app_2; try done; try (by apply Hlit). apply Hjoin; [by apply Hlit|done]. }
  unfold apply_script. apply Forall_app_2; [|by apply Hlit]. apply Hjoin; [by apply Hlit|].
  unfold apply_lines. repeat apply Forall_app_2; [repeat (apply Forall_cons_2; [auto|]); apply Forall_nil_2|..]; auto.
Qed.

Lemma plain_unquoted s : plain s → Forall (λ c, c ≠ 34 ∧ c ≠ 35)%N s.
Proof.
  intros Hs. eapply Forall_impl; [exact Hs|]. intros c Hc. unfold plain_char in Hc.
  apply negb_true_iff, bool_decide_eq_false in Hc. split; intros ->; set_solver.
Qed.
Lemma apply_script_unquoted cfg a t us :
  cfg_plain cfg → Forall plain a → Forall plain t → Forall plain us → unquoted (apply_script cfg a t us).
Proof.
  intros Hcfg Ha Ht Hu.
  assert (Forall (λ c, c ≠ 34 ∧ c ≠ 35)%N (apply_script cfg a t us)) as Hall.
  { apply apply_script_Forall.
    1: by repeat constructor.
    1: eapply Forall_impl; [exact Hcfg|]; intros s (? & _); by apply plain_unquoted.
    all: eapply Forall_impl; [eassumption|]; apply plain_unquoted. }
  rewrite Forall_forall in Hall. split; intros Hin; apply Hall in Hin; naive_solver.
Qed.
Lemma apply_script_utf8 cfg a t us :
  cfg_plain cfg → Forall text_ok a → Forall text_ok t → Forall text_ok us →
  check_utf8 (apply_script cfg a t us) = Ok tt.
Proof.
  intros Hcfg Ha Ht Hu. apply check_utf8_ok, text_no_surrogate. apply apply_script_Forall; try done.
  - by repeat constructor.
  - eapply Forall_impl; [exact Hcfg|]. by intros s (_ & ? & _).
Qed.
(** With anything to allow, no kernel takes the script: its braces do not match. *)
Lemma apply_script_none cfg a t us k :
  cfg_plain cfg → Forall plain a → Forall plain t → Forall plain us →
  ¬ (a = [] ∧ t = [] ∧ us = []) → nft_eval (apply_script cfg a t us) k = None.
Proof.
  intros Hcfg Ha Ht Hu Hne. apply law_braces; [by apply apply_script_unquoted|].
  rewrite apply_script_balance by done. intros Hz. apply Hne.
  destruct a, t, us; simpl in Hz; try lia; done.
Qed.

Lemma decimal_sent X : decimal X → Forall (λ x, plain x ∧ text_ok x) (sorted_set X).
Proof.
  intros HX. apply Forall_forall. intros p. rewrite elem_of_sorted_set. intros [n ->]%HX.
  split; (eapply Forall_impl; [apply str_of_Z_digits|]); unfold is_ascii_digit; intros c Hc.
  - unfold plain_char. apply negb_true_iff, bool_decide_eq_false. rewrite !elem_of_cons, elem_of_nil. lia.
  - unfold text_char, is_surrogate. lia.
Qed.

Definition frontier_sets (cfg : NftConfig) : list pystr :=
  [set_allow_v4 cfg; set_tcp_ports cfg; set_udp_ports cfg].

(** As root, with the baseline in place, [apply_sets] runs the script of the
    normalised sets. *)
Lemma run_apply_sets addrs tcp udp cfg w :
  w_euid w = 0%Z → baseline_present cfg (w_kernel w) → decimal tcp → decimal udp →
  apply_sets addrs tcp udp cfg w =
    _run_script (apply_script cfg (sorted_set (norm_addrs addrs)) (sorted_set tcp) (sorted_set udp)) w.
Proof.
  intros Hroot Hbase Ht Hu. unfold apply_sets. rewrite run_bind. unfold gets. rewrite Hroot. cbn [negb Z.eqb].
  rewrite run_bind, run_require_baseline, (proj2 (first_missing_ok _ _) Hbase).
  rewrite run_bind. unfold lift at 1. rewrite norm_ports_decimal by done.
  rewrite run_bind. unfold lift at 1. by rewrite norm_ports_decimal by done.
Qed.

(** Addresses that cannot end the element list they are written in. *)
Definition sendable (addrs : gset pystr) : Prop := ∀ x, x ∈ addrs → plain x ∧ text_ok x.

Lemma norm_addrs_sent addrs :
  sendable addrs → Forall (λ x, plain x ∧ text_ok x) (sorted_set (norm_addrs addrs)).
Proof.
  intros Ha. apply Forall_forall. intros x. rewrite elem_of_sorted_set. unfold norm_addrs.
  intros (y & -> & [_ Hy]%elem_of_filter)%elem_of_map. destruct (Ha y Hy). split; by apply replace_Forall.
Qed.

Lemma apply_script_refused addrs tcp udp cfg w :
  cfg_plain cfg → sendable addrs → decimal tcp → decimal udp →
  ¬ (norm_addrs addrs = ∅ ∧ tcp = ∅ ∧ udp = ∅) →
  ∃ msg, _run_script (apply_script cfg (sorted_set (norm_addrs addrs)) (sorted_set tcp) (sorted_set udp)) w =
    (w, Err (Exn NftError msg)).
Proof.
  intros Hcfg Ha Ht Hu Hempty.
  pose proof (norm_addrs_sent _ Ha) as [Hap Hat]%Forall_and. pose proof (decimal_sent _ Ht) as [Htp Htt]%Forall_and.
  pose proof (decimal_sent _ Hu) as [Hup Hut]%Forall_and.
  pose proof (run_script_eval _ w (apply_script_utf8 cfg _ _ _ Hcfg Hat Htt Hut)) as Hrun.
  rewrite apply_script_none in Hrun; [exact Hrun|done..|]. by rewrite !sorted_set_nil.
Qed.

Lemma flush_all cfg w :
  cfg_plain cfg → baseline_present cfg (w_kernel w) →
  ∃ k, _run_script (apply_script cfg [] [] []) w = (set_kernel k w, Ok tt) ∧
    (∀ n, n ∈ frontier_sets cfg → nft_elems [table_family cfg; table_name cfg; n] k = []) ∧
    (∀ s, (∀ n, n ∈ frontier_sets cfg → s ≠ [table_family cfg; table_name cfg; n]) →
       nft_elems s k = nft_elems s (w_kernel w)) ∧
    (∀ o, nft_has o k = nft_has o (w_kernel w)).
Proof.
  intros Hcfg Hbase.
  pose proof (apply_script_utf8 cfg [] [] [] Hcfg (Forall_nil_2 _) (Forall_nil_2 _) (Forall_nil_2 _)) as Hutf.
  pose proof (run_script_eval _ w Hutf) as Hrun.
  destruct (law_flush (table_family cfg) (table_name cfg) (frontier_sets cfg) (w_kernel w))
    as (k & Hk & Hflushed & Hkept & Hhas).
  - eapply Forall_impl; [exact Hcfg|]. by intros s (? & _ & ?).
  - done.
  - apply Forall_forall. intros n. by apply baseline_set.
  - change (apply_script cfg [] [] []) with
      (flush_script (table_family cfg) (table_name cfg) (frontier_sets cfg)) in *.
    rewrite Hk in Hrun. eauto.
Qed.

(** what [apply_sets] does, as root and with the baseline in place: with no
    address and no port to allow it empties the three sets and changes nothing
    else; with any it is refused by nft and the kernel keeps its state, because
    the script closes each element list with two braces. *)
Theorem apply_sets_outcome cfg addrs tcp udp w :
  cfg_plain cfg → w_euid w = 0%Z → baseline_present cfg (w_kernel w) →
  sendable addrs → decimal tcp → decimal udp →
  if decide (norm_addrs addrs = ∅ ∧ tcp = ∅ ∧ udp = ∅) then
    ∃ k, apply_sets addrs tcp udp cfg w = (set_kernel k w, Ok tt) ∧
      (∀ n, n ∈ frontier_sets cfg → nft_elems [table_family cfg; table_name cfg; n] k = []) ∧
      (∀ s, (∀ n, n ∈ frontier_sets cfg → s ≠ [table_family cfg; table_name cfg; n]) →
         nft_elems s k = nft_elems s (w_kernel w))
  else ∃ msg, apply_sets addrs tcp udp cfg w = (w, Err (Exn NftError msg)).
Proof.
  intros Hcfg Hroot Hbase Ha Ht Hu. rewrite run_apply_sets by done.
  case_decide as Hempty; [|by apply apply_script_refused].
  destruct Hempty as (-> & -> & ->). destruct (flush_all cfg w) as (k & ? & ? & ? & _); eauto.
Qed.

(** A target that closes the element list, adds the line [cmd], and comments out
    the rest. *)
Definition injected (cmd : pystr) : pystr := u "0.0.0.0 }" ++ [10%N] ++ cmd ++ [10%N] ++ u "#".

(** C21: targets are not checked before they are written in the script: a target
    can make [nft] run any line without a slash or a line end, [flush ruleset] for
    one, although the module
    promises to touch only the allow sets. *)
Theorem apply_sets_injects cfg cmd w :
  cfg_plain cfg → w_euid w = 0%Z → baseline_present cfg (w_kernel w) →
  10%N ∉ cmd → 47%N ∉ cmd →
  ∃ script, apply_sets {[injected cmd]} ∅ ∅ cfg w = _run_script script w ∧
    split 10 script =
      map (flush_line cfg) (frontier_sets cfg) ++
      [u "add element " ++ table_family cfg ++ u " " ++ table_name cfg ++ u " " ++ set_allow_v4 cfg
         ++ u " { 0.0.0.0 }"; cmd; u "# }}"; []].
Proof.
  intros Hcfg Hroot Hbase Hn Hsl. rewrite run_apply_sets by (done || set_solver).
  eexists. split; [reflexivity|].
  assert (norm_addrs {[injected cmd]} = {[injected cmd]}) as ->.
  { unfold norm_addrs. assert (filter nonblank {[injected cmd]} = ({[injected cmd]} : gset pystr)) as ->.
    { apply set_eq. intros x. rewrite elem_of_filter, elem_of_singleton.
      split; [by intros [_ ?]|]. intros ->. split; [|done].
      unfold nonblank, strip. intros Hnil%strip_by_nil. by apply Forall_inv in Hnil. }
    rewrite set_map_singleton_L. f_equal. apply (replace_absent 47%N); [|done].
    unfold injected. rewrite !not_elem_of_app.
    split_and!; try done; apply (bool_decide_unpack _); vm_compute; exact I. }
  rewrite sorted_set_singleton. change (sorted_set ∅) with (@nil pystr).
  set (add := u "add element " ++ _).
  assert (apply_script cfg [injected cmd] [] [] =
    join [10%N] (map (flush_line cfg) (frontier_sets cfg) ++ [add; cmd; u "# }}"]) ++ [10%N]) as ->.
  { unfold apply_script, apply_lines, injected, add. cbn [add_line join app map frontier_sets].
    rewrite <-!app_assoc. cbn [app]. rewrite <-!app_assoc. reflexivity. }
  assert (∀ s, s ∈ [table_family cfg; table_name cfg; set_allow_v4 cfg; set_tcp_ports cfg; set_udp_ports cfg]
    → 10%N ∉ s) as Hcl.
  { intros s Hs. apply plain_no_newline. by apply (cfg_plain_all cfg Hcfg). }
  assert (∀ s : pystr, bool_decide (10%N ∉ s) = true → 10%N ∉ s) as Hlit by (intros s Hs; exact (bool_decide_eq_true_1 _ Hs)).
  rewrite split_lines; [by rewrite <-app_assoc|done|].
  apply Forall_app_2; [apply Forall_map, Forall_forall; intros n Hnin|repeat apply Forall_cons_2; [| |by apply Hlit|]].
  - unfold flush_line. rewrite !not_elem_of_app. unfold frontier_sets in Hnin.
    split_and!; try (by apply Hlit); apply Hcl; set_solver.
  - unfold add. rewrite !not_elem_of_app. split_and!; try (by apply Hlit); apply Hcl; set_solver.
  - done.
  - apply Forall_nil_2.
Qed.
End apply.

(** ** Reading sets back *)

(** The elements of a set, as [parse_nft_set_elements_json] reads them. *)
Definition listing (es : list json) : gset pystr := stripped_set (es ≫= item_elems).

(** Parsing the output of [nft -j list set] gives exactly the elements of the
    set, whatever other attributes the set has. *)
Lemma parse_set_doc meta attrs es :
  dict_get (u "elem") attrs = None →
  parse_nft_set_elements_json (set_doc meta attrs es) = Ok (Some (listing es)).
Proof.
  intros Ha. unfold parse_nft_set_elements_json, set_doc. cbn [py_get].
  unfold dict_get_or. cbn [dict_get]. rewrite decide_True by done. cbn [default from_option id mbind res_bind].
  do 2 f_equal. unfold listing. f_equal. cbn [mbind list_bind entry_elems dict_get].
  rewrite !decide_False by done. rewrite !decide_True by done. rewrite dict_get_app by done.
  destruct es as [|e es]; [done|]. cbn [dict_get]. rewrite decide_True by done. simpl. by rewrite !app_nil_r.
Qed.

(** An element as nft prints it: no white space around it, no comma, no brace. *)
Definition printed (e : pystr) : Prop := e ≠ [] ∧ strip e = e ∧ (44%N ∉ e) ∧ (125%N ∉ e).
(** No occurrence of [elements] starts in [pre], even one that ends after it. *)
Fixpoint quiet (pre : pystr) : bool :=
  match pre with
  | [] => true
  | _ :: pre' => negb (startswith (u "elements") (pre ++ u "elements")) && quiet pre'
  end.

Lemma drop_prefix_longer p t r : length p ≤ length t → drop_prefix p t = None → drop_prefix p (t ++ r) = None.
Proof.
  revert t. induction p as [|a p IH]; intros [|b t]; simpl; try done; [lia|].
  intros Hl. destruct (a =? b)%N; [|done]. apply IH. lia.
Qed.
Lemma search_quiet pre r : quiet pre = true →
  search_elements (pre ++ u "elements" ++ r) = search_elements (u "elements" ++ r).
Proof.
  induction pre as [|c pre IH]; [done|]. cbn [quiet]. intros [Hc Hq]%andb_true_iff.
  apply negb_true_iff in Hc. unfold startswith in Hc. apply bool_decide_eq_false in Hc.
  rewrite <-eq_None_not_Some in Hc. rewrite <-(IH Hq). cbn [app search_elements].
  assert (match_elements (c :: pre ++ u "elements" ++ r) = None) as ->; [|done].
  unfold match_elements. change (c :: pre ++ u "elements" ++ r) with ((c :: pre) ++ u "elements" ++ r).
  rewrite (assoc_L (++)), (drop_prefix_longer _ _ r); [done| |exact Hc].
  rewrite length_app. simpl. lia.
Qed.
Lemma search_here s g : match_elements s = Some g → search_elements s = Some g.
Proof. intros Hm. destruct s; [done|]. cbn [search_elements]. by rewrite Hm. Qed.
Lemma until_app c s r : c ∉ s → until c (s ++ c :: r) = Some s.
Proof.
  induction s as [|a s IH]; intros Hs; simpl; [by rewrite N.eqb_refl|].
  destruct (N.eqb_spec a c) as [->|_]; [set_solver|]. rewrite IH by set_solver. done.
Qed.
Lemma split_elements e es : Forall (λ x, 44%N ∉ x) (e :: es) →
  split 44 (join (u ", ") (e :: es)) = e :: map (cons 32%N) es.
Proof.
  revert e. induction es as [|e' es IH]; intros e Hes; inversion_clear Hes as [|?? He Hes'].
  - cbn [join map]. rewrite <-(app_nil_r e) at 1. rewrite split_app by done. simpl. by rewrite app_nil_r.
  - rewrite join_cons, split_app by done. cbn [map].
    change (u ", " ++ join (u ", ") (e' :: es)) with (44%N :: [32%N] ++ join (u ", ") (e' :: es)).
    rewrite split_sep, split_app, IH by (done || set_solver). by rewrite app_nil_r.
Qed.
Lemma join_ends f e es :
  Forall (λ x, x ≠ [] ∧ strip_by f x = x) (e :: es) → f 44%N = false →
  strip_by f (join (u ", ") (e :: es)) = join (u ", ") (e :: es).
Proof.
  intros Hes Hf.
  assert (∀ x, x ≠ [] ∧ strip_by f x = x → (∀ c r, x = c :: r → f c = false) ∧ (∀ c r, x = r ++ [c] → f c = false))
    as Hends.
  { intros x [_ Hx]. destruct (strip_by_ends f x) as [H1 H2]. rewrite Hx in *. done. }
  assert (∃ q e', e' ∈ e :: es ∧ join (u ", ") (e :: es) = q ++ e') as (q & e' & Hin & Hj).
  { clear Hes. revert e. induction es as [|e' es IH]; intros e; [exists [], e; split; [set_solver|done]|].
    destruct (IH e') as (q & x & Hx & Hq). exists (e ++ u ", " ++ q), x. split; [set_solver|].
    by rewrite join_cons, Hq, <-!app_assoc. }
  rewrite Forall_forall in Hes. apply strip_by_id; intros c r Hcr.
  - destruct (Hes e) as [He1 He2]; [set_solver|]. destruct e as [|b e]; [done|].
    assert (c = b) as -> by (destruct es; [|rewrite join_cons in Hcr]; by injection Hcr).
    by eapply (proj1 (Hends (b :: e) (conj He1 He2))).
  - destruct (Hes e' Hin) as [He1 He2]. rewrite Hj in Hcr.
    destruct (exists_last He1) as (e'' & b & ->).
    rewrite (assoc_L (++)) in Hcr. apply app_inj_tail in Hcr as [_ <-]. by eapply (proj2 (Hends (e'' ++ [b]) (conj He1 He2))).
Qed.

Lemma join_absent c sep ws : c ∉ sep → Forall (λ w, c ∉ w) ws → c ∉ join sep ws.
Proof.
  intros Hs. induction 1 as [|w ws Hw _ IH]; [set_solver|]. destruct ws; [done|].
  rewrite join_cons, !not_elem_of_app. done.
Qed.
Lemma stripped_ext l l' : Forall2 (λ x y, strip x = strip y) l l' →
  map strip (filter nonblank l) = map strip (filter nonblank l').
Proof.
  induction 1 as [|x y l l' Hxy _ IH]; [done|]. rewrite !filter_cons. unfold nonblank in *. rewrite Hxy.
  case_decide; cbn [map]; by rewrite ?IH, ?Hxy.
Qed.

(** the two readers of [list_set] agree: the text that nft prints for a set
    with some elements parses to the same set as its JSON does. *)
Theorem text_json_agree pre post meta attrs e es :
  quiet pre = true → Forall printed (e :: es) → dict_get (u "elem") attrs = None →
  Ok (Some (parse_text (pre ++ u "elements = { " ++ join (u ", ") (e :: es) ++ u " }" ++ post))) =
  parse_nft_set_elements_json (set_doc meta attrs (map JStr (e :: es))).
Proof.
  intros Hq Hes Ha. rewrite parse_set_doc by done. do 2 f_equal. unfold parse_text.
  set (J := join (u ", ") (e :: es)).
  assert (125%N ∉ J) as HJ.
  { apply join_absent; [by apply (bool_decide_unpack _)|].
    eapply Forall_impl; [exact Hes|]. by intros x (_ & _ & _ & ?). }
  assert (strip J = J) as Hstrip.
  { apply join_ends; [|done]. eapply Forall_impl; [exact Hes|]. by intros x (? & ? & _). }
  assert (search_elements (pre ++ u "elements = { " ++ J ++ u " }" ++ post) = Some (u " " ++ J ++ u " ")) as ->.
  { change (u "elements = { " ++ J ++ u " }" ++ post) with (u "elements" ++ (u " = { " ++ J ++ u " }" ++ post)).
    rewrite search_quiet by done. apply search_here.
    change (match_elements (u "elements" ++ u " = { " ++ J ++ u " }" ++ post)) with
      (until 125 ([32%N] ++ J ++ [32%N] ++ 125%N :: post)).
    rewrite !(assoc_L (++)). apply until_app. rewrite !not_elem_of_app. split_and!; [|done|]; set_solver. }
  change (u " " ++ J ++ u " ") with (32%N :: J ++ [32%N]). unfold strip at 1.
  rewrite strip_by_cons, strip_by_snoc by done. change (strip_by is_space J) with (strip J). rewrite Hstrip.
  assert (J ≠ []) as HJne.
  { inversion_clear Hes as [|?? (He & _) _]. unfold J. destruct es; [done|]. rewrite join_cons. by destruct e. }
  destruct J as [|j J'] eqn:HJeq; [done|]. rewrite <-HJeq. unfold J in *.
  rewrite split_elements by (eapply Forall_impl; [exact Hes|]; by intros x (_ & _ & ? & _)).
  unfold listing, stripped_set. f_equal.
  assert (map JStr (e :: es) ≫= item_elems = e :: es) as ->.
  { generalize (e :: es). intros l. induction l as [|x l IH]; [done|]. simpl. f_equal. exact IH. }
  apply stripped_ext. constructor; [done|]. clear. induction es as [|x es IH]; constructor; [|done].
  by apply strip_by_cons.
Qed.

Section verify.
Context {K : Type} `{E : Env K} {laws : NftLaws K}.
Implicit Types w : World K.

Definition elems_of (cfg : NftConfig) (n : pystr) (k : K) : list json :=
  nft_elems [table_family cfg; table_name cfg; n] k.

Lemma list_set_listing n cfg w :
  nft_has [u "set"; table_family cfg; table_name cfg; n] (w_kernel w) = true →
  list_set n cfg w = (w, Ok (listing (elems_of cfg n (w_kernel w)))).
Proof.
  intros Hn. destruct (law_json _ _ _ _ Hn) as (c & meta & attrs & Hc & Hrc & Ha & Hl).
  unfold list_set. rewrite run_bind. unfold _list_set_json. rewrite run_bind.
  unfold _run, subprocess_run. cbn [check_utf8 surrogate_run]. rewrite Hc, set_kernel_id, Hrc. cbn [Z.eqb negb].
  rewrite Hl. unfold lift. by rewrite parse_set_doc.
Qed.

(** A set of ports lists integers. *)
Definition port_elems (es : list json) : Prop := Forall (λ e, ∃ z, (0 <= z)%Z ∧ e = JInt z) es.
Definition ports_listed (es : list json) : gset pystr := list_to_set (map py_str es).

Lemma str_of_Z_strip z : strip (str_of_Z z) = str_of_Z z.
Proof.
  unfold strip. apply strip_by_all. eapply Forall_impl; [apply str_of_Z_visible|]. apply not_space.
Qed.
Lemma port_elems_items es : port_elems es → es ≫= item_elems = map py_str es.
Proof. induction 1 as [|e es (z & _ & ->) _ IH]; [done|]. simpl. f_equal. exact IH. Qed.
Lemma listing_ports es : port_elems es → listing es = ports_listed es.
Proof.
  intros Hes. unfold listing, ports_listed. rewrite port_elems_items by done. unfold stripped_set.
  f_equal. induction Hes as [|e es (z & _ & ->) _ IH]; [done|]. cbn [map].
  rewrite filter_cons_True by (by apply nonblank_visible; apply str_of_Z_visible).
  cbn [map]. rewrite IH. f_equal. apply str_of_Z_strip.
Qed.
Lemma digit_ports_listed es : port_elems es → digit_ports (ports_listed es) = Ok (ports_listed es).
Proof.
  intros Hes. assert (∀ p, p ∈ ports_listed es → ∃ z, (0 <= z)%Z ∧ p = str_of_Z z) as Hp.
  { unfold ports_listed. intros p (e & -> & He)%elem_of_list_to_set%list_elem_of_fmap.
    unfold port_elems in Hes. rewrite Forall_forall in Hes. destruct (Hes e He) as (z & Hz & ->). by exists z. }
  unfold digit_ports.
  assert (filter (λ p, isdigit p = true) (ports_listed es) = ports_listed es) as ->.
  { apply set_eq. intros p. rewrite elem_of_filter. split; [by intros [_ ?]|]. intros Hin. split; [|done].
    destruct (Hp p Hin) as (z & Hz & ->). unfold str_of_Z. rewrite (proj2 (Z.ltb_ge z 0)) by lia.
    apply isdigit_str_of_N. }
  destruct (map_res_decimal (elements (ports_listed es))) as (ns & -> & Hns).
  { intros p Hin%elem_of_elements. destruct (Hp p Hin) as (z & _ & ->). eauto. }
  simpl. rewrite Hns. f_equal. apply set_eq. set_solver.
Qed.

(** [verify_sets] changes nothing, and compares what the kernel lists. *)
Definition compare_sets (A T U la lt lu : gset pystr) : pyres unit :=
  if negb (bool_decide (la = A)) then raise_nft (mismatch (u "allow_v4") A la)
  else if negb (bool_decide (lt = T)) then raise_nft (mismatch (u "tcp ports") T lt)
  else if negb (bool_decide (lu = U)) then raise_nft (mismatch (u "udp ports") U lu)
  else Ok tt.
Lemma compare_sets_spec A T U la lt lu :
  (compare_sets A T U la lt lu = Ok tt ↔ A = la ∧ T = lt ∧ U = lu) ∧
  (∀ e, compare_sets A T U la lt lu = Err e → exn_type e = NftError).
Proof. unfold compare_sets, raise_nft. repeat case_bool_decide; cbn [negb]; naive_solver. Qed.

Lemma run_verify_listed A T U cfg w :
  baseline_present cfg (w_kernel w) →
  let listed n := listing (elems_of cfg n (w_kernel w)) in
  verify_sets A T U cfg w =
    (w, lt ← digit_ports (listed (set_tcp_ports cfg)); lu ← digit_ports (listed (set_udp_ports cfg));
        compare_sets A T U (set_map strip_32 (listed (set_allow_v4 cfg))) lt lu).
Proof.
  intros Hbase listed. unfold verify_sets.
  rewrite run_bind, run_require_baseline, (proj2 (first_missing_ok _ _) Hbase).
  assert (∀ n, n ∈ [set_allow_v4 cfg; set_tcp_ports cfg; set_udp_ports cfg] →
    list_set n cfg w = (w, Ok (listed n))) as Hls.
  { intros n Hn. apply list_set_listing. by apply baseline_set. }
  rewrite run_bind, Hls by (rewrite !elem_of_cons; tauto). cbv zeta.
  rewrite run_bind, Hls by (rewrite !elem_of_cons; tauto).
  rewrite run_bind. unfold lift at 1. destruct (digit_ports (listed (set_tcp_ports cfg))); [|done].
  rewrite run_bind, Hls by (rewrite !elem_of_cons; tauto).
  rewrite run_bind. unfold lift at 1. destruct (digit_ports (listed (set_udp_ports cfg))); [|done].
  change (Ok a ≫= ?f) with (f a). cbv beta. change (Ok a0 ≫= ?f) with (f a0). unfold compare_sets, raise_nft.
  by repeat case_bool_decide.
Qed.
Lemma run_verify_sets A T U cfg w :
  baseline_present cfg (w_kernel w) →
  port_elems (elems_of cfg (set_tcp_ports cfg) (w_kernel w)) →
  port_elems (elems_of cfg (set_udp_ports cfg) (w_kernel w)) →
  verify_sets A T U cfg w =
    (w, compare_sets A T U (set_map strip_32 (listing (elems_of cfg (set_allow_v4 cfg) (w_kernel w))))
          (ports_listed (elems_of cfg (set_tcp_ports cfg) (w_kernel w)))
          (ports_listed (elems_of cfg (set_udp_ports cfg) (w_kernel w)))).
Proof.
  intros Hbase Ht Hu. rewrite run_verify_listed by done. cbv zeta.
  rewrite (listing_ports _ Ht), (listing_ports _ Hu).
  by rewrite (digit_ports_listed _ Ht), (digit_ports_listed _ Hu).
Qed.

(** [verify_sets], with the baseline in place and integer port elements,
    changes nothing; it succeeds exactly when the three expected sets are the
    listed ones (addresses without /32), and otherwise raises [NftError]. *)
Theorem verify_sets_spec A T U cfg w :
  baseline_present cfg (w_kernel w) →
  port_elems (elems_of cfg (set_tcp_ports cfg) (w_kernel w)) →
  port_elems (elems_of cfg (set_udp_ports cfg) (w_kernel w)) →
  ∃ r, verify_sets A T U cfg w = (w, r) ∧
    (r = Ok tt ↔
       A = set_map strip_32 (listing (elems_of cfg (set_allow_v4 cfg) (w_kernel w))) ∧
       T = ports_listed (elems_of cfg (set_tcp_ports cfg) (w_kernel w)) ∧
       U = ports_listed (elems_of cfg (set_udp_ports cfg) (w_kernel w))) ∧
    (∀ e, r = Err e → exn_type e = NftError).
Proof.
  intros Hbase Ht Hu. rewrite run_verify_sets by done. eexists. split; [reflexivity|]. apply compare_sets_spec.
Qed.

(** once an address set holds a network other than a single host, which nft
    prints as a ["prefix"] object, [verify_sets] can only fail: the object is
    compared by its Python [repr] with the addresses of the grants. *)
Theorem verify_prefix_mismatch A T U cfg w p :
  baseline_present cfg (w_kernel w) →
  port_elems (elems_of cfg (set_tcp_ports cfg) (w_kernel w)) →
  port_elems (elems_of cfg (set_udp_ports cfg) (w_kernel w)) →
  JDict [(u "prefix", p)] ∈ elems_of cfg (set_allow_v4 cfg) (w_kernel w) →
  (∀ a, a ∈ A → head a ≠ Some 123%N) →
  ∃ e, verify_sets A T U cfg w = (w, Err e) ∧ exn_type e = NftError.
Proof.
  intros Hbase Ht Hu Hp HA.
  rewrite run_verify_sets by done. unfold compare_sets.
  rewrite bool_decide_eq_false_2; [by eexists|]. intros HAeq.
  set (s := py_repr (JDict [(u "prefix", p)])).
  set (mid := (repr (u "prefix") ++ u ": " ++ py_repr p)).
  assert (s = 123%N :: mid ++ [125%N]) as Hs by reflexivity.
  assert (strip s = s) as Hstrip.
  { apply strip_by_id; rewrite Hs; intros c r; [by intros [= <- _]|].
    rewrite app_comm_cons. intros [_ [= <-]]%app_inj_tail. done. }
  assert (s ∈ listing (elems_of cfg (set_allow_v4 cfg) (w_kernel w))) as Hin.
  { unfold listing, stripped_set. apply elem_of_list_to_set, list_elem_of_fmap. exists s. split; [done|].
    apply list_elem_of_filter. split; [unfold nonblank; rewrite Hstrip, Hs; done|].
    apply list_elem_of_bind. eexists. split; [|exact Hp]. by apply list_elem_of_singleton. }
  apply (HA (strip_32 s)); [rewrite <-HAeq; by apply elem_of_map_2|].
  rewrite Hs. reflexivity.
Qed.
End verify.
