(* ===== verification/Baseline.v ===== *)
(** * The packet filter of the baseline (src/nft/sourceos-egress.nft)

    The ruleset the gate works on: the sets of [table inet sourceos], the rules
    of its output chain in order, and what the chain decides about a packet,
    given the contents of the sets.  A rule holds when all its expressions do;
    the first rule that holds decides, and the policy of the chain otherwise; an
    [ip daddr] expression holds of IPv4 packets only, a [tcp dport] one of TCP
    segments only, as in an [inet] table. *)
From S2P Require Import Prelude PyStr.
#[local] Open Scope Z_scope.

(** ** Elements of sets

    An IPv4 address is a 32-bit integer. *)
Inductive element :=
  | Addr (a : Z) | Net (a len : Z) | AddrRange (lo hi : Z)
  | Port (p : Z) | PortRange (lo hi : Z).
Global Instance element_eq_dec : EqDecision element.
Proof. solve_decision. Defined.

Definition ip (a b c d : Z) : Z := ((a * 256 + b) * 256 + c) * 256 + d.
Definition between (lo hi x : Z) : bool := (lo <=? x) && (x <=? hi).
Definition addr_ok (a : Z) : Prop := 0 <= a < 2 ^ 32.
Definition port_ok (p : Z) : Prop := 0 <= p < 2 ^ 16.
Definition element_ok (e : element) : Prop :=
  match e with
  | Addr a => addr_ok a
  | Net a len => addr_ok a ∧ 0 <= len < 32
  | AddrRange lo hi => addr_ok lo ∧ addr_ok hi
  | Port p => port_ok p
  | PortRange lo hi => port_ok lo ∧ port_ok hi
  end.

(** Whether an element holds an address or a port. *)
Definition addr_in (x : Z) (e : element) : bool :=
  match e with
  | Addr a => x =? a
  | Net a len => Z.shiftr x (32 - len) =? Z.shiftr a (32 - len)
  | AddrRange lo hi => between lo hi x
  | _ => false
  end.
Definition port_in (x : Z) (e : element) : bool :=
  match e with Port p => x =? p | PortRange lo hi => between lo hi x | _ => false end.

(** ** Packets and rules *)

Inductive address := V4 (a : Z) | V6 (a : Z).
Inductive segment := TCP (dport : Z) | UDP (dport : Z) | OtherL4 (proto : Z).
(** A packet on its way out. *)
Record Packet := { oifname : pystr; daddr : address; l4 : segment }.

Inductive expression :=
  | Oifname (name : pystr) | IpDaddr (set : pystr) | TcpDport (set : pystr) | UdpDport (set : pystr).
Inductive verdict_t := Accept | Drop.
Global Instance verdict_eq_dec : EqDecision verdict_t.
Proof. solve_decision. Defined.
Record rule := { matches : list expression; decision : verdict_t }.
Record chain := { policy : verdict_t; rules : list rule }.

Section filter.
(** The contents of the sets, by name. *)
Variable contents : pystr → list element.

Definition holds (p : Packet) (e : expression) : bool :=
  match e, daddr p, l4 p with
  | Oifname n, _, _ => bool_decide (oifname p = n)
  | IpDaddr s, V4 a, _ => existsb (addr_in a) (contents s)
  | TcpDport s, _, TCP d => existsb (port_in d) (contents s)
  | UdpDport s, _, UDP d => existsb (port_in d) (contents s)
  | _, _, _ => false
  end.
Fixpoint evaluate (c : verdict_t) (rs : list rule) (p : Packet) : verdict_t :=
  match rs with
  | [] => c
  | r :: rs' => if forallb (holds p) (matches r) then decision r else evaluate c rs' p
  end.
Definition verdict (c : chain) (p : Packet) : verdict_t := evaluate (policy c) (rules c) p.
End filter.

(** ** The file *)

Inductive set_type := ipv4_addr | inet_service.
Record nft_set := { set_name : pystr; set_of : set_type; initial : list element }.

Definition table_of_baseline : list pystr := [u "inet"; u "sourceos"].
Definition lan_v4 : list element :=
  [Net (ip 10 0 0 0) 8; Net (ip 172 16 0 0) 12; Net (ip 192 168 0 0) 16].
Definition baseline_sets : list nft_set :=
  [{| set_name := u "lan_v4"; set_of := ipv4_addr; initial := lan_v4 |};
   {| set_name := u "frontier_allow_v4"; set_of := ipv4_addr; initial := [] |};
   {| set_name := u "frontier_allow_tcp_ports"; set_of := inet_service; initial := [] |};
   {| set_name := u "frontier_allow_udp_ports"; set_of := inet_service; initial := [] |}].
Definition accept (es : list expression) : rule := {| matches := es; decision := Accept |}.
Definition output : chain := {|
  policy := Drop;
  rules :=
    [accept [Oifname (u "lo")];
     accept [IpDaddr (u "lan_v4")];
     accept [IpDaddr (u "frontier_allow_v4"); TcpDport (u "frontier_allow_tcp_ports")];
     accept [IpDaddr (u "frontier_allow_v4"); UdpDport (u "frontier_allow_udp_ports")]]
|}.
(** The contents of the sets when the file has just been loaded. *)
Definition initial_contents (n : pystr) : list element :=
  default [] (initial <$> find (λ s, bool_decide (set_name s = n)) baseline_sets).

(** ** What the chain accepts *)

(** [Net]: an interval that starts at the first address of the network. *)
Lemma shiftr_eq_between x a n :
  0 <= n → a mod 2 ^ n = 0 → (Z.shiftr x n = Z.shiftr a n ↔ a <= x < a + 2 ^ n).
Proof.
  intros Hn Ha. rewrite !Z.shiftr_div_pow2 by done. assert (0 < 2 ^ n) as Hp by lia.
  apply Z.div_exact in Ha; [|lia]. pose proof (Z.div_mod x (2 ^ n)) as Hx.
  pose proof (Z.mod_pos_bound x (2 ^ n) Hp). split; [intros E; rewrite E in Hx; lia|].
  intros Hb. symmetry. apply (Z.div_unique_pos _ _ _ (x - a)); lia.
Qed.
Lemma addr_in_net x a len :
  0 <= len <= 32 → a mod 2 ^ (32 - len) = 0 →
  addr_in x (Net a len) = true ↔ a <= x < a + 2 ^ (32 - len).
Proof. intros Hl Ha. cbn [addr_in]. rewrite Z.eqb_eq. apply shiftr_eq_between; [lia|done]. Qed.

(** RFC 1918. *)
Definition private (a : Z) : Prop :=
  ip 10 0 0 0 <= a <= ip 10 255 255 255 ∨ ip 172 16 0 0 <= a <= ip 172 31 255 255 ∨
  ip 192 168 0 0 <= a <= ip 192 168 255 255.
Lemma lan_private a : existsb (addr_in a) lan_v4 = true ↔ private a.
Proof.
  unfold lan_v4. cbn [existsb]. rewrite !orb_true_iff, !addr_in_net by (done || reflexivity).
  unfold private, ip. change (2 ^ (32 - 8)) with 16777216. change (2 ^ (32 - 12)) with 1048576.
  change (2 ^ (32 - 16)) with 65536. intuition (lia || discriminate).
Qed.

Definition local_packet (p : Packet) : Prop :=
  oifname p = u "lo" ∨ ∃ a, daddr p = V4 a ∧ private a.
(** A packet to [a] and the port [d], over UDP or TCP. *)
Definition goes_to (p : Packet) (a : Z) (udp : bool) (d : Z) : Prop :=
  daddr p = V4 a ∧ l4 p = if udp then UDP d else TCP d.
Definition port_set (udp : bool) : pystr :=
  if udp then u "frontier_allow_udp_ports" else u "frontier_allow_tcp_ports".
Definition frontier_packet (contents : pystr → list element) (p : Packet) : Prop :=
  ∃ a udp d, goes_to p a udp d ∧
    (∃ e, e ∈ contents (u "frontier_allow_v4") ∧ addr_in a e = true) ∧
    (∃ e, e ∈ contents (port_set udp) ∧ port_in d e = true).

Lemma existsb_elem {A} (f : A → bool) l : existsb f l = true ↔ ∃ x, x ∈ l ∧ f x = true.
Proof. rewrite existsb_exists. by setoid_rewrite list_elem_of_In. Qed.

Lemma holds_addr contents p s :
  holds contents p (IpDaddr s) = true ↔
  ∃ a, daddr p = V4 a ∧ ∃ e, e ∈ contents s ∧ addr_in a e = true.
Proof. cbn. destruct (daddr p) as [a|a]; [|naive_solver]. rewrite existsb_elem. naive_solver. Qed.
Lemma holds_tcp contents p s :
  holds contents p (TcpDport s) = true ↔ ∃ d, l4 p = TCP d ∧ ∃ e, e ∈ contents s ∧ port_in d e = true.
Proof. cbn. destruct (daddr p), (l4 p) as [d|d|d]; rewrite ?existsb_elem; naive_solver. Qed.
Lemma holds_udp contents p s :
  holds contents p (UdpDport s) = true ↔ ∃ d, l4 p = UDP d ∧ ∃ e, e ∈ contents s ∧ port_in d e = true.
Proof. cbn. destruct (daddr p), (l4 p) as [d|d|d]; rewrite ?existsb_elem; naive_solver. Qed.

(** A chain that drops by default and whose rules accept: some rule holds. *)
Lemma evaluate_accepts contents ess p :
  evaluate contents Drop (map accept ess) p = Accept ↔
  Exists (λ es, Forall (λ e, holds contents p e = true) es) ess.
Proof.
  induction ess as [|es ess IH]; cbn [map evaluate]; [split; [done|by intros ?%Exists_nil]|].
  rewrite Exists_cons, <-IH. cbn [accept matches decision].
  destruct (forallb (holds contents p) es) eqn:Hes.
  - split; [intros _; left|done]. apply Forall_forall. intros e He%list_elem_of_In.
    by apply (proj1 (forallb_forall _ _) Hes).
  - split; [by right|]. intros [Hall|?]; [|done]. apply not_true_iff_false in Hes. destruct Hes.
    apply forallb_forall. intros e He. rewrite Forall_forall in Hall. by apply Hall, list_elem_of_In.
Qed.
Lemma output_accepts contents p :
  verdict contents output p = Accept ↔
  oifname p = u "lo" ∨ holds contents p (IpDaddr (u "lan_v4")) = true ∨ frontier_packet contents p.
Proof.
  unfold verdict, output. cbn [policy rules].
  change [accept _; _; _; _] with (map accept
    [[Oifname (u "lo")]; [IpDaddr (u "lan_v4")];
     [IpDaddr (u "frontier_allow_v4"); TcpDport (u "frontier_allow_tcp_ports")];
     [IpDaddr (u "frontier_allow_v4"); UdpDport (u "frontier_allow_udp_ports")]]).
  rewrite evaluate_accepts, !Exists_cons, Exists_nil, !Forall_cons, !Forall_nil.
  rewrite !holds_addr, holds_tcp, holds_udp. cbn [holds]. rewrite bool_decide_eq_true.
  unfold frontier_packet, goes_to. split.
  - intros [[? _]|[[? _]|[((a & Ha & Hs) & (d & Hd & Ht) & _)|[((a & Ha & Hs) & (d & Hd & Ht) & _)|[]]]]]; [auto..| |];
      right; right; [exists a, false, d|exists a, true, d]; done.
  - intros [?|[?|(a & udp & d & (Ha & Hd) & Hs & Ht)]]; [auto..|]. do 2 right. destruct udp; [right|]; left; eauto 10.
Qed.

Lemma baseline_accepts contents p :
  contents (u "lan_v4") = lan_v4 →
  (verdict contents output p = Accept ↔ local_packet p ∨ frontier_packet contents p).
Proof.
  intros Hlan. rewrite output_accepts, holds_addr, Hlan. unfold local_packet.
  setoid_rewrite <-existsb_elem. setoid_rewrite lan_private. tauto.
Qed.

(** C18: the baseline denies by default: whatever the gate has put in the
    frontier sets, the output chain accepts exactly the packets to the loopback
    interface, to a private IPv4 network, and to an address of the allow set at
    a port of the set of its protocol; so nothing over IPv6 leaves the host, and
    when the file has just been loaded only local packets do. *)
Theorem baseline_denies contents p :
  contents (u "lan_v4") = lan_v4 →
  (verdict contents output p = Accept ↔ local_packet p ∨ frontier_packet contents p) ∧
  (verdict contents output p = Accept → ∀ a, daddr p = V6 a → oifname p = u "lo") ∧
  (verdict initial_contents output p = Accept ↔ local_packet p).
Proof.
  intros Hlan.
  split; [by apply baseline_accepts|]. split.
  - intros Hv a Ha. rewrite baseline_accepts in Hv by done.
    destruct Hv as [[?|(b & Hb & _)]|(b & udp & d & [Hb _] & _)]; [done|congruence..].
  - rewrite baseline_accepts by done. split; [|by left]. intros [?|(a & udp & d & _ & (e & He & _) & _)]; [done|].
    by apply not_elem_of_nil in He.
Qed.
