(* ===== verification/NftKernel.v ===== *)
(** * What the kernel's sets hold

    [NftKernel] gives the elements behind the listings of [NftLaws]: nft prints
    an address in dotted decimal, a port as an integer, a network and a range as
    objects.  Here is what [verify_sets] makes of them. *)
From S2P Require Import Prelude PyStr PyJson PyJsonRoundtrip PyJsonStrings Errors PyOps.
From S2P Require Import World Nft NftSpec.
From S2P Require Import Baseline.

Definition octet (i a : Z) : Z := Z.land (Z.shiftr a (8 * i)) 255.
Definition dotted (a : Z) : pystr := join (u ".") (map str_of_Z [Z.shiftr a 24; octet 2 a; octet 1 a; octet 0 a]).
Definition range_json (lo hi : json) : json := JDict [(u "range", JList [lo; hi])].
(** [nft -j]'s rendering. *)
Definition elem_json (e : element) : json :=
  match e with
  | Addr a => JStr (dotted a)
  | Net a len => JDict [(u "prefix", JDict [(u "addr", JStr (dotted a)); (u "len", JInt len)])]
  | AddrRange lo hi => range_json (JStr (dotted lo)) (JStr (dotted hi))
  | Port p => JInt p
  | PortRange lo hi => range_json (JInt lo) (JInt hi)
  end.

Class NftKernel (K : Type) `{laws : NftLaws K} := {
  kernel_set : list pystr → K → list element;
  law_elements s k : nft_elems s k = map elem_json (kernel_set s k)
}.

(** ** Dotted decimal *)

Lemma octet_div i a : (0 <= i)%Z → octet i a = ((a / 2 ^ (8 * i)) mod 256)%Z.
Proof.
  intros Hi. unfold octet. change 255%Z with (Z.ones 8). rewrite Z.land_ones by lia.
  by rewrite Z.shiftr_div_pow2 by lia.
Qed.
Lemma octets_ip a : ip (Z.shiftr a 24) (octet 2 a) (octet 1 a) (octet 0 a) = a.
Proof.
  unfold ip. rewrite !octet_div, Z.shiftr_div_pow2 by lia. change (2 ^ 24)%Z with 16777216%Z. change (2 ^ (8 * 2))%Z with 65536%Z.
  change (2 ^ (8 * 1))%Z with 256%Z. change (2 ^ (8 * 0))%Z with 1%Z. Z.div_mod_to_equations. lia.
Qed.
Lemma str_of_Z_no_dot n : 46%N ∉ str_of_Z n.
Proof.
  intros Hin. pose proof (str_of_Z_digits n) as Hc. rewrite Forall_forall in Hc.
  apply Hc in Hin. unfold is_ascii_digit in Hin. lia.
Qed.
#[export] Instance dotted_inj : Inj (=) (=) dotted.
Proof.
  intros a b Heq. unfold dotted in Heq. apply (f_equal (split 46)) in Heq. change (u ".") with [46%N] in Heq.
  rewrite !split_join in Heq by (done || (apply Forall_map, Forall_forall; intros; apply str_of_Z_no_dot)).
  cbn [map] in Heq. injection Heq. intros H0%str_of_Z_inj H1%str_of_Z_inj H2%str_of_Z_inj H3%str_of_Z_inj.
  rewrite <-(octets_ip a), <-(octets_ip b). by rewrite H0, H1, H2, H3.
Qed.
Definition dotted_char (c : N) : Prop := (c = 45 ∨ c = 46 ∨ is_ascii_digit c)%N.
Lemma dotted_chars a : Forall dotted_char (dotted a).
Proof.
  unfold dotted. cbn [map]. rewrite !join_cons. cbn [join].
  repeat (apply Forall_app; split); try (by repeat constructor; right; left);
    (eapply Forall_impl; [apply str_of_Z_digits|]; unfold dotted_char; tauto).
Qed.
Lemma dotted_nonempty a : dotted a ≠ [].
Proof.
  unfold dotted. cbn [map]. rewrite join_cons. intros [Hnil _]%app_nil. revert Hnil. apply str_of_Z_visible.
Qed.
Lemma dotted_not_decimal a n : dotted a ≠ str_of_Z n.
Proof.
  intros Heq. apply (str_of_Z_no_dot n). rewrite <-Heq. unfold dotted. cbn [map]. rewrite join_cons.
  apply elem_of_app. right. apply elem_of_app. left. by apply list_elem_of_singleton.
Qed.

(** A listing shows what it lists. *)
#[export] Instance elem_json_inj : Inj (=) (=) elem_json.
Proof.
  intros e e'. destruct e, e'; unfold elem_json, range_json; intros Heq; try discriminate Heq; injection Heq;
    intros; try discriminate; f_equal; try done; by apply dotted_inj.
Qed.

(** ** What [verify_sets] reads *)

(** The text of an element, as [parse_nft_set_elements_json] leaves it. *)
Definition elem_text (e : element) : pystr := py_str (elem_json e).
(** Only single addresses and ports are printed as scalars. *)
Definition scalar (e : element) : bool :=
  match e with Addr _ | Port _ => true | _ => false end.

Lemma item_elems_elem e : item_elems (elem_json e) = [elem_text e].
Proof. by destruct e. Qed.
Lemma items_elems es : map elem_json es ≫= item_elems = map elem_text es.
Proof. induction es as [|e es IH]; [done|]. cbn [map mbind list_bind]. by rewrite item_elems_elem, IH. Qed.

(** The others are Python dicts, whose [str] is in braces. *)
Lemma elem_text_braces e : scalar e = false → ∃ mid, elem_text e = 123%N :: mid ++ [125%N].
Proof.
  unfold elem_text. destruct e; intros Hs; try done; unfold elem_json, range_json; cbn [py_str py_repr];
    eexists; reflexivity.
Qed.
Lemma elem_text_strip e : elem_text e ≠ [] ∧ strip (elem_text e) = elem_text e.
Proof.
  destruct (scalar e) eqn:He.
  - destruct e as [a| | |p|]; try done; unfold elem_text; cbn [elem_json py_str].
    + split; [apply dotted_nonempty|]. unfold strip. apply strip_by_all.
      eapply Forall_impl; [apply dotted_chars|]. unfold dotted_char, is_ascii_digit.
      intros c Hc. apply not_space. lia.
    + split; [apply str_of_Z_visible|apply str_of_Z_strip].
  - destruct (elem_text_braces e He) as [mid ->]. split; [done|].
    apply strip_by_id; intros c r; [by intros [= <- _]|].
    rewrite app_comm_cons. intros [_ [= <-]]%app_inj_tail. done.
Qed.
Lemma elem_of_listing x es : x ∈ listing (map elem_json es) ↔ ∃ e, e ∈ es ∧ x = elem_text e.
Proof.
  unfold listing, stripped_set. rewrite items_elems, elem_of_list_to_set, list_elem_of_fmap.
  setoid_rewrite list_elem_of_filter. setoid_rewrite list_elem_of_fmap. split.
  - intros (y & -> & _ & e & -> & He). exists e. by rewrite (proj2 (elem_text_strip e)).
  - intros (e & He & ->). exists (elem_text e). destruct (elem_text_strip e) as [Hne Hs]. rewrite Hs.
    split; [done|]. split; [by unfold nonblank; rewrite Hs|]. eauto.
Qed.

(** The single ports of a set. *)
Definition ports_of (es : list element) : gset pystr :=
  list_to_set (omap (λ e, match e with Port p => Some (str_of_Z p) | _ => None end) es).
Lemma elem_of_ports_of x es : x ∈ ports_of es ↔ ∃ p, Port p ∈ es ∧ x = str_of_Z p.
Proof.
  unfold ports_of. rewrite elem_of_list_to_set, list_elem_of_omap. split.
  - intros (e & He & Hx). destruct e as [| | |p|]; try done. injection Hx as <-. eauto.
  - intros (p & Hp & ->). eauto.
Qed.

(** [str.isdigit] lets the single ports through, and nothing else: a range is
    not looked at. *)
Lemma isdigit_elem_text e : element_ok e → isdigit (elem_text e) = true ↔ ∃ p, e = Port p.
Proof.
  intros He. split.
  - intros Hd. destruct (scalar e) eqn:Hs.
    2: { destruct (elem_text_braces e Hs) as [mid Hm]. rewrite Hm in Hd. done. }
    destruct e as [a| | |p|]; try done; [|by eexists]. exfalso.
    unfold elem_text in Hd. cbn [elem_json py_str] in Hd. unfold dotted in Hd. cbn [map] in Hd.
    rewrite join_cons in Hd. unfold isdigit in Hd.
    destruct (_ ++ _) as [|c s] eqn:Hcs in Hd; [done|].
    rewrite <-Hcs in Hd. rewrite !forallb_app in Hd.
    by rewrite !andb_true_iff in Hd; destruct Hd as (_ & Hdot & _).
  - intros [p ->]. cbn in He. unfold port_ok in He. change (elem_text (Port p)) with (str_of_Z p).
    unfold str_of_Z. rewrite (proj2 (Z.ltb_ge p 0)) by lia. apply isdigit_str_of_N.
Qed.
Lemma digit_ports_listing es :
  Forall element_ok es → digit_ports (listing (map elem_json es)) = Ok (ports_of es).
Proof.
  intros Hes. rewrite Forall_forall in Hes. unfold digit_ports.
  assert (filter (λ p, isdigit p = true) (listing (map elem_json es)) = ports_of es) as ->.
  { apply set_eq. intros x. rewrite elem_of_filter, elem_of_listing, elem_of_ports_of. split.
    - intros (Hd & e & He & ->). apply isdigit_elem_text in Hd as [p ->]; [|by apply Hes]. by exists p.
    - intros (p & Hp & ->). split; [|by exists (Port p)].
      apply (isdigit_elem_text (Port p)); [by apply Hes|eauto]. }
  destruct (map_res_decimal (elements (ports_of es))) as (ns & -> & Hns).
  { intros x Hx%elem_of_elements%elem_of_ports_of. destruct Hx as (p & _ & ->). eauto. }
  simpl. rewrite Hns. f_equal. apply set_eq. set_solver.
Qed.

(** Of a set of addresses it reads every element, by its text. *)
Definition addrs_of (es : list element) : gset pystr := list_to_set (map (λ e, strip_32 (elem_text e)) es).
Lemma addrs_of_listing es : set_map strip_32 (listing (map elem_json es)) = addrs_of es.
Proof.
  apply set_eq. intros x. unfold addrs_of. rewrite elem_of_map, elem_of_list_to_set, list_elem_of_fmap.
  setoid_rewrite elem_of_listing. naive_solver.
Qed.

Section verify.
Context {K : Type} `{NftKernel K}.
Implicit Types w : World K.

Definition frontier_set (cfg : NftConfig) (n : pystr) (k : K) : list element :=
  kernel_set [table_family cfg; table_name cfg; n] k.
(** The baseline is loaded, and its frontier sets hold addresses and ports. *)
Record frontier_ok (cfg : NftConfig) (k : K) : Prop := {
  fo_present : baseline_present cfg k;
  fo_elements n : n ∈ frontier_sets cfg → Forall element_ok (frontier_set cfg n k)
}.

Lemma run_verify_kernel A T U cfg w :
  frontier_ok cfg (w_kernel w) →
  verify_sets A T U cfg w =
    (w, compare_sets A T U (addrs_of (frontier_set cfg (set_allow_v4 cfg) (w_kernel w)))
          (ports_of (frontier_set cfg (set_tcp_ports cfg) (w_kernel w)))
          (ports_of (frontier_set cfg (set_udp_ports cfg) (w_kernel w)))).
Proof.
  intros [Hbase Hes]. rewrite run_verify_listed by done. cbv zeta. unfold elems_of. rewrite !law_elements.
  fold (frontier_set cfg (set_allow_v4 cfg)) (frontier_set cfg (set_tcp_ports cfg)) (frontier_set cfg (set_udp_ports cfg)).
  rewrite addrs_of_listing, !digit_ports_listing by (apply Hes; unfold frontier_sets; rewrite !elem_of_cons; tauto).
  done.
Qed.

(** C19: [verify_sets], with the baseline in place, changes nothing; it succeeds
    exactly when the expected addresses are the texts of the elements of the
    allow set and the expected ports are the single ports of the port sets, and
    otherwise raises [NftError].  A range in a port set is not compared with
    anything. *)
Theorem verify_sets_exact A T U cfg w :
  frontier_ok cfg (w_kernel w) →
  ∃ r, verify_sets A T U cfg w = (w, r) ∧
    (r = Ok tt ↔
       A = addrs_of (frontier_set cfg (set_allow_v4 cfg) (w_kernel w)) ∧
       T = ports_of (frontier_set cfg (set_tcp_ports cfg) (w_kernel w)) ∧
       U = ports_of (frontier_set cfg (set_udp_ports cfg) (w_kernel w))) ∧
    (∀ e, r = Err e → exn_type e = NftError).
Proof. intros Hk. rewrite run_verify_kernel by done. eexists. split; [reflexivity|]. apply compare_sets_spec. Qed.
End verify.
