(* ===== verification/NftModel.v ===== *)
(** * A program that satisfies [NftLaws]

    A kernel of sets of addresses, networks and ports, and an [nft] that lists
    them and runs scripts of [flush set] lines: enough to show that the laws can
    hold, and the concrete world of the examples. *)
From S2P Require Import Prelude PyStr PyJson PyJsonFacts PyJsonRoundtrip PyJsonStrings Errors.
From S2P Require Import PyOps World Nft NftSpec Baseline NftKernel.

(** The sets, by family, table and name. *)
Abbreviation toy := (gmap (list pystr) (list element)).
Definition toy_has (o : list pystr) (k : toy) : bool :=
  match o with
  | kind :: parts => if decide (kind = u "set") then bool_decide (is_Some (k !! parts)) else true
  | [] => false
  end.
Definition toy_set (s : list pystr) (k : toy) : list element := default [] (k !! s).
Definition toy_elems (s : list pystr) (k : toy) : list json := map elem_json (toy_set s k).

Definition flush_cmd (line : pystr) : option (list pystr) :=
  match split 32 line with
  | [a; b; fam; tbl; n] => if decide (a = u "flush" ∧ b = u "set") then Some [fam; tbl; n] else None
  | _ => None
  end.
Fixpoint toy_lines (lines : list pystr) (k : toy) : option toy :=
  match lines with
  | [] => Some k
  | [] :: lines' => toy_lines lines' k
  | line :: lines' =>
      s ← flush_cmd line;
      if decide (is_Some (k !! s)) then toy_lines lines' (<[s := []]> k) else None
  end.
Definition toy_eval (script : pystr) (k : toy) : option toy :=
  if decide (balance script = 0%Z) then toy_lines (split 10 script) k else None.

Definition exit_with (rc : Z) (out err : pystr) : res pystr completed :=
  Ok {| returncode := rc; stdout := out; stderr := err |}.
Definition no_such_object : pystr := u "Error: No such file or directory".
Definition toy_spawn (argv : list pystr) (stdin : pystr) (k : toy) : toy * res pystr completed :=
  if decide (argv = [u "nft"; u "-f"; u "-"]) then
    match toy_eval stdin k with
    | Some k' => (k', exit_with 0 [] [])
    | None => (k, exit_with 1 [] (u "Error: syntax error"))
    end
  else match argv with
  | _ :: b :: rest =>
      if decide (b = u "list") then
        (k, if toy_has rest k then exit_with 0 [] [] else exit_with 1 [] no_such_object)
      else match rest with
      | _ :: kind :: s =>
          (k, if toy_has (kind :: s) k
              then exit_with 0 (dumps opts_default false (set_doc JNull [] (toy_elems s k))) []
              else exit_with 1 [] no_such_object)
      | _ => (k, Err (u "[Errno 2] No such file or directory"))
      end
  | _ => (k, Err (u "[Errno 2] No such file or directory"))
  end.

(** The clock ticks once a second from 1000, up to 100000. *)
#[export] Instance toy_env : Env toy := {| clock n := Z.min (Z.of_nat n + 1000) 100000; spawn := toy_spawn |}.

(** ** The laws *)

Lemma dotted_ok a : str_ok (dotted a) = true.
Proof.
  apply text_str_ok, join_text; [by apply text_lit|]. repeat constructor; apply line_text, str_of_Z_line.
Qed.
Lemma elem_json_wf e : wf_json (elem_json e) = true.
Proof. destruct e; cbn [elem_json range_json wf_json forallb fst snd]; by rewrite ?dotted_ok. Qed.
Lemma set_doc_wf es : wf_json (set_doc JNull [] (map elem_json es)) = true.
Proof.
  destruct es as [|e es]; [done|]. unfold set_doc. cbn [map app].
  assert (forallb wf_json (map elem_json (e :: es)) = true) as He.
  { apply forallb_forall. intros x (e' & <- & _)%in_map_iff. apply elem_json_wf. }
  cbn [map forallb] in He. cbn. by rewrite He.
Qed.

Lemma toy_lines_flush fam tbl names k :
  Forall (λ s, plain s ∧ (32%N ∉ s)) (fam :: tbl :: names) →
  Forall (λ n, is_Some (k !! [fam; tbl; n])) names →
  ∃ k', toy_lines (map (λ n, u "flush set " ++ fam ++ u " " ++ tbl ++ u " " ++ n) names ++ [[]]) k = Some k' ∧
    (∀ n, n ∈ names → k' !! [fam; tbl; n] = Some []) ∧
    (∀ s, (∀ n, n ∈ names → s ≠ [fam; tbl; n]) → k' !! s = k !! s) ∧
    (∀ s, is_Some (k' !! s) ↔ is_Some (k !! s)).
Proof.
  intros Hpl. inversion_clear Hpl as [|?? [_ Hfam] Hpl1]. inversion_clear Hpl1 as [|?? [_ Htbl] Hnames].
  revert k. induction Hnames as [|n names [_ Hn] _ IH]; intros k Hk.
  { exists k. split; [done|]. split; [set_solver|done]. }
  inversion_clear Hk as [|?? Hkn Hk'].
  destruct (IH (<[[fam; tbl; n] := []]> k)) as (k' & Hrun & Hin & Hout & Hdom).
  { eapply Forall_impl; [exact Hk'|]. intros m Hm. cbv beta in *.
    destruct (decide ([fam; tbl; m] = [fam; tbl; n])) as [->|Hne];
      [rewrite lookup_insert_eq|rewrite lookup_insert_ne by done]; eauto. }
  exists k'. split; [|split; [|split]].
  - cbn [map app]. set (line := u "flush set " ++ _).
    assert (flush_cmd line = Some [fam; tbl; n]) as Hline.
    { assert (line = join [32%N] [u "flush"; u "set"; fam; tbl; n]) as Hj by reflexivity.
      unfold flush_cmd. rewrite Hj.
      rewrite split_join; [|done|]; [by rewrite decide_True by done|].
      repeat (apply Forall_cons_2; [first [assumption | apply (bool_decide_unpack _); vm_compute; exact I]|]).
      apply Forall_nil_2. }
    clearbody line. destruct line as [|c rest]; [done|]. cbn [toy_lines]. rewrite Hline. cbn [mbind option_bind].
    by rewrite decide_True by done.
  - intros m [->|Hm]%elem_of_cons; [|by apply Hin].
    destruct (decide (n ∈ names)) as [Hnn|Hnn]; [by apply Hin|].
    rewrite Hout; [apply lookup_insert_eq|]. intros m Hm [= ->]. done.
  - intros s Hs. rewrite Hout by (intros m Hm; apply Hs; set_solver).
    rewrite lookup_insert_ne; [done|]. intros <-. by apply (Hs n); [set_solver|].
  - intros s. rewrite Hdom. destruct (decide ([fam; tbl; n] = s)) as [<-|Hne];
      [rewrite lookup_insert_eq; naive_solver|by rewrite lookup_insert_ne].
Qed.

Lemma flush_script_lines fam tbl names :
  Forall (λ s, plain s ∧ (32%N ∉ s)) (fam :: tbl :: names) → names ≠ [] →
  split 10 (flush_script fam tbl names) =
    map (λ n, u "flush set " ++ fam ++ u " " ++ tbl ++ u " " ++ n) names ++ [[]] ∧
  balance (flush_script fam tbl names) = 0%Z.
Proof.
  intros Hpl Hne. inversion_clear Hpl as [|?? [Hfam _] Hpl1]. inversion_clear Hpl1 as [|?? [Htbl _] Hnames].
  unfold flush_script. split.
  - apply split_lines; [by destruct names|]. apply Forall_map. eapply Forall_impl; [exact Hnames|].
    intros n [Hn _]. cbn beta. apply plain_no_newline in Hfam, Htbl, Hn. rewrite !not_elem_of_app.
    split_and!; try done; apply (bool_decide_unpack _); vm_compute; exact I.
  - rewrite balance_app, balance_join; [done|done|]. apply Forall_map. eapply Forall_impl; [exact Hnames|].
    intros n [Hn _]. cbn beta. rewrite !balance_app, !(plain_balance fam), !(plain_balance tbl), !(plain_balance n); done.
Qed.

#[export] Instance toy_laws : NftLaws toy.
Proof.
  refine {| nft_has := toy_has; nft_elems := toy_elems; nft_eval := toy_eval |}.
  - intros kind parts k. unfold spawn, toy_env, toy_spawn. cbn [app].
    rewrite decide_False by done. rewrite decide_True by done.
    destruct (toy_has (kind :: parts) k); eexists; (split; [reflexivity|done]).
  - intros fam tbl name k Hk. unfold spawn, toy_env, toy_spawn.
    rewrite decide_False by done. rewrite decide_False by done. rewrite Hk.
    exists {| returncode := 0; stdout := dumps opts_default false
                (set_doc JNull [] (toy_elems [fam; tbl; name] k)); stderr := [] |}, JNull, [].
    split_and!; try done. apply loads_dumps; [apply opts_default_ok|apply set_doc_wf].
  - intros script k. unfold spawn, toy_env, toy_spawn. rewrite decide_True by done.
    destruct (toy_eval script k) as [k'|]; eexists; (split; [reflexivity|]).
    + split; [by eexists|done].
    + split; [done|by intros [? ?]].
  - intros script k _ Hb. unfold toy_eval. by rewrite decide_False.
  - intros fam tbl names k Hpl Hne Hhas.
    destruct (flush_script_lines fam tbl names Hpl Hne) as [Hsplit Hbal].
    destruct (toy_lines_flush fam tbl names k Hpl) as (k' & Hrun & Hin & Hout & Hdom).
    { eapply Forall_impl; [exact Hhas|]. intros n Hn. cbn in Hn. by apply bool_decide_eq_true in Hn. }
    exists k'. unfold toy_eval. rewrite decide_True, Hsplit by done. split; [done|]. split_and!.
    + intros n Hn. unfold toy_elems, toy_set. by rewrite Hin.
    + intros s Hs. unfold toy_elems, toy_set. by rewrite Hout.
    + intros [|kind parts]; [done|]. unfold toy_has. case_decide; [|done].
      by apply bool_decide_ext.
Defined.

#[export] Instance toy_kernel : NftKernel toy.
Proof. by refine {| kernel_set := toy_set |}. Defined.
