(* ===== verification/GateSpec.v ===== *)
(** * What the gate does to the kernel

    The operations of [EgressGate] end to end, over a kernel that obeys
    [NftLaws]. *)
From S2P Require Import Prelude PyStr PyJson PyJsonRoundtrip PyJsonStrings Errors PyOps TimeUtil.
From S2P Require Import World Store StoreFacts StoreSpec Nft NftSpec GateSteps EgressFacts.
From S2P Require Import GateSafety.
From S2P Require Egress AuditLog.

(** Every target of a live grant is free of braces, quotes, comments, line ends
    and surrogates. *)
Definition clean_targets (s : AbsStore) : Prop :=
  ∀ k g t, live s !! k = Some g → t ∈ a_targets g → plain t ∧ text_ok t.
(** At [c] the live grants give the kernel something to allow. *)
Definition allows_something (s : AbsStore) (c : Z) : Prop :=
  (∃ x, granted_addr s c x ∧ nonblank x) ∨ (∃ udp x, granted_port s c udp x).

(** The same, row by row. *)
Definition clean_rows (rs : list GrantRow) : Prop :=
  Forall (λ r, Forall (λ t, plain t ∧ text_ok t) (targets_of_row r)) rs.
Lemma clean_rows_targets {K : Type} (w : World K) :
  store_inv w → clean_rows (grant_rows w) → clean_targets (abs_of w).
Proof.
  intros Hw Hc k g t Hk Ht. cbn [abs_of abs_rows live] in Hk.
  apply keyed_Some in Hk as (r & Hr & [= <- <-]); [|by apply (grant_keys _ _ Hw)].
  unfold clean_rows in Hc. rewrite Forall_forall in Hc. specialize (Hc r Hr).
  rewrite Forall_forall in Hc. by apply Hc.
Qed.
Lemma tables_abs {K : Type} (w w' : World K) : tables_kept w w' → abs_of w' = abs_of w.
Proof. intros [Hr Hg]. unfold abs_of. by rewrite Hr, Hg. Qed.

Section gate.
Context {K : Type} `{E : Env K} {laws : NftLaws K} (cfg : NftConfig).
Implicit Types w : World K.

(** The state [apply] starts from: root, the baseline, a sound store with clean
    targets, and a clock that sqlite can store. *)
Record apply_ready w : Prop := {
  ready_cfg : cfg_plain cfg;
  ready_root : w_euid w = 0%Z;
  ready_base : baseline_present cfg (w_kernel w);
  ready_store : store_inv w;
  ready_clock : int64 (clock (w_tick w)) = true;
  ready_targets : clean_targets (abs_of w)
  }.

(** The sets [apply] sends. *)
Lemma run_apply w :
  apply_ready w →
  ∃ A T U, sendable A ∧ decimal T ∧ decimal U ∧
    (norm_addrs A = ∅ ∧ T = ∅ ∧ U = ∅ ↔ ¬ allows_something (abs_of w) (clock (w_tick w))) ∧
    Egress.apply cfg w =
      (_ ← _run_script (apply_script cfg (sorted_set (norm_addrs A)) (sorted_set T) (sorted_set U));
       AuditLog.append Egress.stream
         [(u "action", JStr (u "apply")); (u "allow_v4", Egress.sorted_json A);
          (u "tcp_ports", Egress.sorted_json T); (u "udp_ports", Egress.sorted_json U)])
      (tick (ready w)).
Proof.
  intros [Hcfg Hroot Hbase Hinv Hc Hclean].
  pose proof (rows_sets_granted w (clock (w_tick w)) Hinv) as Hg.
  destruct (rows_sets _) as [[A T] U] eqn:Hrows. destruct Hg as (HA & HT & HU).
  assert (decimal T ∧ decimal U) as [HdT HdU].
  { split; intros x Hx; [apply HT in Hx|apply HU in Hx];
      destruct Hx as (k & g & _ & _ & _ & p & _ & ->); eauto. }
  exists A, T, U. split; [|split; [done|split; [done|split]]].
  - intros x (k & g & Hk & _ & t & Ht & ->)%HA. destruct (Hclean _ _ _ Hk Ht). by split; apply replace_Forall.
  - unfold allows_something. setoid_rewrite <-HA. split.
    + intros (HeA & -> & ->) [(x & Hx & Hn)|([] & x & Hx)]; [|by apply HU in Hx|by apply HT in Hx].
      assert (strip_32 x ∈ norm_addrs A) as Hin; [|rewrite HeA in Hin; set_solver].
      unfold norm_addrs. apply elem_of_map_2. by apply elem_of_filter.
    + intros Hno. split_and!; apply set_eq; intros x; (split; [|set_solver]); intros Hx; exfalso; apply Hno.
      * unfold norm_addrs in Hx. apply elem_of_map in Hx as (y & -> & [Hn Hy]%elem_of_filter). left. eauto.
      * right. exists false, x. by apply HT.
      * right. exists true, x. by apply HU.
  - unfold Egress.apply. rewrite run_bind, run_require_baseline, (proj2 (first_missing_ok _ _) Hbase).
    rewrite run_bind, run_compute_active_sets by done. unfold bind_int. rewrite Hc. cbn [mbind res_bind].
    rewrite Hrows. rewrite run_bind, run_apply_sets by done. by rewrite run_bind.
Qed.

Lemma apply_refused w :
  apply_ready w → allows_something (abs_of w) (clock (w_tick w)) →
  ∃ msg, Egress.apply cfg w = (tick (ready w), Err (Exn NftError msg)).
Proof.
  intros Hw Hsome. destruct (run_apply w Hw) as (A & T & U & HA & HT & HU & Hempty & ->).
  destruct (apply_script_refused A T U cfg (tick (ready w))) as (msg & Hmsg); [apply Hw|done..|tauto|].
  exists msg. by rewrite run_bind, Hmsg.
Qed.

(** C10: [EgressGate.apply], run as root, with the baseline in place, on a sound
    store whose live targets are clean (texts without braces, quotes, number
    signs, line ends or lone surrogates), and with a clock in 64 bits: while any
    live grant allows an address or a port it raises [NftError] and leaves the
    kernel, the audit log and the store as they were, so no grant ever reaches
    the kernel; with none it empties the three sets and writes one audit
    record. *)
Theorem apply_outcome w :
  apply_ready w →
  (allows_something (abs_of w) (clock (w_tick w)) →
     ∃ w' msg, Egress.apply cfg w = (w', Err (Exn NftError msg)) ∧
       w_kernel w' = w_kernel w ∧ w_fs w' = w_fs w ∧ abs_of w' = abs_of w) ∧
  (¬ allows_something (abs_of w) (clock (w_tick w)) →
     ∃ w', Egress.apply cfg w = (w', Ok tt) ∧ abs_of w' = abs_of w ∧
       (∀ n, n ∈ frontier_sets cfg → nft_elems [table_family cfg; table_name cfg; n] (w_kernel w') = []) ∧
       ∃ p d, w_fs w' = logged p d (w_fs w) ∧ dict_get (u "action") d = Some (JStr (u "apply"))).
Proof.
  intros Hw. split; intros Hsome.
  - destruct (apply_refused w Hw Hsome) as (msg & ->). by do 2 eexists.
  - destruct (run_apply w Hw) as (A & T & U & _ & _ & _ & Hempty & ->).
    destruct (proj2 Hempty Hsome) as (-> & -> & ->).
    destruct (flush_all cfg (tick (ready w))) as (k & Hk & Hflushed & _); [apply Hw|apply Hw|].
    change (sorted_set ∅) with (@nil pystr). rewrite run_bind, Hk, run_append.
    eexists. split; [reflexivity|]. split; [done|]. split; [exact Hflushed|].
    do 2 eexists. by split.
Qed.

(** The world after a successful install of the store. *)
Lemma install_effect tok nonce exp targets ports proto w w1 g :
  store_inv w → Forall (λ t, str_ok t = true) targets →
  Store.install_grant tok nonce exp targets ports proto w = (w1, Ok g) →
  ∃ at_, store_inv w1 ∧ store_frame w w1 ∧ w_tick w1 = 4 + w_tick w ∧
    abs_of w1 =
      {| seen := <[(tok, nonce) := exp]> (seen (abs_of w));
         live := <[(tok, nonce) := {| a_exp := exp; a_proto := normalize_proto proto; a_targets := targets;
                                      a_ports := ports; a_installed_at := at_ |}]> (live (abs_of w)) |}.
Proof.
  intros Hw Hts. rewrite run_install_grant by done. cbv zeta. repeat case_match; intros [= <- <-].
  exists (clock (2 + w_tick w)). split; [by apply rows_ok_install|]. split; [done|]. split; [done|].
  by apply (abs_install (replay_rows w) (grant_rows w)).
Qed.

(** C11: installing with [apply] is not atomic: when the store accepts a grant
    that allows something, the following [apply] fails, so the caller gets an
    [NftError]; but the grant stays live in the store, its key is spent, the
    audit log says it was installed, and the kernel is as it was. *)
Theorem install_apply_outcome tok nonce exp targets ports proto w w1 g :
  apply_ready w → Forall (λ t, str_ok t = true ∧ plain t ∧ text_ok t) targets →
  Store.install_grant tok nonce exp targets ports proto w = (w1, Ok g) →
  int64 (clock (6 + w_tick w)) = true → (clock (6 + w_tick w) < exp)%Z →
  (ports ≠ [] ∨ ∃ t, t ∈ targets ∧ nonblank (strip_32 t)) →
  ∃ w' msg at_, Egress.install_grant cfg tok nonce exp targets ports proto true w = (w', Err (Exn NftError msg)) ∧
    live (abs_of w') !! (tok, nonce) =
      Some {| a_exp := exp; a_proto := normalize_proto proto; a_targets := targets; a_ports := ports;
              a_installed_at := at_ |} ∧
    seen (abs_of w') !! (tok, nonce) = Some exp ∧
    w_kernel w' = w_kernel w ∧
    ∃ p d, w_fs w' = logged p d (w_fs w) ∧ dict_get (u "action") d = Some (JStr (u "grant.install")).
Proof.
  intros [Hcfg Hroot Hbase Hinv _ Hclean] Hts Hs Hc Hexp Hsome.
  assert (Forall (λ t, str_ok t = true) targets) as Hok by (eapply Forall_impl; [exact Hts|]; by intros t [? _]).
  destruct (install_effect _ _ _ _ _ _ _ _ _ Hinv Hok Hs) as (at_ & Hw1 & (Hfs & Hk & Heu) & Htick & Habs).
  set (w2 := set_fs (logged (log_path Egress.stream (clock (w_tick w1)))
    (stamped (clock (S (w_tick w1))) (Egress.install_record g)) (w_fs w1)) (tick (tick w1))).
  assert (w_tick w2 = 6 + w_tick w) as Htick2 by (simpl; lia).
  assert (live (abs_of w2) !! (tok, nonce) = Some {| a_exp := exp; a_proto := normalize_proto proto;
    a_targets := targets; a_ports := ports; a_installed_at := at_ |}) as Hlive.
  { change (abs_of w2) with (abs_of w1). rewrite Habs. apply lookup_insert_eq. }
  assert (apply_ready w2) as Hready.
  { split; [done|by rewrite <-Hroot|by simpl; rewrite <-Hk|done|by rewrite Htick2|].
    intros k a t Ha Ht. change (abs_of w2) with (abs_of w1) in Ha. rewrite Habs in Ha. cbn [live] in Ha.
    apply lookup_insert_Some in Ha as [[<- <-]|[_ Ha]]; [|by eapply Hclean].
    rewrite Forall_forall in Hts. by apply Hts. }
  destruct (apply_refused w2 Hready) as (msg & Hmsg).
  { rewrite Htick2. destruct Hsome as [Hp|(t & Ht & Hn)].
    - right. destruct ports as [|p ports]; [done|].
      exists (bool_decide (normalize_proto proto = u "udp")), (str_of_Z p).
      do 2 eexists. split; [exact Hlive|]. split; [done|]. split; [done|]. exists p. split; [set_solver|done].
    - left. exists (strip_32 t). split; [|done]. do 2 eexists. split; [exact Hlive|]. split; [done|]. eauto. }
  exists (tick (ready w2)), msg, at_. split; [|split; [|split; [|split]]].
  - unfold Egress.install_grant. rewrite run_bind, Hs, run_bind, run_append. cbn [when]. exact Hmsg.
  - change (abs_of (tick (ready w2))) with (abs_of w2). exact Hlive.
  - change (abs_of (tick (ready w2))) with (abs_of w1). rewrite Habs. apply lookup_insert_eq.
  - by simpl.
  - do 2 eexists. split; [by simpl; rewrite Hfs|]. done.
Qed.
End gate.
