(* ===== verification/Authority.v ===== *)
(** * Who allowed what

    The gate's authority, over whole executions: a row of the grants table comes
    from a request the daemon handled and says what the request said; an
    accepted grant stays until it expires; and what [verify] approves in the
    kernel is what the requests, taken together, still allow. *)
From S2P Require Import Prelude PyStr PyJson PyJsonRoundtrip PyJsonStrings Errors PyOps World.
From S2P Require Import Store StoreFacts StoreSpec Nft NftSpec Interface GateSteps EgressFacts.
From S2P Require Import Daemon DaemonFacts GateSafety.
From S2P Require Egress AuditLog.

(** The row a request writes. *)
Definition row_of (a : install_args) (at_ : Z) : GrantRow :=
  new_row (ia_token_id a) (ia_nonce a) (ia_exp a) (ia_targets a) (ia_ports a) (ia_proto a) at_.
Definition requested (raw : pystr) (r : GrantRow) : Prop :=
  ∃ a at_, install_request raw = Some a ∧ r = row_of a at_.

(** ** Steps, seen from the grants table

    Rows leave only once the clock has reached their expiry, and come only as
    [P] allows. *)
Section rows.
Context {K : Type} `{Env K}.

Definition outlives (r : GrantRow) (w w' : World K) : Prop :=
  ∀ n, w_tick w ≤ n < w_tick w' → (clock n < gr_exp r)%Z.
Record rows_moved (P : GrantRow → Prop) (w w' : World K) : Prop := {
  moved_inv : store_inv w';
  moved_tick : w_tick w ≤ w_tick w';
  moved_kept r : r ∈ grant_rows w → outlives r w w' → r ∈ grant_rows w';
  moved_from r : r ∈ grant_rows w' → r ∈ grant_rows w ∨ P r
}.
Definition rows_step (P : GrantRow → Prop) : relation (World K) := λ w w',
  store_inv w → rows_moved P w w'.

#[export] Instance rows_step_preorder P : PreOrder (rows_step P).
Proof.
  split.
  - intros w Hw. split; auto.
  - intros w1 w2 w3 H12 H23 Hw1. destruct (H12 Hw1) as [Hw2 Ht12 Hk12 Hf12].
    destruct (H23 Hw2) as [Hw3 Ht23 Hk23 Hf23]. split; [done|lia| |].
    + intros r Hr Hout. apply Hk23; [apply Hk12; [done|]|]; intros n Hn; apply Hout; lia.
    + intros r [Hr|?]%Hf23; [|by right]. by apply Hf12.
Qed.

(** A step that leaves the rows alone. *)
Lemma rows_step_same P (w w' : World K) :
  (store_inv w → w_tick w ≤ w_tick w' ∧ tables_kept w w') → rows_step P w w'.
Proof.
  intros Hs Hw. destruct (Hs Hw) as (Ht & Hr & Hg). split; [|done| |].
  - unfold store_inv. by rewrite Hr, Hg.
  - intros r Hin _. by rewrite Hg.
  - intros r. rewrite Hg. by left.
Qed.
Lemma rows_step_weaken (P Q : GrantRow → Prop) w w' :
  (∀ r, P r → Q r) → rows_step P w w' → rows_step Q w w'.
Proof.
  intros HPQ Hs Hw. destruct (Hs Hw) as [Hi Ht Hk Hf]. split; [done..|].
  intros r Hr. destruct (Hf r Hr); auto.
Qed.

Ltac same_rows := apply rows_step_same; intros _; split; [simpl; lia|done].

#[export] Instance rows_step_laws P : StepLaws (rows_step P).
Proof.
  split; [typeclasses eauto|intros w; same_rows| | | | |].
  - intros w k. same_rows.
  - intros stream record w. rewrite run_append. split; [|done]. same_rows.
  - intros w. rewrite run_init. split; [|done]. same_rows.
  - intros w. split; [|apply prune_safe]. rewrite run_prune. destruct (bind_int _).
    2: same_rows.
    intros Hw. split; [by apply rows_ok_filter|simpl; lia| |].
    + intros r Hr Hout. apply list_elem_of_filter. split; [|done].
      specialize (Hout (w_tick w)). simpl in Hout. unfold expired. lia.
    + intros r Hr. cbn in Hr. apply list_elem_of_filter in Hr. naive_solver.
  - intros w. split; [|apply compute_safe]. apply rows_step_same. intros Hw.
    rewrite run_compute_active_sets by done. split; [simpl; lia|done].
Qed.

Lemma install_rows a :
  Forall (λ t, str_ok t = true) (ia_targets a) →
  within (rows_step (λ r, ∃ at_, r = row_of a at_)) is_exception
    (Store.install_grant (ia_token_id a) (ia_nonce a) (ia_exp a) (ia_targets a) (ia_ports a) (ia_proto a)).
Proof.
  intros Hts w. split; [|by apply install_safe]. intros Hw.
  rewrite run_install_grant by done. cbv zeta.
  assert (∀ v, w_tick w ≤ w_tick v → tables_kept w v → rows_moved (λ r, ∃ at_, r = row_of a at_) w v) as Hsame.
  { intros v Ht Hk. by apply (rows_step_same _ w v). }
  destruct (ia_exp a <=? _)%Z; [apply Hsame; [simpl; lia|done]|].
  destruct (bind_row _ _ _ _); [|apply Hsame; [simpl; lia|done]].
  case_decide as Hnew; [apply Hsame; [simpl; lia|done]|].
  destruct (bind_int _); [|apply Hsame; [simpl; lia|done]]. split.
  - by apply rows_ok_install.
  - simpl. lia.
  - intros r Hr _. cbn. apply elem_of_app. by left.
  - intros r Hr. cbn in Hr. apply elem_of_app in Hr as [Hr|Hr%list_elem_of_singleton]; [by left|right].
    by eexists.
Qed.
End rows.

(** ** Histories *)

Section history.
Context {K : Type} `{Env K} (cfg : NftConfig).
#[local] Hint Extern 0 (GateOps K) => exact (gate cfg) : typeclass_instances.
Implicit Types w : World K.

(** A relation that the operations other than an install respect. *)
Record QuietOps (R : relation (World K)) : Prop := {
  quiet_tick w : R w (tick w);
  quiet_prune b : within R is_exception (op_prune b);
  quiet_apply : within R is_exception op_apply;
  quiet_verify : within R is_exception op_verify;
  quiet_snapshot : within R is_exception op_snapshot
}.
Lemma call_quiet R `{!PreOrder R} m p :
  QuietOps R → m ≠ u "grant.install" → within R is_exception (call m p).
Proof.
  intros [Ht Hp Ha Hv Hs] Hm. unfold call. case_decide; [|case_decide; [done|case_decide; [done|]]].
  - apply within_bind; [typeclasses eauto|split; [apply Ht|done]|intros]. within.
  - case_decide; [|case_decide; [|case_decide]].
    1-3: apply within_bind; [typeclasses eauto|auto|intros]; within.
    within.
Qed.
(** One request makes an [R]-step when its install does. *)
Lemma handle_request_step R `{!PreOrder R} raw w :
  QuietOps R → text_ok raw →
  (∀ a, install_request raw = Some a → within R is_exception (install a)) →
  R w (handle_request raw w).1.
Proof.
  intros Hq Hraw Hi. unfold handle_request, py_loads. destruct (loads raw) as [[| | | | | |req]|] eqn:Hl; try reflexivity.
  unfold catch. rewrite run_bind. unfold lift. destruct (parse_call req) as [[m p]|e] eqn:Hc.
  2: { by destruct (isinstance e Exception). }
  rewrite run_bind. assert (R w (call m p w).1) as Hstep.
  2: { destruct (call m p w) as [w' [res|e]]; [done|]. simpl in Hstep. by destruct (isinstance e Exception). }
  destruct (decide (m = u "grant.install")) as [->|Hm]; [|by apply call_quiet].
  unfold call. rewrite !decide_False by done. rewrite decide_True, run_bind by done. unfold lift.
  destruct (parse_install p) as [a|e] eqn:Ha; [|done].
  assert (install_request raw = Some a) as Hreqa.
  { unfold install_request. by rewrite Hl, Hc, decide_True, Ha by done. }
  destruct (Hi a Hreqa w) as [Hstep _]. rewrite run_bind. by destruct (install a w) as [w' [[]|e]].
Qed.

(** Requests that install nothing add no row. *)
Lemma quiet_rows P : QuietOps (rows_step (K:=K) P).
Proof.
  split; [apply step_tick|intros b; apply (gate_prune_step (rows_step P))|apply (apply_step (rows_step P))
    |apply (verify_step (rows_step P))|apply (snapshot_step (rows_step P))].
Qed.

Lemma install_call_rows a :
  Forall (λ t, str_ok t = true) (ia_targets a) →
  within (rows_step (λ r, ∃ at_, r = row_of a at_)) is_exception (install a).
Proof. intros Hts. apply gate_install_step; [typeclasses eauto|by apply install_rows]. Qed.

(** What handling one request does to the grants table. *)
Lemma handle_request_rows raw w :
  text_ok raw → rows_step (requested raw) w (handle_request raw w).1.
Proof.
  intros Hraw. apply handle_request_step; [typeclasses eauto|apply quiet_rows|done|].
  intros a Ha. eapply within_mono; [apply install_call_rows; by eapply install_request_targets| |done].
  intros w1 w2. apply rows_step_weaken. intros r [at_ ->]. by exists a, at_.
Qed.

(** The text of a request line. *)
Definition line_text (line : list N) : pystr := strip (utf8_decode_replace line).
Lemma line_text_ok line : text_ok (line_text line).
Proof. apply strip_text, utf8_decode_text. Qed.

(** [history w raws w']: an execution of the daemon from [w] to [w'] that
    handled the lines whose texts are [raws]. *)
Inductive history : World K → list pystr → World K → Prop :=
  | h_nil w : history w [] w
  | h_request line w w1 out raws w' :
      handle_line line w = (w1, Ok out) → history w1 raws w' →
      history w (line_text line :: raws) w'
  | h_time w raws w' : history (tick w) raws w' → history w raws w'
  | h_kernel w k raws w' : history (set_kernel k w) raws w' → history w raws w'.

(** Histories are the executions of the daemon. *)
Lemma history_execution w w' : (∃ raws, history w raws w') ↔ rtc transition w w'.
Proof.
  split.
  - intros [raws Hh]. induction Hh as [w|line w w1 out raws w' Hl _ IH|w raws w' _ IH|w k raws w' _ IH];
      [done|eapply rtc_l; [by eapply t_request|done]|eapply rtc_l; [apply t_time|done]
      |eapply rtc_l; [apply t_kernel|done]].
  - induction 1 as [w|w1 w2 w3 Hstep _ [raws IH]]; [exists []; constructor|].
    destruct Hstep as [line w1 w2 out Hl|w|w k]; [|exists raws; by apply h_time|exists raws; by eapply h_kernel].
    eexists. by eapply h_request.
Qed.

Lemma handle_line_rows line w : rows_step (requested (line_text line)) w (handle_line line w).1.
Proof.
  unfold handle_line. fold (line_text line). pose proof (line_text_ok line) as Hok.
  destruct (line_text line) as [|c raw] eqn:Hline; [done|]. rewrite run_bind.
  pose proof (handle_request_rows (c :: raw) w Hok) as Hr. by destruct (handle_request _ w) as [w' [resp|e]].
Qed.
Lemma history_rows w raws w' :
  history w raws w' → rows_step (λ r, ∃ raw, raw ∈ raws ∧ requested raw r) w w'.
Proof.
  induction 1 as [w|line w w1 out raws w' Hl _ IH|w raws w' _ IH|w k raws w' _ IH]; [done| | |].
  - etrans; [|eapply rows_step_weaken; [|exact IH]; intros r (raw & ? & ?); exists raw; by rewrite elem_of_cons; eauto].
    pose proof (handle_line_rows line w) as Hr. rewrite Hl in Hr.
    eapply rows_step_weaken; [|exact Hr]. intros r ?. exists (line_text line). split; [left|done].
  - etrans; [|exact IH]. apply step_tick.
  - etrans; [|exact IH]. apply step_kernel.
Qed.
Lemma history_texts w raws w' : history w raws w' → Forall text_ok raws.
Proof. induction 1; auto. constructor; [apply line_text_ok|done]. Qed.

(** ** What the requests allow *)

(** The install requests among [raws]. *)
Definition asked (raws : list pystr) (a : install_args) : Prop :=
  ∃ raw, raw ∈ raws ∧ install_request raw = Some a.
(** What the requests [Q] allow at [c]: an address, a port of one protocol. *)
Definition addr_allowed (Q : install_args → Prop) (c : Z) (x : pystr) : Prop :=
  ∃ a, Q a ∧ (c < ia_exp a)%Z ∧ ∃ t, t ∈ ia_targets a ∧ x = strip_32 t.
Definition port_allowed (Q : install_args → Prop) (c : Z) (udp : bool) (x : pystr) : Prop :=
  ∃ a, Q a ∧ (c < ia_exp a)%Z ∧ bool_decide (normalize_proto (ia_proto a) = u "udp") = udp ∧
    ∃ p, p ∈ ia_ports a ∧ x = str_of_Z p.

Lemma abs_row_of a at_ :
  Forall (λ t, str_ok t = true) (ia_targets a) →
  abs_row (row_of a at_) =
    {| a_exp := ia_exp a; a_proto := normalize_proto (ia_proto a); a_targets := ia_targets a;
       a_ports := ia_ports a; a_installed_at := at_ |}.
Proof.
  intros Hts. unfold abs_row, row_of, new_row. cbn. f_equal;
    [by apply targets_of_row_dumps|by apply ports_of_row_dumps].
Qed.

(** In a store that began empty, the live grants are requests. *)
Lemma history_live w0 raws w k g :
  store_inv w0 → grant_rows w0 = [] → history w0 raws w → live (abs_of w) !! k = Some g →
  ∃ a, asked raws a ∧ a_exp g = ia_exp a ∧ a_proto g = normalize_proto (ia_proto a) ∧
    a_targets g = ia_targets a ∧ a_ports g = ia_ports a.
Proof.
  intros Hw0 Hempty Hh Hk. destruct (history_rows _ _ _ Hh Hw0) as [Hw _ _ Hfrom].
  cbn [abs_of abs_rows live] in Hk. apply keyed_Some in Hk as (r & Hr & [= <- <-]);
    [|by apply (grant_keys _ _ Hw)].
  destruct (Hfrom r Hr) as [Hin|(raw & Hraw & a & at_ & Ha & ->)]; [rewrite Hempty in Hin; set_solver|].
  exists a. split; [by exists raw|]. pose proof (history_texts _ _ _ Hh) as Hts.
  rewrite Forall_forall in Hts. rewrite abs_row_of by (eapply install_request_targets; eauto). done.
Qed.
Lemma history_granted w0 raws w c :
  store_inv w0 → grant_rows w0 = [] → history w0 raws w →
  (∀ x, granted_addr (abs_of w) c x → addr_allowed (asked raws) c x) ∧
  (∀ udp x, granted_port (abs_of w) c udp x → port_allowed (asked raws) c udp x).
Proof.
  intros Hw0 Hempty Hh. split.
  - intros x (k & g & Hk & Hc & t & Ht & ->).
    destruct (history_live _ _ _ _ _ Hw0 Hempty Hh Hk) as (a & Ha & He & _ & Hts & _).
    exists a. split; [done|]. rewrite <-He. split; [done|]. exists t. by rewrite <-Hts.
  - intros udp x (k & g & Hk & Hc & Hp & p & Hin & ->).
    destruct (history_live _ _ _ _ _ Hw0 Hempty Hh Hk) as (a & Ha & He & Hpr & _ & Hps).
    exists a. split; [done|]. rewrite <-He, <-Hpr. split; [done|]. split; [done|]. exists p. by rewrite <-Hps.
Qed.

(** An accepted request has written its row, and the row outlives the rest of
    the call. *)
Lemma store_install_row a w w0 g :
  store_inv w →
  Store.install_grant (ia_token_id a) (ia_nonce a) (ia_exp a) (ia_targets a) (ia_ports a) (ia_proto a) w
    = (w0, Ok g) →
  ∃ at_, row_of a at_ ∈ grant_rows w0.
Proof.
  intros Hw. rewrite run_install_grant by done. cbv zeta. repeat case_match; intros; simplify_eq.
  exists (clock (2 + w_tick w)). apply elem_of_app. right. by apply list_elem_of_singleton.
Qed.
Lemma after_install_rows P g b : within (rows_step P) is_exception
  (_ ← AuditLog.append Egress.stream (Egress.install_record g); when b (Egress.apply cfg)).
Proof.
  apply within_bind; [typeclasses eauto|apply step_append|intros _].
  apply within_when; [typeclasses eauto|intros _; apply (apply_step (rows_step P))].
Qed.
Lemma accepted_row raw a w w1 resp :
  store_inv w → text_ok raw → install_request raw = Some a →
  handle_request raw w = (w1, Ok resp) → accepted resp →
  (∀ n, w_tick w ≤ n < w_tick w1 → (clock n < ia_exp a)%Z) →
  store_inv w1 ∧ w_tick w ≤ w_tick w1 ∧ ∃ at_, row_of a at_ ∈ grant_rows w1.
Proof.
  intros Hw Hraw Ha Hr Hok Hlive. destruct (install a w) as [w1' r] eqn:Hrun.
  rewrite (run_install_request cfg _ _ _ _ _ Hraw Ha Hrun) in Hr. injection Hr as <- <-.
  apply accepted_install in Hok as ->. pose proof (install_request_targets _ _ Hraw Ha) as Hts.
  destruct (install_call_rows a Hts w) as [Hmoved _]. rewrite Hrun in Hmoved.
  destruct (Hmoved Hw) as [Hw1 Htick _ _]. split; [done|]. split; [done|].
  revert Hrun. unfold install, op_install_grant. cbn [gate egress_ops]. unfold Egress.install_grant.
  rewrite run_bind. destruct (install_rows a Hts w) as [Hm0 _].
  destruct (Store.install_grant _ _ _ _ _ _ w) as [w0 [g|e]] eqn:Hs; [|done].
  intros Hrest. destruct (Hm0 Hw) as [Hw0 Ht0 _ _].
  destruct (store_install_row _ _ _ _ Hw Hs) as [at_ Hrow]. exists at_.
  destruct (after_install_rows (λ _, False) g (ia_apply a) w0) as [Hm1 _]. rewrite Hrest in Hm1.
  destruct (Hm1 Hw0) as [_ _ Hkept _]. apply Hkept; [done|]. intros n Hn. apply Hlive. simpl in *. lia.
Qed.

(** C9: an accepted grant lasts: from the reply on, through anything the daemon
    handles and other processes do to the kernel, for as long as the clock has
    not reached its expiry, every target and port of the request is in the
    active sets. *)
Theorem accepted_grants_last raw a w w1 resp raws w2 w3 A T U :
  store_inv w → text_ok raw → install_request raw = Some a →
  handle_request raw w = (w1, Ok resp) → accepted resp → history w1 raws w2 →
  (∀ n, w_tick w ≤ n ≤ w_tick w2 → (clock n < ia_exp a)%Z) →
  compute_active_sets w2 = (w3, Ok (A, T, U)) →
  (∀ t, t ∈ ia_targets a → strip_32 t ∈ A) ∧
  (∀ p, p ∈ ia_ports a →
     str_of_Z p ∈ (if decide (normalize_proto (ia_proto a) = u "udp") then U else T)).
Proof.
  intros Hw Hraw Ha Hr Hok Hh Hlive Hc.
  pose proof (history_rows _ _ _ Hh) as Hmoved.
  assert (w_tick w ≤ w_tick w1 ∧ w_tick w1 ≤ w_tick w2 ∧ store_inv w2 ∧ ∃ at_, row_of a at_ ∈ grant_rows w2)
    as (Ht1 & Ht2 & Hw2 & at_ & Hrow).
  { assert (w_tick w1 ≤ w_tick w2) as Ht2.
    { destruct (handle_request_rows raw w Hraw Hw) as [Hw1 _ _ _]. rewrite Hr in Hw1. by apply Hmoved. }
    destruct (accepted_row _ _ _ _ _ Hw Hraw Ha Hr Hok) as (Hw1 & Ht1 & at_ & Hrow);
      [intros n Hn; apply Hlive; lia|].
    destruct (Hmoved Hw1) as [Hw2 _ Hkept _]. split_and!; [done..|]. exists at_.
    apply Hkept; [done|]. intros n Hn. apply Hlive. lia. }
  rewrite run_compute_active_sets in Hc by done. destruct (bind_int _) as [[]|]; [|done]. simpl in Hc.
  pose proof (rows_sets_granted w2 (clock (w_tick w2)) Hw2) as Hg.
  destruct (rows_sets _) as [[A' T'] U']. destruct Hg as (HA & HT & HU). injection Hc as _ -> -> ->.
  pose proof (abs_row_of a at_ (install_request_targets _ _ Hraw Ha)) as Habs.
  assert (clock (w_tick w2) < ia_exp a)%Z as Hexp by (apply Hlive; lia).
  split.
  - intros t Ht. apply HA, live_rows; [done|]. exists (row_of a at_). rewrite Habs. by eauto.
  - intros p Hp. case_decide as Hudp; [apply HU|apply HT]; apply live_rows; [done| |done|];
      exists (row_of a at_); rewrite Habs; cbn; (split_and!; [done|done| |by eauto]).
    + by apply bool_decide_eq_true.
    + by apply bool_decide_eq_false.
Qed.
End history.

(** ** The kernel that [verify] approves *)

Section verified.
Context {K : Type} `{E : Env K} {laws : NftLaws K} (cfg : NftConfig).

(** no authority without a request: when the daemon started on an empty
    store and [verify] answers ok, each address the kernel's allow set lists, and
    each port its port sets list, was asked for by an install request among the
    lines handled so far, which has not expired; whatever else happened. *)
Theorem verified_authority w0 raws (w w' : World K) :
  store_inv w0 → grant_rows w0 = [] → history cfg w0 raws w →
  baseline_present cfg (w_kernel w) →
  port_elems (elems_of cfg (set_tcp_ports cfg) (w_kernel w)) →
  port_elems (elems_of cfg (set_udp_ports cfg) (w_kernel w)) →
  Egress.verify cfg w = (w', Ok tt) →
  let c := clock (w_tick w) in
  (∀ x, x ∈ listing (elems_of cfg (set_allow_v4 cfg) (w_kernel w)) → addr_allowed (asked raws) c (strip_32 x)) ∧
  (∀ x, x ∈ ports_listed (elems_of cfg (set_tcp_ports cfg) (w_kernel w)) → port_allowed (asked raws) c false x) ∧
  (∀ x, x ∈ ports_listed (elems_of cfg (set_udp_ports cfg) (w_kernel w)) → port_allowed (asked raws) c true x).
Proof.
  intros Hw0 Hempty Hh Hbase Htcp Hudp Hv c.
  destruct (history_rows _ _ _ _ Hh Hw0) as [Hw _ _ _].
  destruct (history_granted cfg _ _ _ c Hw0 Hempty Hh) as [Haddr Hport].
  unfold Egress.verify in Hv. rewrite run_bind, run_require_baseline, (proj2 (first_missing_ok _ _) Hbase) in Hv.
  rewrite run_bind, run_compute_active_sets in Hv by done. destruct (bind_int _) as [[]|]; [|done]. cbn [mbind res_bind] in Hv.
  fold c in Hv. pose proof (rows_sets_granted w c Hw) as Hg.
  destruct (rows_sets _) as [[A T] U]. destruct Hg as (HA & HT & HU).
  rewrite run_bind, run_verify_sets in Hv by done.
  destruct (compare_sets _ _ _ _ _ _) as [[]|] eqn:Hcmp in Hv; [|done].
  apply compare_sets_spec in Hcmp as (-> & -> & ->). cbn [w_kernel tick ready set_db] in *.
  split_and!; intros x Hx.
  - apply Haddr, HA. by apply elem_of_map_2.
  - by apply Hport, HT.
  - by apply Hport, HU.
Qed.
End verified.
