(* ===== verification/Enforcement.v ===== *)
(** * What leaves the host

    The gate, the kernel's sets and the baseline's filter together: which packets
    a host accepts once [verify] has answered ok, what [verify] does not see, and
    what the gate's own requests can ever open. *)
From S2P Require Import Prelude PyStr PyJson PyJsonRoundtrip PyJsonStrings Errors PyOps World.
From S2P Require Import Store StoreFacts StoreSpec Nft NftSpec Baseline NftKernel.
From S2P Require Import Interface GateSteps EgressFacts Daemon DaemonFacts GateSafety GateSpec.
From S2P Require Import Authority.
From S2P Require Egress AuditLog.

(** Targets that stay inside the element list they are written in. *)
Definition plain_targets (s : AbsStore) : Prop :=
  ∀ k g t, live s !! k = Some g → t ∈ a_targets g → plain t.
Definition plain_request (a : install_args) : Prop := Forall plain (ia_targets a).

Section enforcement.
Context {K : Type} `{NftKernel K}.
Implicit Types (w : World K) (k : K) (p : Packet).

(** The baseline's chain over the sets of the kernel. *)
Definition contents (k : K) (n : pystr) : list element := kernel_set (table_of_baseline ++ [n]) k.
Definition egress_verdict (k : K) (p : Packet) : verdict_t := verdict (contents k) output p.
Definition port_contents (k : K) (udp : bool) : list element := contents k (port_set udp).

(** The kernel runs the baseline. *)
Record running (k : K) : Prop := {
  run_frontier : frontier_ok default_cfg k;
  run_lan : contents k (u "lan_v4") = lan_v4
}.
(** No range of ports. *)
Definition single_ports (k : K) : Prop := ∀ udp e, e ∈ port_contents k udp → scalar e = true.

Lemma egress_accepts k p :
  running k → (egress_verdict k p = Accept ↔ local_packet p ∨ frontier_packet (contents k) p).
Proof. intros Hk. apply baseline_accepts, Hk. Qed.

(** ** Texts and addresses *)

Lemma strip_32_id s : 47%N ∉ s → strip_32 s = s.
Proof. intros Hs. by apply (replace_absent 47%N). Qed.
Lemma strip_32_dotted a : strip_32 (dotted a) = dotted a.
Proof.
  apply strip_32_id. intros Hin. pose proof (dotted_chars a) as Hc. rewrite Forall_forall in Hc.
  apply Hc in Hin. unfold dotted_char, is_ascii_digit in Hin. lia.
Qed.
Lemma strip_32_decimal n : strip_32 (str_of_Z n) = str_of_Z n.
Proof.
  apply strip_32_id. intros Hin. pose proof (str_of_Z_digits n) as Hc. rewrite Forall_forall in Hc.
  apply Hc in Hin. unfold is_ascii_digit in Hin. lia.
Qed.
(** A network or a range never reads as a plain text. *)
Lemma braces_not_plain e x : scalar e = false → plain x → strip_32 (elem_text e) ≠ x.
Proof.
  intros He Hx Heq. destruct (elem_text_braces e He) as [mid Hm].
  assert (123%N ∈ x) as Hin by (rewrite <-Heq, Hm; left).
  unfold plain in Hx. rewrite Forall_forall in Hx. specialize (Hx _ Hin). by vm_compute in Hx.
Qed.
Lemma dotted_plain a : plain (dotted a).
Proof.
  eapply Forall_impl; [apply dotted_chars|]. unfold dotted_char, is_ascii_digit, plain_char.
  intros c Hc. apply negb_true_iff, bool_decide_eq_false. rewrite !elem_of_cons, elem_of_nil. lia.
Qed.

(** An address the set holds is one it lists, when its texts are plain. *)
Lemma addr_listed es a :
  (∀ x, x ∈ addrs_of es → plain x) →
  (∃ e, e ∈ es ∧ addr_in a e = true) ↔ dotted a ∈ addrs_of es.
Proof.
  intros Hplain. unfold addrs_of in *. setoid_rewrite elem_of_list_to_set in Hplain.
  setoid_rewrite list_elem_of_fmap in Hplain. rewrite elem_of_list_to_set, list_elem_of_fmap. split.
  - intros (e & He & Hin). exists e. split; [|done]. destruct (scalar e) eqn:Hs.
    + destruct e; try done. cbn in Hin. apply Z.eqb_eq in Hin as ->. symmetry. apply strip_32_dotted.
    + exfalso. by eapply (braces_not_plain e); [|apply Hplain; eauto|].
  - intros (e & Hd & He). exists e. split; [done|]. destruct (scalar e) eqn:Hs.
    + destruct e as [b| | |n|]; try done; unfold elem_text in Hd; cbn [elem_json py_str py_repr] in Hd.
      * rewrite strip_32_dotted in Hd. apply dotted_inj in Hd as ->. cbn. apply Z.eqb_refl.
      * rewrite strip_32_decimal in Hd. by apply dotted_not_decimal in Hd.
    + exfalso. by eapply braces_not_plain; [|apply dotted_plain|].
Qed.
Lemma port_listed es d :
  (∀ e, e ∈ es → scalar e = true) → (∃ e, e ∈ es ∧ port_in d e = true) ↔ str_of_Z d ∈ ports_of es.
Proof.
  intros Hs. rewrite elem_of_ports_of. split.
  - intros (e & He & Hin). specialize (Hs e He). destruct e; try done. cbn in Hin. apply Z.eqb_eq in Hin as ->. eauto.
  - intros (q & Hq & ->%str_of_Z_inj). exists (Port q). split; [done|]. cbn. apply Z.eqb_refl.
Qed.

(** ** What [verify] approves *)

Lemma run_verify w :
  store_inv w → frontier_ok default_cfg (w_kernel w) →
  let '(A, T, U) := rows_sets (filter (active (clock (w_tick w))) (grant_rows w)) in
  (Egress.verify default_cfg w).2 =
    _ ← bind_int (clock (w_tick w));
    compare_sets A T U (addrs_of (contents (w_kernel w) (u "frontier_allow_v4")))
      (ports_of (port_contents (w_kernel w) false)) (ports_of (port_contents (w_kernel w) true)).
Proof.
  intros Hw Hk. unfold Egress.verify.
  rewrite run_bind, run_require_baseline, (proj2 (first_missing_ok _ _) (fo_present _ _ Hk)).
  rewrite run_bind, run_compute_active_sets by done.
  destruct (rows_sets _) as [[A T] U]. destruct (bind_int _) as [[]|]; [|done].
  change (Ok () ≫= ?f) with (f ()). cbv beta iota. rewrite run_bind, run_verify_kernel by done.
  cbn [w_kernel tick ready set_db]. unfold port_contents, contents.
  by destruct (compare_sets _ _ _ _ _ _) as [[]|].
Qed.
Lemma verify_agrees w w' :
  store_inv w → frontier_ok default_cfg (w_kernel w) → Egress.verify default_cfg w = (w', Ok tt) →
  (∀ x, x ∈ addrs_of (contents (w_kernel w) (u "frontier_allow_v4"))
        ↔ granted_addr (abs_of w) (clock (w_tick w)) x) ∧
  (∀ udp x, x ∈ ports_of (port_contents (w_kernel w) udp) ↔ granted_port (abs_of w) (clock (w_tick w)) udp x).
Proof.
  intros Hw Hk Hv. pose proof (run_verify w Hw Hk) as Hr. rewrite Hv in Hr.
  pose proof (rows_sets_granted w (clock (w_tick w)) Hw) as Hg.
  destruct (rows_sets _) as [[A T] U]. destruct Hg as (HA & HT & HU).
  destruct (bind_int _); [|done]. symmetry in Hr. apply compare_sets_spec in Hr as (-> & -> & ->).
  split; [done|]. by intros [].
Qed.

(** A packet to the frontier that a live grant names the address of, and a live
    grant, maybe another, the port of. *)
Definition granted_packet (s : AbsStore) (c : Z) (p : Packet) : Prop :=
  ∃ a udp d, goes_to p a udp d ∧ granted_addr s c (dotted a) ∧ granted_port s c udp (str_of_Z d).

(** C14: what [verify] means for packets: when it answers ok on a host that runs
    the baseline, with a sound store, no range of ports in the kernel's port sets
    and plain targets in the live grants (no braces, quotes, number signs or line
    ends), the host accepts exactly the local packets and those whose address
    some live grant names and whose port some live grant of their protocol names.  They need not be the same grant, so the host is open to
    every pair of a granted address and a granted port. *)
Theorem verified_egress_exact w w' p :
  store_inv w → plain_targets (abs_of w) → running (w_kernel w) → single_ports (w_kernel w) →
  Egress.verify default_cfg w = (w', Ok tt) →
  (egress_verdict (w_kernel w) p = Accept ↔
   local_packet p ∨ granted_packet (abs_of w) (clock (w_tick w)) p).
Proof.
  intros Hw Hplain Hrun Hsingle Hv. rewrite egress_accepts by done.
  destruct (verify_agrees _ _ Hw (run_frontier _ Hrun) Hv) as [HA HP].
  assert (∀ x, x ∈ addrs_of (contents (w_kernel w) (u "frontier_allow_v4")) → plain x) as Hp.
  { intros x (g & r & Hg & _ & t & Ht & ->)%HA. by apply replace_Forall, (Hplain g r). }
  unfold frontier_packet, granted_packet. setoid_rewrite <-HA. setoid_rewrite <-HP.
  setoid_rewrite (addr_listed _ _ Hp). by setoid_rewrite (port_listed _ _ (Hsingle _)).
Qed.

Lemma history_plain w0 raws w :
  store_inv w0 → grant_rows w0 = [] → history default_cfg w0 raws w →
  (∀ a, asked raws a → plain_request a) → plain_targets (abs_of w).
Proof.
  intros Hw0 Hempty Hh Hplain k g t Hk Ht.
  destruct (history_live default_cfg _ _ _ _ _ Hw0 Hempty Hh Hk) as (a & Ha & _ & _ & Hts & _).
  rewrite Hts in Ht. specialize (Hplain a Ha). unfold plain_request in Hplain.
  rewrite Forall_forall in Hplain. by apply Hplain.
Qed.

(** C3: no packet without a request.  The daemon has run from a sound store with
    no grants, on requests whose targets are plain (no braces, quotes, number
    signs or line ends); the host runs the baseline, and no port set of the
    kernel holds a range, which [verify] would not see (verify_misses_ranges).
    Then, when [verify] answers ok, a packet that leaves for the frontier goes to
    an address and a port that requests handled so far have asked for, and that
    have not expired. *)
Theorem verified_egress w0 raws w w' p :
  store_inv w0 → grant_rows w0 = [] → history default_cfg w0 raws w →
  (∀ a, asked raws a → plain_request a) →
  running (w_kernel w) → single_ports (w_kernel w) →
  Egress.verify default_cfg w = (w', Ok tt) →
  egress_verdict (w_kernel w) p = Accept →
  local_packet p ∨
  ∃ a udp d, goes_to p a udp d ∧
    addr_allowed (asked raws) (clock (w_tick w)) (dotted a) ∧
    port_allowed (asked raws) (clock (w_tick w)) udp (str_of_Z d).
Proof.
  intros Hw0 Hempty Hh Hplain Hrun Hsingle Hv Hp.
  destruct (history_rows _ _ _ _ Hh Hw0) as [Hw _ _ _].
  pose proof (history_plain _ _ _ Hw0 Hempty Hh Hplain) as Hpl.
  destruct (history_granted _ _ _ _ (clock (w_tick w)) Hw0 Hempty Hh) as [Haddr Hport].
  destruct (verify_agrees _ _ Hw (run_frontier _ Hrun) Hv) as [HA HP].
  apply egress_accepts in Hp as [?|(a & udp & d & Hto & Ha & Hd)]; [by left| |done]. right.
  exists a, udp, d. split; [done|]. split.
  - apply Haddr, HA, addr_listed; [|done]. intros x (g & r & Hg & _ & t & Ht & ->)%HA.
    by apply replace_Forall, (Hpl g r).
  - apply Hport, HP, port_listed; [apply Hsingle|done].
Qed.

(** ** What [verify] does not see *)

(** [k'] is [k] with a range of ports added to one of its port sets. *)
Record opened (k : K) (udp : bool) (lo hi : Z) (k' : K) : Prop := {
  op_running : running k';
  op_addrs : contents k' (u "frontier_allow_v4") = contents k (u "frontier_allow_v4");
  op_ports : port_contents k' udp = PortRange lo hi :: port_contents k udp;
  op_others : port_contents k' (negb udp) = port_contents k (negb udp)
}.

(** C20: [verify] is blind to ranges: take a host it approves, and add any range
    of ports to a port set of the kernel: [verify] still answers ok, and the
    host now accepts packets to every port of the range at every granted
    address, whatever the grants say of ports. *)
Theorem verify_misses_ranges w w' k' udp lo hi p a d :
  store_inv w → plain_targets (abs_of w) → running (w_kernel w) →
  Egress.verify default_cfg w = (w', Ok tt) →
  opened (w_kernel w) udp lo hi k' →
  (Egress.verify default_cfg (set_kernel k' w)).2 = Ok tt ∧
  (goes_to p a udp d → granted_addr (abs_of w) (clock (w_tick w)) (dotted a) → (lo <= d <= hi)%Z →
   egress_verdict k' p = Accept).
Proof.
  intros Hw Hplain Hrun Hv [Hrun' Haddrs Hports Hothers]. split.
  - pose proof (run_verify w Hw (run_frontier _ Hrun)) as Hr. rewrite Hv in Hr.
    pose proof (run_verify (set_kernel k' w) Hw (run_frontier _ Hrun')) as Hr'.
    cbn [w_kernel set_kernel w_tick grant_rows w_db] in Hr'.
    change (grant_rows (set_kernel k' w)) with (grant_rows w) in Hr'.
    destruct (rows_sets _) as [[A T] U]. rewrite Hr', Haddrs. cbn [snd] in Hr. rewrite Hr.
    assert (∀ b, ports_of (port_contents k' b) = ports_of (port_contents (w_kernel w) b)) as Hb.
    { intros b. destruct (decide (b = udp)) as [->|Hne]; [by rewrite Hports|].
      assert (b = negb udp) as -> by (by destruct b, udp). by rewrite Hothers. }
    by rewrite !Hb.
  - intros Hto Ha Hd. apply egress_accepts; [done|]. right. exists a, udp, d. split; [done|].
    destruct (verify_agrees _ _ Hw (run_frontier _ Hrun) Hv) as [HA _]. split.
    + rewrite Haddrs. apply addr_listed; [|by apply HA]. intros x (g & r & Hg & _ & t & Ht & ->)%HA.
      by apply replace_Forall, (Hplain g r).
    + exists (PortRange lo hi). unfold port_contents in Hports. rewrite Hports. split; [left|].
      cbn. unfold between. lia.
Qed.
End enforcement.

(** ** What the gate can open

    On a host that runs the baseline, requests alone never open the frontier:
    through any history of the daemon in which nothing else changes the kernel,
    as long as no target holds a brace, the frontier sets stay empty. *)

Section closed.
Context {K : Type} `{NftKernel K}.
Implicit Types (w : World K) (k : K).

(** The baseline's own sets, with nothing in the frontier. *)
Record shut_kernel (k : K) : Prop := {
  shut_frontier n : n ∈ frontier_sets default_cfg → contents k n = [];
  shut_lan : contents k (u "lan_v4") = lan_v4
}.
Lemma shut_same_listing k k' :
  (∀ n, n ∈ frontier_sets default_cfg → nft_elems (table_of_baseline ++ [n]) k' = []) →
  nft_elems (table_of_baseline ++ [u "lan_v4"]) k' = nft_elems (table_of_baseline ++ [u "lan_v4"]) k →
  shut_kernel k → shut_kernel k'.
Proof.
  intros Hempty Hlan [_ Hk]. split.
  - intros n Hn. specialize (Hempty n Hn). rewrite law_elements in Hempty. by apply map_eq_nil in Hempty.
  - rewrite !law_elements in Hlan. apply (inj (map elem_json)) in Hlan. unfold contents in *. by rewrite Hlan.
Qed.

Lemma lan_not_frontier n :
  n ∈ frontier_sets default_cfg →
  table_of_baseline ++ [u "lan_v4"] ≠ [table_family default_cfg; table_name default_cfg; n].
Proof.
  assert (u "lan_v4" ∉ frontier_sets default_cfg) as Hlan by compute_it.
  intros Hn Heq. apply Hlan. change (table_of_baseline ++ [u "lan_v4"]) with
    ([table_family default_cfg; table_name default_cfg; u "lan_v4"]) in Heq. by injection Heq as ->.
Qed.
(** [apply_sets] only changes the kernel, and leaves it shut. *)
Lemma apply_sets_shut A T U w :
  (∀ x, x ∈ A → plain x) → decimal T → decimal U →
  ∃ k r, apply_sets A T U default_cfg w = (set_kernel k w, r) ∧ (shut_kernel (w_kernel w) → shut_kernel k).
Proof.
  intros HA HT HU.
  assert (∀ r, (w, r) = (set_kernel (w_kernel w) w, r : pyres unit)) as Hsame by (intros r; by rewrite set_kernel_id).
  destruct (decide (w_euid w = 0%Z)) as [Hroot|Hroot].
  2: { unfold apply_sets. rewrite run_bind. unfold gets. apply Z.eqb_neq in Hroot. rewrite Hroot.
       cbn [negb]. do 2 eexists. split; [apply Hsame|done]. }
  destruct (first_missing (w_kernel w) (baseline_objects default_cfg)) as [[]|e] eqn:Hbase.
  2: { unfold apply_sets. rewrite run_bind. unfold gets. rewrite Hroot. cbn [Z.eqb negb].
       rewrite run_bind, run_require_baseline, Hbase. do 2 eexists. split; [apply Hsame|done]. }
  apply first_missing_ok in Hbase. rewrite run_apply_sets by done. set (script := apply_script _ _ _ _).
  destruct (check_utf8 script) as [[]|e] eqn:Hutf.
  2: { unfold _run_script. rewrite run_bind. unfold subprocess_run. rewrite Hutf.
       destruct (spawn _ [] _) as [k' [c|msg]]; do 2 eexists; (split; [apply Hsame|done]). }
  destruct (decide (norm_addrs A = ∅ ∧ T = ∅ ∧ U = ∅)) as [(HeA & -> & ->)|Hne].
  - subst script. rewrite HeA. change (sorted_set ∅) with (@nil pystr).
    destruct (flush_all default_cfg w default_cfg_plain Hbase) as (k & Hr & Hempty & Hkept & _).
    exists k, (Ok tt). split; [exact Hr|]. apply shut_same_listing; [exact Hempty|].
    apply Hkept, lan_not_frontier.
  - pose proof (run_script_eval script w Hutf) as Hrun. unfold script in Hrun at 1.
    rewrite apply_script_none in Hrun; [|apply default_cfg_plain| | | |by rewrite !sorted_set_nil].
    + destruct Hrun as [msg Hrun]. do 2 eexists. split; [rewrite Hrun; apply Hsame|done].
    + apply Forall_forall. intros x. rewrite elem_of_sorted_set. unfold norm_addrs.
      intros (y & -> & [_ Hy]%elem_of_filter)%elem_of_map. by apply replace_Forall, HA.
    + by apply decimal_sent, Forall_and in HT as [? _].
    + by apply decimal_sent, Forall_and in HU as [? _].
Qed.

Lemma shut_accepts k p : shut_kernel k → (egress_verdict k p = Accept ↔ local_packet p).
Proof.
  intros [Hempty Hlan]. unfold egress_verdict. rewrite baseline_accepts by done. split; [|by left].
  intros [?|(a & udp & d & _ & (e & He & _) & _)]; [done|]. exfalso.
  rewrite Hempty in He by (unfold frontier_sets; left). by apply not_elem_of_nil in He.
Qed.

(** C13: [apply] closes the host: once no live grant allows anything, because all
    have expired or none was made, [apply] succeeds, and the host then accepts
    exactly the local packets, whatever its frontier sets held before.  For an
    [apply] run as root, with the baseline loaded, a sound store with clean
    targets, and the local networks of the baseline still those in [lan_v4], a
    set [apply] does not touch. *)
Theorem apply_closes w p :
  apply_ready default_cfg w → contents (w_kernel w) (u "lan_v4") = lan_v4 →
  ¬ allows_something (abs_of w) (clock (w_tick w)) →
  ∃ w', Egress.apply default_cfg w = (w', Ok tt) ∧ (egress_verdict (w_kernel w') p = Accept ↔ local_packet p).
Proof.
  intros Hw Hlan Hnone. destruct (run_apply default_cfg w Hw) as (A & T & U & _ & _ & _ & Hempty & Hrun).
  destruct (proj2 Hempty Hnone) as (HA & -> & ->). rewrite HA in Hrun.
  destruct (flush_all default_cfg (tick (ready w)) default_cfg_plain (ready_base _ _ Hw)) as (k & Hk & Hflushed & Hkept & _).
  change (sorted_set ∅) with (@nil pystr) in Hrun. rewrite run_bind, Hk, run_append in Hrun.
  eexists. split; [exact Hrun|]. cbn [w_kernel set_fs tick set_kernel]. apply shut_accepts. split.
  - intros n Hn. specialize (Hflushed n Hn). rewrite law_elements in Hflushed. by apply map_eq_nil in Hflushed.
  - rewrite <-Hlan. unfold contents. apply (inj (map elem_json)). rewrite <-!law_elements.
    apply (Hkept (table_of_baseline ++ [u "lan_v4"])), lan_not_frontier.
Qed.

(** ** Steps that keep the host shut *)

Definition plain_rows (rs : list GrantRow) : Prop := Forall (λ r, Forall plain (targets_of_row r)) rs.
Record shut w : Prop := {
  shut_store : store_inv w;
  shut_rows : plain_rows (grant_rows w);
  shut_sets : shut_kernel (w_kernel w)
}.
Definition keeps_shut w w' : Prop := shut w → shut w'.
#[export] Instance keeps_shut_preorder : PreOrder keeps_shut.
Proof. split; [intros w Hw; exact Hw|]. intros w1 w2 w3 H12 H23 H1. by apply H23, H12. Qed.

Lemma keeps_shut_same w w' : tables_kept w w' → w_kernel w' = w_kernel w → keeps_shut w w'.
Proof. intros [Hr Hg] Hk [Hs Hp Hsh]. split; [|by rewrite Hg|by rewrite Hk]. unfold store_inv. rewrite Hr, Hg. exact Hs. Qed.
(** The exceptions are known; what is left is the step. *)
Lemma keeps_shut_within {A} (m : W K A) :
  within gate_step is_exception m → (∀ w, shut w → shut (m w).1) → within keeps_shut is_exception m.
Proof. intros Hm Hs w. split; [exact (Hs w)|]. apply Hm. Qed.

Lemma shut_append stream record : within keeps_shut is_exception (AuditLog.append stream record).
Proof.
  apply keeps_shut_within; [apply append_safe|]. intros w. rewrite run_append. by apply keeps_shut_same.
Qed.
Lemma shut_prune_expired : within keeps_shut is_exception prune_expired.
Proof.
  apply keeps_shut_within; [apply prune_safe|]. intros w Hw. rewrite run_prune.
  destruct (bind_int _); [|by apply (keeps_shut_same w)]. destruct Hw as [Hs Hp Hk].
  split; [by apply rows_ok_filter| |done].
  apply Forall_forall. intros r [_ Hr]%list_elem_of_filter. unfold plain_rows in Hp. rewrite Forall_forall in Hp. by apply Hp.
Qed.
Lemma shut_compute : within keeps_shut is_exception compute_active_sets.
Proof.
  apply keeps_shut_within; [apply compute_safe|]. intros w Hw.
  rewrite run_compute_active_sets by apply Hw. by apply (keeps_shut_same w).
Qed.
Lemma shut_baseline : within keeps_shut is_exception (require_baseline default_cfg).
Proof.
  apply keeps_shut_within; [apply (require_baseline_step gate_step)|]. intros w. by rewrite run_require_baseline.
Qed.
Lemma verify_sets_same A T U w : (verify_sets A T U default_cfg w).1 = w.
Proof.
  destruct (first_missing (w_kernel w) (baseline_objects default_cfg)) as [[]|e] eqn:Hb.
  - apply first_missing_ok in Hb. by rewrite run_verify_listed.
  - unfold verify_sets. by rewrite run_bind, run_require_baseline, Hb.
Qed.
Lemma shut_verify_sets A T U : within keeps_shut is_exception (verify_sets A T U default_cfg).
Proof.
  apply keeps_shut_within; [apply (verify_sets_step gate_step)|]. intros w. by rewrite verify_sets_same.
Qed.
Lemma shut_now : within keeps_shut is_exception now_iso_utc.
Proof. split; [by apply keeps_shut_same|done]. Qed.
#[local] Hint Resolve shut_append shut_prune_expired shut_compute shut_baseline shut_verify_sets shut_now : within.

Lemma plain_rows_targets w : store_inv w → plain_rows (grant_rows w) → plain_targets (abs_of w).
Proof.
  intros Hw Hc k g t Hk Ht. cbn [abs_of abs_rows live] in Hk.
  apply keyed_Some in Hk as (r & Hr & [= <- <-]); [|by apply (grant_keys _ _ Hw)].
  unfold plain_rows in Hc. rewrite Forall_forall in Hc. specialize (Hc r Hr).
  rewrite Forall_forall in Hc. by apply Hc.
Qed.

Lemma shut_apply : within keeps_shut is_exception (Egress.apply default_cfg).
Proof.
  apply keeps_shut_within; [apply (apply_step gate_step)|]. intros w Hw. unfold Egress.apply.
  rewrite run_bind, run_require_baseline. destruct (first_missing _ _); [|done].
  rewrite run_bind, run_compute_active_sets by apply Hw.
  pose proof (rows_sets_granted w (clock (w_tick w)) (shut_store _ Hw)) as Hg.
  assert (shut (tick (ready w))) as Hw' by by apply (keeps_shut_same w).
  destruct (bind_int _); [|done]. destruct (rows_sets _) as [[A T] U]. destruct Hg as (HA & HT & HU).
  change (Ok ?a ≫= ?f) with (f a). cbv beta iota. rewrite run_bind.
  destruct (apply_sets_shut A T U (tick (ready w))) as (k & r & -> & Hk).
  - intros x (c & g & Hc & _ & t & Ht & ->)%HA.
    apply replace_Forall. eapply (plain_rows_targets w); [apply Hw|apply Hw|done|done].
  - intros x (c & g & _ & _ & _ & q & _ & ->)%HT. eauto.
  - intros x (c & g & _ & _ & _ & q & _ & ->)%HU. eauto.
  - assert (shut (set_kernel k (tick (ready w)))) as Hs by (destruct Hw' as [? ? Hsk]; split; [done..|by apply Hk]).
    destruct r as [[]|e]; [|done]. by apply shut_append.
Qed.
#[local] Hint Resolve shut_apply : within.

Lemma shut_store_install a :
  plain_request a → Forall (λ t, str_ok t = true) (ia_targets a) →
  within keeps_shut is_exception
    (Store.install_grant (ia_token_id a) (ia_nonce a) (ia_exp a) (ia_targets a) (ia_ports a) (ia_proto a)).
Proof.
  intros Hpl Hts. apply keeps_shut_within; [by apply install_safe|]. intros w Hw.
  rewrite run_install_grant by apply Hw. cbv zeta.
  destruct (ia_exp a <=? _)%Z; [by apply (keeps_shut_same w)|].
  destruct (bind_row _ _ _ _); [|by apply (keeps_shut_same w)].
  case_decide as Hnew; [by apply (keeps_shut_same w)|].
  destruct (bind_int _); [|by apply (keeps_shut_same w)]. destruct Hw as [Hs Hp Hk].
  split; [by apply rows_ok_install| |done]. apply Forall_app. split; [done|].
  apply Forall_singleton. unfold new_row. by rewrite (targets_of_row_dumps _ (ia_targets a)).
Qed.

#[local] Hint Extern 0 (GateOps K) => exact (gate default_cfg) : typeclass_instances.
Lemma shut_quiet : QuietOps default_cfg keeps_shut.
Proof.
  split; cbn [op_prune op_apply op_verify op_snapshot gate egress_ops].
  - intros w. by apply keeps_shut_same.
  - intros b. unfold Egress.prune. within.
  - apply shut_apply.
  - unfold Egress.verify. within.
  - unfold Egress.snapshot. within.
Qed.

Lemma shut_install a :
  plain_request a → Forall (λ t, str_ok t = true) (ia_targets a) → within keeps_shut is_exception (install a).
Proof.
  intros Hpl Hts. unfold install, op_install_grant. cbn [gate egress_ops]. unfold Egress.install_grant.
  apply within_bind; [typeclasses eauto|by apply shut_store_install|intros]. within.
Qed.

(** ** Histories in which only the daemon changes the kernel *)

Inductive undisturbed : World K → list pystr → World K → Prop :=
  | un_nil w : undisturbed w [] w
  | un_request line w w1 out raws w' :
      handle_line line w = (w1, Ok out) → undisturbed w1 raws w' →
      undisturbed w (line_text line :: raws) w'
  | un_time w raws w' : undisturbed (tick w) raws w' → undisturbed w raws w'.
Lemma undisturbed_history w raws w' : undisturbed w raws w' → history default_cfg w raws w'.
Proof. induction 1; [constructor|by eapply h_request|by apply h_time]. Qed.

Lemma handle_line_shut line w :
  (∀ a, install_request (line_text line) = Some a → plain_request a) →
  keeps_shut w (handle_line line w).1.
Proof.
  intros Hpl. unfold handle_line. fold (line_text line). pose proof (line_text_ok line) as Hok.
  destruct (line_text line) as [|c raw] eqn:Hline; [by intros ?|]. rewrite run_bind.
  assert (keeps_shut w (handle_request (c :: raw) w).1) as Hr.
  { apply (handle_request_step default_cfg); [typeclasses eauto|apply shut_quiet|done|].
    intros a Ha. apply shut_install; [by apply Hpl|by eapply install_request_targets]. }
  by destruct (handle_request _ w) as [w' [resp|e]].
Qed.

(** C12: requests never open the host: start on the baseline with its frontier
    sets empty and a sound store whose targets are plain, and let the daemon
    handle any requests with plain targets (no braces, quotes, number signs or
    line ends), while nothing else touches the kernel: the host
    accepts exactly the local packets, whatever was granted and whoever called
    [apply]; each apply is refused or empties the sets. *)
Theorem gate_never_opens w0 raws w p :
  shut w0 → undisturbed w0 raws w → (∀ a, asked raws a → plain_request a) →
  (egress_verdict (w_kernel w) p = Accept ↔ local_packet p).
Proof.
  intros Hw0 Hh Hpl. assert (shut w) as [_ _ Hshut].
  { induction Hh as [w|line w w1 out raws w' Hl _ IH|w raws w' _ IH]; [done| |].
    - apply IH; [|intros a (raw & Hraw & Ha); apply Hpl; exists raw; by split; [right|]].
      pose proof (handle_line_shut line w) as Hs. rewrite Hl in Hs. apply Hs; [|done].
      intros a Ha. apply Hpl. exists (line_text line). by split; [left|].
    - apply IH; [|done]. revert Hw0. by apply keeps_shut_same. }
  by apply shut_accepts.
Qed.
End closed.
