(* ===== verification/GateDemo.v ===== *)
(** * Concrete runs of the gate

    Worlds over the kernel of [NftModel], and the instances of the gate's
    theorems there. *)
From S2P Require Import Prelude PyStr PyJson PyJsonRoundtrip PyJsonStrings Errors PyOps TimeUtil.
From S2P Require Import World Protocol Store StoreFacts StoreSpec Nft NftSpec Baseline NftKernel.
From S2P Require Import NftModel Interface.
From S2P Require Import GateSteps EgressFacts Daemon DaemonFacts GateSafety Serve ServeFacts.
From S2P Require Import StoreBounds.
From S2P Require Import GateSpec Authority.
From S2P Require Egress AuditLog.

(** The baseline of nft/sourceos-egress.nft, its sets holding [v4], [tcp] and
    [udp]. *)
Definition frontier (v4 tcp udp : list element) : toy :=
  let key n := [u "inet"; u "sourceos"; n] in
  {[ key (u "frontier_allow_v4") := v4; key (u "frontier_allow_tcp_ports") := tcp;
     key (u "frontier_allow_udp_ports") := udp ]}.
Definition world_of (k : toy) : World toy :=
  {| w_db := None; w_fs := ∅; w_kernel := k; w_euid := 0; w_tick := 0 |}.
(** An empty store over an empty frontier. *)
Definition fresh : World toy := world_of (frontier [] [] []).
(** The same after one install: 10.0.0.1, tcp 443, until 5000. *)
Definition target1 : list pystr := [u "10.0.0.1/32"].
Definition granted1 : World toy :=
  (Store.install_grant (u "tok") (u "n1") 5000 target1 [443%Z] (u "tcp") fresh).1.


Lemma fresh_inv k : store_inv (world_of k).
Proof. split; [constructor|constructor|set_solver|set_solver]. Qed.
Lemma target1_ok : Forall (λ t, str_ok t = true ∧ plain t ∧ text_ok t) target1.
Proof. compute_it. Qed.
Lemma target1_str : Forall (λ t, str_ok t = true) target1.
Proof. compute_it. Qed.
Lemma frontier_present v4 tcp udp : baseline_present default_cfg (frontier v4 tcp udp).
Proof. repeat constructor. Qed.

Definition grant1 : Store.Grant :=
  {| g_token_id := u "tok"; g_nonce := u "n1"; g_exp := 5000; g_targets := JList [JStr (u "10.0.0.1/32")];
     g_ports := [443%Z]; g_proto := u "tcp"; g_installed_at := 1003 |}.
Lemma install1 :
  Store.install_grant (u "tok") (u "n1") 5000 target1 [443%Z] (u "tcp") fresh = (granted1, Ok grant1).
Proof.
  rewrite (surjective_pairing (Store.install_grant _ _ _ _ _ _ _)). apply (f_equal2 pair); [reflexivity|vm_compute; reflexivity].
Qed.
Lemma granted1_inv : store_inv granted1.
Proof.
  apply (rows_ok_install [] [] (u "tok") (u "n1") 5000 target1 [443%Z] (u "tcp") 1001 1002).
  - apply (fresh_inv (frontier [] [] [])).
  - apply target1_str.
  - set_solver.
Qed.
Lemma fresh_ready : apply_ready default_cfg fresh.
Proof.
  split; [apply default_cfg_plain|reflexivity|apply frontier_present|apply fresh_inv|reflexivity|].
  apply clean_rows_targets; [apply fresh_inv|constructor].
Qed.
Lemma granted1_ready : apply_ready default_cfg granted1.
Proof.
  split; [apply default_cfg_plain|vm_compute; reflexivity|vm_compute; repeat constructor|apply granted1_inv
    |vm_compute; reflexivity|].
  apply clean_rows_targets; [apply granted1_inv|compute_it].
Qed.
Lemma granted1_allows : allows_something (abs_of granted1) (clock (w_tick granted1)).
Proof.
  right. exists false, (u "443"). exists (u "tok", u "n1").
  eexists. split; [vm_compute; reflexivity|]. split; [vm_compute; reflexivity|]. split; [reflexivity|].
  exists 443%Z. split; [apply list_elem_of_singleton; reflexivity|vm_compute; reflexivity].
Qed.

(** ** Witnesses *)

(** The store holds a grant: applying fails, and the kernel is untouched. *)
Lemma apply_outcome_witness :
  ∃ w' msg, Egress.apply default_cfg granted1 = (w', Err (Exn NftError msg)) ∧
    w_kernel w' = w_kernel granted1.
Proof.
  destruct (proj1 (apply_outcome default_cfg granted1 granted1_ready) granted1_allows)
    as (w' & msg & Hr & Hk & _).
  exists w', msg. split; [exact Hr|exact Hk].
Defined.

(** A first install with apply on a fresh world: an error, and a live grant. *)
Lemma install_apply_outcome_witness :
  ∃ w' msg a, Egress.install_grant default_cfg (u "tok") (u "n1") 5000 target1 [443%Z] (u "tcp") true fresh =
    (w', Err (Exn NftError msg)) ∧ live (abs_of w') !! (u "tok", u "n1") = Some a.
Proof.
  destruct (install_apply_outcome default_cfg (u "tok") (u "n1") 5000 target1 [443%Z] (u "tcp") fresh granted1 grant1)
    as (w' & msg & at_ & Hr & Hl & _).
  - apply fresh_ready.
  - apply target1_ok.
  - apply install1.
  - reflexivity.
  - reflexivity.
  - left. discriminate.
  - exists w', msg. eexists. split; [exact Hr|exact Hl].
Defined.

Lemma apply_sets_outcome_witness :
  (∃ msg, apply_sets {[u "10.0.0.1"]} {[u "443"]} ∅ default_cfg fresh = (fresh, Err (Exn NftError msg))) ∧
  (∃ k, apply_sets ∅ ∅ ∅ default_cfg (world_of (frontier [Addr (ip 10 0 0 1)] [Port 443] [])) =
     (set_kernel k (world_of (frontier [Addr (ip 10 0 0 1)] [Port 443] [])), Ok tt) ∧
     nft_elems [u "inet"; u "sourceos"; u "frontier_allow_v4"] k = []).
Proof.
  split.
  - pose proof (apply_sets_outcome default_cfg {[u "10.0.0.1"]} {[u "443"]} ∅ fresh default_cfg_plain
      eq_refl (frontier_present _ _ _)) as H.
    rewrite decide_False in H by (intros (_ & Ht & _); set_solver). apply H; [| |set_solver].
    + intros x ->%elem_of_singleton. split; compute_it.
    + intros x ->%elem_of_singleton. exists 443%Z. vm_compute. reflexivity.
  - pose proof (apply_sets_outcome default_cfg ∅ ∅ ∅ (world_of (frontier [Addr (ip 10 0 0 1)] [Port 443] []))
      default_cfg_plain eq_refl (frontier_present _ _ _)) as H.
    rewrite decide_True in H by done. destruct H as (k & Hk & He & _); [set_solver..|].
    exists k. split; [exact Hk|]. apply He. left.
Defined.

Lemma apply_sets_injects_witness :
  ∃ script, apply_sets {[injected (u "flush ruleset")]} ∅ ∅ default_cfg fresh = _run_script script fresh ∧
    u "flush ruleset" ∈ split 10 script.
Proof.
  destruct (apply_sets_injects default_cfg (u "flush ruleset") fresh) as (script & Hr & Hs);
    [apply default_cfg_plain|reflexivity|apply frontier_present|compute_it|compute_it|].
  exists script. split; [exact Hr|]. rewrite Hs. apply elem_of_app. right. right. left.
Defined.

Definition enforcing : World toy := world_of (frontier [Addr (ip 10 0 0 1)] [Port 443] []).
Lemma enforcing_ports n :
  n ∈ [u "frontier_allow_tcp_ports"; u "frontier_allow_udp_ports"] →
  port_elems (elems_of default_cfg n (w_kernel enforcing)).
Proof.
  rewrite !elem_of_cons, elem_of_nil. intros [->|[->|[]]]; repeat constructor. exists 443%Z. by split.
Qed.
Lemma verify_sets_spec_witness :
  verify_sets {[u "10.0.0.1"]} {[u "443"]} ∅ default_cfg enforcing = (enforcing, Ok tt) ∧
  ∃ e, verify_sets {[u "10.0.0.2"]} {[u "443"]} ∅ default_cfg enforcing = (enforcing, Err e).
Proof.
  split.
  - destruct (verify_sets_spec {[u "10.0.0.1"]} {[u "443"]} ∅ default_cfg enforcing)
      as (r & Hr & Hok & _); [apply frontier_present|apply enforcing_ports; compute_it..|].
    rewrite Hr. f_equal. apply Hok. split_and!; vm_compute; reflexivity.
  - destruct (verify_sets_spec {[u "10.0.0.2"]} {[u "443"]} ∅ default_cfg enforcing)
      as (r & Hr & Hok & _); [apply frontier_present|apply enforcing_ports; compute_it..|].
    destruct r as [[]|e]; [|exists e; exact Hr]. destruct (proj1 Hok eq_refl) as [HA _].
    exfalso. revert HA. apply (bool_decide_unpack _). vm_compute. exact I.
Defined.

(** 10.0.0.0/8 is live in the kernel, and granted: verification still fails. *)
Definition enforcing_net : World toy := world_of (frontier [Net (ip 10 0 0 0) 8] [] []).
Lemma verify_prefix_mismatch_witness :
  ∃ e, verify_sets {[u "10.0.0.0/8"]} ∅ ∅ default_cfg enforcing_net = (enforcing_net, Err e) ∧
    exn_type e = NftError.
Proof.
  apply (verify_prefix_mismatch _ _ _ _ _ (JDict [(u "addr", JStr (u "10.0.0.0")); (u "len", JInt 8)])).
  - apply frontier_present.
  - constructor.
  - constructor.
  - apply list_elem_of_singleton. reflexivity.
  - intros a ->%elem_of_singleton. discriminate.
Defined.

Lemma text_json_agree_witness :
  Ok (Some (parse_text (u "table inet sourceos { set frontier_allow_v4 { elements = { 10.0.0.1, 10.0.0.2 } } }"))) =
  parse_nft_set_elements_json (set_doc JNull [] [JStr (u "10.0.0.1"); JStr (u "10.0.0.2")]).
Proof.
  apply (text_json_agree (u "table inet sourceos { set frontier_allow_v4 { ") (u " } }") JNull []
    (u "10.0.0.1") [u "10.0.0.2"]).
  - vm_compute. reflexivity.
  - repeat (apply Forall_cons_2; [split_and!; compute_it|]). apply Forall_nil_2.
  - reflexivity.
Defined.

(** ** Witnesses of the daemon *)

#[local] Instance demo_gate : GateOps toy := gate default_cfg.

Definition bytes (ls : list string) : list N := ls ≫= λ l, u l ++ [10%N].
Definition quoted (s : string) : pystr := map (λ c, if (c =? 39)%N then 34%N else c) (u s).
(** The requests of the examples, with double quotes for the single ones. *)
Definition req_health : pystr := quoted "{'id': 1, 'method': 'health'}".
Definition req_install : pystr :=
  quoted "{'id': 2, 'method': 'grant.install', 'params': {'token_id': 'tok', 'nonce': 'n1', 'exp': 5000, 'targets': ['10.0.0.1/32'], 'ports': [443], 'proto': 'tcp'}}".

Lemma handle_client_replies_witness :
  ∃ w' outs, handle_client (req_health ++ [10%N; 10%N] ++ u "garbage" ++ [10%N]) fresh = (w', Ok (outs, true)) ∧
    length outs = 2.
Proof.
  destruct (handle_client_replies (laws:=egress_laws default_cfg) gate_step
    (req_health ++ [10%N; 10%N] ++ u "garbage" ++ [10%N]) fresh) as (w' & outs & fin & Hr & _ & Hfin & Hout).
  exists w', outs. assert (fin = true) as Hf.
  { apply Hfin. compute_it. }
  rewrite Hf in Hr. split; [exact Hr|]. apply Forall2_length in Hout. rewrite <-Hout.
  vm_compute. reflexivity.
Defined.

Definition install_args1 : install_args :=
  {| ia_token_id := u "tok"; ia_nonce := u "n1"; ia_exp := 5000; ia_targets := target1;
     ia_ports := [443%Z]; ia_proto := u "tcp"; ia_apply := false |}.
Definition world_installed : World toy := (handle_request req_install fresh).1.
Definition reply_installed : json :=
  ok_response (JInt 2) (JDict [(u "status", JStr (u "installed"))]).

Lemma run_req_install : handle_request req_install fresh = (world_installed, Ok reply_installed).
Proof.
  rewrite (surjective_pairing (handle_request req_install fresh)).
  apply (f_equal2 pair); [reflexivity|vm_compute; reflexivity].
Qed.
Lemma req_install_text : text_ok req_install.
Proof. compute_it. Qed.
Lemma req_install_args : install_request req_install = Some install_args1.
Proof. vm_compute. reflexivity. Qed.

(** The same request again, after a second has passed and another program has
    emptied the kernel's sets: refused. *)
Lemma no_double_install_witness :
  ∃ w3 r2, handle_request req_install (set_kernel ∅ (tick world_installed)) = (w3, Ok r2) ∧ ¬ accepted r2.
Proof.
  destruct (no_double_install default_cfg req_install req_install install_args1 install_args1
    fresh world_installed (set_kernel ∅ (tick world_installed)) reply_installed) as (w3 & r2 & Hr & Hn & _).
  - apply fresh_inv.
  - apply req_install_text.
  - apply req_install_text.
  - apply req_install_args.
  - apply req_install_args.
  - reflexivity.
  - apply run_req_install.
  - reflexivity.
  - eapply rtc_l; [apply t_time|]. eapply rtc_l; [apply t_kernel|]. apply rtc_refl.
  - exists w3, r2. split; [exact Hr|exact Hn].
Defined.

Lemma daemon_execution_safe_witness :
  store_inv (handle_line (req_install ++ [10%N]) fresh).1 ∧
  log_wf (w_fs (handle_line (req_install ++ [10%N]) fresh).1).
Proof.
  destruct (daemon_execution_safe default_cfg fresh (handle_line (req_install ++ [10%N]) fresh).1)
    as (_ & Hlog & Hinv & _).
  - eapply rtc_l; [|apply rtc_refl]. eapply (t_request (req_install ++ [10%N])).
    rewrite (surjective_pairing (handle_line (req_install ++ [10%N]) fresh)) at 1.
    apply (f_equal2 pair); [reflexivity|vm_compute; reflexivity].
  - apply fresh_inv.
  - intros p s Hp. exfalso. exact (lookup_empty_Some p s Hp).
  - split; [exact Hinv|exact Hlog].
Defined.

(** ** Two clients of one server

    Client 0 sends its install request in two pieces; client 1's health request
    is answered in between. *)

#[local] Existing Instance server_gate.
Definition turn (i : nat) (s : Server toy) : Server toy :=
  match sv_clients s !! i with
  | Some c =>
      if cl_open c then
        match client_turn c (sv_world s) with (w, Ok (Some c')) => set_client i c' w s | _ => s end
      else s
  | None => s
  end.
Definition send (i : nat) (bs : list N) (s : Server toy) : Server toy :=
  match sv_clients s !! i with
  | Some c => if cl_open c && negb (cl_eof c) then set_client i (feed bs c) (sv_world s) s else s
  | None => s
  end.
Definition accept (i : nat) (s : Server toy) : Server toy :=
  match sv_clients s !! i with Some _ => s | None => set_client i new_client (sv_world s) s end.

Lemma turn_steps i s : rtc server_step s (turn i s).
Proof.
  unfold turn. destruct (sv_clients s !! i) as [c|] eqn:Hc; [|done].
  destruct (cl_open c) eqn:Ho; [|done].
  destruct (client_turn c (sv_world s)) as [w [[c'|]|]] eqn:Ht; try done.
  apply rtc_once. by eapply sv_turn.
Qed.
Lemma send_steps i bs s : rtc server_step s (send i bs s).
Proof.
  unfold send. destruct (sv_clients s !! i) as [c|] eqn:Hc; [|done].
  destruct (cl_open c) eqn:Ho; [|done]. destruct (cl_eof c) eqn:He; [done|].
  apply rtc_once. by apply sv_receive.
Qed.
Lemma accept_steps i s : rtc server_step s (accept i s).
Proof.
  unfold accept. destruct (sv_clients s !! i) as [c|] eqn:Hc; [done|]. apply rtc_once. by apply sv_accept.
Qed.

Definition boot : Boot toy := {| bt_world := fresh; bt_nodes := ∅ |}.
Definition boot_config : DaemonConfig := launcher_config None None.
Definition booted : Boot toy := (serve boot_config ∅ 1 ∅ boot).1.
Definition two_clients : Server toy :=
  turn 0 (send 0 (drop 30 req_install ++ [10%N]) (turn 1 (send 1 (req_health ++ [10%N])
    (send 0 (take 30 req_install) (accept 1 (accept 0 (started booted))))))).

(** Client 0 has sent its one request, and its handler waits for more. *)
Lemma client0_waits :
  (λ c, (readline (cl_in c) (cl_eof c), request_texts (removelast (split 10 (cl_got c))))) <$>
    sv_clients two_clients !! 0 = Some (Wait, [req_install]).
Proof. vm_compute. reflexivity. Qed.

Lemma server_serves_witness :
  store_inv (sv_world two_clients) ∧
  ∃ c, sv_clients two_clients !! 0 = Some c ∧ length (cl_out c) = 1 ∧
    replies [req_install] (cl_out c).
Proof.
  destruct (server_serves default_cfg boot_config ∅ 1 ∅ boot booted (Bound default_socket) two_clients)
    as (_ & _ & Hinv & _ & Hc).
  - apply fresh_inv.
  - intros p s Hp. exfalso. exact (lookup_empty_Some p s Hp).
  - rewrite (surjective_pairing (serve boot_config ∅ 1 ∅ boot)). apply (f_equal2 pair); [reflexivity|vm_compute; reflexivity].
  - unfold two_clients. repeat (etransitivity; [|first [apply turn_steps|apply send_steps|apply accept_steps]]).
    apply rtc_refl.
  - split; [exact Hinv|]. pose proof client0_waits as Hc0.
    destruct (sv_clients two_clients !! 0) as [c|] eqn:Hc0'; [|discriminate Hc0].
    injection Hc0 as Hwait Hreq. exists c. destruct (Hc 0 c Hc0') as (_ & Hw & _).
    specialize (Hw Hwait). rewrite Hreq in Hw. split; [reflexivity|]. split; [|exact Hw].
    apply Forall2_length in Hw. symmetry. exact Hw.
Defined.

Lemma reader_refines_witness :
  ∃ c' fin, cl_open c' = false ∧
    handle_client (req_health ++ [10%N]) fresh = ((handle_client (req_health ++ [10%N]) fresh).1, Ok (cl_out c', fin)).
Proof.
  destruct (reader_refines (laws:=egress_laws default_cfg) gate_step (req_health ++ [10%N]) fresh)
    as (c' & fin & Hr & _ & Hcl).
  exists c', fin. split; [exact Hcl|exact Hr].
Defined.

(** ** Authority *)

(** The request is handled while the kernel already allows what it asks. *)
Definition enforced : World toy := (handle_line (req_install ++ [10%N]) enforcing).1.
Lemma enforced_history : history default_cfg enforcing [req_install] enforced.
Proof.
  assert (is_ok (handle_line (req_install ++ [10%N]) enforcing).2 = true) as Hok by (vm_compute; reflexivity).
  assert (line_text (req_install ++ [10%N]) = req_install) as <- by (vm_compute; reflexivity).
  unfold enforced. destruct (handle_line (req_install ++ [10%N]) enforcing) as [w1 [out|e]] eqn:Hl; [|discriminate Hok].
  eapply h_request; [exact Hl|apply h_nil].
Qed.
Lemma enforced_verify : (Egress.verify default_cfg enforced).2 = Ok tt.
Proof. vm_compute. reflexivity. Qed.
Lemma enforced_kernel : w_kernel enforced = w_kernel enforcing.
Proof.
  apply (@bool_decide_unpack _ (gmap_eq_dec (A:=list element) _ _ _)). vm_compute. exact I.
Qed.

Lemma verified_authority_witness :
  addr_allowed (asked [req_install]) (clock (w_tick enforced)) (strip_32 (u "10.0.0.1")).
Proof.
  destruct (verified_authority default_cfg enforcing [req_install] enforced
    (Egress.verify default_cfg enforced).1) as (Haddr & _).
  - apply fresh_inv.
  - reflexivity.
  - apply enforced_history.
  - rewrite enforced_kernel. apply frontier_present.
  - rewrite enforced_kernel. apply enforcing_ports. compute_it.
  - rewrite enforced_kernel. apply enforcing_ports. compute_it.
  - rewrite (surjective_pairing (Egress.verify default_cfg enforced)) at 1.
    apply (f_equal2 pair); [reflexivity|apply enforced_verify].
  - apply Haddr. rewrite enforced_kernel. apply (bool_decide_unpack _). vm_compute. exact I.
Defined.

Lemma accepted_grants_last_witness :
  ∃ A T U, (compute_active_sets world_installed).2 = Ok (A, T, U) ∧
    u "10.0.0.1" ∈ A ∧ u "443" ∈ T.
Proof.
  destruct (compute_active_sets world_installed) as [w3 [[[A T] U]|e]] eqn:Hc.
  2: { exfalso. assert (is_ok (compute_active_sets world_installed).2 = true) as Hok by (vm_compute; reflexivity).
       rewrite Hc in Hok. discriminate Hok. }
  exists A, T, U. split; [reflexivity|].
  destruct (accepted_grants_last default_cfg req_install install_args1 fresh world_installed reply_installed []
    world_installed w3 A T U) as [Ht Hp].
  - apply fresh_inv.
  - apply req_install_text.
  - apply req_install_args.
  - apply run_req_install.
  - reflexivity.
  - apply h_nil.
  - intros n [_ Hn]. assert (w_tick world_installed <= 10) as Hw by (apply (bool_decide_unpack _); vm_compute; exact I).
    change (Z.min (Z.of_nat n + 1000) 100000 < 5000)%Z. lia.
  - exact Hc.
  - split; [apply (Ht (u "10.0.0.1/32"))|apply (Hp 443%Z)]; apply list_elem_of_singleton; reflexivity.
Defined.

Lemma store_integers_fit_witness :
  world_fits (handle_line (req_install ++ [10%N]) fresh).1 ∧
  ∃ v e, Store.install_grant (u "t") (u "n") (2 ^ 63) target1 [443%Z] (u "tcp") fresh = (v, Err e).
Proof.
  split.
  - apply (store_integers_fit default_cfg fresh).
    + eapply rtc_l; [|apply rtc_refl]. eapply (t_request (req_install ++ [10%N])).
      rewrite (surjective_pairing (handle_line (req_install ++ [10%N]) fresh)) at 1.
      apply (f_equal2 pair); [reflexivity|vm_compute; reflexivity].
    + split; constructor.
  - destruct (store_integers_fit default_cfg fresh fresh) as [_ Hr]; [apply rtc_refl|split; constructor|].
    destruct (Hr (u "t") (u "n") (2 ^ 63)%Z target1 [443%Z] (u "tcp") (fresh_inv _) eq_refl) as (v & e & He & _).
    exists v, e. exact He.
Defined.

(** ** The scope of a grant *)

(** A TCP flow the rule [ip daddr @frontier_allow_v4 tcp dport
    @frontier_allow_tcp_ports accept] of the baseline accepts, and one that a
    live grant covers. *)
Definition admitted (A T : gset pystr) (a p : pystr) : Prop := a ∈ A ∧ p ∈ T.
Definition covered (s : AbsStore) (c : Z) (a p : pystr) : Prop :=
  ∃ k g, live s !! k = Some g ∧ (c < a_exp g)%Z ∧ a_proto g = u "tcp" ∧
    (∃ t, t ∈ a_targets g ∧ a = strip_32 t) ∧ (∃ n, n ∈ a_ports g ∧ p = str_of_Z n).

Definition granted2 : World toy :=
  (Store.install_grant (u "tok") (u "n2") 5000 [u "10.0.0.2"] [22%Z] (u "tcp") granted1).1.
Lemma granted2_inv : store_inv granted2.
Proof.
  apply (rows_ok_install _ _ (u "tok") (u "n2") 5000 [u "10.0.0.2"] [22%Z] (u "tcp") 1005 1006 granted1_inv).
  - compute_it.
  - compute_it.
Qed.

Definition sets2 : sets := rows_sets (filter (active (clock (w_tick granted2))) (grant_rows granted2)).

(** the allowlist is wider than the grants: the sets that
    [compute_active_sets] builds pair every granted address with every granted
    port, so with two live grants (10.0.0.1, 443) and (10.0.0.2, 22) the
    baseline also accepts 10.0.0.1:22, which no grant covers. *)
Theorem scope_leak :
  ∃ (w : World toy) A T U a p,
    store_inv w ∧ (compute_active_sets w).2 = Ok (A, T, U) ∧
    admitted A T a p ∧ ¬ covered (abs_of w) (clock (w_tick w)) a p.
Proof.
  exists granted2, sets2.1.1, sets2.1.2, sets2.2, (u "10.0.0.1"), (u "22").
  split; [apply granted2_inv|]. split; [|split].
  - rewrite run_compute_active_sets by apply granted2_inv. vm_compute (bind_int _). reflexivity.
  - split; compute_it.
  - intros (k & g & Hk & _ & _ & (t & Ht & Ha) & (n & Hn & Hp)).
    cbn [abs_of abs_rows live] in Hk. apply keyed_Some in Hk as (r & Hr & [= <- <-]);
      [|apply (grant_keys _ _ granted2_inv)].
    assert (Forall (λ r, Forall (λ t, Forall (λ n, ¬ (u "10.0.0.1" = strip_32 t ∧ u "22" = str_of_Z n))
      (ports_of_row r)) (targets_of_row r)) (grant_rows granted2)) as Hall by compute_it.
    rewrite Forall_forall in Hall. specialize (Hall r Hr).
    rewrite Forall_forall in Hall. specialize (Hall t Ht). rewrite Forall_forall in Hall.
    by apply (Hall n Hn).
Qed.

Lemma audit_round_trip_witness :
  ∃ w' line ts, AuditLog.append (u "gate.egress") [(u "action", JStr (u "apply"))] fresh = (w', Ok tt) ∧
    loads line = Ok (sort_keys (JDict (dict_setdefault (u "ts") ts [(u "action", JStr (u "apply"))]))).
Proof.
  destruct (audit_round_trip (u "gate.egress") [(u "action", JStr (u "apply"))] fresh)
    as (w' & line & ts & Hr & _ & _ & Hl); [vm_compute; reflexivity|].
  exists w', line, ts. split; [exact Hr|exact Hl].
Defined.
