(* ===== verification/ConcurrentDemo.v ===== *)
(** * Concrete runs of several processes

    Schedules of two processes over the kernel of [NftModel], with the theorem
    on concurrent installs applied to one, and the prune race. *)
From S2P Require Import Prelude PyStr PyJson PyJsonRoundtrip Errors PyOps World Store StoreFacts.
From S2P Require Import StoreSpec Nft NftModel.
From S2P Require Import Interface GateSteps EgressFacts Daemon GateSafety Concurrent.
From S2P Require Import ConcurrentFacts GateDemo.

(** ** Schedules *)

(** Process [i] takes its next action, or starts. *)
Definition act (i : nat) (s : Pool toy) : Pool toy :=
  match pl_procs s !! i with
  | Some (j, p) =>
      match step_proc p (pl_world s) with
      | Some (w, p') => {| pl_world := w; pl_procs := <[i := (j, p')]> (pl_procs s) |}
      | None => s
      end
  | None => s
  end.
Definition launch (i : nat) (j : job) (s : Pool toy) : Pool toy :=
  match pl_procs s !! i with
  | Some _ => s
  | None => {| pl_world := pl_world s; pl_procs := <[i := (j, start default_cfg j)]> (pl_procs s) |}
  end.
Lemma act_steps i s : rtc (pool_step default_cfg) s (act i s).
Proof.
  unfold act. destruct (pl_procs s !! i) as [[j p]|] eqn:Hi; [|done].
  destruct (step_proc p (pl_world s)) as [[w p']|] eqn:Hp; [|done]. apply rtc_once. by eapply pool_act.
Qed.
Lemma launch_steps i j s : job_ok j → rtc (pool_step default_cfg) s (launch i j s).
Proof.
  intros Hj. unfold launch. destruct (pl_procs s !! i) eqn:Hi; [done|]. apply rtc_once. by apply pool_start.
Qed.
Lemma schedule_steps sched s : rtc (pool_step default_cfg) s (foldl (λ s i, act i s) s sched).
Proof. revert s. induction sched as [|i sched IH]; intros s; [done|]. etrans; [apply act_steps|apply IH]. Qed.

Definition result_of (i : nat) (s : Pool toy) : option (pyres Z) :=
  match pl_procs s !! i with Some (_, Done r) => Some r | _ => None end.
Definition installer_args (nonce : pystr) : install_args :=
  {| ia_token_id := u "tok"; ia_nonce := nonce; ia_exp := 5000; ia_targets := target1;
     ia_ports := [443%Z]; ia_proto := u "tcp"; ia_apply := false |}.
Definition installer (nonce : pystr) : job := JInstall (installer_args nonce).
Definition two_of (j1 j2 : job) (w : World toy) : Pool toy :=
  foldl (λ s i, act i s) (launch 1 j2 (launch 0 j1 {| pl_world := w; pl_procs := ∅ |}))
    [0; 1; 0; 1; 0; 1; 1; 0; 0; 1; 0; 1; 1; 0; 1; 0].

(** Interleaved installs of two nonces both succeed; of one nonce, one does. *)
Lemma two_nonces :
  result_of 0 (two_of (installer (u "n1")) (installer (u "n2")) fresh) = Some (Ok 0%Z) ∧
  result_of 1 (two_of (installer (u "n1")) (installer (u "n2")) fresh) = Some (Ok 0%Z).
Proof. split; vm_compute; reflexivity. Qed.
Lemma one_nonce :
  result_of 0 (two_of (installer (u "n1")) (installer (u "n1")) fresh) = Some (Ok 0%Z) ∧
  result_of 1 (two_of (installer (u "n1")) (installer (u "n1")) fresh) =
    Some (Err (Exn ReplayError (u "replay detected"))).
Proof. split; vm_compute; reflexivity. Qed.

(** A process keeps its job. *)
Lemma act_job i k s : fst <$> pl_procs (act i s) !! k = fst <$> pl_procs s !! k.
Proof.
  unfold act. destruct (pl_procs s !! i) as [[j p]|] eqn:Hi; [|done].
  destruct (step_proc _ _) as [[w p']|]; [|done]. cbn.
  destruct (decide (i = k)) as [<-|Hne]; [by rewrite lookup_insert_eq, Hi|by rewrite lookup_insert_ne].
Qed.
Lemma schedule_job sched k s :
  fst <$> pl_procs (foldl (λ s i, act i s) s sched) !! k = fst <$> pl_procs s !! k.
Proof. revert s. induction sched as [|i sched IH]; intros s; [done|]. cbn. by rewrite IH, act_job. Qed.
Lemma result_of_job i j s r :
  result_of i s = Some r → fst <$> pl_procs s !! i = Some j → pl_procs s !! i = Some (j, Done r).
Proof.
  unfold result_of. destruct (pl_procs s !! i) as [[j' p]|]; [|done]. destruct p; [|done].
  by intros [= ->] [= ->].
Qed.
Lemma two_jobs j1 j2 w :
  fst <$> pl_procs (two_of j1 j2 w) !! 0 = Some j1 ∧ fst <$> pl_procs (two_of j1 j2 w) !! 1 = Some j2.
Proof. unfold two_of. by rewrite !schedule_job. Qed.

Lemma two_of_steps j1 j2 w : job_ok j1 → job_ok j2 →
  rtc (pool_step default_cfg) {| pl_world := w; pl_procs := ∅ |} (two_of j1 j2 w).
Proof.
  intros H1 H2. etrans; [by apply (launch_steps 0 j1)|]. etrans; [by apply (launch_steps 1 j2)|].
  apply schedule_steps.
Qed.


Lemma installer_ok nonce : job_ok (installer nonce).
Proof. apply target1_str. Qed.

Definition nonces_done : Pool toy := two_of (installer (u "n1")) (installer (u "n2")) fresh.
Lemma nonces_steps : rtc (pool_step default_cfg) {| pl_world := fresh; pl_procs := ∅ |} nonces_done.
Proof. apply two_of_steps; apply installer_ok. Qed.
Lemma nonces_procs :
  pl_procs nonces_done !! 0 = Some (JInstall (installer_args (u "n1")), Done (Ok 0%Z)) ∧
  pl_procs nonces_done !! 1 = Some (JInstall (installer_args (u "n2")), Done (Ok 0%Z)).
Proof.
  destruct two_nonces as [H0 H1]. destruct (two_jobs (installer (u "n1")) (installer (u "n2")) fresh) as [J0 J1].
  split; [exact (result_of_job _ _ _ _ H0 J0)|exact (result_of_job _ _ _ _ H1 J1)].
Qed.

Lemma concurrent_install_once_witness :
  ia_key (installer_args (u "n1")) ≠ ia_key (installer_args (u "n2")) ∧ gate_step fresh (pl_world nonces_done).
Proof.
  exact (concurrent_install_once default_cfg fresh nonces_done 0 1 (installer_args (u "n1"))
    (installer_args (u "n2")) 0%Z 0%Z (fresh_inv _) nonces_steps (proj1 nonces_procs) (proj2 nonces_procs)
    (Nat.neq_0_succ 0)).
Defined.

(** ** The prune race *)

(** One grant, long expired. *)
Definition stale : World toy :=
  {| w_db := w_db granted1; w_fs := ∅; w_kernel := w_kernel granted1; w_euid := 0; w_tick := 10000 |}.

Definition pruned : Pool toy := two_of (JPrune false) (JPrune false) stale.
Lemma pruned_results : result_of 0 pruned = Some (Ok 1%Z) ∧ result_of 1 pruned = Some (Ok 1%Z).
Proof. split; vm_compute; reflexivity. Qed.

(** [prune_expired] counts in one statement and deletes in another, outside
    one transaction: two prunes on one store can both report the one expired
    grant as removed. *)
Theorem prune_race :
  length (grant_rows stale) = 1 ∧
  ∃ s : Pool toy, rtc (pool_step default_cfg) {| pl_world := stale; pl_procs := ∅ |} s ∧
    pl_procs s !! 0 = Some (JPrune false, Done (Ok 1%Z)) ∧
    pl_procs s !! 1 = Some (JPrune false, Done (Ok 1%Z)) ∧ grant_rows (pl_world s) = [].
Proof.
  split; [vm_compute; reflexivity|]. exists pruned.
  split; [exact (two_of_steps (JPrune false) (JPrune false) stale I I)|].
  destruct pruned_results as [H0 H1]. destruct (two_jobs (JPrune false) (JPrune false) stale) as [J0 J1].
  split; [exact (result_of_job _ _ _ _ H0 J0)|]. split; [exact (result_of_job _ _ _ _ H1 J1)|].
  vm_compute. reflexivity.
Qed.
