(* ===== verification/EnforceDemo.v ===== *)
(** * A host behind the baseline

    Concrete runs of the packet-level theorems: a host with one grant, whose
    kernel has been opened by hand, and one that only handles requests. *)
From S2P Require Import Prelude PyStr PyJson PyJsonRoundtrip PyJsonStrings Errors PyOps World.
From S2P Require Import Store StoreFacts StoreSpec Nft NftSpec Baseline NftKernel NftModel.
From S2P Require Import Interface GateSteps EgressFacts Daemon DaemonFacts GateSafety GateSpec.
From S2P Require Import Authority.
From S2P Require Import Enforcement GateDemo.
From S2P Require Egress.

#[local] Instance enforce_gate : GateOps toy := gate default_cfg.

(** The baseline with [v4], [tcp] and [udp] in its frontier sets. *)
Definition behind (v4 tcp udp : list element) : toy :=
  <[[u "inet"; u "sourceos"; u "lan_v4"] := lan_v4]> (frontier v4 tcp udp).
Definition site : Z := ip 93 184 216 34.
Definition req_site : pystr :=
  quoted "{'id': 3, 'method': 'grant.install', 'params': {'token_id': 'tok', 'nonce': 'n7', 'exp': 5000, 'targets': ['93.184.216.34/32'], 'ports': [443], 'proto': 'tcp', 'apply': true}}".
Definition segment_to (d : Z) : Packet := {| oifname := u "eth0"; daddr := V4 site; l4 := TCP d |}.

(** The host whose kernel already allows what is asked. *)
Definition by_hand : toy := behind [Addr site] [Port 443] [].
Definition handled : World toy := (handle_line (req_site ++ [10%N]) (world_of by_hand)).1.
Lemma handled_kernel : w_kernel handled = by_hand.
Proof. apply (@bool_decide_unpack _ (gmap_eq_dec (A:=list element) _ _ _)). vm_compute. exact I. Qed.
Lemma site_line : line_text (req_site ++ [10%N]) = req_site.
Proof. vm_compute. reflexivity. Qed.
Lemma handled_history : history default_cfg (world_of by_hand) [req_site] handled.
Proof.
  assert (is_ok (handle_line (req_site ++ [10%N]) (world_of by_hand)).2 = true) as Hok by (vm_compute; reflexivity).
  rewrite <-site_line. unfold handled.
  destruct (handle_line (req_site ++ [10%N]) (world_of by_hand)) as [w1 [out|e]] eqn:Hl; [|discriminate Hok].
  eapply h_request; [exact Hl|apply h_nil].
Qed.
Lemma handled_inv : store_inv handled.
Proof. apply (history_rows default_cfg (world_of by_hand) [req_site] handled handled_history), fresh_inv. Qed.
Lemma handled_verify : Egress.verify default_cfg handled = ((Egress.verify default_cfg handled).1, Ok tt).
Proof.
  rewrite (surjective_pairing (Egress.verify default_cfg handled)) at 1.
  apply (f_equal2 pair); [reflexivity|vm_compute; reflexivity].
Qed.

Lemma site_request a : asked [req_site] a → plain_request a.
Proof.
  intros (raw & ->%list_elem_of_singleton & Ha).
  assert (match install_request req_site with Some b => forallb (forallb plain_char) (ia_targets b) | None => false end
          = true) as Hb by (vm_compute; reflexivity).
  rewrite Ha in Hb. unfold plain_request, plain. apply Forall_forall. intros t Ht%list_elem_of_In.
  rewrite forallb_forall in Hb. specialize (Hb t Ht). apply Forall_forall. intros c Hc%list_elem_of_In.
  rewrite forallb_forall in Hb. by apply Hb.
Qed.
Lemma handled_plain : plain_targets (abs_of handled).
Proof.
  apply (history_plain (world_of by_hand) [req_site] handled); [apply fresh_inv|reflexivity|apply handled_history|].
  apply site_request.
Qed.

Lemma site_ok : element_ok (Addr site).
Proof. by vm_compute. Qed.
Lemma behind_running v4 tcp udp : Forall element_ok (v4 ++ tcp ++ udp) → running (behind v4 tcp udp).
Proof.
  intros [Hv [Ht Hu]%Forall_app]%Forall_app. split; [|reflexivity]. split; [repeat constructor|].
  intros n. unfold frontier_sets. rewrite !elem_of_cons, elem_of_nil. intros [->|[->|[->|[]]]]; assumption.
Qed.

Lemma by_hand_running : running (w_kernel handled).
Proof.
  rewrite handled_kernel. apply behind_running.
  repeat (apply Forall_cons_2; [by vm_compute|]). apply Forall_nil_2.
Qed.
Lemma by_hand_single : single_ports (w_kernel handled).
Proof.
  rewrite handled_kernel. intros [] e; [by intros ?%not_elem_of_nil|].
  by intros ->%list_elem_of_singleton.
Qed.

(** ** Witnesses *)

Lemma baseline_denies_witness :
  verdict (contents by_hand) output (segment_to 443) = Accept ∧
  verdict initial_contents output (segment_to 443) = Drop.
Proof.
  destruct (baseline_denies (contents by_hand) (segment_to 443)) as (Hspec & _ & Hinit); [reflexivity|].
  split.
  - apply Hspec. right. exists site, false, 443%Z. split; [done|].
    split; [exists (Addr site)|exists (Port 443)]; (split; [left|reflexivity]).
  - destruct (verdict initial_contents output (segment_to 443)) eqn:Hv; [|reflexivity]. exfalso.
    destruct (proj1 Hinit eq_refl) as [Hlo|(a & [= <-] & Ha)]; [discriminate Hlo|].
    revert Ha. unfold private, site, ip. lia.
Defined.

Lemma verify_sets_exact_witness :
  verify_sets {[u "93.184.216.34"]} {[u "443"]} ∅ default_cfg handled = (handled, Ok tt) ∧
  ∃ e, verify_sets {[u "93.184.216.34"]} {[u "443"; u "80"]} ∅ default_cfg handled = (handled, Err e).
Proof.
  split.
  - destruct (verify_sets_exact {[u "93.184.216.34"]} {[u "443"]} ∅ default_cfg handled)
      as (r & Hr & Hok & _); [apply by_hand_running|].
    rewrite Hr. f_equal. apply Hok. rewrite handled_kernel. split_and!; vm_compute; reflexivity.
  - destruct (verify_sets_exact {[u "93.184.216.34"]} {[u "443"; u "80"]} ∅ default_cfg handled)
      as (r & Hr & Hok & _); [apply by_hand_running|].
    destruct r as [[]|e]; [|exists e; exact Hr]. destruct (proj1 Hok eq_refl) as (_ & HT & _).
    exfalso. rewrite handled_kernel in HT. revert HT. apply (bool_decide_unpack _). vm_compute. exact I.
Defined.

Lemma verified_egress_witness :
  ∃ a udp d, goes_to (segment_to 443) a udp d ∧
    addr_allowed (asked [req_site]) (clock (w_tick handled)) (dotted a) ∧
    port_allowed (asked [req_site]) (clock (w_tick handled)) udp (str_of_Z d).
Proof.
  destruct (verified_egress (world_of by_hand) [req_site] handled _ (segment_to 443) (fresh_inv _) eq_refl
    handled_history site_request by_hand_running by_hand_single handled_verify) as [[Hlo|(a & [= <-] & Ha)]|Hok].
  - rewrite handled_kernel. vm_compute. reflexivity.
  - discriminate Hlo.
  - exfalso. revert Ha. unfold private, site, ip. lia.
  - exact Hok.
Defined.

Lemma verified_egress_exact_witness :
  granted_packet (abs_of handled) (clock (w_tick handled)) (segment_to 443) ∧
  ¬ granted_packet (abs_of handled) (clock (w_tick handled)) (segment_to 80).
Proof.
  pose proof (λ q, verified_egress_exact handled _ q handled_inv handled_plain by_hand_running by_hand_single
    handled_verify) as Hspec.
  assert (∀ d, ¬ local_packet (segment_to d)) as Hlocal.
  { intros d [Hlo|(a & [= <-] & Ha)]; [discriminate Hlo|]. revert Ha. unfold private, site, ip. lia. }
  split.
  - assert (egress_verdict (w_kernel handled) (segment_to 443) = Accept) as Hv by (rewrite handled_kernel; vm_compute; reflexivity).
    destruct (proj1 (Hspec _) Hv) as [Hl|Hg]; [by destruct (Hlocal 443%Z)|exact Hg].
  - intros Hg. assert (egress_verdict (w_kernel handled) (segment_to 80) = Accept) as Hv by (apply Hspec; by right).
    rewrite handled_kernel in Hv. vm_compute in Hv. discriminate Hv.
Defined.

(** TCP ports 8000 to 9000 are opened in the kernel: [verify] is still content,
    and 93.184.216.34:8080 can be reached. *)
Definition widened : toy := behind [Addr site] [PortRange 8000 9000; Port 443] [].
Lemma verify_misses_ranges_witness :
  (Egress.verify default_cfg (set_kernel widened handled)).2 = Ok tt ∧
  egress_verdict widened (segment_to 8080) = Accept.
Proof.
  assert (opened (w_kernel handled) false 8000 9000 widened) as Hop.
  { rewrite handled_kernel. split; [|reflexivity..]. apply behind_running.
    repeat (apply Forall_cons_2; [by vm_compute|]). apply Forall_nil_2. }
  destruct (verify_misses_ranges handled _ widened false 8000 9000 (segment_to 8080) site 8080 handled_inv
    handled_plain by_hand_running handled_verify Hop) as [Hv Hp].
  split; [exact Hv|]. clear Hop Hv. apply Hp; [split; reflexivity| |split; discriminate].
  destruct (verify_agrees _ _ handled_inv (run_frontier _ by_hand_running) handled_verify) as [HA _].
  apply HA. rewrite handled_kernel. apply (bool_decide_unpack _). vm_compute. exact I.
Defined.

(** The same request, with its apply, on a host that starts shut. *)
Definition shut_start : World toy := world_of (behind [] [] []).
Definition shut_end : World toy := (handle_line (req_site ++ [10%N]) shut_start).1.
Lemma gate_never_opens_witness : egress_verdict (w_kernel shut_end) (segment_to 443) = Drop.
Proof.
  destruct (gate_never_opens shut_start [req_site] shut_end (segment_to 443)) as [Hv _].
  - split; [apply fresh_inv|constructor|]. split; [|reflexivity].
    intros n. unfold frontier_sets. rewrite !elem_of_cons, elem_of_nil. intros [->|[->|[->|[]]]]; reflexivity.
  - assert (is_ok (handle_line (req_site ++ [10%N]) shut_start).2 = true) as Hok by (vm_compute; reflexivity).
    rewrite <-site_line. unfold shut_end.
    destruct (handle_line (req_site ++ [10%N]) shut_start) as [w1 [out|e]] eqn:Hl; [|discriminate Hok].
    eapply un_request; [exact Hl|apply un_nil].
  - apply site_request.
  - destruct (egress_verdict _ _) eqn:He; [|reflexivity].
    exfalso. destruct (Hv eq_refl) as [Hlo|(a & [= <-] & Ha)]; [discriminate Hlo|].
    revert Ha. unfold private, site, ip. lia.
Defined.

(** The host opened by hand, with an empty store: an apply closes it. *)
Definition opened_host : World toy := world_of by_hand.
Lemma opened_ready : apply_ready default_cfg opened_host.
Proof.
  split; [apply default_cfg_plain|reflexivity|repeat constructor|apply fresh_inv|reflexivity|].
  apply clean_rows_targets; [apply fresh_inv|constructor].
Qed.
Lemma apply_closes_witness :
  egress_verdict (w_kernel opened_host) (segment_to 443) = Accept ∧
  ∃ w', Egress.apply default_cfg opened_host = (w', Ok tt) ∧ egress_verdict (w_kernel w') (segment_to 443) = Drop.
Proof.
  split; [vm_compute; reflexivity|].
  destruct (apply_closes opened_host (segment_to 443) opened_ready) as (w' & Hr & Hv).
  - reflexivity.
  - intros [(x & (k & g & Hk & _) & _)|(b & x & k & g & Hk & _)]; discriminate Hk.
  - exists w'. split; [exact Hr|]. destruct (egress_verdict (w_kernel w') (segment_to 443)) eqn:He; [|reflexivity].
    exfalso. destruct (proj1 Hv eq_refl) as [Hlo|(a & [= <-] & Ha)]; [discriminate Hlo|].
    revert Ha. unfold private, site, ip. lia.
Defined.
