(* ===== verification/Sha256.v ===== *)
(** * SHA-256 ([hashlib.sha256])

    The hash of FIPS 180-4 on a list of bytes, and its hexadecimal digest.  A
    word is an [N] below 2^32; every operation that can leave that range is
    reduced. *)
From S2P Require Import Prelude PyStr.
#[local] Open Scope N_scope.

Definition w32 (x : N) : N := x mod 2 ^ 32.
Definition rotr (n x : N) : N := N.lor (N.shiftr x n) (w32 (N.shiftl x (32 - n))).
Definition add32 (x y : N) : N := w32 (x + y).
Definition not32 (x : N) : N := 2 ^ 32 - 1 - x.

Definition ch (x y z : N) : N := N.lxor (N.land x y) (N.land (not32 x) z).
Definition maj (x y z : N) : N := N.lxor (N.lxor (N.land x y) (N.land x z)) (N.land y z).
Definition bsig0 (x : N) : N := N.lxor (N.lxor (rotr 2 x) (rotr 13 x)) (rotr 22 x).
Definition bsig1 (x : N) : N := N.lxor (N.lxor (rotr 6 x) (rotr 11 x)) (rotr 25 x).
Definition ssig0 (x : N) : N := N.lxor (N.lxor (rotr 7 x) (rotr 18 x)) (N.shiftr x 3).
Definition ssig1 (x : N) : N := N.lxor (N.lxor (rotr 17 x) (rotr 19 x)) (N.shiftr x 10).

(** The first 32 bits of the fractional parts of the cube roots of the first 64
    primes, and of the square roots of the first 8. *)
Definition round_constants : list N := [
    1116352408; 1899447441; 3049323471; 3921009573; 961987163; 1508970993; 2453635748;
    2870763221; 3624381080; 310598401; 607225278; 1426881987; 1925078388; 2162078206;
    2614888103; 3248222580; 3835390401; 4022224774; 264347078; 604807628; 770255983; 1249150122;
    1555081692; 1996064986; 2554220882; 2821834349; 2952996808; 3210313671; 3336571891;
    3584528711; 113926993; 338241895; 666307205; 773529912; 1294757372; 1396182291; 1695183700;
    1986661051; 2177026350; 2456956037; 2730485921; 2820302411; 3259730800; 3345764771;
    3516065817; 3600352804; 4094571909; 275423344; 430227734; 506948616; 659060556; 883997877;
    958139571; 1322822218; 1537002063; 1747873779; 1955562222; 2024104815; 2227730452;
    2361852424; 2428436474; 2756734187; 3204031479; 3329325298].
Definition initial_hash : list N := [
    1779033703; 3144134277; 1013904242; 2773480762; 1359893119; 2600822924; 528734635;
    1541459225].

(** Big-endian bytes of [x], the lowest [n] of them. *)
Fixpoint be_bytes (n : nat) (x : N) : list N :=
  match n with
  | O => []
  | S n' => be_bytes n' (x / 256) ++ [x mod 256]
  end.

(** A one bit, zeros, and the length in bits, up to a multiple of 64 bytes. *)
Definition pad (m : list N) : list N :=
  let len := N.of_nat (length m) in
  let zeros := N.to_nat ((119 - len mod 64) mod 64) in
  m ++ [128] ++ replicate zeros 0 ++ be_bytes 8 (8 * len).

Fixpoint words (m : list N) : list N :=
  match m with
  | a :: b :: c :: d :: m' => ((a * 256 + b) * 256 + c) * 256 + d :: words m'
  | _ => []
  end.

(** The message schedule: [ws] holds the words so far, last one first. *)
Definition next_word (ws : list N) : N :=
  let w i := nth i ws 0 in
  w32 (ssig1 (w 1%nat) + w 6%nat + ssig0 (w 14%nat) + w 15%nat).
Fixpoint extend (n : nat) (ws : list N) : list N :=
  match n with O => ws | S n' => extend n' (next_word ws :: ws) end.
Definition schedule (block : list N) : list N := reverse (extend 48 (reverse block)).

Record regs := Regs { ra : N; rb : N; rc : N; rd : N; re : N; rf : N; rg : N; rh : N }.
Definition sha_round (s : regs) (kw : N * N) : regs :=
  let '(k, w) := kw in
  let t1 := w32 (rh s + bsig1 (re s) + ch (re s) (rf s) (rg s) + k + w) in
  let t2 := w32 (bsig0 (ra s) + maj (ra s) (rb s) (rc s)) in
  Regs (add32 t1 t2) (ra s) (rb s) (rc s) (add32 (rd s) t1) (re s) (rf s) (rg s).
Definition regs_list (s : regs) : list N := [ra s; rb s; rc s; rd s; re s; rf s; rg s; rh s].
Definition list_regs (l : list N) : regs :=
  let r i := nth i l 0 in
  Regs (r 0%nat) (r 1%nat) (r 2%nat) (r 3%nat) (r 4%nat) (r 5%nat) (r 6%nat) (r 7%nat).
Definition compress (h block : list N) : list N :=
  let s := foldl sha_round (list_regs h) (zip round_constants (schedule block)) in
  zip_with add32 h (regs_list s).

Fixpoint blocks (n : nat) (ws h : list N) : list N :=
  match n with
  | O => h
  | S n' => blocks n' (drop 16 ws) (compress h (take 16 ws))
  end.

Definition sha256 (m : list N) : list N :=
  let ws := words (pad m) in
  blocks (length ws / 16) ws initial_hash ≫= be_bytes 4.
(** [hashlib.sha256(m).hexdigest()] *)
Definition hexdigest (digest : list N) : pystr := digest ≫= hex 2.

(** ** Lemmas *)

Lemma hex_length n c : length (hex n c) = n.
Proof. revert c. induction n as [|n IH]; intros c; simpl; [done|]. rewrite length_app, IH. simpl. lia. Qed.
Lemma be_bytes_length n x : length (be_bytes n x) = n.
Proof. revert x. induction n as [|n IH]; intros x; simpl; [done|]. rewrite length_app, IH. simpl. lia. Qed.
Lemma compress_length h b : length h = 8%nat → length (compress h b) = 8%nat.
Proof. intros Hh. unfold compress. rewrite length_zip_with, Hh. done. Qed.
Lemma blocks_length n ws h : length h = 8%nat → length (blocks n ws h) = 8%nat.
Proof. revert ws h. induction n as [|n IH]; intros ws h Hh; simpl; [done|]. by apply IH, compress_length. Qed.
Lemma bind_length {A B} (f : A → list B) n l :
  (∀ a, length (f a) = n) → length (l ≫= f) = (length l * n)%nat.
Proof.
  intros Hf. induction l as [|a l IH]; [done|]. rewrite bind_cons, length_app, Hf, IH. done.
Qed.
Lemma sha256_length m : length (sha256 m) = 32%nat.
Proof. unfold sha256. rewrite (bind_length _ 4) by (intros; apply be_bytes_length). by rewrite blocks_length. Qed.
Lemma hexdigest_length m : length (hexdigest (sha256 m)) = 64%nat.
Proof. unfold hexdigest. rewrite (bind_length _ 2) by (intros; apply hex_length). by rewrite sha256_length. Qed.

(** Three messages with their published digests: empty, one block, two blocks. *)
Example sha256_empty : hexdigest (sha256 []) =
  u "e3b0c44298fc1c149afbf4c8996fb92427ae41e4649b934ca495991b7852b855".
Proof. vm_compute. reflexivity. Qed.
Example sha256_abc : hexdigest (sha256 (u "abc")) =
  u "ba7816bf8f01cfea414140de5dae2223b00361a396177a9cb410ff61f20015ad".
Proof. vm_compute. reflexivity. Qed.
Example sha256_two_blocks :
  hexdigest (sha256 (u "abcdbcdecdefdefgefghfghighijhijkijkljklmklmnlmnomnopnopq")) =
  u "248d6a61d20638b8e5c026930c3e6039a33ce45964ff2167f6ecedd419db06c1".
Proof. vm_compute. reflexivity. Qed.
