(* ===== verification/PySet.v ===== *)
(** * Sets and sorting of JSON scalars

    [set(l)], difference, intersection and [sorted] on the values [json.loads]
    returns: equality and hashing as Python has them ([1 == True == 1.0]), the
    [TypeError]s of unhashable elements and of orders that do not exist.  NaN is
    left out: Python's answers for it depend on object identity.  The message
    of an order error names the types of the pair compared first, which depends
    on string hashing; here it names the first two types that differ. *)
From S2P Require Import Prelude PyStr PyFloat PyJson Errors PyOps.
From Stdlib Require Import SpecFloat.

Definition as_number (j : json) : option (Z + pyfloat) :=
  match j with
  | JInt z => Some (inl z)
  | JBool b => Some (inl (if b then 1 else 0)%Z)
  | JFloat f => Some (inr f)
  | _ => None
  end.
Definition num_compare (x y : Z + pyfloat) : option comparison :=
  match x, y with
  | inl a, inl b => Some (a ?= b)%Z
  | inr f, inl b => float_compare_Z f b
  | inl a, inr g => CompOpp <$> float_compare_Z g a
  | inr f, inr g => SFcompare f g
  end.
(** [x == y] on scalars. *)
Definition py_eq (x y : json) : bool :=
  match x, y with
  | JNull, JNull => true
  | JStr s, JStr t => bool_decide (s = t)
  | _, _ => match as_number x, as_number y with
            | Some a, Some b => bool_decide (num_compare a b = Some Eq)
            | _, _ => false
            end
  end.
Definition hashable (j : json) : bool := match j with JList _ | JDict _ => false | _ => true end.
Definition py_mem (x : json) (l : list json) : bool := existsb (py_eq x) l.

(** [set(l)]: the first of equal elements, in order. *)
Fixpoint py_set (l : list json) : pyres (list json) :=
  match l with
  | [] => Ok []
  | x :: l' =>
      if hashable x then
        s ← py_set l'; Ok (x :: filter (λ y, py_eq x y = false) s)
      else Err (Exn TypeError (u "unhashable type: '" ++ type_name x ++ u "'"))
  end.
Definition set_diff (a b : list json) : list json := filter (λ x, py_mem x b = false) a.
Definition set_inter (a b : list json) : list json := filter (λ x, py_mem x b = true) a.

Definition num_le (x y : json) : Prop :=
  match as_number x, as_number y with
  | Some a, Some b => num_compare a b ≠ Some Gt
  | _, _ => False
  end.
Global Instance num_le_dec : RelDecision num_le.
Proof. intros x y. unfold num_le. destruct (as_number x), (as_number y); apply _. Defined.
Definition as_str (j : json) : option pystr := match j with JStr s => Some s | _ => None end.
Definition is_number (j : json) : bool := bool_decide (is_Some (as_number j)).
Definition not_ordered (l : list json) : pystr :=
  let a := hd JNull l in
  let b := default a (List.find (λ y, negb (bool_decide (type_name y = type_name a))) l) in
  u "'<' not supported between instances of '" ++ type_name b ++ u "' and '" ++ type_name a ++ u "'".
(** [sorted(s)] *)
Definition py_sorted (s : list json) : pyres (list json) :=
  if forallb (λ j, bool_decide (is_Some (as_str j))) s then Ok (map JStr (sorted (omap as_str s)))
  else if forallb is_number s then Ok (merge_sort num_le s)
  else match s with
  | [_] => Ok s
  | _ => Err (Exn TypeError (not_ordered s))
  end.

(** ** On strings *)

Definition strs (ss : list pystr) : list json := map JStr ss.

Lemma py_mem_strs s ss : py_mem (JStr s) (strs ss) = bool_decide (s ∈ ss).
Proof.
  unfold py_mem, strs. induction ss as [|t ss IH]; [done|]. cbn [map existsb py_eq]. rewrite IH.
  apply eq_true_iff_eq. rewrite orb_true_iff, !bool_decide_eq_true. set_solver.
Qed.
Lemma filter_strs (P : json → Prop) (Q : pystr → Prop) `{!∀ j, Decision (P j), !∀ s, Decision (Q s)} ss :
  (∀ s, P (JStr s) ↔ Q s) → filter P (strs ss) = strs (filter Q ss).
Proof.
  intros HPQ. unfold strs. induction ss as [|s ss IH]; [done|]. cbn [map]. rewrite !filter_cons.
  case_decide as Hp; case_decide as Hq; cbn [map]; rewrite IH; naive_solver.
Qed.
(** The distinct strings, first occurrences in order. *)
Fixpoint distinct (ss : list pystr) : list pystr :=
  match ss with [] => [] | s :: ss' => s :: filter (λ t, t ≠ s) (distinct ss') end.
Lemma elem_of_distinct s ss : s ∈ distinct ss ↔ s ∈ ss.
Proof.
  induction ss as [|t ss IH]; [done|]. cbn [distinct]. rewrite !elem_of_cons, list_elem_of_filter, IH.
  destruct (decide (s = t)); naive_solver.
Qed.
Lemma NoDup_distinct ss : NoDup (distinct ss).
Proof.
  induction ss as [|t ss IH]; [constructor|]. cbn [distinct]. apply NoDup_cons.
  split; [rewrite list_elem_of_filter; naive_solver|]. by apply NoDup_filter.
Qed.
Lemma py_set_strs ss : py_set (strs ss) = Ok (strs (distinct ss)).
Proof.
  induction ss as [|s ss IH]; [done|]. unfold strs in *. cbn [map py_set hashable]. rewrite IH.
  cbn [mbind res_bind distinct map]. f_equal. apply f_equal, filter_strs. intros t. cbn [py_eq].
  rewrite bool_decide_eq_false. naive_solver.
Qed.
Lemma set_diff_strs a b : set_diff (strs a) (strs b) = strs (filter (λ s, s ∉ b) a).
Proof. apply filter_strs. intros s. rewrite py_mem_strs. apply bool_decide_eq_false. Qed.
Lemma omap_strs ss : omap as_str (strs ss) = ss.
Proof. induction ss as [|s ss IH]; [done|]. unfold strs in *. cbn. by f_equal. Qed.
Lemma py_sorted_strs ss : py_sorted (strs ss) = Ok (strs (sorted ss)).
Proof.
  unfold py_sorted, strs.
  replace (forallb _ _) with true by (induction ss as [|s ss IH]; [done|by simpl; rewrite <-IH]).
  pose proof (omap_strs ss) as Hs. unfold strs in Hs. by rewrite Hs.
Qed.
(** [sorted(set(l))] on strings is the sorted list of the set. *)
Lemma sorted_distinct ss : sorted (distinct ss) = sorted_set (list_to_set ss).
Proof.
  unfold sorted_set. apply sorted_proper, NoDup_Permutation; [apply NoDup_distinct|apply NoDup_elements|].
  intros s. by rewrite elem_of_distinct, elem_of_elements, elem_of_list_to_set.
Qed.
Lemma sorted_distinct_diff a b :
  sorted (filter (λ s, s ∉ distinct b) (distinct a))
  = sorted_set (list_to_set a ∖ list_to_set b).
Proof.
  unfold sorted_set. apply sorted_proper, NoDup_Permutation; [apply NoDup_filter, NoDup_distinct|apply NoDup_elements|].
  intros s. rewrite list_elem_of_filter, !elem_of_distinct, elem_of_elements, elem_of_difference, !elem_of_list_to_set.
  naive_solver.
Qed.
