(* ===== verification/Canon.v ===== *)
(** * Canonical JSON and digests

    The helpers the truth-plane tools and the image builder share: canonical
    JSON for hashing, its SHA-256, [drop_nulls], [_write_json].  Each tool has a
    copy of its own of these functions, with the same body; the lines mapped
    are those of sourceos_truth_surface.py and sourceos_delta_surface.py. *)
From S2P Require Import Prelude PyStr PyJson PyJsonRoundtrip Errors PyOps Sha256 World.

Definition _c14n_json (obj : json) : pystr := dumps opts_compact true obj.

(** [s.encode("utf-8")] *)
Definition py_encode (s : pystr) : pyres (list N) :=
  _ ← check_utf8 s; res_of_option (Exn UnicodeError []) (utf8_encode s).

Definition _sha256_hex (b : list N) : pystr := hexdigest (sha256 b).

(** [_sha256_hex(_c14n_json(obj).encode("utf-8"))] *)
Definition canonical_digest (obj : json) : pyres pystr :=
  b ← py_encode (_c14n_json obj); mret (_sha256_hex b).

Fixpoint drop_nulls (x : json) : json :=
  match x with
  | JDict d =>
      JDict ((fix items (d : dict) : dict := match d with
        | [] => []
        | (k, v) :: d' => if decide (v = JNull) then items d'
                          else if decide (drop_nulls v = JNull) then items d'
                          else (k, drop_nulls v) :: items d'
        end) d)
  | JList l =>
      JList ((fix elems (l : list json) : list json := match l with
        | [] => []
        | v :: l' => if decide (v = JNull) then elems l' else drop_nulls v :: elems l'
        end) l)
  | _ => x
  end.

(** A value that is the JSON object it is expected to be ([dict(x)], [x.pop]
    are only applied to such). *)
Definition as_dict (x : json) : pyres dict :=
  match x with JDict d => Ok d | _ => no_attr x (u "pop") end.

(** An optional command-line argument: [None] or a string. *)
Definition opt_str (o : option pystr) : json := match o with Some s => JStr s | None => JNull end.
(** [o or s] for an optional string. *)
Definition opt_or (o : option pystr) (s : pystr) : pystr :=
  match o with Some (c :: t) => c :: t | _ => s end.
Definition opt_truthy (o : option pystr) : bool := match o with Some (_ :: _) => true | _ => false end.

(** A path of the tools is the list of the parts of an absolute path.
    [p / s]: an absolute [s] replaces [p]. *)
Definition path_parts (s : pystr) : path := filter (λ c, c ≠ [] ∧ c ≠ u ".") (split 47 s).
Definition path_join (p : path) (s : pystr) : path :=
  if startswith (u "/") s then path_parts s else p ++ path_parts s.

(** [str(Path(s))] *)
Definition path_str (s : pystr) : pystr :=
  if startswith (u "/") s then posix (path_parts s)
  else match path_parts s with [] => u "." | ps => join (u "/") ps end.

(** [createdAt.replace(":", "").replace("-", "")] *)
Definition compact_stamp (s : pystr) : pystr := replace (u "-") [] (replace (u ":") [] s).

(** Where a tool's [main] puts the document. *)
Record Output := { o_out : option path; o_store_root : option path }.

(** [doc["createdAt"].replace(":", "").replace("-", "")] *)
Definition stamp_of (doc : dict) : pyres pystr :=
  v ← py_item doc (u "createdAt");
  match v with JStr s => Ok (compact_stamp s) | _ => no_attr v (u "replace") end.

Section files.
Context {K : Type} `{Env K}.

Definition _utc_now_iso : W K pystr := now_iso_utc.

(** [path.write_text(s)] after [_ensure_dir(path.parent)] *)
Definition write_text (p : path) (s : pystr) : W K unit :=
  modify (λ w, set_fs (<[p := s]> (w_fs w)) w).
Definition pretty (obj : json) : pystr := dumps opts_indent2 true obj.
Definition _write_json (p : path) (obj : json) : W K unit := write_text p (pretty obj ++ [10%N]).

(** [json.loads(path.read_text(encoding="utf-8"))] *)
Definition read_text (p : path) : W K pystr :=
  fs ← gets w_fs;
  lift (res_of_option (Exn FileNotFoundError (u "[Errno 2] No such file or directory: "
                         ++ repr (u "/" ++ join (u "/") p))) (fs !! p)).
Definition _read_json (p : path) : W K json := s ← read_text p; lift (py_loads s).
(** [o or f()]: [f] is called only when [o] is absent or empty. *)
Definition or_else (o : option pystr) (f : W K pystr) : W K pystr :=
  if opt_truthy o then mret (opt_or o []) else f.
End files.
