(* ===== verification/CanonFacts.v ===== *)
(** * Canonical JSON is canonical

    [jeq] is Python's [==] on decoded documents (objects compared without the
    order of their keys).  Two documents have the same canonical text exactly
    when they are equal; the digest of a document commits to it up to SHA-256
    collisions; and documents survive being written to a file and read back. *)
From S2P Require Import Prelude PyStr PyJson PyJsonFacts PyJsonRoundtrip PyJsonStrings.
From S2P Require Import PyDict Errors PyOps Sha256 World Canon.

(** ** Equality of documents *)

Fixpoint jeq (x y : json) : bool :=
  match x, y with
  | JList l, JList k =>
      (fix all2 (l k : list json) : bool := match l, k with
       | [], [] => true
       | a :: l', b :: k' => jeq a b && all2 l' k'
       | _, _ => false
       end) l k
  | JDict d, JDict e =>
      (length d =? length e)%nat &&
      (fix items (d : dict) : bool := match d with
       | [] => true
       | (k, v) :: d' => match dict_get k e with Some v' => jeq v v' | None => false end && items d'
       end) d
  | JList _, _ | JDict _, _ => false
  | _, _ => bool_decide (x = y)
  end.

Lemma jeq_list l k : jeq (JList l) (JList k) = true ↔ Forall2 (λ a b, jeq a b = true) l k.
Proof.
  cbn [jeq]. revert k. induction l as [|a l IH]; intros [|b k].
  - done.
  - split; [done|inversion 1].
  - split; [done|inversion 1].
  - rewrite andb_true_iff, IH. split; [intros []; by constructor|by inversion 1].
Qed.
Lemma jeq_dict d e :
  jeq (JDict d) (JDict e) = true ↔
  length d = length e ∧ Forall (λ kv, ∃ v, dict_get kv.1 e = Some v ∧ jeq kv.2 v = true) d.
Proof.
  cbn [jeq]. rewrite andb_true_iff, Nat.eqb_eq. f_equiv.
  induction d as [|[k v] d IH]; [done|]. rewrite andb_true_iff, IH, Forall_cons. simpl. f_equiv.
  destruct (dict_get k e) as [v'|]; split; try naive_solver.
Qed.

(** ** Sorted objects *)

Definition sort_item (kv : pystr * json) : pystr * json := (kv.1, sort_keys kv.2).
Lemma sort_item_keys d : map fst (map sort_item d) = map fst d.
Proof. rewrite map_map. done. Qed.

Global Instance item_le_trans : Transitive item_le.
Proof. intros x y z. unfold item_le. apply transitivity. Qed.
Global Instance item_le_total : Total item_le.
Proof. intros x y. unfold item_le. apply total, _. Qed.

(** Permuted objects sort to the same object. *)
Lemma sorted_items_unique (d e : dict) :
  NoDup (map fst d) → d ≡ₚ e → merge_sort item_le d = merge_sort item_le e.
Proof.
  intros Hnd Hde. apply (StronglySorted_unique_strong item_le).
  - intros [k v] [k' v'] H1 H2 Hle Hle'.
    rewrite merge_sort_Permutation in H1. rewrite merge_sort_Permutation, <-Hde in H2.
    assert (k = k') as -> by (apply (anti_symm str_le); [exact Hle|exact Hle']).
    apply (dict_get_elem _ _ _ Hnd) in H1. apply (dict_get_elem _ _ _ Hnd) in H2. congruence.
  - apply StronglySorted_merge_sort; apply _.
  - apply StronglySorted_merge_sort; apply _.
  - by rewrite !merge_sort_Permutation.
Qed.

Lemma jeq_sort_keys x y :
  keys_ok x = true → keys_ok y = true → jeq x y = true → sort_keys x = sort_keys y.
Proof.
  revert y. induction x as [|b|z|f|s|l IH|d IH] using json_ind; intros y Hx Hy Hxy;
    try (destruct y; simpl in Hxy; try done; by apply bool_decide_eq_true in Hxy as [= ->]).
  - destruct y as [| | | | |k|]; try done. apply jeq_list in Hxy.
    apply keys_ok_list in Hx, Hy. simpl. f_equal.
    induction Hxy as [|a b l k Hab _ IHl]; [done|]. cbn [map].
    rewrite !Forall_cons in *. destruct IH, Hx, Hy. f_equal; auto.
  - destruct y as [| | | | | |e]; try done. apply jeq_dict in Hxy as [Hlen Hget].
    apply keys_ok_dict in Hx as [Hd Hkd], Hy as [He Hke]. simpl. f_equal.
    apply (sorted_items_unique (map sort_item d) (map sort_item e)); [by rewrite sort_item_keys|].
    apply submseteq_length_Permutation; [|by rewrite !length_map, Hlen].
    apply NoDup_submseteq.
    { apply (NoDup_fmap_1 fst). change (NoDup (map fst (map sort_item d))). by rewrite sort_item_keys. }
    intros kv (kv' & -> & Hin)%list_elem_of_fmap. rewrite Forall_forall in IH, Hkd, Hke, Hget.
    destruct (Hget kv' Hin) as (v & Hv%dict_get_Some & Hjv). apply list_elem_of_fmap.
    exists (kv'.1, v). split; [|done]. unfold sort_item. simpl. f_equal.
    apply IH; [done|by apply Hkd|by apply (Hke _ Hv)|done].
Qed.

Lemma sort_keys_jeq x y :
  keys_ok x = true → keys_ok y = true → sort_keys x = sort_keys y → jeq x y = true.
Proof.
  revert y. induction x as [|b|z|f|s|l IH|d IH] using json_ind; intros y Hx Hy Hxy;
    try (destruct y; simpl in Hxy; try done; injection Hxy as ->; by apply bool_decide_eq_true).
  - destruct y as [| | | | |k|]; try done. apply jeq_list. apply keys_ok_list in Hx, Hy.
    injection Hxy as Hxy. revert k Hy Hxy.
    induction l as [|a l IHl]; intros [|b k] Hy Hxy; [constructor|done|done|].
    injection Hxy as Ha Hl. rewrite !Forall_cons in *. destruct IH, Hx, Hy. constructor; auto.
  - destruct y as [| | | | | |e]; try done. apply jeq_dict.
    apply keys_ok_dict in Hx as [Hd Hkd], Hy as [He Hke].
    assert (map sort_item d ≡ₚ map sort_item e) as Hp.
    { assert (merge_sort item_le (map sort_item d) = merge_sort item_le (map sort_item e)) as Hs
        by (injection Hxy; auto).
      by rewrite <-(merge_sort_Permutation item_le (map sort_item d)), Hs, merge_sort_Permutation. }
    split; [by apply Permutation_length in Hp; rewrite !length_map in Hp|].
    rewrite Forall_forall in *. intros kv Hin.
    assert (sort_item kv ∈ map sort_item e) as ([k' v'] & Heq & Hin')%list_elem_of_fmap
      by (rewrite <-Hp; apply list_elem_of_fmap; by exists kv).
    injection Heq as -> Hv. exists v'. split; [by apply dict_get_elem|].
    apply IH; [done|by apply Hkd|by apply (Hke _ Hin')|done].
Qed.
Lemma sort_keys_iff x y :
  keys_ok x = true → keys_ok y = true → sort_keys x = sort_keys y ↔ jeq x y = true.
Proof. split; auto using jeq_sort_keys, sort_keys_jeq. Qed.

(** ** Canonical text *)

Lemma c14n_jeq x y : keys_ok x = true → keys_ok y = true → jeq x y = true → _c14n_json x = _c14n_json y.
Proof. intros Hx Hy Hxy. unfold _c14n_json, dumps. by rewrite (jeq_sort_keys x y). Qed.
Lemma c14n_inj x y :
  wf_json x = true → wf_json y = true → _c14n_json x = _c14n_json y → sort_keys x = sort_keys y.
Proof.
  intros Hx Hy Hxy. unfold _c14n_json in Hxy.
  pose proof (loads_dumps opts_compact true x opts_compact_ok Hx) as H1.
  pose proof (loads_dumps opts_compact true y opts_compact_ok Hy) as H2. congruence.
Qed.
Lemma c14n_iff x y :
  wf_json x = true → wf_json y = true → _c14n_json x = _c14n_json y ↔ jeq x y = true.
Proof.
  intros Hx Hy. pose proof (wf_keys_ok x Hx). pose proof (wf_keys_ok y Hy). split.
  - intros Hc. by apply sort_keys_jeq, c14n_inj.
  - by apply c14n_jeq.
Qed.

(** ** Encoding and digest are injective *)

Lemma utf8_char_inj c c' b b' r r' :
  utf8_char c = Some b → utf8_char c' = Some b' → b ++ r = b' ++ r' → c = c' ∧ r = r'.
Proof.
  unfold utf8_char. intros Hb Hb' Heq.
  repeat case_match; simplify_eq; simpl in *; simplify_eq;
    repeat match goal with H : is_surrogate _ = _ |- _ => clear H end;
    first [split; [lia|done] | exfalso; lia].
Qed.
Lemma utf8_char_nonempty c b : utf8_char c = Some b → b ≠ [].
Proof. unfold utf8_char. intros Hb. by repeat case_match; simplify_eq. Qed.
Lemma utf8_encode_cons c s b :
  utf8_encode (c :: s) = Some b ↔ ∃ x y, utf8_char c = Some x ∧ utf8_encode s = Some y ∧ b = x ++ y.
Proof.
  cbn [utf8_encode]. destruct (utf8_char c) as [x|], (utf8_encode s) as [y|]; cbn; naive_solver.
Qed.
Lemma utf8_encode_inj s t b : utf8_encode s = Some b → utf8_encode t = Some b → s = t.
Proof.
  revert t b. induction s as [|c s IH]; intros [|c' t] b Hs Ht; [done| | |].
  - injection Hs as <-. apply utf8_encode_cons in Ht as (x & y & Hx & _ & Heq).
    apply utf8_char_nonempty in Hx. by destruct x.
  - injection Ht as <-. apply utf8_encode_cons in Hs as (x & y & Hx & _ & Heq).
    apply utf8_char_nonempty in Hx. by destruct x.
  - apply utf8_encode_cons in Hs as (x & y & Hx & Hy & ->), Ht as (x' & y' & Hx' & Hy' & Heq).
    destruct (utf8_char_inj _ _ _ _ _ _ Hx Hx' Heq) as [-> <-]. f_equal. eauto.
Qed.
Lemma py_encode_inj s t b : py_encode s = Ok b → py_encode t = Ok b → s = t.
Proof.
  unfold py_encode. intros Hs Ht.
  destruct (check_utf8 s), (check_utf8 t), (utf8_encode s) eqn:?, (utf8_encode t) eqn:?; simplify_eq/=.
  eapply utf8_encode_inj; eauto.
Qed.
Lemma utf8_encode_total s : Forall (λ c, is_surrogate c = false) s → is_Some (utf8_encode s).
Proof.
  induction 1 as [|c s Hc _ [b Hb]]; [by eexists|]. cbn [utf8_encode]. rewrite Hb.
  unfold utf8_char. rewrite Hc. repeat case_match; by eexists.
Qed.
(** Encoding fails exactly on a surrogate. *)
Lemma py_encode_ok s : is_ok (py_encode s) = true ↔ Forall (λ c, is_surrogate c = false) s.
Proof.
  rewrite <-check_utf8_ok. unfold py_encode. split.
  - by destruct (check_utf8 s) as [[]|].
  - intros Hs. rewrite Hs. apply check_utf8_ok, utf8_encode_total in Hs as [b Hb]. cbn. by rewrite Hb.
Qed.

Lemma hex2_inj b c t t' : (b < 256)%N → (c < 256)%N → hex 2 b ++ t = hex 2 c ++ t' → b = c ∧ t = t'.
Proof.
  intros Hb Hc [= H1 H2 H3].
  assert (hex_value (hex_digit (b / 16 mod 16)) = hex_value (hex_digit (c / 16 mod 16))) as E1 by (by f_equal).
  assert (hex_value (hex_digit (b mod 16)) = hex_value (hex_digit (c mod 16))) as E2 by (by f_equal).
  rewrite !hex_value_digit in E1, E2 by (apply N.mod_lt; done). split; [|done].
  injection E1. injection E2. lia.
Qed.
Lemma hexdigest_inj a b :
  Forall (λ x, x < 256)%N a → Forall (λ x, x < 256)%N b → hexdigest a = hexdigest b → a = b.
Proof.
  unfold hexdigest. revert b. induction a as [|x a IH]; intros [|y b] Ha Hb H; [done..|].
  rewrite !Forall_cons in *. destruct Ha, Hb. rewrite !bind_cons in H.
  apply hex2_inj in H as [-> H]; [|done..]. f_equal. auto.
Qed.
Lemma be_bytes_bytes n x : Forall (λ b, b < 256)%N (be_bytes n x).
Proof.
  revert x. induction n as [|n IH]; intros x; simpl; [constructor|]. apply Forall_app. split; [apply IH|].
  constructor; [|constructor]. by apply N.mod_lt.
Qed.
Lemma sha256_bytes m : Forall (λ b, b < 256)%N (sha256 m).
Proof. unfold sha256. apply Forall_bind, Forall_forall. intros x _. apply be_bytes_bytes. Qed.

(** Two messages with the same digest. *)
Definition collision (a b : list N) : Prop := a ≠ b ∧ sha256 a = sha256 b.

Lemma sha256_hex_inj a b : _sha256_hex a = _sha256_hex b → a = b ∨ collision a b.
Proof.
  intros H. apply hexdigest_inj in H; [|apply sha256_bytes..].
  destruct (decide (a = b)); [by left|by right].
Qed.

(** ** Sorted documents *)

Lemma merge_sort_idemp (d : dict) : NoDup (map fst d) →
  merge_sort item_le (merge_sort item_le d) = merge_sort item_le d.
Proof.
  intros Hd. symmetry. apply sorted_items_unique; [done|]. by rewrite merge_sort_Permutation.
Qed.
Lemma sort_keys_idemp j : keys_ok j = true → sort_keys (sort_keys j) = sort_keys j.
Proof.
  induction j as [|b|z|f|s|l IH|d IH] using json_ind; try done.
  - rewrite keys_ok_list. intros Hl. simpl. f_equal. rewrite map_map.
    apply map_ext_in. intros x Hx%list_elem_of_In. rewrite Forall_forall in IH, Hl. auto.
  - rewrite keys_ok_dict. intros [Hd Hk]. simpl. f_equal.
    change (λ kv : pystr * json, (kv.1, sort_keys kv.2)) with sort_item.
    rewrite <-(merge_sort_idemp (map sort_item d)) at 2 by (by rewrite sort_item_keys).
    f_equal. rewrite <-(map_id (merge_sort item_le (map sort_item d))) at 2.
    apply map_ext_in. intros kv Hkv%list_elem_of_In. rewrite merge_sort_Permutation in Hkv.
    apply list_elem_of_fmap in Hkv as (kv' & -> & Hin). unfold sort_item. simpl. f_equal.
    rewrite Forall_forall in IH, Hk. auto.
Qed.

Definition sorted_items (d : dict) : dict := merge_sort item_le (map sort_item d).
Lemma sort_keys_dict d : sort_keys (JDict d) = JDict (sorted_items d).
Proof. done. Qed.
Lemma sorted_items_Permutation d : sorted_items d ≡ₚ map sort_item d.
Proof. apply merge_sort_Permutation. Qed.
Lemma sorted_items_keys d : map fst (sorted_items d) ≡ₚ map fst d.
Proof. rewrite sorted_items_Permutation. by rewrite sort_item_keys. Qed.
Lemma sorted_items_NoDup d : NoDup (map fst d) → NoDup (map fst (sorted_items d)).
Proof. by rewrite sorted_items_keys. Qed.

Lemma sort_keys_keys_ok j : keys_ok j = true → keys_ok (sort_keys j) = true.
Proof.
  induction j as [|b|z|f|s|l IH|d IH] using json_ind; try done.
  - rewrite keys_ok_list. intros Hl. apply keys_ok_list, Forall_forall. rewrite Forall_forall in *.
    intros x (y & -> & Hy)%list_elem_of_fmap. auto.
  - rewrite keys_ok_dict, sort_keys_dict. intros [Hd Hk]. apply keys_ok_dict.
    split; [by apply sorted_items_NoDup|]. rewrite sorted_items_Permutation. rewrite Forall_forall in *.
    intros x (y & -> & Hy)%list_elem_of_fmap. simpl. auto.
Qed.

(** Sorting reorders the items and sorts the values. *)
Lemma dict_get_sorted k d : NoDup (map fst d) →
  dict_get k (sorted_items d) = sort_keys <$> dict_get k d.
Proof.
  intros Hd. pose proof (sorted_items_NoDup d Hd) as Hs.
  destruct (dict_get k d) as [v|] eqn:Hv.
  - apply dict_get_elem; [done|]. rewrite sorted_items_Permutation.
    apply list_elem_of_fmap. exists (k, v). split; [done|by apply dict_get_Some].
  - destruct (dict_get k (sorted_items d)) as [v|] eqn:Hv'; [|done]. exfalso.
    apply dict_get_Some in Hv'. rewrite sorted_items_Permutation in Hv'.
    apply list_elem_of_fmap in Hv' as ([k' v'] & [= -> ->] & Hin).
    apply dict_get_elem in Hin; [|done]. simpl in *. congruence.
Qed.

Lemma map_sort_item_pop k d : map sort_item (dict_pop k d) = dict_pop k (map sort_item d).
Proof.
  unfold dict_pop. induction d as [|kv d IH]; [done|]. cbn [map]. rewrite !filter_cons.
  destruct (decide (kv.1 ≠ k)) as [H|H].
  - rewrite decide_True by done. cbn [map]. by rewrite IH.
  - rewrite decide_False by done. done.
Qed.
Lemma sorted_items_pop k d : keys_ok (JDict d) = true →
  sorted_items (dict_pop k (sorted_items d)) = sorted_items (dict_pop k d).
Proof.
  intros Hd. pose proof (sort_keys_idemp (JDict d) Hd) as Hi. rewrite !sort_keys_dict in Hi.
  apply keys_ok_dict in Hd as [Hd _]. unfold sorted_items at 1. rewrite map_sort_item_pop.
  apply (sorted_items_unique).
  { rewrite <-map_sort_item_pop, sort_item_keys. by apply dict_pop_keys, sorted_items_NoDup. }
  rewrite map_sort_item_pop. unfold dict_pop.
  assert (map sort_item (sorted_items d) ≡ₚ map sort_item d) as Hp.
  { rewrite <-sorted_items_Permutation. injection Hi as ->. by rewrite sorted_items_Permutation. }
  by rewrite Hp.
Qed.


(** ** Files *)

Section files.
Context {K : Type} `{Env K}.

Lemma run_read_json p (w : World K) :
  _read_json p w = (w, match w_fs w !! p with
    | Some s => py_loads s
    | None => Err (Exn FileNotFoundError (u "[Errno 2] No such file or directory: "
                     ++ repr (u "/" ++ join (u "/") p)))
    end).
Proof. unfold _read_json, read_text. rewrite !run_bind. cbn. by destruct (w_fs w !! p). Qed.
Lemma run_write_json p j (w : World K) :
  _write_json p j w = (set_fs (<[p := pretty j ++ [10%N]]> (w_fs w)) w, Ok tt).
Proof. done. Qed.

(** What [_write_json] writes, [_read_json] reads back, with sorted keys. *)
Lemma loads_pretty j : wf_json j = true → py_loads (pretty j ++ [10%N]) = Ok (sort_keys j).
Proof.
  intros Hj. unfold py_loads, pretty, dumps.
  rewrite loads_render_ws; [done|apply opts_indent2_ok|by apply sort_keys_wf|by repeat constructor].
Qed.
Lemma read_back p j (w : World K) :
  wf_json j = true → w_fs w !! p = Some (pretty j ++ [10%N]) → _read_json p w = (w, Ok (sort_keys j)).
Proof. intros Hj Hp. by rewrite run_read_json, Hp, loads_pretty. Qed.
End files.
