(* ===== verification/Argparse.v ===== *)
(** * Command lines: [argparse]

    [ArgumentParser.parse_args] of CPython 3.11 as far as the programs use it:
    long options that store a string or an integer, set a flag or append, the
    automatic -h/--help, and one level of subcommands.  A namespace is the
    dictionary of its attributes.  A parse that fails prints to standard error
    and exits with status 2, one that finds --help exits with status 0: the
    error of a parse is the status. *)
From S2P Require Import Prelude PyStr PyJson Errors PyOps.
#[local] Open Scope N_scope.

(** ** Parsers *)

Inductive vtype := TStr | TInt.
Inductive action := Store (t : vtype) | StoreTrue | Append (t : vtype) | Help.
(** [ap.add_argument(flag, ...)]; [choices] is empty when there is no
    restriction. *)
Record argument := Argument {
  flags : list pystr; dest : pystr; act : action; choices : list pystr; required : bool; dflt : json
}.
(** [sub = ap.add_subparsers(dest=..., required=True)] and its parsers. *)
Record subparsers := { sub_dest : pystr; sub_parsers : list (pystr * list argument) }.
Record parser := { p_args : list argument; p_sub : option subparsers }.

(** The attribute of an option: ["--token-id"] is [token_id]. *)
Definition dest_of (flag : pystr) : pystr := map (λ c, if c =? 45 then 95 else c) (drop 2 flag).
Definition opt (flag : pystr) (a : action) (d : json) : argument :=
  {| flags := [flag]; dest := dest_of flag; act := a; choices := []; required := false; dflt := d |}.
Definition need (a : argument) : argument :=
  {| flags := flags a; dest := dest a; act := act a; choices := choices a; required := true; dflt := dflt a |}.
Definition one_of (l : list pystr) (a : argument) : argument :=
  {| flags := flags a; dest := dest a; act := act a; choices := l; required := required a; dflt := dflt a |}.
Definition named (d : pystr) (a : argument) : argument :=
  {| flags := flags a; dest := d; act := act a; choices := choices a; required := required a; dflt := dflt a |}.
Definition str_opt (flag : pystr) (d : pystr) : argument := opt flag (Store TStr) (JStr d).
Definition none_opt (flag : pystr) : argument := opt flag (Store TStr) JNull.
Definition int_opt (flag : pystr) (d : Z) : argument := opt flag (Store TInt) (JInt d).
Definition flag_opt (flag : pystr) : argument := opt flag StoreTrue (JBool false).
Definition list_opt (flag : pystr) (d : list pystr) : argument := opt flag (Append TStr) (JList (map JStr d)).
Definition help_arg : argument :=
  {| flags := [u "-h"; u "--help"]; dest := u "help"; act := Help; choices := []; required := false; dflt := JNull |}.

(** [parser._option_string_actions], in the order of registration. *)
Definition option_strings (args : list argument) : list (pystr * argument) :=
  args ≫= λ a, map (λ f, (f, a)) (flags a).
Definition find_option (args : list argument) (s : pystr) : option argument :=
  snd <$> List.find (λ fa, bool_decide (fa.1 = s)) (option_strings args).

(** ** What an argument string is *)

Inductive arg_class :=
  | Positional
  | Dashes                                                 (* the first "--" *)
  | Optional (a : option (argument * pystr)) (explicit : option pystr).

(** [s.split("=", 1)]; without an "=", [None]. *)
Fixpoint split_eq (s : pystr) : option (pystr * pystr) :=
  match s with
  | [] => None
  | c :: t => if c =? 61 then Some ([], t) else (λ ab, (c :: ab.1, ab.2)) <$> split_eq t
  end.

(** [^-\d+$|^-\d*\.\d+$]; [$] also matches before a final newline. *)
Definition is_digit (c : N) : bool := bool_decide (is_Some (decimal_value c)).
Definition digits1 (s : pystr) : bool := negb (bool_decide (s = [])) && forallb is_digit s.
Fixpoint digits_dot_digits (s : pystr) : bool :=
  match s with
  | [] => false
  | c :: t => if c =? 46 then digits1 t else is_digit c && digits_dot_digits t
  end.
Definition negative_number (s : pystr) : bool :=
  match s with
  | 45 :: t =>
      let ok t := digits1 t || digits_dot_digits t in
      ok t || (bool_decide (last t = Some 10) && ok (take (pred (length t)) t))
  | _ => false
  end.

(** The options an argument string may abbreviate. *)
Definition _get_option_tuples (args : list argument) (s : pystr) : list (argument * pystr * option pystr) :=
  if startswith (u "--") s then
    let '(prefix, explicit) := match split_eq s with Some (o, e) => (o, Some e) | None => (s, None) end in
    omap (λ fa, if startswith prefix fa.1 then Some (fa.2, fa.1, explicit) else None) (option_strings args)
  else
    omap (λ fa, if decide (fa.1 = take 2 s) then Some (fa.2, fa.1, Some (drop 2 s))
                else if startswith s fa.1 then Some (fa.2, fa.1, None) else None) (option_strings args).

(** [option_string=explicit], for an option given in full. *)
Definition explicit_option (args : list argument) (s : pystr) : option (argument * pystr * pystr) :=
  '(o, e) ← split_eq s; a ← find_option args o; Some (a, o, e).

(** The error is an ambiguous abbreviation. *)
Definition _parse_optional (args : list argument) (s : pystr) : res Z arg_class :=
  match s with
  | [] => Ok Positional
  | c :: t =>
      if negb (c =? 45) then Ok Positional else
      match find_option args s with
      | Some a => Ok (Optional (Some (a, s)) None)
      | None =>
          if decide (t = []) then Ok Positional else
          match explicit_option args s with
          | Some (a, o, e) => Ok (Optional (Some (a, o)) (Some e))
          | None =>
              match _get_option_tuples args s with
              | [(a, o, e)] => Ok (Optional (Some (a, o)) e)
              | _ :: _ :: _ => Err 2%Z
              | [] =>
                  if negative_number s then Ok Positional
                  else if decide (32 ∈ s) then Ok Positional
                  else Ok (Optional None None)
              end
          end
      end
  end.
(** Everything after "--" is positional. *)
Fixpoint classify (args : list argument) (argv : list pystr) : res Z (list (pystr * arg_class)) :=
  match argv with
  | [] => Ok []
  | s :: rest =>
      if decide (s = u "--") then Ok ((s, Dashes) :: map (λ s, (s, Positional)) rest)
      else c ← _parse_optional args s; cs ← classify args rest; Ok ((s, c) :: cs)
  end.

(** ** Taking the actions *)

Record parsed := { ns : dict; seen : list pystr; extras : list pystr }.

(** [_get_value] and [_check_value] *)
Definition get_value (a : argument) (t : vtype) (s : pystr) : res Z json :=
  match t with
  | TStr => if decide (choices a = [] ∨ s ∈ choices a) then Ok (JStr s) else Err 2%Z
  | TInt => res_of_option 2%Z (JInt <$> int_of_str s)
  end.
(** [--flag=value]: a value "--" is dropped, and leaves an empty list. *)
Definition get_explicit (a : argument) (t : vtype) (s : pystr) : res Z json :=
  if decide (s = u "--") then Ok (JList []) else get_value a t s.

Definition items_of (v : option json) : list json := match v with Some (JList l) => l | _ => [] end.
Definition set_attr (k : pystr) (v : json) (st : parsed) : parsed :=
  {| ns := dict_set k v (ns st); seen := k :: seen st; extras := extras st |}.
(** The action on its converted value. *)
Definition take_action (a : argument) (v : json) (st : parsed) : parsed :=
  match act a with
  | Append _ => set_attr (dest a) (JList (items_of (dict_get (dest a) (ns st)) ++ [v])) st
  | _ => set_attr (dest a) v st
  end.
Definition add_extra (s : pystr) (st : parsed) : parsed :=
  {| ns := ns st; seen := seen st; extras := extras st ++ [s] |}.

(** -h with more letters attached: every one must be an h. *)
Definition help_cluster (e : pystr) : Z :=
  if negb (bool_decide (e = [])) && forallb (N.eqb 104) e then 0%Z else 2%Z.

(** One run over the classified strings, in order; [sub] is what to do at the
    first positional of a parser with subcommands. *)
Fixpoint consume (sub : option (pystr → list pystr → parsed → res Z parsed))
    (argv : list (pystr * arg_class)) (st : parsed) : res Z parsed :=
  match argv with
  | [] => Ok st
  | (s, Positional) :: rest =>
      match sub with
      | Some run => run s (map fst rest) st
      | None => consume sub rest (add_extra s st)
      end
  | (s, Dashes) :: rest =>
      match sub with Some _ => Err 2%Z | None => consume sub rest (add_extra s st) end
  | (s, Optional None _) :: rest => consume sub rest (add_extra s st)
  | (s, Optional (Some (a, o)) explicit) :: rest =>
      match act a, explicit with
      | Help, None => Err 0%Z
      | Help, Some e => Err (if decide (o = u "-h") then help_cluster e else 2%Z)
      | StoreTrue, None => consume sub rest (take_action a (JBool true) st)
      | StoreTrue, Some _ => Err 2%Z
      | (Store t | Append t), Some e => v ← get_explicit a t e; consume sub rest (take_action a v st)
      | (Store t | Append t), None =>
          match rest with
          | (x, Positional) :: rest' => v ← get_value a t x; consume sub rest' (take_action a v st)
          | _ => Err 2%Z
          end
      end
  end.

Definition defaults (args : list argument) : dict :=
  foldl (λ d a, match act a with Help => d | _ => dict_set (dest a) (dflt a) d end) [] args.
(** The required arguments that were not seen. *)
Definition missing (args : list argument) (sn : list pystr) : list argument :=
  filter (λ a, required a = true ∧ dest a ∉ sn) args.
Definition check_required (args : list argument) (st : parsed) : res Z parsed :=
  match missing args (seen st) with [] => Ok st | _ => Err 2%Z end.

(** [parse_known_args] of a parser without subcommands. *)
Definition parse_known (args : list argument) (argv : list pystr) : res Z parsed :=
  cs ← classify args argv;
  st ← consume None cs {| ns := defaults args; seen := []; extras := [] |};
  check_required args st.
(** The action of the subcommand: a new namespace, copied into the old one. *)
Definition run_subparser (sp : subparsers) (name : pystr) (rest : list pystr) (st : parsed) : res Z parsed :=
  match List.find (λ p, bool_decide (p.1 = name)) (sub_parsers sp) with
  | None => Err 2%Z
  | Some (_, args) =>
      r ← parse_known (help_arg :: args) rest;
      let ns1 := dict_set (sub_dest sp) (JStr name) (ns st) in
      Ok {| ns := foldl (λ d kv, dict_set kv.1 kv.2 d) ns1 (ns r);
            seen := sub_dest sp :: seen st; extras := extras st ++ extras r |}
  end.
Definition sub_default (p : parser) (d : dict) : dict :=
  match p_sub p with Some sp => dict_set (sub_dest sp) JNull d | None => d end.
(** [parser.parse_args(argv)] *)
Definition parse_args (p : parser) (argv : list pystr) : res Z dict :=
  let args := help_arg :: p_args p in
  cs ← classify args argv;
  st ← consume (run_subparser <$> p_sub p) cs
         {| ns := sub_default p (defaults args); seen := []; extras := [] |};
  st ← check_required args st;
  match p_sub p with
  | Some sp => if decide (sub_dest sp ∈ seen st) then Ok tt else Err 2%Z
  | None => Ok tt
  end;;
  if decide (extras st = []) then Ok (ns st) else Err 2%Z.
