(* ===== verification/ArgparseFacts.v ===== *)
(** * What a command line can give

    [parse_values]: whatever the argument strings, a namespace that a parse
    returns holds for each option a value of its kind, its default when the
    option was not given, and a list option keeps its default in front.
    [parse_settings]: options written in full as --name=value are set to the
    values written. *)
From S2P Require Import Prelude PyStr PyJson PyJsonRoundtrip PyDict Errors PyOps Argparse.
#[local] Open Scope N_scope.

(** ** Well-formed parsers *)

Definition is_help (a : argument) : bool := match act a with Help => true | _ => false end.
(** The options of a parser have one long flag each, without "=", and
    attributes of their own. *)
Definition long_flag (f : pystr) : bool :=
  startswith (u "--") f && (2 <? N.of_nat (length f)) && forallb (λ c, negb (c =? 61)) f.
Definition args_ok (args : list argument) : bool :=
  forallb (λ a, negb (is_help a) && bool_decide (length (flags a) = 1%nat) && forallb long_flag (flags a)) args &&
  bool_decide (NoDup (map dest args)) && bool_decide (NoDup (map fst (option_strings (help_arg :: args)))).

(** No string assigns "--" to an option. *)
Definition assigns_dashes (s : pystr) : bool := bool_decide (snd <$> split_eq s = Some (u "--")).
Definition clean (argv : list pystr) : Prop := Forall (λ s, assigns_dashes s = false) argv.

(** ** What values are set *)

Definition kind_ok (a : argument) (t : vtype) (v : json) : Prop :=
  match t with
  | TStr => ∃ s, v = JStr s ∧ (choices a = [] ∨ s ∈ choices a)
  | TInt => ∃ z, v = JInt z
  end.
Definition value_ok (a : argument) (v : json) : Prop :=
  match act a with
  | Store t => kind_ok a t v
  | StoreTrue => v = JBool true
  | Append t => ∃ l, v = JList (items_of (Some (dflt a)) ++ l) ∧ l ≠ [] ∧ Forall (kind_ok a t) l
  | Help => False
  end.
Definition holds (args : list argument) (st : parsed) : Prop := ∀ a, a ∈ args →
  if decide (dest a ∈ seen st) then ∃ v, dict_get (dest a) (ns st) = Some v ∧ value_ok a v
  else dict_get (dest a) (ns st) = Some (dflt a).
Definition final (args : list argument) (d : dict) : Prop := ∀ a, a ∈ args →
  (∃ v, dict_get (dest a) d = Some v ∧ value_ok a v) ∨ required a = false ∧ dict_get (dest a) d = Some (dflt a).

Lemma get_value_ok a t s v : get_value a t s = Ok v → kind_ok a t v.
Proof.
  unfold get_value, kind_ok. destruct t.
  - case_decide; [|done]. intros [= <-]. eauto.
  - destruct (int_of_str s); [|done]. intros [= <-]. eauto.
Qed.
Lemma get_explicit_ok a t s v : s ≠ u "--" → get_explicit a t s = Ok v → kind_ok a t v.
Proof. unfold get_explicit. intros ?. rewrite decide_False by done. apply get_value_ok. Qed.

(** ** Taking an action keeps the namespace typed *)

(** What an action is called with. *)
Definition arg_value_ok (a : argument) (v : json) : Prop :=
  match act a with Store t | Append t => kind_ok a t v | StoreTrue => v = JBool true | Help => False end.
Definition attrs_ok (args : list argument) : Prop := NoDup (map dest args).

Lemma dest_inj args a b : attrs_ok args → a ∈ args → b ∈ args → dest a = dest b → a = b.
Proof.
  unfold attrs_ok. intros Hnd. induction args as [|c args IH]; [by intros ?%elem_of_nil|].
  cbn [map] in Hnd. apply NoDup_cons in Hnd as [Hc Hnd].
  assert (∀ x, x ∈ args → dest x ≠ dest c) as Hx.
  { intros x Hin Heq. apply Hc. rewrite <-Heq. by apply list_elem_of_fmap_2. }
  intros [->|Ha]%elem_of_cons [->|Hb]%elem_of_cons Heq; [done| | |auto].
  - by destruct (Hx b Hb).
  - by destruct (Hx a Ha).
Qed.
Lemma take_action_value a v st :
  arg_value_ok a v →
  dict_get (dest a) (ns st) = Some (dflt a) ∨ (∃ v0, dict_get (dest a) (ns st) = Some v0 ∧ value_ok a v0) →
  ∃ v', take_action a v st = set_attr (dest a) v' st ∧ value_ok a v'.
Proof.
  unfold take_action, arg_value_ok, value_ok. intros Hv Hcur. destruct (act a) as [t| |t|] eqn:Ha; eauto.
  eexists. split; [done|]. destruct Hcur as [->|(v0 & -> & l & -> & Hl & Hall)].
  - exists [v]. split; [done|]. split; [done|]. by apply Forall_singleton.
  - exists (l ++ [v]). cbn [items_of]. rewrite app_assoc. split; [done|]. split; [by destruct l|].
    apply Forall_app. auto.
Qed.
Lemma take_action_holds args a v st :
  attrs_ok args → a ∈ args → holds args st → arg_value_ok a v → holds args (take_action a v st).
Proof.
  intros Hnd Ha Hst Hv. destruct (take_action_value a v st) as (v' & -> & Hv'); [done| |].
  { specialize (Hst a Ha). case_decide; eauto. }
  intros b Hb. cbn [set_attr ns seen]. destruct (decide (dest b = dest a)) as [Heq|Hne].
  - apply (dest_inj args) in Heq as ->; [|done..]. rewrite decide_True by left. rewrite dict_get_set_eq. eauto.
  - rewrite dict_get_set_ne by done. specialize (Hst b Hb).
    destruct (decide (dest b ∈ seen st)) as [Hin|Hin].
    + by rewrite decide_True by (by right).
    + rewrite decide_False; [done|]. intros [?|?]%elem_of_cons; done.
Qed.
Lemma add_extra_holds args s st : holds args st → holds args (add_extra s st).
Proof. done. Qed.

(** ** Classified strings *)

(** An option of the parser, and a value that is not the lost "--". *)
Definition class_ok (args : list argument) (c : arg_class) : Prop :=
  match c with
  | Optional (Some (a, _)) e => is_help a = true ∨ a ∈ args ∧ e ≠ Some (u "--")
  | _ => True
  end.

Lemma find_option_elem args s a : find_option args s = Some a → a ∈ args ∧ s ∈ flags a.
Proof.
  unfold find_option. destruct (List.find _ _) as [[f b]|] eqn:Hf; [|done]. intros [= <-].
  apply List.find_some in Hf as [Hin Heq]. simpl in Heq. apply bool_decide_eq_true in Heq as ->.
  apply list_elem_of_In in Hin. unfold option_strings in Hin.
  apply list_elem_of_bind in Hin as (a & Hin & Ha). apply list_elem_of_fmap in Hin as (f & [= -> ->] & Hf). done.
Qed.
Lemma option_strings_elem args f a : (f, a) ∈ option_strings args → a ∈ args ∧ f ∈ flags a.
Proof.
  unfold option_strings. intros (b & Hin & Hb)%list_elem_of_bind.
  apply list_elem_of_fmap in Hin as (f' & [= -> ->] & Hf). done.
Qed.

Lemma args_ok_flag args a f : args_ok args = true → a ∈ args → f ∈ flags a → is_help a = false ∧ long_flag f = true.
Proof.
  unfold args_ok. rewrite !andb_true_iff, forallb_forall. intros [[Hall _] _] Ha%list_elem_of_In Hf%list_elem_of_In.
  specialize (Hall a Ha). rewrite !andb_true_iff, forallb_forall, negb_true_iff in Hall.
  destruct Hall as [[Hh _] Hfl]. auto.
Qed.
Lemma args_ok_attrs args : args_ok args = true → attrs_ok args.
Proof. unfold args_ok. rewrite !andb_true_iff, !bool_decide_eq_true. by intros [[_ H] _]. Qed.

Lemma option_tuples_elem args s a o e : (a, o, e) ∈ _get_option_tuples args s →
  ∃ f, (f, a) ∈ option_strings args ∧
    ((e = None ∨ ∃ o' e', split_eq s = Some (o', e') ∧ e = Some e') ∨ f = take 2 s ∧ e = Some (drop 2 s)).
Proof.
  unfold _get_option_tuples. destruct (startswith _ s).
  - destruct (split_eq s) as [[o' e']|] eqn:Hsp; intros ([f b] & Hb & Hsome)%list_elem_of_omap;
      cbn in Hsome; destruct (startswith _ f); simplify_eq; (eexists; split; [exact Hb|]; eauto 6).
  - intros ([f b] & Hb & Hsome)%list_elem_of_omap. cbn [fst snd] in Hsome. case_decide; simplify_eq; [eauto|].
    destruct (startswith s f); simplify_eq. eauto.
Qed.

Lemma parse_optional_ok args s c :
  args_ok args = true → assigns_dashes s = false → _parse_optional (help_arg :: args) s = Ok c → class_ok args c.
Proof.
  intros Hok Hs. unfold _parse_optional.
  assert (∀ a, a ∈ help_arg :: args → is_help a = true ∨ a ∈ args) as Hin.
  { intros a [->|Ha]%elem_of_cons; auto. }
  assert (∀ o e, split_eq s = Some (o, e) → Some e ≠ Some (u "--")) as He.
  { intros o e Hsp [= ->]. unfold assigns_dashes in Hs. rewrite Hsp in Hs. done. }
  destruct s as [|x t]; [by intros [= <-]|]. destruct (negb (x =? 45)); [by intros [= <-]|].
  destruct (find_option _ _) as [a|] eqn:Hf.
  { apply find_option_elem in Hf as [Ha _]. intros [= <-]. destruct (Hin a Ha); [by left|by right]. }
  case_decide; [by intros [= <-]|]. destruct (explicit_option _ _) as [[[a o] e]|] eqn:Hx.
  { unfold explicit_option in Hx. destruct (split_eq (x :: t)) as [[o' e']|] eqn:Hsp; [|done]. simpl in Hx.
    destruct (find_option _ o') as [a'|] eqn:Hf'; [|done]. injection Hx as -> -> ->.
    apply find_option_elem in Hf' as [Ha _]. intros [= <-]. destruct (Hin a Ha); [by left|right]. eauto. }
  destruct (_get_option_tuples _ _) as [|[[a o] e] [|]] eqn:Ht.
  - repeat case_match; by intros [= <-].
  - intros [= <-]. assert ((a, o, e) ∈ _get_option_tuples (help_arg :: args) (x :: t)) as Hel by (rewrite Ht; left).
    apply option_tuples_elem in Hel as (f & [Hb Hfa]%option_strings_elem & [He'|(Hfl & ->)]).
    + destruct (Hin a Hb); [by left|right]. split; [done|]. destruct He' as [->|(o' & e' & Hsp & ->)]; [done|]. eauto.
    + destruct (Hin a Hb) as [|Ha]; [by left|]. exfalso.
      destruct (args_ok_flag args a f Hok Ha Hfa) as [_ Hlong]. unfold long_flag in Hlong.
      rewrite Hfl in Hlong.
      rewrite !andb_true_iff, N.ltb_lt, length_take in Hlong. lia.
  - done.
Qed.
Lemma classify_ok args argv cs :
  args_ok args = true → clean argv → classify (help_arg :: args) argv = Ok cs →
  Forall (λ sc, class_ok args sc.2) cs ∧ map fst cs = argv.
Proof.
  intros Hok Hc. revert cs. induction Hc as [|s argv Hs _ IH]; intros cs; cbn [classify]; [by intros [= <-]|].
  case_decide.
  - intros [= <-]. split.
    + constructor; [done|]. apply Forall_forall. intros sc Hsc. apply list_elem_of_fmap in Hsc as (x & -> & _). done.
    + cbn [map fst]. f_equal. rewrite List.map_map. apply List.map_id.
  - destruct (_parse_optional _ _) as [c|] eqn:Hp; [|done]. cbn [mbind res_bind].
    destruct (classify _ argv) as [cs'|]; [|done]. intros [= <-].
    destruct (IH cs' eq_refl) as [Hall Hmap]. split; [|by cbn; rewrite Hmap].
    constructor; [by eapply parse_optional_ok|done].
Qed.

(** ** A run over the strings *)

(** Only options are seen, and the namespace keeps its attributes. *)
Definition seen_in (args : list argument) (ks : list pystr) (st : parsed) : Prop :=
  (∀ k, k ∈ seen st → k ∈ map dest args) ∧ map fst (ns st) = ks.
Lemma dict_set_keys k v d : is_Some (dict_get k d) → map fst (dict_set k v d) = map fst d.
Proof.
  induction d as [|[k' v'] d IH]; cbn [dict_get dict_set map]; [by intros [? ?]|].
  case_decide; [done|]. intros Hk. cbn [map]. by rewrite IH.
Qed.
Lemma dict_set_key k k' v d : k ∈ map fst (dict_set k' v d) → k = k' ∨ k ∈ map fst d.
Proof.
  induction d as [|[k0 v0] d IH]; cbn [dict_set map]; [by intros ->%list_elem_of_singleton; left|].
  case_decide as Hk; cbn [map]; rewrite !elem_of_cons; naive_solver.
Qed.
Lemma holds_attr args a st : a ∈ args → holds args st → is_Some (dict_get (dest a) (ns st)).
Proof. intros Ha Hst. specialize (Hst a Ha). case_decide; naive_solver. Qed.
Lemma take_action_seen args ks a v st :
  a ∈ args → holds args st → seen_in args ks st → seen_in args ks (take_action a v st).
Proof.
  intros Ha Hst [Hseen Hks]. pose proof (holds_attr args a st Ha Hst) as Hget.
  assert (∃ v', take_action a v st = set_attr (dest a) v' st) as [v' ->].
  { unfold take_action. destruct (act a); eauto. }
  split; cbn [set_attr ns seen]; [|by rewrite dict_set_keys].
  intros k [->|Hk]%elem_of_cons; [by apply list_elem_of_fmap_2|auto].
Qed.

Section run.
Context (args : list argument) (Hok : args_ok args = true) (ks : list pystr).
Context (sub : option (pystr → list pystr → parsed → res Z parsed)) (st' : parsed).

(** A run ends in a state where the values hold, or hands such a state to the
    subcommand with the strings that are left. *)
Definition ends : Prop := ∃ st1, holds args st1 ∧ seen_in args ks st1 ∧
  (st' = st1 ∨ ∃ run s rest, sub = Some run ∧ clean rest ∧ run s rest st1 = Ok st').
Definition run_ok (cs : list (pystr * arg_class)) : Prop := ∀ st,
  holds args st → seen_in args ks st → consume sub cs st = Ok st' → ends.

Lemma run_take a v cs st :
  run_ok cs → a ∈ args → arg_value_ok a v → holds args st → seen_in args ks st →
  consume sub cs (take_action a v st) = Ok st' → ends.
Proof.
  intros Hcs Ha Hv Hst Hs. apply Hcs; [|by apply take_action_seen].
  by apply take_action_holds; [apply args_ok_attrs| | |].
Qed.
Lemma run_option s a o e cs st :
  run_ok cs → (∀ x cs', cs = x :: cs' → run_ok cs') → class_ok args (Optional (Some (a, o)) e) →
  holds args st → seen_in args ks st → consume sub ((s, Optional (Some (a, o)) e) :: cs) st = Ok st' → ends.
Proof.
  intros Hcs Htl Hc Hst Hs. cbn [consume]. cbn in Hc.
  assert (∀ t, act a = Store t ∨ act a = Append t →
    a ∈ args ∧ e ≠ Some (u "--") ∧ ∀ v, kind_ok a t v → arg_value_ok a v) as Hkind.
  { unfold is_help, arg_value_ok in *. intros t [Ha|Ha]; rewrite Ha in *; naive_solver. }
  destruct (act a) as [t| |t|] eqn:Ha; destruct e as [e|]; try done.
  3: { intros Hrun. eapply run_take; [done| |by unfold arg_value_ok; rewrite Ha|done..].
       unfold is_help in Hc. rewrite Ha in Hc. naive_solver. }
  1,3: intros (v & Hv & Hrun)%res_bind_inv; destruct (Hkind t) as (Hin & Hne & Hk); [by auto|];
    apply get_explicit_ok in Hv; [|naive_solver]; by eapply run_take; [| |apply Hk| | |].
  all: destruct cs as [|[x [| |]] cs']; try done; intros (v & Hv & Hrun)%res_bind_inv;
    apply get_value_ok in Hv; destruct (Hkind t) as (Hin & _ & Hk); [by auto|];
    by eapply run_take; [eapply Htl| |apply Hk| | |].
Qed.
Lemma consume_ends cs :
  Forall (λ sc, class_ok args sc.2) cs → clean (map fst cs) → run_ok cs.
Proof.
  remember (length cs) as n eqn:Hn. revert cs Hn. induction n as [n IH] using lt_wf_ind.
  intros [|[s c] cs] -> Hcs Hcl st Hst Hseen; [intros [= <-]; exists st; auto|].
  apply Forall_cons in Hcs as [Hc Hcs]. cbn [map fst] in Hcl. apply Forall_cons in Hcl as [_ Hcl].
  assert (run_ok cs) as Hrest by (apply (IH (length cs)); [cbn; lia|done..]).
  destruct c as [| |[[a o]|] e]; [| |intros Hrun; apply (run_option s a o e cs st); try done|]; cbn [consume].
  - destruct sub as [run|] eqn:Hsub; [|rewrite <-Hsub; by apply Hrest]. intros Hrun. exists st. split; [done|]. split; [done|]. right. eauto 6.
  - destruct sub as [run|] eqn:Hsub; [done|]. rewrite <-Hsub. by apply Hrest.
  - intros x cs' ->. apply Forall_cons in Hcs as [_ Hcs]. cbn [map] in Hcl. apply Forall_cons in Hcl as [_ Hcl].
    apply (IH (length cs')); [cbn; lia|done..].
  - by apply Hrest.
Qed.
End run.

Lemma defaults_get args : args_ok args = true → ∀ a, a ∈ args → dict_get (dest a) (defaults (help_arg :: args)) = Some (dflt a).
Proof.
  intros Hok. pose proof (args_ok_attrs _ Hok) as Hat.
  assert (∀ a, a ∈ args → is_help a = false) as Hh.
  { intros a Ha. unfold args_ok in Hok. rewrite !andb_true_iff, forallb_forall in Hok.
    destruct Hok as [[Hall _] _]. apply list_elem_of_In in Ha. specialize (Hall a Ha).
    rewrite !andb_true_iff, negb_true_iff in Hall. by destruct Hall as [[? _] _]. }
  unfold defaults. cbn [foldl act help_arg]. clear Hok. revert Hat Hh. generalize (@nil (pystr * json)).
  induction args as [|b args IH]; intros d Hat Hh a Ha; [by apply elem_of_nil in Ha|].
  unfold attrs_ok in Hat. cbn [map] in Hat. apply NoDup_cons in Hat as [Hb Hat]. cbn [foldl].
  assert (act b ≠ Help) as Hnb. { specialize (Hh b ltac:(left)). unfold is_help in Hh. by destruct (act b). }
  apply elem_of_cons in Ha as [->|Ha].
  - assert (∀ l d', dest b ∉ map dest l → dict_get (dest b) (foldl (λ d a, match act a with Help => d
      | _ => dict_set (dest a) (dflt a) d end) d' l) = dict_get (dest b) d') as Hkeep.
    { induction l as [|c l IHl]; intros d' Hl; [done|]. cbn [foldl map] in *. apply not_elem_of_cons in Hl as [Hne Hl].
      rewrite IHl by done. destruct (act c); try done; by rewrite dict_get_set_ne. }
    rewrite Hkeep by done. destruct (act b); try done; by rewrite dict_get_set_eq.
  - apply IH; [done| |done]. intros c Hc. apply Hh. by right.
Qed.
Lemma initial_holds args d :
  args_ok args = true → (∀ a, a ∈ args → dict_get (dest a) d = Some (dflt a)) →
  holds args {| ns := d; seen := []; extras := [] |} ∧ seen_in args (map fst d) {| ns := d; seen := []; extras := [] |}.
Proof.
  intros Hok Hd. split; [|split; [by intros k ?%elem_of_nil|done]]. intros a Ha. rewrite decide_False; [by apply Hd|apply not_elem_of_nil].
Qed.
Lemma holds_final args st st' :
  holds args st → check_required (help_arg :: args) st = Ok st' → st' = st ∧ final args (ns st).
Proof.
  intros Hst. unfold check_required. destruct (missing _ _) eqn:Hm; [|done]. intros [= <-]. split; [done|].
  intros a Ha. specialize (Hst a Ha). case_decide as Hin; [by left|right]. split; [|done].
  destruct (required a) eqn:Hr; [|done]. exfalso.
  assert (a ∈ missing (help_arg :: args) (seen st)) as Hmis.
  { apply list_elem_of_filter. split; [done|by right]. }
  rewrite Hm in Hmis. by apply elem_of_nil in Hmis.
Qed.

Lemma defaults_keys args : args_ok args = true →
  NoDup (map fst (defaults (help_arg :: args))) ∧ ∀ k, k ∈ map fst (defaults (help_arg :: args)) → k ∈ map dest args.
Proof.
  intros _. unfold defaults. cbn [foldl act help_arg].
  assert (∀ l d ks, NoDup (map fst d) → (∀ k, k ∈ map fst d → k ∈ ks) →
    let d' := foldl (λ d a, match act a with Help => d | _ => dict_set (dest a) (dflt a) d end) d l in
    NoDup (map fst d') ∧ ∀ k, k ∈ map fst d' → k ∈ ks ++ map dest l) as H.
  { induction l as [|a l IH]; intros d ks Hnd Hks; cbn [foldl map]; [rewrite app_nil_r; auto|].
    replace (ks ++ dest a :: map dest l) with ((ks ++ [dest a]) ++ map dest l) by (by rewrite <-app_assoc). apply IH.
    - destruct (act a); try done; by apply dict_set_NoDup.
    - intros k Hk. apply elem_of_app. destruct (act a); try (left; by apply Hks);
        (apply dict_set_key in Hk as [->|Hk]; [right; left|left; by apply Hks]). }
  destruct (H args [] []) as [Hnd Hin]; [constructor|by intros k ?%elem_of_nil|]. auto.
Qed.

Lemma parse_known_final args argv st :
  args_ok args = true → clean argv → parse_known (help_arg :: args) argv = Ok st →
  final args (ns st) ∧ NoDup (map fst (ns st)) ∧ ∀ k, k ∈ map fst (ns st) → k ∈ map dest args.
Proof.
  intros Hok Hcl. unfold parse_known. intros (cs & Hcs & H)%res_bind_inv. apply res_bind_inv in H as (st1 & Hrun & Hreq).
  destruct (classify_ok args argv cs Hok Hcl Hcs) as [Hclass <-].
  destruct (initial_holds args _ Hok (defaults_get args Hok)) as [Hh Hs].
  destruct (consume_ends args Hok _ None st1 cs Hclass Hcl _ Hh Hs Hrun)
    as (st2 & Hst2 & [_ Hks] & [->|(? & ? & ? & ? & _)]); [|done].
  destruct (holds_final _ _ _ Hst2 Hreq) as [-> ?]. split; [done|]. rewrite Hks. by apply defaults_keys.
Qed.

(** ** Subcommands *)

Definition parser_ok (p : parser) : bool :=
  args_ok (p_args p) &&
  match p_sub p with
  | Some sp =>
      bool_decide (sub_dest sp ∉ map dest (p_args p)) &&
      forallb (λ na, args_ok na.2 && bool_decide (NoDup (sub_dest sp :: map dest (p_args p ++ na.2))))
        (sub_parsers sp)
  | None => true
  end.

Lemma dict_update_get k l d :
  NoDup (map fst l) →
  dict_get k (foldl (λ d kv, dict_set kv.1 kv.2 d) d l) = match dict_get k l with Some v => Some v | None => dict_get k d end.
Proof.
  revert d. induction l as [|[k' v] l IH]; intros d; cbn [map foldl dict_get fst snd]; [done|].
  intros [Hk Hl]%NoDup_cons. rewrite IH by done. case_decide as Heq.
  - subst. destruct (dict_get k' l) as [v'|] eqn:Hv; [|by rewrite dict_get_set_eq].
    exfalso. apply Hk. apply dict_get_Some in Hv. apply list_elem_of_fmap. by exists (k', v').
  - by rewrite dict_get_set_ne.
Qed.

(** What a namespace holds after a subcommand. *)
Definition sub_final (sp : subparsers) (d : dict) : Prop :=
  ∃ name args, (name, args) ∈ sub_parsers sp ∧ dict_get (sub_dest sp) d = Some (JStr name) ∧ final args d.

Lemma run_subparser_final args sp name rest st st' :
  parser_ok {| p_args := args; p_sub := Some sp |} = true → clean rest → holds args st →
  run_subparser sp name rest st = Ok st' →
  holds args st' ∧ sub_final sp (ns st').
Proof.
  intros Hok Hcl Hst. unfold run_subparser. destruct (List.find _ _) as [[name' sub]|] eqn:Hf; [|done].
  apply List.find_some in Hf as [Hin Heq]. simpl in Heq. apply bool_decide_eq_true in Heq as ->.
  unfold parser_ok in Hok. cbn [p_args p_sub] in Hok. rewrite !andb_true_iff, forallb_forall in Hok.
  destruct Hok as [_ [_ Hsub]]. specialize (Hsub _ Hin). apply andb_true_iff in Hsub as [Hok Hnd%bool_decide_eq_true].
  cbn [snd] in Hnd, Hok. rewrite map_app in Hnd. apply NoDup_cons in Hnd as [Hdest [_ [Hdisj _]]%NoDup_app].
  rewrite elem_of_app in Hdest. apply list_elem_of_In in Hin.
  intros (r & Hr & [= <-])%res_bind_inv. destruct (parse_known_final _ _ _ Hok Hcl Hr) as (Hfin & Hndr & Hkeys).
  assert (∀ k, k ∉ map dest sub → dict_get k (ns r) = None) as Hnone.
  { intros k Hk. destruct (dict_get k (ns r)) as [v|] eqn:Hv; [|done]. exfalso. apply Hk, Hkeys.
    apply dict_get_Some in Hv. apply list_elem_of_fmap. by exists (k, v). }
  split.
  - intros a Ha. cbn [ns seen]. rewrite dict_update_get by done.
    assert (dest a ∈ map dest args) as Hda by by apply list_elem_of_fmap_2.
    rewrite Hnone by (by apply Hdisj). assert (dest a ≠ sub_dest sp) by (intros Heq; apply Hdest; left; by rewrite <-Heq).
    rewrite dict_get_set_ne by done. specialize (Hst a Ha). destruct (decide (dest a ∈ seen st)).
    + by rewrite decide_True by (by right).
    + rewrite decide_False; [done|]. by rewrite not_elem_of_cons.
  - exists name, sub. cbn [ns]. split; [done|]. split.
    + rewrite dict_update_get by done. rewrite Hnone by naive_solver. by rewrite dict_get_set_eq.
    + intros a Ha. rewrite dict_update_get by done. destruct (Hfin a Ha) as [(v & Hv & ?)|[? Hv]]; rewrite Hv; eauto.
Qed.

Lemma sub_default_get p a :
  parser_ok p = true → a ∈ p_args p →
  dict_get (dest a) (sub_default p (defaults (help_arg :: p_args p))) = Some (dflt a).
Proof.
  unfold parser_ok, sub_default. intros [Hok Hsub]%andb_true_iff Ha. pose proof (defaults_get _ Hok a Ha) as Hd.
  destruct (p_sub p) as [sp|]; [|done]. apply andb_true_iff in Hsub as [Hsub%bool_decide_eq_true _].
  rewrite dict_get_set_ne; [done|]. intros Heq. apply Hsub. rewrite <-Heq. by apply list_elem_of_fmap_2.
Qed.

(** A namespace that a parse returns: every option has a value of its kind or,
    when it is not required, its default; the subcommand is one of the parser's
    and its options hold values in the same way. *)
Lemma parse_values p argv d :
  parser_ok p = true → clean argv → parse_args p argv = Ok d →
  final (p_args p) d ∧ match p_sub p with Some sp => sub_final sp d | None => True end.
Proof.
  intros Hok Hcl. assert (args_ok (p_args p) = true) as Hargs by by apply andb_true_iff in Hok as [? _].
  unfold parse_args. intros (cs & Hcs & H)%res_bind_inv. apply res_bind_inv in H as (st & Hrun & H).
  apply res_bind_inv in H as (st' & Hreq & H). apply res_bind_inv in H as ([] & Hseen & H).
  destruct (classify_ok _ argv cs Hargs Hcl Hcs) as [Hclass <-].
  destruct (initial_holds _ _ Hargs (λ a, sub_default_get p a Hok)) as [Hh Hs].
  destruct (consume_ends _ Hargs _ _ st cs Hclass Hcl _ Hh Hs Hrun) as (st2 & Hst2 & [Hsn _] & Hend).
  case_decide; [|done]. injection H as <-. destruct (p_sub p) as [sp|] eqn:Hsub.
  - assert (st' = st) as ->. { revert Hreq. unfold check_required. by destruct (missing _ _); intros [= ->]. }
    destruct Hend as [->|(run & s & rest & [= <-] & Hrest & Hgo)].
    + exfalso. case_decide as Hin; [|done]. apply Hsn in Hin. unfold parser_ok in Hok. rewrite Hsub in Hok.
      rewrite !andb_true_iff, bool_decide_eq_true in Hok. by destruct Hok as [_ [? _]].
    + apply (run_subparser_final (p_args p)) in Hgo as [Hst Hfin]; [| |done|done].
      * destruct (holds_final _ _ _ Hst Hreq) as [_ ?]. done.
      * destruct p as [args0 sub0]. cbn [p_args p_sub] in *. by subst sub0.
  - destruct Hend as [->|(? & ? & ? & ? & _)]; [|done]. destruct (holds_final _ _ _ Hst2 Hreq) as [-> ?]. done.
Qed.

(** ** Command lines written in full

    Options written as --name=value, or --name for a switch, are parsed to what
    they say: [parse_settings] for a parser of options, [parse_sub_settings] with
    a subcommand. *)

#[local] Open Scope N_scope.

(** ** Settings *)

(** An option, the text given to it and the value of that text. *)
Inductive setting := Assign (a : argument) (s : pystr) (v : json) | Switch (a : argument).
Definition set_arg (x : setting) : argument := match x with Assign a _ _ | Switch a => a end.
Definition set_value (x : setting) : json := match x with Assign _ _ v => v | Switch _ => JBool true end.
Definition flag_of (a : argument) : pystr := default [] (head (flags a)).
Definition render (x : setting) : pystr :=
  match x with Assign a s _ => flag_of a ++ 61 :: s | Switch a => flag_of a end.
Definition setting_ok (args : list argument) (x : setting) : Prop :=
  set_arg x ∈ args ∧
  match x with
  | Assign a s v => ∃ t, (act a = Store t ∨ act a = Append t) ∧ s ≠ u "--" ∧ get_value a t s = Ok v
  | Switch a => act a = StoreTrue
  end.
Definition set_one (st : parsed) (x : setting) : parsed := take_action (set_arg x) (set_value x) st.

(** ** Classifying them *)

Lemma find_option_NoDup args f a :
  NoDup (map fst (option_strings args)) → (f, a) ∈ option_strings args → find_option args f = Some a.
Proof.
  unfold find_option. induction (option_strings args) as [|[f' a'] l IH]; [by intros _ ?%elem_of_nil|].
  cbn [map List.find fst snd]. intros [Hf Hnd]%NoDup_cons [[= -> ->]|Hin]%elem_of_cons.
  - by rewrite bool_decide_eq_true_2.
  - rewrite bool_decide_eq_false_2; [by apply IH|]. intros ->. apply Hf, list_elem_of_fmap. by exists (f, a).
Qed.
Lemma find_option_none args s : (∀ a, (s, a) ∉ option_strings args) → find_option args s = None.
Proof.
  unfold find_option. intros Hs. destruct (List.find _ _) as [[f a]|] eqn:Hf; [|done]. exfalso.
  apply List.find_some in Hf as [Hin%list_elem_of_In Heq]. cbn in Heq. apply bool_decide_eq_true in Heq as ->.
  by apply (Hs a).
Qed.
Lemma split_eq_app f s : forallb (λ c, negb (c =? 61)) f = true → split_eq (f ++ 61 :: s) = Some (f, s).
Proof.
  induction f as [|c f IH]; [done|]. cbn [forallb app split_eq]. intros [Hc Hf]%andb_true_iff.
  apply negb_true_iff in Hc. rewrite Hc, IH by done. done.
Qed.

Lemma split_eq_none f : forallb (λ c, negb (c =? 61)) f = true → split_eq f = None.
Proof.
  induction f as [|c f IH]; [done|]. cbn [forallb split_eq]. intros [Hc Hf]%andb_true_iff.
  apply negb_true_iff in Hc. by rewrite Hc, IH.
Qed.
Lemma long_flag_inv f : long_flag f = true → ∃ c t, f = 45 :: 45 :: c :: t ∧ forallb (λ c, negb (c =? 61)) f = true.
Proof.
  unfold long_flag. rewrite !andb_true_iff, N.ltb_lt. intros [[Hs Hl] Hf].
  destruct f as [|a [|b [|c t]]]; cbn in Hl; try lia.
  unfold startswith in Hs. apply bool_decide_eq_true in Hs as [r Hr]. change (u "--") with [45; 45] in Hr.
  cbn [drop_prefix] in Hr. destruct (N.eqb_spec 45 a) as [<-|]; [|done]. destruct (N.eqb_spec 45 b) as [<-|]; [|done].
  by exists c, t.
Qed.

Section classify.
Context (args : list argument) (Hok : args_ok args = true).

Lemma arg_flag a : a ∈ args → flags a = [flag_of a] ∧ long_flag (flag_of a) = true.
Proof.
  intros Ha. assert (length (flags a) = 1%nat) as Hlen.
  { unfold args_ok in Hok. rewrite !andb_true_iff, forallb_forall in Hok. destruct Hok as [[Hall _] _].
    apply list_elem_of_In in Ha. specialize (Hall a Ha). rewrite !andb_true_iff, bool_decide_eq_true in Hall. by destruct Hall as [[_ ?] _]. }
  unfold flag_of. destruct (flags a) as [|f [|]] eqn:Hf; try done. split; [done|]. cbn.
  apply (args_ok_flag args a f Hok Ha). rewrite Hf. left.
Qed.
Lemma find_arg a : a ∈ args → find_option (help_arg :: args) (flag_of a) = Some a.
Proof.
  intros Ha. apply find_option_NoDup.
  - unfold args_ok in Hok. rewrite !andb_true_iff, !bool_decide_eq_true in Hok. by destruct Hok.
  - unfold option_strings. apply list_elem_of_bind. exists a. split; [|by right].
    destruct (arg_flag a Ha) as [-> _]. by left.
Qed.
Lemma option_string_no_eq f a : (f, a) ∈ option_strings (help_arg :: args) → split_eq f = None.
Proof.
  intros [[->|Ha]%elem_of_cons Hf]%option_strings_elem.
  - cbn in Hf. rewrite !elem_of_cons, elem_of_nil in Hf. by destruct Hf as [->|[->|[]]].
  - apply (args_ok_flag args a f Hok Ha) in Hf as [_ Hf]. unfold long_flag in Hf.
    apply andb_true_iff in Hf as [_ Hf]. by apply split_eq_none.
Qed.
Lemma find_assigned f s : forallb (λ c, negb (c =? 61)) f = true → find_option (help_arg :: args) (f ++ 61 :: s) = None.
Proof.
  intros Hf. apply find_option_none. intros a Hin%option_string_no_eq. by rewrite split_eq_app in Hin.
Qed.
Lemma parse_assign a s : a ∈ args →
  _parse_optional (help_arg :: args) (flag_of a ++ 61 :: s) = Ok (Optional (Some (a, flag_of a)) (Some s)).
Proof.
  intros Ha. pose proof (find_arg a Ha) as Hfind. destruct (arg_flag a Ha) as [_ Hf].
  destruct (long_flag_inv _ Hf) as (c & t & Heq & Hno). pose proof (find_assigned _ s Hno) as Hnone.
  pose proof (split_eq_app _ s Hno) as Hsplit. unfold _parse_optional.
  rewrite Hnone. unfold explicit_option. rewrite Hsplit. cbn [mbind option_bind]. rewrite Hfind. by rewrite Heq.
Qed.
Lemma parse_switch a : a ∈ args →
  _parse_optional (help_arg :: args) (flag_of a) = Ok (Optional (Some (a, flag_of a)) None).
Proof.
  intros Ha. pose proof (find_arg a Ha) as Hfind. destruct (arg_flag a Ha) as [_ Hf].
  destruct (long_flag_inv _ Hf) as (c & t & Heq & _). unfold _parse_optional. rewrite Hfind. by rewrite Heq.
Qed.

Definition class_of (x : setting) : arg_class :=
  Optional (Some (set_arg x, flag_of (set_arg x))) (match x with Assign _ s _ => Some s | Switch _ => None end).
Lemma render_class x : setting_ok args x →
  render x ≠ u "--" ∧ _parse_optional (help_arg :: args) (render x) = Ok (class_of x).
Proof.
  intros [Ha _]. destruct (arg_flag _ Ha) as [_ Hf]. destruct (long_flag_inv _ Hf) as (c & t & Heq & _).
  destruct x as [a s v|a]; cbn [set_arg render class_of] in *.
  - split; [by rewrite Heq|by apply parse_assign].
  - split; [by rewrite Heq|by apply parse_switch].
Qed.
Lemma classify_settings ss rest : Forall (setting_ok args) ss →
  classify (help_arg :: args) (map render ss ++ rest) =
    (cs ← classify (help_arg :: args) rest; Ok (map (λ x, (render x, class_of x)) ss ++ cs)).
Proof.
  induction 1 as [|x ss Hx _ IH]; [cbn [map app]; by destruct (classify (help_arg :: args) rest)|]. cbn [map app classify].
  destruct (render_class x Hx) as [Hne ->]. rewrite decide_False by done. cbn [mbind res_bind]. rewrite IH.
  by destruct (classify (help_arg :: args) rest).
Qed.
Lemma consume_settings sub ss rest st : Forall (setting_ok args) ss →
  consume sub (map (λ x, (render x, class_of x)) ss ++ rest) st = consume sub rest (foldl set_one st ss).
Proof.
  intros Hss. revert st. induction Hss as [|x ss [_ Hx] _ IH]; intros st; [done|].
  cbn [map app consume class_of foldl]. rewrite <-IH. unfold set_one.
  destruct x as [a s v|a]; cbn [set_arg set_value].
  - destruct Hx as (t & Ha & Hne & Hv). unfold get_explicit.
    destruct Ha as [-> | ->]; rewrite decide_False by done; by rewrite Hv.
  - by rewrite Hx.
Qed.
End classify.

(** ** What they set *)

Definition new_value (x : setting) (v : option json) : json :=
  match act (set_arg x) with Append _ => JList (items_of v ++ [set_value x]) | _ => set_value x end.
(** The value of an attribute after settings. *)
Definition attr_after (k : pystr) (v : option json) (ss : list setting) : option json :=
  foldl (λ v x, if decide (dest (set_arg x) = k) then Some (new_value x v) else v) v ss.

Lemma set_one_ns st x :
  ns (set_one st x) = dict_set (dest (set_arg x)) (new_value x (dict_get (dest (set_arg x)) (ns st))) (ns st) ∧
  seen (set_one st x) = dest (set_arg x) :: seen st ∧ extras (set_one st x) = extras st.
Proof. unfold set_one, take_action, new_value. by destruct (act (set_arg x)). Qed.
Lemma settings_get k ss st : dict_get k (ns (foldl set_one st ss)) = attr_after k (dict_get k (ns st)) ss.
Proof.
  revert st. induction ss as [|x ss IH]; intros st; [done|]. unfold attr_after in *. cbn [foldl]. rewrite IH.
  destruct (set_one_ns st x) as [-> _]. case_decide as Hk.
  - by rewrite Hk, dict_get_set_eq.
  - by rewrite dict_get_set_ne.
Qed.
Lemma settings_seen ss st :
  (∀ k, k ∈ seen (foldl set_one st ss) ↔ k ∈ map (λ x, dest (set_arg x)) ss ∨ k ∈ seen st) ∧
  extras (foldl set_one st ss) = extras st.
Proof.
  revert st. induction ss as [|x ss IH]; intros st; cbn [foldl map]; [split; [set_solver|done]|].
  destruct (IH (set_one st x)) as [Hs ->]. destruct (set_one_ns st x) as (_ & Hseen & ->). split; [|done].
  intros k. rewrite Hs, Hseen, !elem_of_cons. naive_solver.
Qed.
Lemma settings_keys ss st : NoDup (map fst (ns st)) → NoDup (map fst (ns (foldl set_one st ss))).
Proof.
  revert st. induction ss as [|x ss IH]; intros st Hst; [done|]. apply IH. destruct (set_one_ns st x) as [-> _].
  by apply dict_set_NoDup.
Qed.

Lemma attr_after_app k v ss ss' : attr_after k v (ss ++ ss') = attr_after k (attr_after k v ss) ss'.
Proof. apply foldl_app. Qed.
Lemma attr_after_other {A} k v (f : A → setting) l :
  (∀ x, dest (set_arg (f x)) ≠ k) → attr_after k v (map f l) = v.
Proof.
  intros Hf. unfold attr_after. induction l as [|x l IH]; [done|]. cbn [map foldl]. by rewrite decide_False.
Qed.
(** Items appended to a list. *)
Lemma attr_after_append {A} a (f : A → setting) l v0 :
  (∃ t, act a = Append t) → (∀ x, set_arg (f x) = a) →
  attr_after (dest a) (Some (JList v0)) (map f l) = Some (JList (v0 ++ map (λ x, set_value (f x)) l)).
Proof.
  intros [t Ha] Hf. unfold attr_after. revert v0. induction l as [|x l IH]; intros v0; cbn [map foldl].
  - by rewrite app_nil_r.
  - rewrite decide_True by (by rewrite Hf). unfold new_value at 2. rewrite Hf, Ha. cbn [items_of].
    rewrite IH, <-app_assoc. done.
Qed.

(** Every required option is among the settings. *)
Definition all_set (args : list argument) (ss : list setting) : Prop :=
  ∀ a, a ∈ args → required a = true → dest a ∈ map (λ x, dest (set_arg x)) ss.
Definition start (d : dict) : parsed := {| ns := d; seen := []; extras := [] |}.

Lemma required_ok args st :
  (∀ a, a ∈ args → required a = true → dest a ∈ seen st) → check_required (help_arg :: args) st = Ok st.
Proof.
  intros Hall. unfold check_required. destruct (missing _ _) as [|a l] eqn:Hm; [done|]. exfalso.
  assert (a ∈ missing (help_arg :: args) (seen st)) as Ha by (rewrite Hm; left).
  unfold missing in Ha. apply list_elem_of_filter in Ha as [[Hr Hs] Ha].
  apply elem_of_cons in Ha as [->|Ha]; [done|]. apply Hs. by apply Hall.
Qed.
Lemma required_set args ss st a :
  all_set args ss → a ∈ args → required a = true → dest a ∈ seen (foldl set_one st ss).
Proof. intros Hall Ha Hr. apply settings_seen. left. by apply Hall. Qed.

(** A parser of options on settings that cover what it requires. *)
Lemma parse_settings args ss :
  args_ok args = true → Forall (setting_ok args) ss → all_set args ss →
  parse_known (help_arg :: args) (map render ss) = Ok (foldl set_one (start (defaults (help_arg :: args))) ss).
Proof.
  intros Hok Hss Hall. unfold parse_known. rewrite <-(app_nil_r (map render ss)), (classify_settings args) by done.
  cbn [classify mbind res_bind]. rewrite (consume_settings args) by done. cbn [consume mbind res_bind]. apply required_ok.
  intros a. by apply required_set.
Qed.

(** An attribute of the parser has a value afterwards, and no other has. *)
Lemma attr_after_some k v ss : is_Some v → is_Some (attr_after k v ss).
Proof.
  unfold attr_after. revert v. induction ss as [|x ss IH]; intros v Hv; [done|]. cbn [foldl]. apply IH.
  by case_decide.
Qed.
Lemma settings_some args ss k : args_ok args = true → k ∈ map dest args →
  is_Some (dict_get k (ns (foldl set_one (start (defaults (help_arg :: args))) ss))).
Proof.
  intros Hok (a & -> & Ha)%list_elem_of_fmap. rewrite settings_get. apply attr_after_some.
  cbn [start ns]. rewrite (defaults_get args Hok a Ha). by eexists.
Qed.
Lemma settings_none args ss k : args_ok args = true → Forall (setting_ok args) ss → k ∉ map dest args →
  dict_get k (ns (foldl set_one (start (defaults (help_arg :: args))) ss)) = None.
Proof.
  intros Hok Hss Hk. rewrite settings_get. cbn [start ns].
  assert (dict_get k (defaults (help_arg :: args)) = None) as ->.
  { destruct (dict_get _ _) as [v|] eqn:Hv; [|done]. exfalso. apply Hk, (defaults_keys args Hok).
    apply dict_get_Some in Hv. apply list_elem_of_fmap. by exists (k, v). }
  unfold attr_after. induction Hss as [|x ss [Hx _] _ IH]; [done|]. cbn [foldl].
  rewrite decide_False; [done|]. intros <-. apply Hk. by apply list_elem_of_fmap_2.
Qed.

(** ** With a subcommand

    The strings of the subcommand are also looked at by the main parser, which
    must not find one of them ambiguous. *)
Definition unambiguous (main : list argument) (a : argument) : bool :=
  bool_decide (length (filter (λ f, startswith (flag_of a) f = true) (map fst (option_strings (help_arg :: main)))) ≤ 1)%nat.

Lemma tuples_length main s : startswith (u "--") s = true →
  length (_get_option_tuples main s) =
  length (filter (λ f, startswith (match split_eq s with Some (o, _) => o | None => s end) f = true)
            (map fst (option_strings main))).
Proof.
  unfold _get_option_tuples. intros ->.
  assert (∀ pre (ex : option pystr) l, length (omap (λ fa : pystr * argument, if startswith pre fa.1
    then Some (fa.2, fa.1, ex) else None) l) = length (filter (λ f, startswith pre f = true) (map fst l))) as H.
  { intros pre ex l. induction l as [|[f a] l IH]; [done|]. cbn [map omap list_omap fst]. rewrite filter_cons.
    destruct (startswith pre f); cbn [length]; by rewrite IH. }
  destruct (split_eq s) as [[o e]|]; apply H.
Qed.
Lemma parse_foreign main args x :
  args_ok args = true → setting_ok args x → unambiguous main (set_arg x) = true →
  ∃ c, _parse_optional (help_arg :: main) (render x) = Ok c.
Proof.
  intros Hok [Ha _] Hun. unfold unambiguous in Hun. apply bool_decide_eq_true in Hun.
  destruct (arg_flag args Hok _ Ha) as [_ Hf]. destruct (long_flag_inv _ Hf) as (c & t & Heq & Hno).
  assert (startswith (u "--") (render x) = true ∧
          match split_eq (render x) with Some (o, _) => o | None => render x end = flag_of (set_arg x) ∧
          ∃ t', render x = 45 :: c :: t' ∨ render x = 45 :: 45 :: c :: t') as (Hs & Hpre & t' & Hr).
  { assert (∀ r, startswith (u "--") (45 :: 45 :: r) = true) as Hst.
    { intros r. apply bool_decide_eq_true. by exists r. }
    destruct x as [a s v|a]; cbn [set_arg render] in *.
    - rewrite split_eq_app by done. rewrite Heq. split; [apply Hst|]. split; [done|]. eexists. by right.
    - split; [rewrite Heq; apply Hst|]. split; [|rewrite Heq; eexists; by right].
      by rewrite split_eq_none. }
  pose proof (tuples_length (help_arg :: main) (render x) Hs) as Hlen. rewrite Hpre in Hlen.
  unfold _parse_optional. destruct (render x) as [|y r]; [eauto|].
  destruct (negb (y =? 45)); [eauto|]. destruct (find_option _ _); [eauto|]. case_decide; [eauto|].
  destruct (explicit_option _ _) as [[[? ?] ?]|]; [eauto|].
  destruct (_get_option_tuples _ _) as [|[[? ?] ?] [|]]; [repeat case_match; eauto|eauto|].
  cbn [length] in Hlen. lia.
Qed.
Lemma classify_foreign main args ss :
  args_ok args = true → Forall (setting_ok args) ss → Forall (λ x, unambiguous main (set_arg x) = true) ss →
  ∃ cs, classify (help_arg :: main) (map render ss) = Ok cs ∧ map fst cs = map render ss.
Proof.
  intros Hok Hss Hun. induction Hss as [|x ss Hx Hss IH]; [by exists []|]. apply Forall_cons in Hun as [Hux Hun].
  destruct (IH Hun) as (cs & Hcs & Hmap). destruct (parse_foreign main args x Hok Hx Hux) as [c Hc].
  cbn [map classify]. destruct (render_class args Hok x Hx) as [Hne _]. rewrite decide_False by done.
  rewrite Hc, Hcs. cbn [mbind res_bind]. eexists. split; [done|]. cbn [map fst]. by rewrite Hmap.
Qed.

(** The name of a subcommand is not taken for an option. *)
Definition name_ok (s : pystr) : bool := match s with c :: _ => negb (c =? 45) | [] => false end.

Lemma parse_sub_settings main sp name args ms ss :
  let p := {| p_args := main; p_sub := Some sp |} in
  parser_ok p = true → name_ok name = true → (name, args) ∈ sub_parsers sp → NoDup (map fst (sub_parsers sp)) →
  forallb (unambiguous main) args = true →
  Forall (setting_ok main) ms → all_set main ms → Forall (setting_ok args) ss → all_set args ss →
  ∃ d, parse_args p (map render ms ++ name :: map render ss) = Ok d ∧
    ∀ k, dict_get k d =
      match dict_get k (ns (foldl set_one (start (defaults (help_arg :: args))) ss)) with
      | Some v => Some v
      | None => if decide (k = sub_dest sp) then Some (JStr name)
                else attr_after k (dict_get k (sub_default p (defaults (help_arg :: main)))) ms
      end.
Proof.
  intros p Hok Hname Hin Hnd Hun Hms Hmall Hss Hsall.
  assert (args_ok main = true ∧ args_ok args = true) as [Hmain Hargs].
  { unfold parser_ok in Hok. cbn [p p_args p_sub] in Hok. rewrite !andb_true_iff, forallb_forall in Hok.
    destruct Hok as (? & _ & Hall). apply list_elem_of_In in Hin. specialize (Hall _ Hin). by apply andb_true_iff in Hall as [? _]. }
  assert (∃ cs, classify (help_arg :: main) (name :: map render ss) = Ok ((name, Positional) :: cs) ∧
                map fst cs = map render ss) as (cs & Hcs & Hmap).
  { destruct (classify_foreign main args ss Hargs Hss) as (cs & Hcs & Hmap).
    { eapply Forall_impl; [exact Hss|]. intros x [Hx _]. rewrite forallb_forall in Hun. by apply Hun, list_elem_of_In. }
    exists cs. split; [|done]. cbn [classify]. destruct name as [|c t]; [done|]. cbn [name_ok] in Hname.
    rewrite decide_False by (intros [= -> ->]; done). cbn [_parse_optional]. rewrite Hname, Hcs. done. }
  assert (List.find (λ q, bool_decide (q.1 = name)) (sub_parsers sp) = Some (name, args)) as Hfind.
  { clear -Hin Hnd. induction (sub_parsers sp) as [|[n b] l IH]; [by apply elem_of_nil in Hin|].
    cbn [map List.find fst] in *. apply NoDup_cons in Hnd as [Hn Hnd].
    apply elem_of_cons in Hin as [[= <- <-]|Hin]; [by rewrite bool_decide_eq_true_2|].
    rewrite bool_decide_eq_false_2; [by apply IH|]. intros ->. apply Hn, list_elem_of_fmap. by exists (name, args). }
  unfold parse_args. cbn [p p_args p_sub]. rewrite (classify_settings main), Hcs by done. cbn [mbind res_bind].
  rewrite (consume_settings main) by done. cbn [consume fmap option_fmap option_map]. rewrite Hmap.
  unfold run_subparser. rewrite Hfind, parse_settings by done. cbn [mbind res_bind].
  set (r := foldl set_one (start _) ss). set (m := foldl set_one _ ms).
  assert (extras r = [] ∧ extras m = []) as [Her Hem] by (split; apply settings_seen).
  rewrite required_ok; cbn [mbind res_bind seen extras ns].
  2: { intros a Ha Hr. right. by apply (required_set main). }
  rewrite Her, Hem, (decide_True (P := sub_dest sp ∈ _)) by left. cbn [mbind res_bind].
  rewrite (decide_True (P := [] ++ [] = [])) by done.
  eexists. split; [done|]. intros k. rewrite dict_update_get.
  2: { apply settings_keys. by apply (defaults_keys args). }
  destruct (dict_get k (ns r)); [done|]. case_decide as Hk; [by rewrite Hk, dict_get_set_eq|].
  rewrite dict_get_set_ne by done. apply (settings_get k ms).
Qed.
