(* ===== verification/TimeFacts.v ===== *)
(** * The calendar and the order of time stamps

    [civil_from_days] is the proleptic Gregorian calendar: it starts at the epoch
    and each day is followed by the next one.  Time stamps of four-digit years
    have a fixed shape, and sort as strings in the order of time, which the tools
    that look for the latest document rely on. *)
From S2P Require Import Prelude PyStr TimeUtil Canon.
#[local] Open Scope Z_scope.

(** ** The calendar *)

Definition leap (y : Z) : bool := (y mod 4 =? 0) && (negb (y mod 100 =? 0) || (y mod 400 =? 0)).
Definition month_days (y m : Z) : Z :=
  if (m =? 2) then if leap y then 29 else 28
  else if (m =? 4) || (m =? 6) || (m =? 9) || (m =? 11) then 30 else 31.
Definition next_day (c : civil) : civil :=
  if day c <? month_days (year c) (month c) then Civil (year c) (month c) (day c + 1)
  else if month c <? 12 then Civil (year c) (month c + 1) 1
  else Civil (year c + 1) 1 1.
(** A date that exists. *)
Definition civil_ok (c : civil) : bool :=
  (1 <=? month c) && (month c <=? 12) && (1 <=? day c) && (day c <=? month_days (year c) (month c)).

(** The calendar repeats every 400 years: a date of the era that begins on
    March 1st of year 0, by its day in the era. *)
Definition shift (k : Z) (c : civil) : civil := Civil (year c + k * 400) (month c) (day c).
Definition era_date (doe : Z) : civil := civil_from_days (doe - 719468).

Lemma shift_shift a b c : shift a (shift b c) = shift (a + b) c.
Proof. unfold shift. cbn. f_equal. lia. Qed.
Lemma leap_shift y k : leap (y + k * 400) = leap y.
Proof.
  unfold leap. replace (y + k * 400) with (y + (k * 100) * 4) at 1 by lia.
  replace (y + k * 400) with (y + (k * 4) * 100) at 1 by lia. by rewrite !Z_mod_plus_full.
Qed.
Lemma next_day_shift k c : next_day (shift k c) = shift k (next_day c).
Proof.
  unfold next_day, shift. cbn. assert (month_days (year c + k * 400) (month c) = month_days (year c) (month c)) as ->.
  { unfold month_days. by rewrite leap_shift. }
  repeat case_match; cbn; f_equal; lia.
Qed.
Lemma civil_ok_shift k c : civil_ok (shift k c) = civil_ok c.
Proof. unfold civil_ok, shift, month_days. cbn. by rewrite leap_shift. Qed.

Lemma civil_era d : civil_from_days d = shift ((d + 719468) / 146097) (era_date ((d + 719468) mod 146097)).
Proof.
  unfold era_date, civil_from_days, shift. cbv zeta. cbn [year month day].
  set (z := d + 719468). set (doe := z mod 146097).
  replace (doe - 719468 + 719468) with doe by lia.
  assert (0 <= doe < 146097) as Hdoe by (apply Z.mod_pos_bound; lia).
  rewrite (Z.div_small doe 146097), (Z.mod_small doe 146097) by lia. f_equal. ring.
Qed.

(** ** One era

    Its 400 years begin on March 1st: year [y] of the era on day [year_start y];
    [year_date y n] is the date of its day [n]. *)
Definition era_year (doe : Z) : Z := (doe - doe / 1460 + doe / 36524 - doe / 146096) / 365.
Definition year_start (y : Z) : Z := 365 * y + y / 4 - y / 100.
Definition year_days (lp : bool) : Z := if lp then 366 else 365.
Definition year_date (y n : Z) : civil :=
  let mp := (5 * n + 2) / 153 in
  let m := if mp <? 10 then mp + 3 else mp - 9 in
  Civil (y + if m <=? 2 then 1 else 0) m (n - (153 * mp + 2) / 5 + 1).

Lemma era_date_year doe : 0 <= doe < 146097 →
  era_date doe = year_date (era_year doe) (doe - year_start (era_year doe)).
Proof.
  intros Hdoe. unfold era_date, civil_from_days, year_date, era_year, year_start. cbv zeta.
  replace (doe - 719468 + 719468) with doe by lia.
  rewrite (Z.div_small doe 146097), (Z.mod_small doe 146097) by lia. f_equal. ring.
Qed.
Lemma era_year_mono a b : 0 <= a <= b → b < 146096 → era_year a <= era_year b.
Proof.
  intros Hab Hb. unfold era_year. apply Z.div_le_mono; [lia|].
  rewrite (Z.div_small a 146096), (Z.div_small b 146096) by lia.
  Z.to_euclidean_division_equations. lia.
Qed.

(** A check of finitely many integers. *)
Fixpoint all_from (z : Z) (n : nat) (f : Z → bool) : bool :=
  match n with O => true | S n' => f z && all_from (z + 1) n' f end.
Lemma all_from_spec z n f : all_from z n f = true → ∀ x, z <= x < z + Z.of_nat n → f x = true.
Proof.
  revert z. induction n as [|n IH]; intros z; simpl; [lia|]. intros [Hf Hn]%andb_true_iff x Hx.
  destruct (decide (x = z)) as [->|Hne]; [done|]. apply (IH (z + 1)); [done|lia].
Qed.

(** The first and the last day of each year of the era fall in it. *)
Definition year_bounds_ok (y : Z) : bool :=
  (era_year (year_start y) =? y) && (era_year (Z.min 146095 (year_start y + year_days (leap (y + 1)) - 1)) =? y) &&
  (0 <=? year_start y) && (year_start y + year_days (leap (y + 1)) =? (if y =? 399 then 146097 else year_start (y + 1))) &&
  ((y =? 399) || (year_start y + year_days (leap (y + 1)) <=? 146096)).
Lemma years_checked : all_from 0 400 year_bounds_ok = true.
Proof. vm_compute. reflexivity. Qed.
Lemma year_bounds y : 0 <= y < 400 → year_bounds_ok y = true.
Proof. intros Hy. apply (all_from_spec _ _ _ years_checked). lia. Qed.

Lemma era_year_of y n : 0 <= y < 400 → 0 <= n < year_days (leap (y + 1)) →
  0 <= year_start y + n < 146097 ∧ era_year (year_start y + n) = y.
Proof.
  intros Hy Hn. pose proof (year_bounds y Hy) as Hb. unfold year_bounds_ok in Hb.
  rewrite !andb_true_iff, orb_true_iff, !Z.eqb_eq, !Z.leb_le in Hb. destruct Hb as [[[[H1 H2] H3] H4] H5].
  assert (year_start y + year_days (leap (y + 1)) <= 146097) as Hend by (revert H4; destruct (Z.eqb_spec y 399); lia).
  split; [lia|]. destruct (decide (year_start y + n = 146096)) as [Hlast|Hne].
  - assert (y = 399) as -> by lia. by rewrite Hlast.
  - apply Z.le_antisymm.
    + rewrite <-H2 at 2. apply era_year_mono; lia.
    + rewrite <-H1 at 1. apply era_year_mono; lia.
Qed.
Lemma era_date_of y n : 0 <= y < 400 → 0 <= n < year_days (leap (y + 1)) →
  era_date (year_start y + n) = year_date y n.
Proof.
  intros Hy Hn. destruct (era_year_of y n Hy Hn) as [Hdoe Hyear].
  rewrite era_date_year, Hyear by done. f_equal. lia.
Qed.
(** Every day of the era is a day of one of its years. *)
Lemma era_split doe : 0 <= doe < 146097 →
  ∃ y n, 0 <= y < 400 ∧ 0 <= n < year_days (leap (y + 1)) ∧ doe = year_start y + n.
Proof.
  intros Hdoe. assert (∀ k : nat, (k < 400)%nat → doe < year_start (Z.of_nat k) + year_days (leap (Z.of_nat k + 1)) →
    ∃ y n, 0 <= y < 400 ∧ 0 <= n < year_days (leap (y + 1)) ∧ doe = year_start y + n) as H.
  { induction k as [|k IH]; intros Hk Hlt.
    - exists 0, doe. unfold year_start in *. simpl in *. lia.
    - destruct (decide (doe < year_start (Z.of_nat k) + year_days (leap (Z.of_nat k + 1)))); [apply IH; [lia|done]|].
      pose proof (year_bounds (Z.of_nat k) ltac:(lia)) as Hb. unfold year_bounds_ok in Hb.
      rewrite !andb_true_iff, !Z.eqb_eq in Hb. destruct Hb as [[_ Hb] _]. revert Hb.
      destruct (Z.eqb_spec (Z.of_nat k) 399); [lia|]. replace (Z.of_nat k + 1) with (Z.of_nat (S k)) in * by lia. intros Hb.
      exists (Z.of_nat (S k)), (doe - year_start (Z.of_nat (S k))). lia. }
  apply (H 399%nat); [lia|]. vm_compute (_ + _). lia.
Qed.

(** One year, day by day: only February depends on the leap year. *)
Definition month_days_in (lp : bool) (m : Z) : Z :=
  if m =? 2 then if lp then 29 else 28
  else if (m =? 4) || (m =? 6) || (m =? 9) || (m =? 11) then 30 else 31.
Definition next_day_in (lp : bool) (c : civil) : civil :=
  if day c <? month_days_in lp (month c) then Civil (year c) (month c) (day c + 1)
  else if month c <? 12 then Civil (year c) (month c + 1) 1
  else Civil (year c + 1) 1 1.
Definition civil_eqb (c c' : civil) : bool :=
  (year c =? year c') && (month c =? month c') && (day c =? day c').
Lemma civil_eqb_eq c c' : civil_eqb c c' = true → c = c'.
Proof. destruct c, c'. unfold civil_eqb. cbn. intros H. f_equal; lia. Qed.
Definition year_step_ok (lp : bool) (n : Z) : bool :=
  let c := year_date 0 n in
  (1 <=? month c) && (month c <=? 12) && (1 <=? day c) && (day c <=? month_days_in lp (month c)) &&
  civil_eqb (next_day_in lp c) (if n + 1 <? year_days lp then year_date 0 (n + 1) else year_date 1 0).
Lemma days_checked lp : all_from 0 (Z.to_nat (year_days lp)) (year_step_ok lp) = true.
Proof. destruct lp; vm_compute; reflexivity. Qed.

Lemma year_date_shift y n : year_date y n = Civil (y + year (year_date 0 n)) (month (year_date 0 n)) (day (year_date 0 n)).
Proof. unfold year_date. cbn. f_equal. Qed.
(** The February of a year of the era is in the next civil year. *)
Lemma year_date_month_days y n :
  month_days (year (year_date y n)) (month (year_date y n)) = month_days_in (leap (y + 1)) (month (year_date y n)).
Proof.
  unfold month_days, month_days_in. destruct (Z.eqb_spec (month (year_date y n)) 2) as [Hm|]; [|done].
  unfold year_date in *. cbn in *. rewrite Hm. done.
Qed.

Lemma year_step y n : 0 <= n < year_days (leap (y + 1)) →
  civil_ok (year_date y n) = true ∧
  next_day (year_date y n) =
    if n + 1 <? year_days (leap (y + 1)) then year_date y (n + 1) else year_date (y + 1) 0.
Proof.
  intros Hn. set (lp := leap (y + 1)) in *.
  assert (year_step_ok lp n = true) as Hok.
  { apply (all_from_spec _ _ _ (days_checked lp)). rewrite Z2Nat.id by (destruct lp; simpl; lia). lia. }
  unfold year_step_ok in Hok. apply andb_true_iff in Hok as [Hv Hs%civil_eqb_eq].
  split; [unfold civil_ok; by rewrite year_date_month_days|].
  unfold next_day. rewrite year_date_month_days. fold lp. unfold next_day_in in Hs.
  rewrite (year_date_shift y n), (year_date_shift y (n + 1)), (year_date_shift (y + 1) 0). cbn [year month day].
  assert (year_date 1 0 = Civil 1 3 1) as H1 by reflexivity. rewrite H1 in Hs.
  change (year_date 0 0) with (Civil 0 3 1). cbn [year month day].
  destruct (n + 1 <? year_days lp); repeat case_match; rewrite <-?Hs; simplify_eq/=; f_equal; lia.
Qed.
Lemma era_step doe : 0 <= doe < 146097 →
  civil_ok (era_date doe) = true ∧
  next_day (era_date doe) = if doe =? 146096 then shift 1 (era_date 0) else era_date (doe + 1).
Proof.
  intros (y & n & Hy & Hn & ->)%era_split. rewrite era_date_of by done.
  destruct (year_step y n Hn) as [Hok ->]. split; [done|].
  pose proof (year_bounds y Hy) as Hb. unfold year_bounds_ok in Hb.
  rewrite !andb_true_iff, orb_true_iff, !Z.eqb_eq, Z.leb_le in Hb. destruct Hb as [[_ Hend] Hlt].
  assert (∀ y', 0 < year_days (leap y')) as Hpos by (intros y'; by destruct (leap y')).
  destruct (Z.ltb_spec (n + 1) (year_days (leap (y + 1)))) as [Hin|Hlast].
  - replace (year_start y + n =? 146096) with false.
    + rewrite <-Z.add_assoc. symmetry. apply era_date_of; [done|lia].
    + symmetry. apply Z.eqb_neq. revert Hend. destruct (Z.eqb_spec y 399); lia.
  - assert (year_start y + n + 1 = year_start y + year_days (leap (y + 1))) as Hnext by lia.
    revert Hend. destruct (Z.eqb_spec y 399) as [->|Hne]; intros Hend.
    + replace (year_start 399 + n =? 146096) with true by lia. reflexivity.
    + replace (year_start y + n =? 146096) with false by lia.
      rewrite Hnext, Hend, <-(Z.add_0_r (year_start (y + 1))). symmetry.
      apply era_date_of; [lia|]. specialize (Hpos (y + 1 + 1)). lia.
Qed.

Lemma civil_step d :
  civil_ok (civil_from_days d) = true ∧ civil_from_days (d + 1) = next_day (civil_from_days d).
Proof.
  rewrite !civil_era.
  set (z := d + 719468). replace (d + 1 + 719468) with (z + 1) by lia.
  assert (0 <= z mod 146097 < 146097) as Hz by (apply Z.mod_pos_bound; lia).
  destruct (era_step _ Hz) as [Hok Hnext]. rewrite civil_ok_shift, next_day_shift, Hnext. split; [done|].
  assert (z = 146097 * (z / 146097) + z mod 146097) as Hdiv by (apply Z.div_mod; lia).
  destruct (Z.eqb_spec (z mod 146097) 146096) as [Hlast|Hne].
  - rewrite shift_shift. f_equal; [|f_equal].
    + symmetry. apply (Z.div_unique _ _ _ 0); lia.
    + symmetry. apply (Z.mod_unique _ _ (z / 146097 + 1)); lia.
  - f_equal; [|f_equal].
    + symmetry. apply (Z.div_unique _ _ _ (z mod 146097 + 1)); lia.
    + symmetry. apply (Z.mod_unique _ _ (z / 146097)); lia.
Qed.

(** [civil_from_days] is the Gregorian calendar: day 0 is 1970-01-01, every
    date exists, and the date of a day is followed by the date of the next. *)
Theorem civil_from_days_calendar :
  civil_from_days 0 = Civil 1970 1 1 ∧
  ∀ d, civil_ok (civil_from_days d) = true ∧ civil_from_days (d + 1) = next_day (civil_from_days d).
Proof. split; [reflexivity|apply civil_step]. Qed.

(** ** The order of time stamps

    [createdAt] and the directory made of it are strings; the tools that look
    for the latest document sort them as strings.  For the years 1000 to 9999
    that is the order of time: every field is a fixed number of two-digit
    groups, most significant first, and the calendar is increasing. *)

#[local] Close Scope Z_scope.

(** ** The characters of a stamp *)

Lemma replace_char c s : replace [c] [] s = filter (λ x, x ≠ c) s.
Proof.
  unfold replace. induction s as [|x s IH]; [done|]. cbn [replace_from]. unfold startswith.
  cbn [drop_prefix]. destruct (N.eqb_spec c x) as [<-|Hne].
  - rewrite filter_cons_False by naive_solver. rewrite bool_decide_eq_true_2 by (by eexists). exact IH.
  - rewrite filter_cons_True by done. rewrite bool_decide_eq_false_2 by (by intros [? ?]). by rewrite IH.
Qed.

(** Letters and digits. *)
Definition stamp_char (c : N) : Prop := is_ascii_digit c ∨ c = 84%N ∨ c = 90%N.
(** A name of stamp characters that starts with a digit. *)
Definition stamp_ok (s : pystr) : Prop :=
  Forall stamp_char s ∧ ∃ c t, s = c :: t ∧ is_ascii_digit c.

Lemma stamp_chars s :
  Forall (λ c, stamp_char c ∨ c = 45 ∨ c = 58)%N s → Forall stamp_char (compact_stamp s).
Proof.
  intros Hs. unfold compact_stamp. change (u "-") with [45%N]. change (u ":") with [58%N].
  rewrite !replace_char. apply Forall_forall. intros c [H1 [H2 Hc]%list_elem_of_filter]%list_elem_of_filter.
  rewrite Forall_forall in Hs. destruct (Hs c Hc) as [|[->| ->]]; naive_solver.
Qed.
Lemma str_of_Z_chars z : Forall (λ c, stamp_char c ∨ c = 45 ∨ c = 58)%N (str_of_Z z).
Proof.
  eapply Forall_impl; [apply str_of_Z_digits|]. intros c [->|Hc]; [by right; left|]. left. by left.
Qed.
Lemma pad2_chars z : Forall (λ c, stamp_char c ∨ c = 45 ∨ c = 58)%N (pad2 z).
Proof.
  unfold pad2. apply Forall_app. split; [|apply str_of_Z_chars].
  destruct (z <? 10)%Z; [|constructor]. constructor; [|constructor]. left. left. done.
Qed.
Lemma iso_stamp_ok t : stamp_ok (compact_stamp (iso_utc t)).
Proof.
  split.
  - apply stamp_chars. unfold iso_utc.
    repeat first [apply str_of_Z_chars | apply pad2_chars | apply Forall_app; split];
      (constructor; [unfold stamp_char; naive_solver|constructor]).
  - unfold compact_stamp, iso_utc. change (u "-") with [45%N]. change (u ":") with [58%N].
    rewrite !replace_char. set (y := year _). generalize (u "T"). intros tl.
    assert (∃ c r, filter (λ x, x ≠ 45%N) (filter (λ x, x ≠ 58%N) (str_of_Z y)) = c :: r ∧ is_ascii_digit c)
      as (c & r & Hy & Hc).
    { assert (∀ n, filter (λ x, x ≠ 45%N) (filter (λ x, x ≠ 58%N) (str_of_N n)) = str_of_N n) as Hid.
      { intros n. pose proof (str_of_N_digits n) as Hd. induction Hd as [|c s Hc _ IH]; [done|].
        unfold is_ascii_digit in Hc. rewrite !filter_cons_True by lia. by rewrite IH. }
      assert (∀ n, ∃ c r, str_of_N n = c :: r ∧ is_ascii_digit c) as Hh.
      { intros n. pose proof (str_of_N_digits n) as Hd. destruct (str_of_N n) as [|c s] eqn:Hs.
        - by apply str_of_N_nonempty in Hs.
        - inversion_clear Hd. eauto. }
      unfold str_of_Z. destruct (y <? 0)%Z.
      - rewrite filter_cons_True by done. rewrite filter_cons_False by naive_solver. rewrite Hid. apply Hh.
      - rewrite Hid. apply Hh. }
    exists c. eexists. split; [|exact Hc]. rewrite !filter_app, Hy. reflexivity.
Qed.

(** ** Two-digit groups *)

#[local] Open Scope Z_scope.

(** Groups, each followed by its separator. *)
Definition fmt (seps : list pystr) (l : list Z) : pystr := concat (zip_with (λ s z, pad2 z ++ s) seps l).
(** The number the groups write in base 100. *)
Fixpoint value (l : list Z) : Z :=
  match l with [] => 0 | z :: l' => z * 100 ^ Z.of_nat (length l') + value l' end.
Definition groups (l : list Z) : Prop := Forall (λ z, 0 <= z < 100) l.

Lemma value_bound l : groups l → 0 <= value l < 100 ^ Z.of_nat (length l).
Proof.
  induction 1 as [|z l Hz _ IH]; cbn [value length]; [lia|].
  rewrite Nat2Z.inj_succ, Z.pow_succ_r by lia. nia.
Qed.

(** Strings whose heads have the same length compare by head, then by tail. *)
Lemma str_leb_app a b x y : length a = length b →
  str_leb (a ++ x) (b ++ y) = if decide (a = b) then str_leb x y else str_leb a b.
Proof.
  revert b. induction a as [|c a IH]; intros [|d b] Hl; try done. injection Hl as Hl. cbn [app str_leb].
  rewrite IH by done. destruct (N.eqb_spec c d) as [->|Hne].
  - destruct (decide (a = b)) as [->|Hab]; [by rewrite decide_True|].
    rewrite (decide_False (P := d :: a = d :: b)) by (by intros [=]). done.
  - by rewrite decide_False by (by intros [=]).
Qed.

Definition pad2_ok (a : Z) : bool :=
  all_from 0 100 (λ b, Bool.eqb (str_leb (pad2 a) (pad2 b)) (a <=? b)) &&
  forallb (λ c, (48 <=? c) && (c <=? 57))%N (pad2 a).
Lemma pads_checked : all_from 0 100 pad2_ok = true.
Proof. vm_compute. reflexivity. Qed.
Lemma pad2_leb a b : 0 <= a < 100 → 0 <= b < 100 → str_leb (pad2 a) (pad2 b) = (a <=? b).
Proof.
  intros Ha Hb. pose proof (all_from_spec _ _ _ pads_checked a ltac:(lia)) as H. unfold pad2_ok in H.
  apply andb_true_iff in H as [H _]. pose proof (all_from_spec _ _ _ H b ltac:(lia)) as Hab.
  by apply Bool.eqb_prop in Hab.
Qed.
Lemma pad2_inj a b : 0 <= a < 100 → 0 <= b < 100 → pad2 a = pad2 b → a = b.
Proof.
  intros Ha Hb He. pose proof (pad2_leb a b Ha Hb) as H1. pose proof (pad2_leb b a Hb Ha) as H2.
  pose proof (pad2_leb b b Hb Hb). rewrite He in *. lia.
Qed.
Lemma pad2_digits a : 0 <= a < 100 → Forall is_ascii_digit (pad2 a).
Proof.
  intros Ha. pose proof (all_from_spec _ _ _ pads_checked a ltac:(lia)) as H. unfold pad2_ok in H.
  apply andb_true_iff in H as [_ H]. rewrite forallb_forall in H. apply Forall_forall.
  intros c Hc%list_elem_of_In. specialize (H c Hc). unfold is_ascii_digit. lia.
Qed.

(** Equally many groups compare as the numbers they write. *)
Lemma str_leb_fmt seps l l' : groups l → groups l' → length l = length seps → length l' = length seps →
  str_leb (fmt seps l) (fmt seps l') = (value l <=? value l').
Proof.
  intros Hl. revert seps l'. induction Hl as [|a l Ha Hl IH]; intros [|s seps] [|b l'] Hl' Hlen Hlen'; try done.
  injection Hlen as Hlen. injection Hlen' as Hlen'. apply Forall_cons in Hl' as [Hb Hl'].
  unfold fmt. cbn [zip_with concat value]. rewrite <-!app_assoc. fold (fmt seps l) (fmt seps l').
  rewrite str_leb_app, pad2_leb by (done || by rewrite !pad2_length). rewrite Hlen, Hlen'.
  pose proof (value_bound l Hl) as Hv. pose proof (value_bound l' Hl') as Hv'. rewrite Hlen in Hv. rewrite Hlen' in Hv'.
  set (P := 100 ^ Z.of_nat (length seps)) in *. destruct (decide (pad2 a = pad2 b)) as [He|Hne].
  - apply pad2_inj in He as ->; [|done..]. rewrite str_leb_app by done. rewrite decide_True, IH by done. lia.
  - assert (a ≠ b) by congruence. destruct (Z.leb_spec a b) as [Hab|Hab].
    + assert (a * P + P <= b * P) by nia. symmetry. apply Z.leb_le. lia.
    + assert (b * P + P <= a * P) by nia. symmetry. apply Z.leb_gt. lia.
Qed.

(** A four-digit year is two groups. *)
Definition year_groups_ok (y : Z) : bool := bool_decide (str_of_Z y = pad2 (y / 100) ++ pad2 (y mod 100)).
Lemma year_groups_checked : all_from 1000 (Z.to_nat 9000) year_groups_ok = true.
Proof. vm_compute. reflexivity. Qed.
Lemma year_groups y : 1000 <= y < 10000 → str_of_Z y = pad2 (y / 100) ++ pad2 (y mod 100).
Proof. intros Hy. apply (bool_decide_unpack _), Is_true_true, (all_from_spec _ _ _ year_groups_checked). lia. Qed.

(** ** The calendar is increasing *)

Definition date_value (c : civil) : Z := year c * 10000 + month c * 100 + day c.

Lemma civil_ok_bounds c : civil_ok c = true → 1 <= month c <= 12 ∧ 1 <= day c <= 31.
Proof.
  unfold civil_ok. intros H. assert (month_days (year c) (month c) <= 31).
  { unfold month_days. repeat case_match; lia. }
  lia.
Qed.
Lemma date_value_next c : civil_ok c = true → date_value c < date_value (next_day c).
Proof.
  intros Hok%civil_ok_bounds. unfold date_value, next_day. repeat case_match; cbn; lia.
Qed.
Lemma date_value_lt d d' : d < d' → date_value (civil_from_days d) < date_value (civil_from_days d').
Proof.
  intros Hlt. replace d' with (d + 1 + (d' - d - 1)) by lia.
  assert (0 <= d' - d - 1) as Hk by lia. revert Hk. generalize (d' - d - 1). apply natlike_ind.
  - rewrite Z.add_0_r. destruct (civil_step d) as [Hok ->]. by apply date_value_next.
  - intros k Hk IH. destruct (civil_step (d + 1 + k)) as [Hok Hn].
    replace (d + 1 + Z.succ k) with (d + 1 + k + 1) by lia. rewrite Hn. pose proof (date_value_next _ Hok). lia.
Qed.

(** ** The order of stamps *)

(** 1000-01-01T00:00:00Z to 9999-12-31T23:59:59Z: the years of four digits. *)
Definition four_digit_year (t : Z) : Prop := -30610224000 <= t < 253402300800.

Definition fields (t : Z) : list Z :=
  let c := civil_from_days (t / 86400) in
  let s := t mod 86400 in
  [year c / 100; year c mod 100; month c; day c; s / 3600; s / 60 mod 60; s mod 60].
Definition iso_seps : list pystr := [[]; u "-"; u "-"; u "T"; u ":"; u ":"; u "Z"].
Definition compact_seps : list pystr := [[]; []; []; u "T"; []; []; u "Z"].

Lemma year_range d : -354285 <= d < 2932897 → 1000 <= year (civil_from_days d) < 10000.
Proof.
  intros Hd. destruct (civil_step d) as [Hok%civil_ok_bounds _].
  assert (date_value (civil_from_days (-354286)) < date_value (civil_from_days d)) as Hlo by (apply date_value_lt; lia).
  assert (date_value (civil_from_days d) < date_value (civil_from_days 2932897)) as Hhi by (apply date_value_lt; lia).
  change (date_value (civil_from_days (-354286))) with 9991231 in Hlo.
  change (date_value (civil_from_days 2932897)) with 100000101 in Hhi. unfold date_value in *. lia.
Qed.
Lemma fields_year t : four_digit_year t → 1000 <= year (civil_from_days (t / 86400)) < 10000.
Proof. unfold four_digit_year. intros Ht. apply year_range. Z.to_euclidean_division_equations. lia. Qed.
Lemma fields_groups t : four_digit_year t → groups (fields t).
Proof.
  intros Ht%fields_year. destruct (civil_step (t / 86400)) as [Hok%civil_ok_bounds _]. unfold fields.
  set (c := civil_from_days _) in *. pose proof (Z.mod_pos_bound t 86400 ltac:(lia)).
  set (s := t mod 86400) in *. repeat constructor; Z.to_euclidean_division_equations; lia.
Qed.
Lemma value_groups y m d h mi s :
  value [y / 100; y mod 100; m; d; h; mi; s] =
  (y * 10000 + m * 100 + d) * 1000000 + (h * 10000 + mi * 100 + s).
Proof. cbn [value length]. pose proof (Z.div_mod y 100 ltac:(lia)). lia. Qed.
Lemma fields_value t t' : value (fields t) <= value (fields t') ↔ t <= t'.
Proof.
  assert (∀ t, value (fields t) = date_value (civil_from_days (t / 86400)) * 1000000 +
    (t mod 86400 / 3600 * 10000 + t mod 86400 / 60 mod 60 * 100 + t mod 86400 mod 60)) as Hv.
  { intros x. apply value_groups. }
  rewrite !Hv. pose proof (Z.mod_pos_bound t 86400 ltac:(lia)). pose proof (Z.mod_pos_bound t' 86400 ltac:(lia)).
  pose proof (date_value_lt (t / 86400) (t' / 86400)). pose proof (date_value_lt (t' / 86400) (t / 86400)).
  assert (t = 86400 * (t / 86400) + t mod 86400) by (apply Z.div_mod; lia).
  assert (t' = 86400 * (t' / 86400) + t' mod 86400) by (apply Z.div_mod; lia).
  destruct (Z.lt_trichotomy (t / 86400) (t' / 86400)) as [Hlt|[Heq|Hlt]]; [|rewrite Heq in *|];
    generalize dependent (t mod 86400); intros s; generalize dependent (t' mod 86400); intros s'; intros;
    Z.to_euclidean_division_equations; lia.
Qed.

Lemma iso_fields t : four_digit_year t → iso_utc t = fmt iso_seps (fields t).
Proof.
  intros Ht%fields_year. unfold iso_utc, fields, fmt. cbv zeta. cbn [zip_with concat iso_seps].
  rewrite year_groups by done. by rewrite <-!app_assoc, ?app_nil_r.
Qed.
Lemma compact_app a b : compact_stamp (a ++ b) = compact_stamp a ++ compact_stamp b.
Proof.
  unfold compact_stamp. change (u "-") with [45%N]. change (u ":") with [58%N].
  by rewrite !replace_char, !filter_app.
Qed.
Lemma compact_pad2 z : 0 <= z < 100 → compact_stamp (pad2 z) = pad2 z.
Proof.
  intros Hz%pad2_digits. unfold compact_stamp. change (u "-") with [45%N]. change (u ":") with [58%N].
  rewrite !replace_char. unfold is_ascii_digit in Hz.
  induction Hz as [|c s Hc _ IH]; [done|]. rewrite !filter_cons_True by lia. by rewrite IH.
Qed.
Lemma compact_fmt seps l : groups l → compact_stamp (fmt seps l) = fmt (map compact_stamp seps) l.
Proof.
  intros Hl. revert seps. induction Hl as [|z l Hz _ IH]; intros [|s seps]; try done.
  unfold fmt in *. cbn [zip_with map concat]. by rewrite !compact_app, compact_pad2, IH.
Qed.
Lemma compact_fields t : four_digit_year t → compact_stamp (iso_utc t) = fmt compact_seps (fields t).
Proof. intros Ht. rewrite iso_fields, compact_fmt by auto using fields_groups. reflexivity. Qed.

Lemma iso_le t t' : four_digit_year t → four_digit_year t' → str_le (iso_utc t) (iso_utc t') ↔ t <= t'.
Proof.
  intros Ht Ht'. unfold str_le. rewrite !iso_fields, str_leb_fmt by auto using fields_groups.
  by rewrite Z.leb_le, fields_value.
Qed.
Lemma stamp_le t t' : four_digit_year t → four_digit_year t' →
  str_le (compact_stamp (iso_utc t)) (compact_stamp (iso_utc t')) ↔ t <= t'.
Proof.
  intros Ht Ht'. unfold str_le. rewrite !compact_fields, str_leb_fmt by auto using fields_groups.
  by rewrite Z.leb_le, fields_value.
Qed.
Lemma stamp_inj t t' : four_digit_year t → four_digit_year t' →
  compact_stamp (iso_utc t) = compact_stamp (iso_utc t') → t = t'.
Proof.
  intros Ht Ht' He. pose proof (stamp_le t t' Ht Ht') as H1. pose proof (stamp_le t' t Ht' Ht) as H2.
  rewrite He in H1, H2. assert (str_le (compact_stamp (iso_utc t')) (compact_stamp (iso_utc t'))) by (by destruct (total str_le (compact_stamp (iso_utc t')) (compact_stamp (iso_utc t')))).
  naive_solver lia.
Qed.
