(* ===== verification/Host.v ===== *)
(** * The host of the truth-plane tools

    What the tools read of the machine they run on and do not change: the kernel
    names of [platform.uname], random identifiers, files of the host, among them
    the packages the programs import.  They are parameters: [uuid_hex n] is what [uuid.uuid4().hex] returns when it is the
    [n]-th reading of the outside world. *)
From S2P Require Import Prelude PyStr PyJson Errors PyOps World.

Record Uname := {
  un_system : pystr; un_node : pystr; un_release : pystr;
  un_version : pystr; un_machine : pystr; un_processor : pystr
}.
Class Host := {
  uname : Uname;
  uuid_hex : nat → pystr;
  host_text : pystr → option pystr;          (* [read_text]; None: it raises *)
  host_bytes : pystr → option (list N);      (* [read_bytes]; None: it raises *)
  host_exists : pystr → bool;                (* [Path(s).exists()] *)
  host_is_dir : pystr → bool                 (* [Path(s).is_dir()] *)
}.

Section host.
Context {K : Type} `{Host}.
Definition uuid4_hex : W K pystr := λ w, (tick w, Ok (uuid_hex (w_tick w))).
End host.

(** ** Imports

    What the import statements at the top of a program find.  A package is a
    directory with an [__init__.py] in a directory of [sys.path], the first such
    directory counting; a package found is taken to be the repository's, and a
    [tools] of another kind (a file tools.py, a directory without
    [__init__.py]) is not looked for. *)

(** How a program of tools/ is started: the directory above the one its file is
    in, and [sys.path]. *)
Record Launch := { l_root : path; l_path : list path }.
(** [python <root>/tools/x.py]: [sys.path] starts with the directory of the file.
    [env] is the rest: PYTHONPATH and the interpreter's own. *)
Definition as_script (root : path) (env : list path) : Launch :=
  {| l_root := root; l_path := (root ++ [u "tools"]) :: env |}.
(** [python -m tools.x] in <root>: it starts with the working directory. *)
Definition as_module (root : path) (env : list path) : Launch := {| l_root := root; l_path := root :: env |}.

Section imports.
Context `{Host}.
Definition package_file (name : pystr) (d : path) : pystr := posix (d ++ [name; u "__init__.py"]).
Definition find_package (name : pystr) (sys_path : list path) : option path :=
  head (filter (λ d, host_exists (package_file name d) = true) sys_path).
(** The directory of [sys.path] the package is in. *)
Definition import_package (name : pystr) (sys_path : list path) : pyres path :=
  res_of_option (Exn ModuleNotFoundError (u "No module named '" ++ name ++ u "'")) (find_package name sys_path).
Definition has_module (d : path) (name m : pystr) : bool := host_exists (posix (d ++ [name; m ++ u ".py"])).
(** [from name import m], [m] a module of the package in [d] *)
Definition import_from (d : path) (name m : pystr) : pyres unit :=
  if has_module d name m then Ok tt
  else Err (Exn ImportError (u "cannot import name '" ++ m ++ u "' from '" ++ name ++ u "' ("
                             ++ package_file name d ++ u ")")).
(** [from name.m import ...] *)
Definition import_module (d : path) (name m : pystr) : pyres unit :=
  if has_module d name m then Ok tt
  else Err (Exn ModuleNotFoundError (u "No module named '" ++ name ++ u "." ++ m ++ u "'")).

(** [sys.path] after the launcher has put [root]/src in front of it. *)
Definition add_src (root : path) (sys_path : list path) : list path :=
  let src := root ++ [u "src"] in
  if host_is_dir (posix src) && bool_decide (src ∉ sys_path) then src :: sys_path else sys_path.
End imports.
