(* ===== verification/DeltaSurface.v ===== *)
(** * Comparing two truth surfaces (src/tools/sourceos_delta_surface.py)

    [compute_gate] decides whether a transition is admissible; [build_delta]
    assembles the document, drops its nulls and seals it; [main] writes it. *)
From S2P Require Import Prelude PyStr PyJson Errors PyOps PySet World Canon Host.

(** The [argparse.Namespace] of [main]. *)
Record DeltaArgs := {
  d_spec_version : pystr; d_id : option pystr; d_created_at : option pystr; d_signer : pystr;
  d_from_ref : option pystr; d_to_ref : option pystr;
  d_risk_score : Z; d_risk_threshold : Z;
  d_human_approval_required : bool; d_human_approved : bool
}.

Definition _listify (x : json) : list json :=
  match x with JNull => [] | JList l => l | _ => [x] end.

(** [x.get(k) or {}] *)
Definition get_or_empty (x : json) (k : pystr) : pyres json :=
  v ← py_get x k JNull; mret (py_or v (JDict [])).

Definition _dev_signature (delta_wo_sig : json) : pyres pystr :=
  h ← canonical_digest delta_wo_sig; mret (u "sig:dev:sha256:" ++ h).
Definition _compute_merkle_root (delta_wo_sig : json) : pyres pystr :=
  h ← canonical_digest delta_wo_sig; mret (u "sha256:" ++ h).

(** What [compute_gate] returns, before it is made a [dict]. *)
Record Gate := {
  status : pystr; riskScore : Z; riskThreshold : Z;
  humanApprovalRequired : bool; humanApproved : bool;
  evidenceRequired : list json; evidencePresent : list json; evidenceMissing : list json;
  reasons : list pystr
}.
Definition gate_json (g : Gate) : dict :=
  [(u "status", JStr (status g));
   (u "riskScore", JInt (riskScore g));
   (u "riskThreshold", JInt (riskThreshold g));
   (u "humanApprovalRequired", JBool (humanApprovalRequired g));
   (u "humanApproved", JBool (humanApproved g));
   (u "evidenceRequired", JList (evidenceRequired g));
   (u "evidencePresent", JList (evidencePresent g));
   (u "evidenceMissing", JList (evidenceMissing g));
   (u "reasons", JList (map JStr (reasons g)))].

Definition compute_gate (from_ts to_ts : json) (args : DeltaArgs) : pyres Gate :=
  ev ← get_or_empty to_ts (u "evidence");
  required ← (r ← py_get ev (u "required") JNull; mret (_listify r));
  present ← (p ← py_get ev (u "present") JNull; mret (_listify p));
  missing ← (r ← py_set required; p ← py_set present; py_sorted (set_diff r p));
  let governance := get_or_empty to_ts (u "governance") in
  risk_score ← (g ← governance; v ← py_get g (u "riskScore") (JInt (d_risk_score args)); py_int v);
  risk_threshold ← (g ← governance; v ← py_get g (u "riskThreshold") (JInt (d_risk_threshold args)); py_int v);
  human_required ← (g ← governance;
    v ← py_get g (u "humanApprovalRequired") (JBool (d_human_approval_required args)); mret (truthy v));
  human_approved ← (g ← governance;
    v ← py_get g (u "humanApproved") (JBool (d_human_approved args)); mret (truthy v));
  let status0 := u "permit" in
  let reasons0 := [] in
  let '(status1, reasons1) :=
    match missing with
    | [] => (status0, reasons0)
    | _ => (u "needs_more_evidence",
            reasons0 ++ map (λ m, u "missing required evidence: " ++ py_str m) missing)
    end in
  let '(status2, reasons2) :=
    if (risk_score >? risk_threshold)%Z
    then (u "deny", reasons1 ++ [u "risk score " ++ str_of_Z risk_score ++ u " exceeds threshold "
                                  ++ str_of_Z risk_threshold])
    else (status1, reasons1) in
  let '(status3, reasons3) :=
    if human_required && negb human_approved
    then (u "deny", reasons2 ++ [u "human approval required but not present"])
    else (status2, reasons2) in
  evidence_required ← (r ← py_set required; py_sorted r);
  evidence_present ← (p ← py_set present; py_sorted p);
  mret {| status := status3; riskScore := risk_score; riskThreshold := risk_threshold;
          humanApprovalRequired := human_required; humanApproved := human_approved;
          evidenceRequired := evidence_required; evidencePresent := evidence_present;
          evidenceMissing := missing; reasons := reasons3 |}.

(** [set(_listify((x.get("semantics") or {}).get("topics")))] *)
Definition topic_set (x : json) : pyres (list json) :=
  s ← get_or_empty x (u "semantics"); t ← py_get s (u "topics") JNull; py_set (_listify t).

Section delta.
Context {K : Type} `{Env K} `{Host}.

Definition _default_id : W K pystr :=
  h ← uuid4_hex; mret (u "urn:srcos:delta-surface:" ++ h).

(** The document before it is sealed. *)
Definition delta_body (from_ts to_ts : json) (args : DeltaArgs) : W K json :=
  gate ← lift (compute_gate from_ts to_ts args);
  id ← or_else (d_id args) _default_id;
  from_id ← lift (py_get from_ts (u "id") JNull);
  to_id ← lift (py_get to_ts (u "id") JNull);
  created ← or_else (d_created_at args) _utc_now_iso;
  from_topics ← lift (topic_set from_ts);
  to_topics ← lift (topic_set to_ts);
  from_integrity ← lift (r ← get_or_empty from_ts (u "runtime"); py_get r (u "integrity") JNull);
  to_integrity ← lift (r ← get_or_empty to_ts (u "runtime"); py_get r (u "integrity") JNull);
  before ← lift (r ← get_or_empty to_ts (u "refs"); py_get r (u "cairnBeforeRef") JNull);
  after ← lift (r ← get_or_empty to_ts (u "refs"); py_get r (u "cairnAfterRef") JNull);
  mret (JDict [
    (u "id", JStr id);
    (u "type", JStr (u "DeltaSurface"));
    (u "specVersion", JStr (d_spec_version args));
    (u "fromRef", py_or from_id (opt_str (d_from_ref args)));
    (u "toRef", py_or to_id (opt_str (d_to_ref args)));
    (u "createdAt", JStr created);
    (u "signer", JStr (d_signer args));
    (u "metrics", JDict [
      (u "semantic", JDict [
        (u "topic_overlap", JInt (Z.of_nat (length (set_inter from_topics to_topics))))]);
      (u "runtime", JDict [
        (u "from_integrity", from_integrity);
        (u "to_integrity", to_integrity)]);
      (u "governance", JDict [(u "gate_status", dict_get_or JNull (u "status") (gate_json gate))])]);
    (u "gate", JDict (gate_json gate));
    (u "refs", JDict [
      (u "cairnBeforeRef", before);
      (u "cairnAfterRef", after)])]).

Definition build_delta (from_ts to_ts : json) (args : DeltaArgs) : W K dict :=
  body ← delta_body from_ts to_ts args;
  delta ← lift (as_dict (drop_nulls body));
  let delta_wo := dict_pop (u "merkleRoot") (dict_pop (u "signature") delta) in
  root ← lift (_compute_merkle_root (JDict delta_wo));
  let delta := dict_set (u "merkleRoot") (JStr root) delta in
  sig ← lift (_dev_signature (JDict delta_wo));
  mret (dict_set (u "signature") (JStr sig) delta).

(** [main] returns its exit status and what it prints. *)
Definition main (from_path to_path : path) (args : DeltaArgs) (dest : Output) : W K (Z * pystr) :=
  from_ts ← _read_json from_path;
  to_ts ← _read_json to_path;
  delta ← build_delta from_ts to_ts args;
  match o_out dest, o_store_root dest with
  | Some out, _ => _write_json out (JDict delta) ;; mret (0%Z, [])
  | None, Some root =>
      ts ← lift (stamp_of delta);
      let out := path_join (root ++ [u "truth"; u "deltas"; u "system.sealed"]) ts ++ [u "delta-surface.json"] in
      _write_json out (JDict delta) ;;
      mret (0%Z, join (u "/") ([] :: out) ++ [10%N])
  | None, None => mret (0%Z, pretty (JDict delta) ++ [10%N])
  end.
End delta.
