(* ===== verification/Seal.v ===== *)
(** * Sealed documents

    The truth-plane emitters drop the nulls of a document, hash it, and add the
    hash as [merkleRoot] and [signature].  [seal_ok] is the check a consumer can
    make: recompute the hash from the document without the two fields.  It
    survives reordering of keys, hence writing and reading back, and commits to
    the document up to SHA-256 collisions. *)
From S2P Require Import Prelude PyStr PyJson PyJsonRoundtrip PyDict Errors PyOps.
From S2P Require Import Sha256 World Canon CanonFacts.

(** ** No nulls *)

(** No [null] inside an object or a list. *)
Fixpoint no_nulls (j : json) : bool :=
  match j with
  | JList l => forallb (λ v, negb (bool_decide (v = JNull)) && no_nulls v) l
  | JDict d => forallb (λ kv, negb (bool_decide (kv.2 = JNull)) && no_nulls kv.2) d
  | _ => true
  end.

Definition keep_items (d : dict) : dict :=
  map (λ kv, (kv.1, drop_nulls kv.2)) (filter (λ kv, kv.2 ≠ JNull) d).
Definition keep_elems (l : list json) : list json := map drop_nulls (filter (λ v, v ≠ JNull) l).

Lemma drop_nulls_null j : drop_nulls j = JNull ↔ j = JNull.
Proof. by destruct j. Qed.
Lemma drop_nulls_dict d : drop_nulls (JDict d) = JDict (keep_items d).
Proof.
  cbn [drop_nulls]. f_equal. unfold keep_items. induction d as [|[k v] d IH]; [done|].
  destruct (decide (v = JNull)) as [->|Hv]; [by rewrite filter_cons_False by naive_solver|].
  rewrite filter_cons_True by done. rewrite decide_False by (by rewrite drop_nulls_null).
  cbn [map]. by rewrite IH.
Qed.
Lemma drop_nulls_list l : drop_nulls (JList l) = JList (keep_elems l).
Proof.
  cbn [drop_nulls]. f_equal. unfold keep_elems. induction l as [|v l IH]; [done|].
  destruct (decide (v = JNull)) as [->|Hv]; [by rewrite filter_cons_False by naive_solver|].
  rewrite filter_cons_True by done. cbn [map]. by rewrite IH.
Qed.
Lemma keep_items_keys d : NoDup (map fst d) → NoDup (map fst (keep_items d)).
Proof. intros Hd. unfold keep_items. rewrite map_map. by apply NoDup_map_filter. Qed.

Lemma no_nulls_dict d :
  no_nulls (JDict d) = true ↔ Forall (λ kv, kv.2 ≠ JNull ∧ no_nulls kv.2 = true) d.
Proof.
  cbn [no_nulls]. rewrite forallb_forall, <-List.Forall_forall. apply Forall_iff. intros kv.
  by rewrite andb_true_iff, negb_true_iff, bool_decide_eq_false.
Qed.
Lemma no_nulls_list l :
  no_nulls (JList l) = true ↔ Forall (λ v, v ≠ JNull ∧ no_nulls v = true) l.
Proof.
  cbn [no_nulls]. rewrite forallb_forall, <-List.Forall_forall. apply Forall_iff. intros kv.
  by rewrite andb_true_iff, negb_true_iff, bool_decide_eq_false.
Qed.

Lemma drop_nulls_no_nulls j : no_nulls (drop_nulls j) = true.
Proof.
  induction j as [|b|z|f|s|l IH|d IH] using json_ind; try done.
  - rewrite drop_nulls_list, no_nulls_list, Forall_forall. rewrite Forall_forall in IH.
    intros x (y & -> & [Hy Hin]%list_elem_of_filter)%list_elem_of_fmap.
    split; [by rewrite drop_nulls_null|auto].
  - rewrite drop_nulls_dict, no_nulls_dict, Forall_forall. rewrite Forall_forall in IH.
    intros x (y & -> & [Hy Hin]%list_elem_of_filter)%list_elem_of_fmap.
    split; [simpl; by rewrite drop_nulls_null|simpl; auto].
Qed.
Lemma drop_nulls_id j : no_nulls j = true → drop_nulls j = j.
Proof.
  induction j as [|b|z|f|s|l IH|d IH] using json_ind; try done.
  - rewrite no_nulls_list, drop_nulls_list. intros Hl. f_equal. unfold keep_elems.
    induction Hl as [|v l [Hv Hn] _ IHl]; [done|]. apply Forall_cons in IH as [IH IH'].
    rewrite filter_cons_True by done. cbn [map]. by rewrite IH, IHl.
  - rewrite no_nulls_dict, drop_nulls_dict. intros Hd. f_equal. unfold keep_items.
    induction Hd as [|[k v] d [Hv Hn] _ IHd]; [done|]. apply Forall_cons in IH as [IH IH'].
    rewrite filter_cons_True by done. simpl in *. by rewrite IH, IHd.
Qed.

Lemma drop_nulls_keys_ok j : keys_ok j = true → keys_ok (drop_nulls j) = true.
Proof.
  induction j as [|b|z|f|s|l IH|d IH] using json_ind; try done.
  - rewrite drop_nulls_list, !keys_ok_list, !Forall_forall. rewrite Forall_forall in IH.
    intros Hl x (y & -> & [Hy Hin]%list_elem_of_filter)%list_elem_of_fmap. auto.
  - rewrite drop_nulls_dict, !keys_ok_dict, !Forall_forall. rewrite Forall_forall in IH.
    intros [Hd Hl]. split; [by apply keep_items_keys|].
    intros x (y & -> & [Hy Hin]%list_elem_of_filter)%list_elem_of_fmap. simpl. auto.
Qed.
Lemma wf_list l : wf_json (JList l) = true ↔ Forall (λ v, wf_json v = true) l.
Proof. cbn [wf_json]. by rewrite forallb_forall, List.Forall_forall. Qed.
Lemma drop_nulls_wf j : wf_json j = true → wf_json (drop_nulls j) = true.
Proof.
  induction j as [|b|z|f|s|l IH|d IH] using json_ind; try done.
  - rewrite drop_nulls_list, !wf_list, !Forall_forall. rewrite Forall_forall in IH.
    intros Hl x (y & -> & [Hy Hin]%list_elem_of_filter)%list_elem_of_fmap. auto.
  - rewrite drop_nulls_dict, !wf_dict, !Forall_forall. rewrite Forall_forall in IH.
    intros [Hd Hl]. split; [by apply keep_items_keys|].
    intros x (y & -> & [Hy Hin]%list_elem_of_filter)%list_elem_of_fmap. simpl. split; [by apply Hl|].
    apply IH; [done|by apply Hl].
Qed.

(** ** The seal *)

Definition unsigned (d : dict) : dict := dict_pop (u "merkleRoot") (dict_pop (u "signature") d).
(** The bytes that are hashed. *)
Definition preimage (d : dict) : pyres (list N) := py_encode (_c14n_json (JDict (unsigned d))).

Definition root_of (b : list N) : json := JStr (u "sha256:" ++ _sha256_hex b).
Definition signature_of (b : list N) : json := JStr (u "sig:dev:sha256:" ++ _sha256_hex b).

(** [blobs] are the bytes of the extra files the root also covers. *)
Definition seal_ok (blobs : list N) (d : dict) : bool :=
  match preimage d with
  | Ok b => bool_decide (dict_get (u "merkleRoot") d = Some (root_of (b ++ blobs))) &&
            bool_decide (dict_get (u "signature") d = Some (signature_of b))
  | Err _ => false
  end.
(** Adding the two fields to a document. *)
Definition sealed (root sig : json) (d : dict) : dict :=
  dict_set (u "signature") sig (dict_set (u "merkleRoot") root d).

Lemma seal_ok_spec blobs d : seal_ok blobs d = true ↔
  ∃ b, preimage d = Ok b ∧ dict_get (u "merkleRoot") d = Some (root_of (b ++ blobs)) ∧
       dict_get (u "signature") d = Some (signature_of b).
Proof.
  unfold seal_ok. destruct (preimage d) as [b|e]; [|naive_solver].
  rewrite andb_true_iff, !bool_decide_eq_true. naive_solver.
Qed.

Lemma unsigned_sealed root sig d : unsigned (sealed root sig d) = unsigned d.
Proof. unfold unsigned, sealed. rewrite dict_pop_set, dict_pop_set_ne by done. by rewrite dict_pop_set. Qed.
Lemma sealed_root root sig d : dict_get (u "merkleRoot") (sealed root sig d) = Some root.
Proof. unfold sealed. by rewrite dict_get_set_ne, dict_get_set_eq by done. Qed.
Lemma sealed_sig root sig d : dict_get (u "signature") (sealed root sig d) = Some sig.
Proof. apply dict_get_set_eq. Qed.

Lemma seal_intro blobs d b :
  preimage d = Ok b → seal_ok blobs (sealed (root_of (b ++ blobs)) (signature_of b) d) = true.
Proof.
  intros Hb. apply seal_ok_spec. exists b. unfold preimage. rewrite unsigned_sealed.
  by rewrite sealed_root, sealed_sig.
Qed.

Lemma unsigned_keys_ok d : keys_ok (JDict d) = true → keys_ok (JDict (unsigned d)) = true.
Proof. intros Hd. by apply dict_pop_keys_ok, dict_pop_keys_ok. Qed.

(** The hashed bytes do not depend on the order of keys. *)
Lemma preimage_sorted d : keys_ok (JDict d) = true → preimage (sorted_items d) = preimage d.
Proof.
  intros Hd. unfold preimage, _c14n_json, dumps. rewrite !sort_keys_dict.
  enough (sorted_items (unsigned (sorted_items d)) = sorted_items (unsigned d)) as -> by done.
  unfold unsigned.
  set (sg := u "signature"). set (mr := u "merkleRoot").
  assert (keys_ok (JDict (sorted_items d)) = true) as Hs by exact (sort_keys_keys_ok _ Hd).
  rewrite <-(sorted_items_pop mr (dict_pop sg (sorted_items d))) by (by apply dict_pop_keys_ok).
  rewrite (sorted_items_pop sg d) by done.
  by rewrite sorted_items_pop by (by apply dict_pop_keys_ok).
Qed.
Lemma seal_ok_sorted blobs d :
  keys_ok (JDict d) = true → seal_ok blobs d = true → seal_ok blobs (sorted_items d) = true.
Proof.
  intros Hd (b & Hb & Hr & Hs)%seal_ok_spec. apply seal_ok_spec. exists b.
  rewrite preimage_sorted by done. apply keys_ok_dict in Hd as [Hd _].
  by rewrite !dict_get_sorted, Hr, Hs by done.
Qed.

(** Equal signatures: equal documents, or two texts with the same digest. *)
Lemma signature_commits d e b c :
  wf_json (JDict (unsigned d)) = true → wf_json (JDict (unsigned e)) = true →
  preimage d = Ok b → preimage e = Ok c → signature_of b = signature_of c →
  jeq (JDict (unsigned d)) (JDict (unsigned e)) = true ∨ collision b c.
Proof.
  intros Hd He Hb Hc [= Hs]. apply sha256_hex_inj in Hs as [->|Hcol]; [|by right].
  left. apply c14n_iff; [done..|]. by eapply py_encode_inj.
Qed.
Lemma unsigned_wf d : wf_json (JDict d) = true → wf_json (JDict (unsigned d)) = true.
Proof.
  rewrite !wf_dict. intros [Hn Hd]. split; [by do 2 apply dict_pop_keys|].
  rewrite Forall_forall in *. intros x [_ [_ Hx]%list_elem_of_filter]%list_elem_of_filter. auto.
Qed.
