(* ===== verification/DeltaSpec.v ===== *)
(** * What the delta gate decides

    [view] decodes the fields of a truth surface the gate reads, when they have
    the types the TruthSurface contract gives them; [abs_gate] is the decision
    on sets and numbers.  [compute_gate] computes [abs_gate] of the view, and
    [build_delta] seals the document that carries it. *)
From S2P Require Import Prelude PyStr PyJson PyJsonRoundtrip PyJsonStrings PyDict Errors PyOps.
From S2P Require Import PySet.
From S2P Require Import World Canon CanonFacts Seal Host DeltaSurface.

#[local] Arguments u : simpl never.

(** ** The typed view of a surface *)

Record View := {
  v_required : list pystr; v_present : list pystr;
  v_risk : Z; v_threshold : Z; v_human : bool; v_approved : bool
}.

Definition panel (d : dict) (k : pystr) : option dict :=
  match dict_get k d with
  | None | Some JNull => Some []
  | Some (JDict p) => Some p
  | _ => None
  end.
Definition str_list (o : option json) : option (list pystr) :=
  match o with
  | None | Some JNull => Some []
  | Some (JStr s) => Some [s]
  | Some (JList l) => let ss := omap as_str l in if decide (strs ss = l) then Some ss else None
  | _ => None
  end.
Definition int_field (p : dict) (k : pystr) (dflt : Z) : option Z :=
  match dict_get k p with None => Some dflt | Some (JInt z) => Some z | _ => None end.
Definition bool_field (p : dict) (k : pystr) (dflt : bool) : option bool :=
  match dict_get k p with None => Some dflt | Some (JBool b) => Some b | _ => None end.

Definition view (d : dict) (args : DeltaArgs) : option View :=
  ev ← panel d (u "evidence");
  gov ← panel d (u "governance");
  required ← str_list (dict_get (u "required") ev);
  present ← str_list (dict_get (u "present") ev);
  risk ← int_field gov (u "riskScore") (d_risk_score args);
  threshold ← int_field gov (u "riskThreshold") (d_risk_threshold args);
  human ← bool_field gov (u "humanApprovalRequired") (d_human_approval_required args);
  approved ← bool_field gov (u "humanApproved") (d_human_approved args);
  Some {| v_required := required; v_present := present; v_risk := risk; v_threshold := threshold;
          v_human := human; v_approved := approved |}.

(** ** The decision *)

Definition missing_set (v : View) : gset pystr :=
  list_to_set (v_required v) ∖ list_to_set (v_present v).
Definition too_risky (v : View) : bool := (v_threshold v <? v_risk v)%Z.
Definition unapproved (v : View) : bool := v_human v && negb (v_approved v).

Definition verdict (v : View) : pystr :=
  if too_risky v || unapproved v then u "deny"
  else if decide (missing_set v = ∅) then u "permit" else u "needs_more_evidence".
Definition abs_reasons (v : View) : list pystr :=
  map (λ m, u "missing required evidence: " ++ m) (sorted_set (missing_set v))
  ++ (if too_risky v then [u "risk score " ++ str_of_Z (v_risk v) ++ u " exceeds threshold "
                             ++ str_of_Z (v_threshold v)] else [])
  ++ (if unapproved v then [u "human approval required but not present"] else []).
Definition abs_gate (v : View) : Gate := {|
  status := verdict v;
  riskScore := v_risk v; riskThreshold := v_threshold v;
  humanApprovalRequired := v_human v; humanApproved := v_approved v;
  evidenceRequired := strs (sorted_set (list_to_set (v_required v)));
  evidencePresent := strs (sorted_set (list_to_set (v_present v)));
  evidenceMissing := strs (sorted_set (missing_set v));
  reasons := abs_reasons v |}.

(** ** Reading the fields *)

Lemma get_or_empty_panel d k p : panel d k = Some p → get_or_empty (JDict d) k = Ok (JDict p).
Proof.
  unfold panel, get_or_empty, py_get, dict_get_or. intros Hp.
  destruct (dict_get k d) as [[| | | | | |p']|]; simplify_eq/=; try done. by destruct p.
Qed.
Lemma listify_str_list p k ss :
  str_list (dict_get k p) = Some ss → _listify (dict_get_or JNull k p) = strs ss.
Proof.
  unfold dict_get_or. destruct (dict_get k p) as [[| | | |s|l|]|]; simpl; intros Hs; simplify_eq; try done.
  by case_decide; simplify_eq.
Qed.
Lemma sets_spec R P :
  (r ← py_set (strs R); p ← py_set (strs P); py_sorted (set_diff r p))
  = Ok (strs (sorted_set (list_to_set R ∖ list_to_set P))).
Proof.
  rewrite !py_set_strs. cbn [mbind res_bind]. rewrite set_diff_strs, py_sorted_strs.
  by rewrite sorted_distinct_diff.
Qed.
Lemma set_spec R : (r ← py_set (strs R); py_sorted r) = Ok (strs (sorted_set (list_to_set R))).
Proof. rewrite py_set_strs. cbn [mbind res_bind]. by rewrite py_sorted_strs, sorted_distinct. Qed.
Lemma missing_reasons ss :
  map (λ m, u "missing required evidence: " ++ py_str m) (strs ss)
  = map (λ m, u "missing required evidence: " ++ m) ss.
Proof. unfold strs. by rewrite map_map. Qed.

Lemma listify_read p k ss :
  str_list (dict_get k p) = Some ss → (v ← py_get (JDict p) k JNull; mret (_listify v)) = Ok (strs ss).
Proof. intros Hs. cbn. by rewrite (listify_str_list _ _ _ Hs). Qed.
Lemma int_read d k0 p k dflt z :
  panel d k0 = Some p → int_field p k dflt = Some z →
  (g ← get_or_empty (JDict d) k0; v ← py_get g k (JInt dflt); py_int v) = Ok z.
Proof.
  intros Hp. rewrite (get_or_empty_panel _ _ _ Hp). cbn. unfold int_field, dict_get_or.
  destruct (dict_get k p) as [[]|]; intros [= <-]; done.
Qed.
Lemma bool_read d k0 p k dflt b :
  panel d k0 = Some p → bool_field p k dflt = Some b →
  (g ← get_or_empty (JDict d) k0; v ← py_get g k (JBool dflt); mret (truthy v)) = Ok b.
Proof.
  intros Hp. rewrite (get_or_empty_panel _ _ _ Hp). cbn. unfold bool_field, dict_get_or.
  destruct (dict_get k p) as [[]|]; intros [= <-]; done.
Qed.

Lemma missing_empty v : missing_set v = ∅ ↔ strs (sorted_set (missing_set v)) = [].
Proof. rewrite <-sorted_set_nil. by destruct (sorted_set (missing_set v)). Qed.

(** The status and reasons the code accumulates. *)
Lemma decision_spec v :
  let missing := strs (sorted_set (missing_set v)) in
  let '(status1, reasons1) := match missing with
    | [] => (u "permit", [])
    | _ => (u "needs_more_evidence", [] ++ map (λ m, u "missing required evidence: " ++ py_str m) missing)
    end in
  let '(status2, reasons2) := if (v_risk v >? v_threshold v)%Z
    then (u "deny", reasons1 ++ [u "risk score " ++ str_of_Z (v_risk v) ++ u " exceeds threshold "
                                  ++ str_of_Z (v_threshold v)])
    else (status1, reasons1) in
  (if v_human v && negb (v_approved v)
   then (u "deny", reasons2 ++ [u "human approval required but not present"])
   else (status2, reasons2)) = (verdict v, abs_reasons v).
Proof.
  intros missing. unfold verdict, abs_reasons, too_risky, unapproved. rewrite Z.gtb_ltb.
  assert (match missing with
    | [] => (u "permit", [])
    | _ => (u "needs_more_evidence", [] ++ map (λ m, u "missing required evidence: " ++ py_str m) missing)
    end = (if decide (missing_set v = ∅) then u "permit" else u "needs_more_evidence",
           map (λ m, u "missing required evidence: " ++ m) (sorted_set (missing_set v)))) as ->.
  { rewrite <-missing_reasons. subst missing. destruct (decide _) as [Hm|Hm]; rewrite missing_empty in Hm.
    - by rewrite Hm.
    - by destruct (strs _). }
  generalize (map (λ m, u "missing required evidence: " ++ m) (sorted_set (missing_set v))). intros ms.
  destruct (_ <? _)%Z, (v_human v && negb (v_approved v)); simpl; by rewrite ?app_nil_r, <-?app_assoc.
Qed.

Lemma compute_gate_view from_ts d args v :
  view d args = Some v → compute_gate from_ts (JDict d) args = Ok (abs_gate v).
Proof.
  unfold view. intros Hv. apply bind_Some in Hv as (ev & Hev & Hv).
  apply bind_Some in Hv as (gov & Hgov & Hv). apply bind_Some in Hv as (R & HR & Hv).
  apply bind_Some in Hv as (P & HP & Hv). apply bind_Some in Hv as (risk & Hrisk & Hv).
  apply bind_Some in Hv as (thr & Hthr & Hv). apply bind_Some in Hv as (hum & Hhum & Hv).
  apply bind_Some in Hv as (app & Happ & Hv). injection Hv as Hv.
  unfold compute_gate. cbv zeta.
  rewrite (res_ok_bind (get_or_empty_panel _ _ _ Hev)).
  rewrite (res_ok_bind (listify_read _ _ _ HR)), (res_ok_bind (listify_read _ _ _ HP)).
  rewrite (res_ok_bind (sets_spec R P)).
  rewrite (res_ok_bind (int_read _ _ _ _ _ _ Hgov Hrisk)), (res_ok_bind (int_read _ _ _ _ _ _ Hgov Hthr)).
  rewrite (res_ok_bind (bool_read _ _ _ _ _ _ Hgov Hhum)), (res_ok_bind (bool_read _ _ _ _ _ _ Hgov Happ)).
  pose proof (decision_spec v) as Hd. subst v.
  cbn [missing_set v_required v_present v_risk v_threshold v_human v_approved] in Hd.
  fold (missing_set {| v_required := R; v_present := P; v_risk := risk; v_threshold := thr;
                       v_human := hum; v_approved := app |}).
  destruct (match strs _ with [] => _ | _ => _ end) as [s1 r1].
  destruct (if (risk >? thr)%Z then _ else _) as [s2 r2].
  destruct (if hum && negb app then _ else _) as [s3 r3]. injection Hd as -> ->.
  by rewrite (res_ok_bind (set_spec R)), (res_ok_bind (set_spec P)).
Qed.

Lemma missing_none v : missing_set v = ∅ ↔ ∀ e, e ∈ v_required v → e ∈ v_present v.
Proof.
  unfold missing_set. split.
  - intros Hm e He. destruct (decide (e ∈ v_present v)) as [|Hn]; [done|]. exfalso.
    apply (not_elem_of_empty (C:=gset pystr) e). rewrite <-Hm. set_solver.
  - intros Hm. set_solver.
Qed.
Lemma abs_reasons_none v : abs_reasons v = [] ↔ too_risky v = false ∧ unapproved v = false ∧ missing_set v = ∅.
Proof.
  unfold abs_reasons. rewrite <-sorted_set_nil.
  destruct (sorted_set (missing_set v)), (too_risky v), (unapproved v); naive_solver.
Qed.
Lemma verdict_cases v :
  (verdict v = u "deny" ↔ too_risky v = true ∨ unapproved v = true) ∧
  (verdict v = u "permit" ↔ too_risky v = false ∧ unapproved v = false ∧ missing_set v = ∅).
Proof. unfold verdict. destruct (too_risky v), (unapproved v), (decide (missing_set v = ∅)); naive_solver. Qed.

(** C17: the gate decides as specified: when the surface's evidence and
    governance panels have the types of their contract, [compute_gate] returns,
    without an exception, the gate of [abs_gate]: it denies exactly when the
    risk score exceeds the threshold or a required human approval is absent;
    otherwise it permits exactly when every required item of evidence is
    present; the panels come back deduplicated and sorted, and there is one
    reason for each ground of refusal. *)
Theorem compute_gate_decides from_ts d args v :
  view d args = Some v →
  compute_gate from_ts (JDict d) args = Ok (abs_gate v) ∧
  (verdict v = u "deny" ↔ (v_threshold v < v_risk v)%Z ∨ v_human v = true ∧ v_approved v = false) ∧
  (verdict v = u "permit" ↔
     (v_risk v ≤ v_threshold v)%Z ∧ (v_human v = true → v_approved v = true) ∧
     ∀ e, e ∈ v_required v → e ∈ v_present v) ∧
  (verdict v = u "permit" ↔ abs_reasons v = []).
Proof.
  intros Hv. split; [by apply compute_gate_view|]. destruct (verdict_cases v) as [Hd Hp].
  rewrite Hd, Hp, abs_reasons_none, missing_none.
  assert (too_risky v = true ↔ (v_threshold v < v_risk v)%Z) as Hr by apply Z.ltb_lt.
  assert (too_risky v = false ↔ (v_risk v ≤ v_threshold v)%Z) as Hr' by apply Z.ltb_ge.
  rewrite Hr, Hr'. unfold unapproved. destruct (v_human v), (v_approved v); naive_solver.
Qed.

(** A surface missing one of the two items of evidence it requires, and over
    the risk threshold. *)
Definition demo_args : DeltaArgs := {|
  d_spec_version := u "2.0.0"; d_id := None; d_created_at := None; d_signer := u "sourceos-delta-surface";
  d_from_ref := None; d_to_ref := None; d_risk_score := 0; d_risk_threshold := 30;
  d_human_approval_required := false; d_human_approved := false |}.
Definition demo_surface (evidence : list pystr) (score : Z) : dict := [
  (u "id", JStr (u "ts1"));
  (u "evidence", JDict [(u "required", JList [JStr (u "logs"); JStr (u "policy_decision"); JStr (u "logs")]);
                        (u "present", JList (map JStr evidence))]);
  (u "governance", JDict [(u "riskScore", JInt score)])].
Definition demo_view (evidence : list pystr) (score : Z) : View := {|
  v_required := [u "logs"; u "policy_decision"; u "logs"]; v_present := evidence;
  v_risk := score; v_threshold := 30; v_human := false; v_approved := false |}.

Lemma compute_gate_decides_witness :
  compute_gate JNull (JDict (demo_surface [u "logs"] 40)) demo_args
    = Ok (abs_gate (demo_view [u "logs"] 40)) ∧
  reasons (abs_gate (demo_view [u "logs"] 40)) =
    [u "missing required evidence: policy_decision"; u "risk score 40 exceeds threshold 30"].
Proof.
  split; [|vm_compute; reflexivity].
  apply (compute_gate_decides JNull (demo_surface [u "logs"] 40) demo_args (demo_view [u "logs"] 40)).
  vm_compute. reflexivity.
Defined.

(** ** Monotonicity *)

(** How bad a verdict is. *)
Definition severity (s : pystr) : nat :=
  if decide (s = u "permit") then 0 else if decide (s = u "needs_more_evidence") then 1 else 2.
(** [w] satisfies everything [v] does: it needs no more, has no less. *)
Record safer (v w : View) : Prop := {
  safer_required : ∀ e, e ∈ v_required w → e ∈ v_required v;
  safer_present : ∀ e, e ∈ v_present v → e ∈ v_present w;
  safer_risk : (v_risk w ≤ v_risk v)%Z;
  safer_threshold : (v_threshold v ≤ v_threshold w)%Z;
  safer_human : v_human w = true → v_human v = true;
  safer_approved : v_approved v = true → v_approved w = true
}.

Lemma severity_verdict v :
  severity (verdict v) =
    if too_risky v || unapproved v then 2 else if decide (missing_set v = ∅) then 0 else 1.
Proof. unfold verdict. destruct (_ || _); [reflexivity|]. case_decide; reflexivity. Qed.
Lemma verdict_monotone v w : safer v w → severity (verdict w) ≤ severity (verdict v).
Proof.
  intros [Hreq Hpres Hrisk Hthr Hhum Happ].
  assert (too_risky w = true → too_risky v = true) as H1 by (unfold too_risky; rewrite !Z.ltb_lt; lia).
  assert (unapproved w = true → unapproved v = true) as H2.
  { unfold unapproved. destruct (v_human v), (v_human w), (v_approved v), (v_approved w); naive_solver. }
  assert (missing_set v = ∅ → missing_set w = ∅) as H3 by (rewrite !missing_none; eauto).
  rewrite !severity_verdict.
  destruct (too_risky w), (unapproved w), (too_risky v), (unapproved v); simpl; try lia;
    try discriminate (H1 eq_refl); try discriminate (H2 eq_refl); repeat case_decide; try lia; tauto.
Qed.

(** C38: supplying evidence, lowering the risk score, raising the threshold or
    granting an approval never turns a permitted transition into a refused
    one, nor a request for evidence into a denial. *)
Theorem compute_gate_monotone f f' d d' args args' v w g h :
  view d args = Some v → view d' args' = Some w → safer v w →
  compute_gate f (JDict d) args = Ok g → compute_gate f' (JDict d') args' = Ok h →
  severity (status h) ≤ severity (status g).
Proof.
  intros Hv Hw Hvw. rewrite (compute_gate_view f d args v Hv), (compute_gate_view f' d' args' w Hw).
  intros [= <-] [= <-]. by apply verdict_monotone.
Qed.
Lemma compute_gate_monotone_witness :
  severity (status (abs_gate (demo_view [u "logs"; u "policy_decision"] 30)))
  ≤ severity (status (abs_gate (demo_view [u "logs"] 40))) ∧
  status (abs_gate (demo_view [u "logs"; u "policy_decision"] 30)) = u "permit" ∧
  status (abs_gate (demo_view [u "logs"] 40)) = u "deny".
Proof.
  split; [|vm_compute; split; reflexivity].
  apply (compute_gate_monotone JNull JNull (demo_surface [u "logs"] 40)
    (demo_surface [u "logs"; u "policy_decision"] 30) demo_args demo_args
    (demo_view [u "logs"] 40) (demo_view [u "logs"; u "policy_decision"] 30));
    [vm_compute; reflexivity..|constructor; cbn; try lia; set_solver| |];
    vm_compute; reflexivity.
Defined.
