(* ===== verification/DocFacts.v ===== *)
(** * Documents of the truth plane

    What the emitters share: well-formed values, the shape of object literals,
    identifiers and time stamps, and the null-free sealed document. *)
From S2P Require Import Prelude PyStr PyJson PyJsonRoundtrip PyJsonStrings PyDict Errors PyOps.
From S2P Require Import TimeUtil World Sha256 Canon CanonFacts Seal Host EgressFacts.

#[local] Arguments u : simpl never.

(** ** Well-formed values *)

Definition wf (j : json) : Prop := wf_json j = true.
Definition wfs (l : list json) : Prop := Forall wf l.

Lemma str_ok_lit_app p s :
  forallb (λ c, (32 <=? c) && (c <? 127))%N p = true → str_ok s = true → str_ok (p ++ s) = true.
Proof.
  unfold str_ok. intros Hp [Hs Hn]%andb_true_iff. rewrite forallb_app, Hs, andb_true_r.
  induction p as [|c p IH]; [exact Hn|]. cbn [forallb] in Hp. apply andb_true_iff in Hp as [Hc Hp].
  specialize (IH Hp). apply andb_true_iff in IH as [IH1 IH2].
  cbn [forallb app]. rewrite IH1, andb_true_r. apply andb_true_iff. split; [lia|].
  cbn [no_pair]. destruct (p ++ s) as [|c' t]; [done|]. rewrite IH2, andb_true_r.
  unfold is_high. lia.
Qed.
Lemma wf_strs_ok j : wf j → strs_ok j = true.
Proof.
  unfold wf. induction j as [|b|z|f|s|l IH|d IH] using json_ind; try done.
  - rewrite wf_list, strs_ok_list. rewrite !Forall_forall in *. auto.
  - rewrite wf_dict, strs_ok_dict. unfold dict_ok. rewrite !Forall_forall in *.
    intros [_ Hd] x Hx. destruct (Hd x Hx). auto.
Qed.

Lemma wfs_incl l k : wfs l → (∀ x, x ∈ k → x ∈ l) → wfs k.
Proof. unfold wfs. rewrite !Forall_forall. auto. Qed.

Lemma line_str_ok s : line_ok s → str_ok s = true.
Proof. intros Hs. by apply text_str_ok, line_text. Qed.

Definition strs_all (ss : list pystr) : Prop := Forall (λ s, str_ok s = true) ss.
Lemma strs_all_snoc ss s : strs_all ss → str_ok s = true → strs_all (ss ++ [s]).
Proof. intros Hss Hs. apply Forall_app. by split; [|repeat constructor]. Qed.
Lemma wf_str_list ss : strs_all ss → wf (JList (map JStr ss)).
Proof. intros Hs. apply wf_list, Forall_map. exact Hs. Qed.

(** The items of an object written out in the source. *)
Ltac wf_lit := repeat match goal with
  | |- Forall _ [] => constructor
  | |- Forall _ (_ :: _) => apply Forall_cons; split; [split; [reflexivity|cbn [fst snd]]|]
  | |- wf (JDict (_ :: _)) => apply wf_dict; split; [compute_it|]
  | |- wf_json (JDict (_ :: _)) = true => apply wf_dict; split; [compute_it|]
  end.

(** Command-line arguments that UTF-8 text can hold. *)
Definition opt_ok (o : option pystr) : Prop := match o with Some s => str_ok s = true | None => True end.

Lemma wf_opt o : opt_ok o → wf (opt_str o).
Proof. by destruct o. Qed.

(** ** Identifiers and time stamps *)

Section host.
Context {K : Type} `{Env K}.

Lemma or_else_ok o f : opt_ok o → yields (λ s, str_ok s = true) f → yields (λ s, str_ok s = true) (or_else (K:=K) o f).
Proof.
  intros Ho Hf. unfold or_else. destruct o as [[|c t]|]; simpl; [done| |done]. by apply yields_ret.
Qed.
Lemma now_ok : yields (λ s, str_ok s = true) (_utc_now_iso (K:=K)).
Proof. intros s s' a [= _ <-]. apply line_str_ok, iso_utc_line. Qed.
End host.

(** ** Sealed documents *)

Lemma no_nulls_set k v d :
  v ≠ JNull → no_nulls v = true → no_nulls (JDict d) = true → no_nulls (JDict (dict_set k v d)) = true.
Proof.
  rewrite !no_nulls_dict. intros Hv Hn Hd. induction Hd as [|[k' v'] d [Hv' Hn'] Hd IH]; simpl.
  - by repeat constructor.
  - case_decide; constructor; auto.
Qed.
Lemma sealed_no_nulls b c d : no_nulls (JDict (sealed (root_of b) (signature_of c) (keep_items d))) = true.
Proof. apply no_nulls_set; [done..|]. apply no_nulls_set; [done..|]. rewrite <-drop_nulls_dict. apply drop_nulls_no_nulls. Qed.

Lemma dict_get_keep k d : NoDup (map fst d) →
  dict_get k (keep_items d) = v ← dict_get k d; if decide (v = JNull) then None else Some (drop_nulls v).
Proof.
  unfold keep_items. induction d as [|[k' v] d IH]; [done|]. cbn [map]. intros [Hk Hd]%NoDup_cons.
  assert (k' = k → dict_get k d = None) as Hnone.
  { intros ->. destruct (dict_get k d) as [v'|] eqn:Hv; [|done]. exfalso. apply Hk.
    apply dict_get_Some in Hv. apply list_elem_of_fmap. by exists (k, v'). }
  destruct (decide (v = JNull)) as [->|Hv].
  - rewrite filter_cons_False by naive_solver. rewrite IH by done. cbn [dict_get]. case_decide; [|done].
    subst. by rewrite Hnone by done.
  - rewrite filter_cons_True by done. cbn [map dict_get fst snd]. case_decide; [|by apply IH].
    cbn. by rewrite decide_False.
Qed.

Lemma root_of_wf b : wf (root_of b).
Proof.
  unfold wf, root_of. apply line_str_ok, line_ok_app; [by apply line_ok_lit|].
  unfold _sha256_hex, hexdigest. apply Forall_bind, Forall_forall. intros x _. apply hex_line.
Qed.
Lemma signature_of_wf b : wf (signature_of b).
Proof.
  unfold wf, signature_of. apply line_str_ok, line_ok_app; [by apply line_ok_lit|].
  unfold _sha256_hex, hexdigest. apply Forall_bind, Forall_forall. intros x _. apply hex_line.
Qed.
Lemma sealed_wf b c d : wf (JDict d) → wf (JDict (sealed (root_of b) (signature_of c) (keep_items d))).
Proof.
  intros Hd. apply dict_set_wf; [done|apply signature_of_wf|]. apply dict_set_wf; [done|apply root_of_wf|].
  rewrite <-drop_nulls_dict. by apply drop_nulls_wf.
Qed.

(** ** Documents UTF-8 can encode *)

(** No floats, distinct keys, and no surrogate in a key or a string. *)
Fixpoint clean (j : json) : bool :=
  match j with
  | JFloat _ => false
  | JStr s => bool_decide (text_ok s)
  | JList l => forallb clean l
  | JDict d => bool_decide (NoDup (map fst d)) && forallb (λ kv, bool_decide (text_ok kv.1) && clean kv.2) d
  | _ => true
  end.
Lemma clean_list l : clean (JList l) = true ↔ Forall (λ v, clean v = true) l.
Proof. cbn [clean]. by rewrite forallb_forall, List.Forall_forall. Qed.
Lemma clean_dict d :
  clean (JDict d) = true ↔ NoDup (map fst d) ∧ Forall (λ kv, text_ok kv.1 ∧ clean kv.2 = true) d.
Proof.
  cbn [clean]. rewrite andb_true_iff, bool_decide_eq_true, forallb_forall, <-List.Forall_forall.
  f_equiv. apply Forall_iff. intros kv. by rewrite andb_true_iff, bool_decide_eq_true.
Qed.
Lemma clean_wf j : clean j = true → wf j.
Proof.
  unfold wf. induction j as [|b|z|f|s|l IH|d IH] using json_ind; try done.
  - intros Hs%bool_decide_eq_true. by apply text_str_ok.
  - rewrite clean_list, wf_list. rewrite !Forall_forall in *. auto.
  - rewrite clean_dict, wf_dict. rewrite !Forall_forall in *. intros [Hn Hd]. split; [done|].
    intros x Hx. destruct (Hd x Hx). auto using text_str_ok.
Qed.
Lemma drop_nulls_clean j : clean j = true → clean (drop_nulls j) = true.
Proof.
  induction j as [|b|z|f|s|l IH|d IH] using json_ind; try done.
  - rewrite drop_nulls_list, !clean_list, !Forall_forall. rewrite Forall_forall in IH.
    intros Hl x (y & -> & [Hy Hin]%list_elem_of_filter)%list_elem_of_fmap. auto.
  - rewrite drop_nulls_dict, !clean_dict, !Forall_forall. rewrite Forall_forall in IH.
    intros [Hd Hl]. split; [by apply keep_items_keys|].
    intros x (y & -> & [Hy Hin]%list_elem_of_filter)%list_elem_of_fmap. simpl. split; [by apply Hl|].
    apply IH; [done|by apply Hl].
Qed.
Lemma sort_keys_clean j : clean j = true → clean (sort_keys j) = true.
Proof.
  induction j as [|b|z|f|s|l IH|d IH] using json_ind; try done.
  - simpl. change (clean (JList l) = true → clean (JList (map sort_keys l)) = true).
    rewrite !clean_list, !Forall_forall. rewrite Forall_forall in IH.
    intros Hl x (y & -> & Hy)%list_elem_of_fmap. auto.
  - rewrite sort_keys_dict, !clean_dict. intros [Hn Hd]. split; [by apply sorted_items_NoDup|].
    rewrite sorted_items_Permutation. rewrite !Forall_forall in *.
    intros x (y & -> & Hy)%list_elem_of_fmap. simpl. split; [by apply Hd|]. apply IH; [done|by apply Hd].
Qed.

Lemma esc_char_text c : text_char c → text_ok (esc_char false c).
Proof.
  intros Hc. unfold esc_char.
  repeat match goal with |- text_ok (if (c =? _)%N then _ else _) =>
    destruct (c =? _)%N; [by apply text_lit|] end.
  destruct (c <? 32)%N; [apply line_text, esc_u_line|]. simpl. by constructor.
Qed.
Lemma render_str_text s : text_ok s → text_ok (render_str false s).
Proof.
  intros Hs. unfold render_str. constructor; [done|]. apply text_app; [|by apply text_lit].
  induction Hs as [|c s Hc _ IH]; [constructor|]. apply text_app; [by apply esc_char_text|done].
Qed.
Lemma render_text lvl j : clean j = true → text_ok (render opts_compact lvl j).
Proof.
  revert lvl. induction j as [|b|z|f|s|l IH|d IH] using json_ind; intros lvl Hj.
  - by apply text_lit.
  - destruct b; by apply text_lit.
  - apply line_text, str_of_Z_line.
  - done.
  - apply bool_decide_eq_true in Hj. by apply render_str_text.
  - apply clean_list in Hj. destruct l as [|x l]; [by apply text_lit|].
    change (text_ok (u "[" ++ [] ++ join (u ",") (map (render opts_compact (S lvl)) (x :: l)) ++ [] ++ u "]")).
    repeat (apply text_app; [try (by apply text_lit)|]); try (by apply text_lit).
    apply join_text; [by apply text_lit|]. apply Forall_map. rewrite Forall_forall in *. auto.
  - apply clean_dict in Hj as [_ Hj]. destruct d as [|x d]; [by apply text_lit|].
    set (f := λ kv : pystr * json, render_str false kv.1 ++ u ":" ++ render opts_compact (S lvl) kv.2).
    change (text_ok (u "{" ++ [] ++ join (u ",") (map f (x :: d)) ++ [] ++ u "}")).
    repeat (apply text_app; [try (by apply text_lit)|]); try (by apply text_lit).
    apply join_text; [by apply text_lit|]. apply Forall_map. rewrite Forall_forall in *.
    intros kv Hkv. destruct (Hj kv Hkv). unfold f.
    apply text_app; [by apply render_str_text|]. apply text_app; [by apply text_lit|auto].
Qed.
(** A clean document has a canonical encoding. *)
Lemma c14n_encodes j : clean j = true → ∃ b, py_encode (_c14n_json j) = Ok b.
Proof.
  intros Hj. assert (is_ok (py_encode (_c14n_json j)) = true) as Hok.
  { apply py_encode_ok, text_no_surrogate, render_text. by apply sort_keys_clean. }
  destruct (py_encode (_c14n_json j)) as [b|]; [by exists b|done].
Qed.
Lemma unsigned_clean d : clean (JDict d) = true → clean (JDict (unsigned d)) = true.
Proof.
  rewrite !clean_dict. intros [Hn Hd]. split; [by do 2 apply dict_pop_keys|].
  rewrite Forall_forall in *. intros x [_ [_ Hx]%list_elem_of_filter]%list_elem_of_filter. auto.
Qed.
Lemma preimage_total d : clean (JDict d) = true → ∃ b, preimage d = Ok b.
Proof. intros Hd. by apply c14n_encodes, unsigned_clean. Qed.

(** ** Fields of a document as its reader sees them *)

(** A value without its nulls and with its keys sorted. *)
Definition norm (j : json) : json := sort_keys (drop_nulls j).
Lemma norm_strs ss : norm (JList (map JStr ss)) = JList (map JStr ss).
Proof.
  unfold norm. rewrite drop_nulls_list. unfold keep_elems. cbn [sort_keys]. f_equal.
  induction ss as [|s ss IH]; [done|]. cbn [map]. rewrite filter_cons_True by done. cbn [map]. by rewrite IH.
Qed.
Lemma norm_dict d : norm (JDict d) = JDict (sorted_items (keep_items d)).
Proof. unfold norm. by rewrite drop_nulls_dict, sort_keys_dict. Qed.
Lemma norm_get k d : NoDup (map fst d) →
  dict_get k (sorted_items (keep_items d)) = v ← dict_get k d; if decide (v = JNull) then None else Some (norm v).
Proof.
  intros Hd. rewrite dict_get_sorted by (by apply keep_items_keys). rewrite dict_get_keep by done.
  destruct (dict_get k d) as [v|]; [|done]. cbn. by case_decide.
Qed.
Lemma sealed_keys r s d : NoDup (map fst d) → NoDup (map fst (sealed r s d)).
Proof. intros Hd. by apply dict_set_NoDup, dict_set_NoDup. Qed.
Lemma sealed_get_raw r s k d :
  NoDup (map fst d) → k ≠ u "merkleRoot" → k ≠ u "signature" →
  dict_get k (sealed r s (keep_items d))
  = v ← dict_get k d; if decide (v = JNull) then None else Some (drop_nulls v).
Proof. intros Hd Hr Hs. unfold sealed. rewrite !dict_get_set_ne by done. by apply dict_get_keep. Qed.
Lemma sealed_get r s k d :
  NoDup (map fst d) → k ≠ u "merkleRoot" → k ≠ u "signature" →
  dict_get k (sorted_items (sealed r s (keep_items d)))
  = v ← dict_get k d; if decide (v = JNull) then None else Some (norm v).
Proof.
  intros Hd Hr Hs. rewrite dict_get_sorted by (by apply sealed_keys, keep_items_keys).
  rewrite sealed_get_raw by done. destruct (dict_get k d) as [v|]; [|done]. cbn. by case_decide.
Qed.
