(* ===== verification/DeltaDocs.v ===== *)
(** * Delta documents

    The document [build_delta] returns is well-formed, has no null in it, and
    carries a seal that verifies, also after [main] has written it and it has
    been read back. *)
From S2P Require Import Prelude PyStr PyJson PyJsonRoundtrip PyJsonStrings PyDict Errors PyOps.
From S2P Require Import PySet.
From S2P Require Import TimeUtil World Sha256 Canon CanonFacts Seal Host EgressFacts.
From S2P Require Import DocFacts DeltaSurface.

#[local] Arguments u : simpl never.

(** ** Well-formed parts of well-formed documents *)

Lemma wf_get x k dflt : wf x → wf dflt → returns wf (py_get x k dflt).
Proof.
  intros Hx Hd v. destruct x as [| | | | | |d]; try done. intros [= <-]. unfold dict_get_or.
  destruct (dict_get k d) as [v|] eqn:Hv; [|done]. apply dict_get_Some in Hv.
  apply wf_dict in Hx as [_ Hx]. rewrite Forall_forall in Hx. by apply (Hx _ Hv).
Qed.
Lemma wf_or x y : wf x → wf y → wf (py_or x y).
Proof. unfold py_or. by destruct (truthy x). Qed.
Lemma wf_get_or_empty x k : wf x → returns wf (get_or_empty x k).
Proof.
  intros Hx. eapply returns_bind; [by apply wf_get|]. intros v Hv. by apply returns_ret, wf_or.
Qed.
Lemma wf_listify x : wf x → wfs (_listify x).
Proof. intros Hx. destruct x; try (by repeat constructor). by apply wf_list. Qed.
Lemma py_set_incl l : returns (λ s, ∀ x, x ∈ s → x ∈ l) (py_set l).
Proof.
  induction l as [|y l IH]; [by apply returns_ok|]. cbn [py_set]. destruct (hashable y); [|done].
  eapply returns_bind; [exact IH|]. intros s Hs. apply returns_ok. intros x [->|Hx]%elem_of_cons; [left|right].
  apply list_elem_of_filter in Hx as [_ Hx]. auto.
Qed.
Lemma py_sorted_incl l : returns (λ s, ∀ x, x ∈ s → x ∈ l) (py_sorted l).
Proof.
  unfold py_sorted. destruct (forallb _ l); [|destruct (forallb is_number l)].
  - apply returns_ok. intros x (s & -> & Hs)%list_elem_of_fmap.
    rewrite sorted_Permutation in Hs. apply list_elem_of_omap in Hs as (y & Hy & Has).
    destruct y; try done. by injection Has as ->.
  - apply returns_ok. intros x. by rewrite merge_sort_Permutation.
  - destruct l as [|y [|z l]]; try apply returns_err. by apply returns_ok.
Qed.
Lemma wf_set l : wfs l → returns wfs (py_set l).
Proof. intros Hl s Hs. apply (wfs_incl l); [done|]. by apply py_set_incl. Qed.
Lemma wf_sorted l : wfs l → returns wfs (py_sorted l).
Proof. intros Hl s Hs. apply (wfs_incl l); [done|]. by apply py_sorted_incl. Qed.
Lemma wf_diff a b : wfs a → wfs (set_diff a b).
Proof. intros Ha. apply (wfs_incl a); [done|]. by intros x [_ Hx]%list_elem_of_filter. Qed.

Create HintDb wf discriminated.
#[export] Hint Resolve wf_get wf_or wf_get_or_empty wf_listify wf_set wf_sorted wf_diff
  returns_ret yields_lift yields_ret : wf.
#[export] Hint Extern 1 (wf JNull) => reflexivity : wf.
#[export] Hint Extern 1 (wf (JInt _)) => reflexivity : wf.
#[export] Hint Extern 1 (wf (JBool _)) => reflexivity : wf.
#[export] Hint Extern 1 (wf (JDict [])) => reflexivity : wf.
#[export] Hint Extern 3 (returns (λ _, True) _) => apply returns_true : wf.

(** One step of a chain of binds. *)
Ltac wf_bind Q := first
  [ eapply (returns_bind Q); [eauto 6 with wf|intros ? ?]
  | eapply (yields_bind Q); [eauto 6 with wf|intros ? ?] ].

(** ** The gate's document *)

Lemma reason_ok p j : forallb (λ c, (32 <=? c) && (c <? 127))%N p = true → wf j → str_ok (p ++ py_str j) = true.
Proof. intros Hp Hj. apply str_ok_lit_app; [done|]. by apply py_str_ok, wf_strs_ok. Qed.
Lemma wf_gate_json g :
  str_ok (status g) = true → wfs (evidenceRequired g) → wfs (evidencePresent g) → wfs (evidenceMissing g) →
  strs_all (reasons g) → wf (JDict (gate_json g)).
Proof.
  intros Hs Hr Hp Hm Hrs. unfold gate_json. wf_lit; try done.
  - by apply wf_list.
  - by apply wf_list.
  - by apply wf_list.
  - by apply wf_str_list.
Qed.
Lemma risk_reason_ok a b :
  str_ok (u "risk score " ++ str_of_Z a ++ u " exceeds threshold " ++ str_of_Z b) = true.
Proof. apply line_str_ok. repeat apply line_ok_app; try (by apply line_ok_lit); apply str_of_Z_line. Qed.

(** A status and its reasons, and one step of the code that updates them. *)
Definition sound (sr : pystr * list pystr) : Prop := str_ok sr.1 = true ∧ strs_all sr.2.
Ltac next_pair :=
  match goal with |- returns _ (let '(_, _) := ?m in _) =>
    let Hp := fresh "Hp" in assert (sound m) as Hp; [|destruct m as [? ?]]
  end.

Lemma wf_gate from_ts to_ts args :
  wf to_ts → returns (λ g, wf (JDict (gate_json g))) (compute_gate from_ts to_ts args).
Proof.
  intros Ht. unfold compute_gate. cbv zeta. wf_bind wf.
  wf_bind wfs; [eapply (returns_bind wf); eauto 6 with wf|].
  wf_bind wfs; [eapply (returns_bind wf); eauto 6 with wf|].
  apply (returns_bind wfs).
  { eapply (returns_bind wfs); [by eauto with wf|intros r Hr].
    eapply (returns_bind wfs); [by eauto with wf|intros p Hp]. eauto with wf. }
  intros missing Hm. do 4 (apply (returns_bind (λ _, True)); [apply returns_true|intros ? _]).
  next_pair.
  { destruct missing as [|m ms]; [by split; [|constructor]|]. split; [done|].
    apply Forall_map. eapply Forall_impl; [exact Hm|]. intros j Hj. by apply reason_ok. }
  next_pair.
  { destruct (_ >? _)%Z; [|exact Hp]. destruct Hp as [_ Hr]. split; [done|]. by apply strs_all_snoc, risk_reason_ok. }
  next_pair.
  { destruct (_ && _); [|exact Hp0]. destruct Hp0 as [_ Hr]. split; [done|]. by apply strs_all_snoc. }
  apply (returns_bind wfs); [eapply (returns_bind wfs); eauto with wf|intros er Her].
  apply (returns_bind wfs); [eapply (returns_bind wfs); eauto with wf|intros ep Hep].
  destruct Hp1. by apply returns_ret, wf_gate_json.
Qed.

(** ** The document *)

Record args_ok (args : DeltaArgs) : Prop := {
  ok_spec_version : str_ok (d_spec_version args) = true;
  ok_id : opt_ok (d_id args);
  ok_created_at : opt_ok (d_created_at args);
  ok_signer : str_ok (d_signer args) = true;
  ok_from_ref : opt_ok (d_from_ref args);
  ok_to_ref : opt_ok (d_to_ref args)
}.
Lemma wf_topics x : wf x → returns wfs (topic_set x).
Proof. intros Hx. unfold topic_set. wf_bind wf. wf_bind wf. eauto with wf. Qed.
Lemma wf_sub x k k' : wf x → returns wf (r ← get_or_empty x k; py_get r k' JNull).
Proof. intros Hx. wf_bind wf. eauto with wf. Qed.

Section docs.
Context {K : Type} `{Env K} `{Host}.
(** [uuid4().hex] is hexadecimal. *)
Context (uuid_ok : ∀ n, line_ok (uuid_hex n)).

Lemma default_id_ok : yields (λ s, str_ok s = true) (_default_id (K:=K)).
Proof.
  unfold _default_id. apply (yields_bind line_ok); [by intros s s' a [= _ <-]|]. intros h Hh.
  apply yields_ret, line_str_ok, line_ok_app; [by apply line_ok_lit|done].
Qed.
Lemma delta_body_wf from_ts to_ts args :
  wf from_ts → wf to_ts → args_ok args →
  yields (λ j, wf j ∧ ∃ d, j = JDict d) (delta_body (K:=K) from_ts to_ts args).
Proof.
  intros Hf Ht [Hv Hid Hca Hsg Hfr Htr]. unfold delta_body.
  apply (yields_bind (λ g, wf (JDict (gate_json g)))); [by apply yields_lift, wf_gate|intros gate Hgate].
  apply (yields_bind (λ s, str_ok s = true)); [by apply or_else_ok, default_id_ok|intros id Hi].
  apply (yields_bind wf); [by apply yields_lift, wf_get|intros from_id Hfi].
  apply (yields_bind wf); [by apply yields_lift, wf_get|intros to_id Hti].
  apply (yields_bind (λ s, str_ok s = true)); [by apply or_else_ok, now_ok|intros created Hc].
  apply (yields_bind wfs); [by apply yields_lift, wf_topics|intros ft _].
  apply (yields_bind wfs); [by apply yields_lift, wf_topics|intros tt' _].
  do 4 (apply (yields_bind wf); [by apply yields_lift, wf_sub|intros ? ?]).
  assert (wf (dict_get_or JNull (u "status") (gate_json gate))) as Hst.
  { change (wf (JStr (status gate))). apply wf_dict in Hgate as [_ Hgate]. by inversion_clear Hgate as [|?? []]. }
  apply yields_ret. split; [|by eexists]. wf_lit; try done; by apply wf_or, wf_opt.
Qed.

Lemma compute_root_preimage d :
  _compute_merkle_root (JDict (unsigned d)) = (b ← preimage d; mret (u "sha256:" ++ _sha256_hex b)).
Proof. unfold _compute_merkle_root, canonical_digest. fold (preimage d). by destruct (preimage d). Qed.
Lemma dev_signature_preimage d :
  _dev_signature (JDict (unsigned d)) = (b ← preimage d; mret (u "sig:dev:sha256:" ++ _sha256_hex b)).
Proof. unfold _dev_signature, canonical_digest. fold (preimage d). by destruct (preimage d). Qed.

(** What [build_delta] returns. *)
Lemma build_delta_seals from_ts to_ts args (w w' : World K) d :
  build_delta from_ts to_ts args w = (w', Ok d) →
  ∃ body b, delta_body from_ts to_ts args w = (w', Ok (JDict body)) ∧
    preimage (keep_items body) = Ok b ∧ d = sealed (root_of b) (signature_of b) (keep_items body).
Proof.
  unfold build_delta. rewrite run_bind.
  destruct (delta_body _ _ _ w) as [w1 [j|e]] eqn:Hb; [|done].
  destruct (as_dict (drop_nulls j)) as [d0|e] eqn:Hd; [|done].
  assert (∃ body, j = JDict body ∧ d0 = keep_items body) as (body & -> & ->).
  { destruct j; try done. rewrite drop_nulls_dict in Hd. injection Hd as <-. eauto. }
  rewrite bind_lift_ok. cbv zeta. fold (unsigned (keep_items body)).
  rewrite compute_root_preimage, dev_signature_preimage.
  destruct (preimage (keep_items body)) as [b|e] eqn:Hp; [|done]. intros [= <- <-]. exists body, b. done.
Qed.

Lemma delta_body_gate from_ts to_ts args :
  yields (λ j, ∃ g body, j = JDict body ∧ compute_gate from_ts to_ts args = Ok g ∧ NoDup (map fst body) ∧
                         dict_get (u "gate") body = Some (JDict (gate_json g)))
    (delta_body (K:=K) from_ts to_ts args).
Proof.
  unfold delta_body.
  apply (yields_bind (λ g, compute_gate from_ts to_ts args = Ok g)); [by apply yields_lift; intros g|intros g Hg].
  do 10 (apply (yields_bind (λ _, True)); [apply yields_true|intros ? _]).
  apply yields_ret. exists g. eexists. split; [reflexivity|]. split; [done|]. split; [compute_it|reflexivity].
Qed.

(** [main] with [--out], in terms of [build_delta]. *)
Lemma run_main_out from_path to_path args p root (w w' : World K) r :
  main from_path to_path args {| o_out := Some p; o_store_root := root |} w = (w', Ok r) →
  ∃ s t from_ts to_ts d w1, w_fs w !! from_path = Some s ∧ w_fs w !! to_path = Some t ∧
    py_loads s = Ok from_ts ∧ py_loads t = Ok to_ts ∧
    build_delta from_ts to_ts args w = (w1, Ok d) ∧ r = (0%Z, []) ∧
    w' = set_fs (<[p := pretty (JDict d) ++ [10%N]]> (w_fs w1)) w1.
Proof.
  unfold main. rewrite run_bind, run_read_json. destruct (w_fs w !! from_path) as [s|]; [|done].
  destruct (py_loads s) as [from_ts|] eqn:Hs; [|done].
  rewrite run_bind, run_read_json. destruct (w_fs w !! to_path) as [t|]; [|done].
  destruct (py_loads t) as [to_ts|] eqn:Ht; [|done].
  rewrite run_bind. destruct (build_delta from_ts to_ts args w) as [w1 [d|e]] eqn:Hd; [|done].
  cbn [o_out]. rewrite run_bind, run_write_json. intros [= <- <-].
  by exists s, t, from_ts, to_ts, d, w1.
Qed.

Lemma build_delta_wf from_ts to_ts args (w w' : World K) d :
  wf from_ts → wf to_ts → args_ok args →
  build_delta from_ts to_ts args w = (w', Ok d) → wf (JDict d).
Proof.
  intros Hf Ht Ha (body & b & Hb & _ & ->)%build_delta_seals. apply sealed_wf.
  by apply (delta_body_wf _ _ _ Hf Ht Ha) in Hb as [Hb _].
Qed.
Lemma build_delta_seal from_ts to_ts args (w w' : World K) d :
  build_delta from_ts to_ts args w = (w', Ok d) →
  seal_ok [] d = true ∧ no_nulls (JDict d) = true ∧
  ∃ g, compute_gate from_ts to_ts args = Ok g ∧
       dict_get (u "gate") d = Some (drop_nulls (JDict (gate_json g))).
Proof.
  intros (body & b & Hb & Hp & ->)%build_delta_seals. split; [|split; [apply sealed_no_nulls|]].
  - rewrite <-(app_nil_r b) at 1. by apply seal_intro.
  - apply delta_body_gate in Hb as (g & body' & [= <-] & Hg & Hn & Hd). exists g. split; [done|].
    unfold sealed. rewrite !dict_get_set_ne by done. rewrite dict_get_keep by done.
    rewrite Hd. cbn [mbind option_bind]. by rewrite decide_False.
Qed.
End docs.

Section theorems.
Context {K : Type} `{Env K} `{Host}.

(** C23: every delta document [build_delta] returns is sealed: its
    [merkleRoot] and [signature] are the digests a reader recomputes from the
    other fields, no field is null, and the gate it carries is the one
    [compute_gate] decided. *)
Theorem build_delta_sealed from_ts to_ts args (w w' : World K) d :
  build_delta from_ts to_ts args w = (w', Ok d) →
  seal_ok [] d = true ∧ no_nulls (JDict d) = true ∧
  ∃ g, compute_gate from_ts to_ts args = Ok g ∧
       dict_get (u "gate") d = Some (drop_nulls (JDict (gate_json g))).
Proof. apply build_delta_seal. Qed.

(** C30: the file [main --out] writes is the document it built: reading it
    back gives the same fields (keys sorted), and the seal still verifies.
    Floats are left out of the inputs, as their decimal form is not proved to
    read back. *)
Theorem main_out_verifies from_path to_path args p root (w w' : World K) r :
  (∀ n, line_ok (uuid_hex n)) → args_ok args →
  (∀ q j, q = from_path ∨ q = to_path → _read_json q w = (w, Ok j) → wf j) →
  main from_path to_path args {| o_out := Some p; o_store_root := root |} w = (w', Ok r) →
  ∃ d, (∃ from_ts to_ts w1, build_delta from_ts to_ts args w = (w1, Ok d)) ∧
       _read_json p w' = (w', Ok (JDict (sorted_items d))) ∧
       seal_ok [] (sorted_items d) = true ∧ jeq (JDict (sorted_items d)) (JDict d) = true.
Proof.
  intros Hu Ha Hin (s & t & from_ts & to_ts & d & w1 & Hs & Ht & Hf & Hto & Hd & -> & ->)%run_main_out.
  assert (wf from_ts) as Hwf by (apply (Hin from_path); [by left|]; by rewrite run_read_json, Hs, Hf).
  assert (wf to_ts) as Hwt by (apply (Hin to_path); [by right|]; by rewrite run_read_json, Ht, Hto).
  pose proof (build_delta_wf Hu _ _ _ _ _ _ Hwf Hwt Ha Hd) as Hwd.
  pose proof (wf_keys_ok _ Hwd) as Hk. exists d. split; [eauto|]. split; [|split].
  - apply (read_back p (JDict d)); [done|]. simpl. by rewrite lookup_insert_eq.
  - apply seal_ok_sorted; [done|]. by apply build_delta_seal in Hd as [? _].
  - apply (sort_keys_jeq (JDict (sorted_items d)) (JDict d));
      [exact (sort_keys_keys_ok _ Hk)|done|exact (sort_keys_idemp _ Hk)].
Qed.

(** C29: the root commits to the document: two runs of [build_delta] whose
    documents carry the same [signature] built documents with the same fields,
    or the two canonical texts are a SHA-256 collision. *)
Theorem build_delta_commits f t args f' t' args' (w w' v v' : World K) d e :
  (∀ n, line_ok (uuid_hex n)) → wf f → wf t → args_ok args → wf f' → wf t' → args_ok args' →
  build_delta f t args w = (w', Ok d) → build_delta f' t' args' v = (v', Ok e) →
  dict_get (u "signature") d = dict_get (u "signature") e →
  jeq (JDict (unsigned d)) (JDict (unsigned e)) = true ∨
  ∃ b c, preimage d = Ok b ∧ preimage e = Ok c ∧ collision b c.
Proof.
  intros Hu Hf Ht Ha Hf' Ht' Ha' Hd He Hsig.
  pose proof (build_delta_wf Hu _ _ _ _ _ _ Hf Ht Ha Hd) as Hwd.
  pose proof (build_delta_wf Hu _ _ _ _ _ _ Hf' Ht' Ha' He) as Hwe.
  apply build_delta_seal in Hd as [(b & Hb & _ & Hsb)%seal_ok_spec _].
  apply build_delta_seal in He as [(c & Hc & _ & Hsc)%seal_ok_spec _].
  rewrite Hsb, Hsc in Hsig. injection Hsig as Hsig.
  destruct (signature_commits d e b c) as [Hj|Hcol]; try done; try (by apply unsigned_wf).
  - unfold signature_of. by rewrite Hsig.
  - by left.
  - right. eauto.
Qed.
End theorems.
