(* ===== verification/TruthSurface.v ===== *)
(** * Emitting a truth surface (src/tools/sourceos_truth_surface.py)

    [build_surface] collects what the host says of itself and what the command
    line says of the evidence, drops the nulls and seals the document; [main]
    writes it. *)
From S2P Require Import Prelude PyStr PyJson Errors PyOps PySet Sha256 World Canon Host.

(** The [argparse.Namespace] of [main]. *)
Record SurfaceArgs := {
  s_plane : pystr; s_spec_version : pystr; s_id : option pystr; s_created_at : option pystr;
  s_signer : pystr; s_policy_pack_digest : option pystr;
  s_risk_score : Z; s_risk_threshold : Z;
  s_human_approval_required : bool; s_human_approved : bool;
  s_evidence_required : list pystr; s_evidence_present : list pystr;
  s_policy_decision_ref : list pystr; s_capability_token_id : list pystr;
  s_run_record_ref : list pystr; s_provenance_ref : list pystr;
  s_telemetry_ref : list pystr; s_evidence_bundle_ref : list pystr;
  s_cairn_before_ref : option pystr; s_cairn_after_ref : option pystr;
  s_anchor : list pystr; s_topic : list pystr; s_glossary_ref : list pystr;
  s_extra_hash_path : list pystr
}.

(** ** Text *)

(** The line boundaries of [str.splitlines]; a carriage return and a line feed
    together are one. *)
Definition is_line_break (c : N) : bool :=
  ((10 <=? c) && (c <=? 13) || (28 <=? c) && (c <=? 30) || (c =? 133) || (c =? 8232) || (c =? 8233))%N.
(** [cur] is the current line, reversed; a last line without a break counts
    unless it is empty. *)
Fixpoint splitlines_from (cur s : pystr) : list pystr :=
  match s with
  | [] => match cur with [] => [] | _ => [reverse cur] end
  | c :: s' =>
      if is_line_break c then
        match c, s' with
        | 13%N, 10%N :: s'' => reverse cur :: splitlines_from [] s''
        | _, _ => reverse cur :: splitlines_from [] s'
        end
      else splitlines_from (c :: cur) s'
  end.
Definition splitlines (s : pystr) : list pystr := splitlines_from [] s.

(** [k, v = line.split(sep, 1)]; [None] when [sep] is not in [line]. *)
Fixpoint split_once (sep : N) (s : pystr) : option (pystr * pystr) :=
  match s with
  | [] => None
  | c :: s' => if (c =? sep)%N then Some ([], s')
               else '(a, b) ← split_once sep s'; Some (c :: a, b)
  end.

Section surface.
Context {K : Type} `{Env K} `{Host}.

Definition _read_text (p : pystr) : option pystr := host_text p.

(** One line of /etc/os-release. *)
Definition os_release_line (out : dict) (line0 : pystr) : dict :=
  let line := strip line0 in
  match line with
  | [] => out
  | _ =>
      if startswith (u "#") line then out else
      match split_once 61 line with
      | None => out
      | Some (k, v) => dict_set (strip k) (JStr (strip_by (N.eqb 34) (strip v))) out
      end
  end.
Definition _read_os_release : dict :=
  match _read_text (u "/etc/os-release") with
  | None | Some [] => []
  | Some s => fold_left os_release_line (splitlines s) []
  end.

Definition _detect_ima_enabled : option bool :=
  let candidates := [u "/sys/kernel/security/ima/ascii_runtime_measurements";
                     u "/sys/kernel/security/ima/binary_runtime_measurements"] in
  if existsb host_exists candidates then Some true
  else if host_exists (u "/sys/kernel/security") then Some false
  else None.

Definition _default_surface_id : W K pystr :=
  h ← uuid4_hex; mret (u "urn:srcos:truth-surface:" ++ h).

Definition _compute_merkle_root (surface_without_sig : json) (extra_blobs : list (list N)) : pyres pystr :=
  b ← py_encode (_c14n_json surface_without_sig);
  mret (u "sha256:" ++ hexdigest (sha256 (fold_left (λ h b, h ++ b) extra_blobs b))).
Definition _dev_signature (surface_without_sig : json) : pyres pystr :=
  h ← canonical_digest surface_without_sig; mret (u "sig:dev:sha256:" ++ h).

(** The sets of strings are [gset]s. *)
Definition _evidence_panel (required present : list pystr) : json :=
  let req := filter (λ r, r ≠ []) required in
  let pres := filter (λ p, p ≠ []) present in
  let missing := sorted_set (list_to_set req ∖ list_to_set pres) in
  JDict [(u "required", JList (map JStr (sorted_set (list_to_set req))));
         (u "present", JList (map JStr (sorted_set (list_to_set pres))));
         (u "missing", JList (map JStr missing))].

Definition str_array (l : list pystr) : json := JList (map JStr l).

(** The document before it is sealed. *)
Definition surface_doc (args : SurfaceArgs) (id created : pystr) : dict :=
  let osrel := _read_os_release in
  let ima := _detect_ima_enabled in
  [
    (u "id", JStr id);
    (u "type", JStr (u "TruthSurface"));
    (u "specVersion", JStr (s_spec_version args));
    (u "plane", JStr (s_plane args));
    (u "createdAt", JStr created);
    (u "signer", JStr (s_signer args));
    (u "refs", JDict [
      (u "policyDecisionRefs", str_array (s_policy_decision_ref args));
      (u "capabilityTokenIds", str_array (s_capability_token_id args));
      (u "runRecordRefs", str_array (s_run_record_ref args));
      (u "provenanceRefs", str_array (s_provenance_ref args));
      (u "telemetryRefs", str_array (s_telemetry_ref args));
      (u "evidenceBundleRefs", str_array (s_evidence_bundle_ref args));
      (u "cairnBeforeRef", opt_str (s_cairn_before_ref args));
      (u "cairnAfterRef", opt_str (s_cairn_after_ref args))]);
    (u "evidence", _evidence_panel (s_evidence_required args) (s_evidence_present args));
    (u "semantics", JDict [
      (u "anchors", str_array (s_anchor args));
      (u "topics", str_array (s_topic args));
      (u "glossary", str_array (s_glossary_ref args))]);
    (u "runtime", JDict [
      (u "osRelease", JDict osrel);
      (u "uname", JDict [
        (u "system", JStr (un_system uname));
        (u "node", JStr (un_node uname));
        (u "release", JStr (un_release uname));
        (u "version", JStr (un_version uname));
        (u "machine", JStr (un_machine uname));
        (u "processor", JStr (un_processor uname))]);
      (u "integrity", JDict [
        (u "ima", JStr (match ima with Some true => u "enabled" | Some false => u "disabled"
                        | None => u "unknown" end))])]);
    (u "governance", JDict [
      (u "policyPackDigest", opt_str (s_policy_pack_digest args));
      (u "riskScore", JInt (s_risk_score args));
      (u "riskThreshold", JInt (s_risk_threshold args));
      (u "humanApprovalRequired", JBool (s_human_approval_required args));
      (u "humanApproved", JBool (s_human_approved args))])].
Definition surface_body (args : SurfaceArgs) : W K dict :=
  id ← or_else (s_id args) _default_surface_id;
  created ← or_else (s_created_at args) _utc_now_iso;
  mret (surface_doc args id created).

(** Unreadable files are skipped. *)
Definition extra_blobs (args : SurfaceArgs) : list (list N) := omap host_bytes (s_extra_hash_path args).

Definition build_surface (args : SurfaceArgs) : W K dict :=
  body ← surface_body args;
  surface ← lift (as_dict (drop_nulls (JDict body)));
  let surface_wo_sig := dict_pop (u "merkleRoot") (dict_pop (u "signature") surface) in
  root ← lift (_compute_merkle_root (JDict surface_wo_sig) (extra_blobs args));
  let surface := dict_set (u "merkleRoot") (JStr root) surface in
  sig ← lift (_dev_signature (JDict surface_wo_sig));
  mret (dict_set (u "signature") (JStr sig) surface).

(** [main] returns its exit status and what it prints. *)
Definition main (args : SurfaceArgs) (dest : Output) : W K (Z * pystr) :=
  surface ← build_surface args;
  match o_out dest, o_store_root dest with
  | Some out, _ => _write_json out (JDict surface) ;; mret (0%Z, [])
  | None, Some root =>
      ts ← lift (stamp_of surface);
      let out := path_join (root ++ [u "truth"; u "surfaces"; s_plane args]) ts ++ [u "truth-surface.json"] in
      _write_json out (JDict surface) ;;
      mret (0%Z, join (u "/") ([] :: out) ++ [10%N])
  | None, None => mret (0%Z, pretty (JDict surface) ++ [10%N])
  end.
End surface.
