(* ===== verification/TruthDocs.v ===== *)
(** * Truth surface documents

    [build_surface] never fails on text arguments; the document it returns is
    sealed, free of nulls, and carries the evidence panel; read back by the
    delta tool it has the typed view of its own command line, so the gate of a
    later transition is decided by it alone. *)
From S2P Require Import Prelude PyStr PyJson PyJsonRoundtrip PyJsonStrings PyDict Errors PyOps.
From S2P Require Import PySet.
From S2P Require Import TimeUtil World Sha256 Canon CanonFacts Seal Host EgressFacts DocFacts.
From S2P Require Import DeltaSurface DeltaSpec TruthSurface.

#[local] Arguments u : simpl never.

(** ** Text *)

Lemma strip_by_text f s : text_ok s → text_ok (strip_by f s).
Proof. intros Hs. unfold strip_by. by apply Forall_reverse, drop_while_Forall, Forall_reverse, drop_while_Forall. Qed.
Lemma split_once_text sep s a b : text_ok s → split_once sep s = Some (a, b) → text_ok a ∧ text_ok b.
Proof.
  intros Hs. revert a b. induction Hs as [|c s Hc Hs IH]; intros a b; [done|]. cbn [split_once].
  destruct (c =? sep)%N; [by intros [= <- <-]; split; [constructor|]|].
  destruct (split_once sep s) as [[a' b']|]; [|done]. intros [= <- <-].
  destruct (IH a' b' eq_refl). split; [by constructor|done].
Qed.
Lemma splitlines_from_text cur s : text_ok cur → text_ok s → Forall text_ok (splitlines_from cur s).
Proof.
  remember (length s) as n eqn:Hn. revert cur s Hn.
  induction n as [n IH] using lt_wf_ind. intros cur s -> Hcur Hs.
  destruct s as [|c s]; cbn [splitlines_from].
  { destruct cur; constructor; [|constructor]. by apply Forall_reverse. }
  inversion_clear Hs as [|?? Hc Hs'].
  assert (∀ t, length t < length (c :: s) → text_ok t → Forall text_ok (reverse cur :: splitlines_from [] t)) as Hnext.
  { intros t Ht Htt. constructor; [by apply Forall_reverse|]. by apply (IH (length t)); [|done|constructor|]. }
  destruct (is_line_break c).
  - repeat case_match; subst; try (apply Hnext; [simpl; lia|done]).
    apply Hnext; [simpl; lia|]. by inversion_clear Hs'.
  - apply (IH (length s)); [simpl; lia|done|by constructor|done].
Qed.
Lemma splitlines_text s : text_ok s → Forall text_ok (splitlines s).
Proof. apply splitlines_from_text. constructor. Qed.

Lemma dict_set_clean k v d :
  text_ok k → clean v = true → clean (JDict d) = true → clean (JDict (dict_set k v d)) = true.
Proof.
  rewrite !clean_dict. intros Hk Hv [Hn Hd]. split; [by apply dict_set_NoDup|]. clear Hn.
  induction Hd as [|[k' v'] d [Hk' Hv'] Hd IH]; simpl; [by repeat constructor|].
  case_decide; constructor; auto.
Qed.
Lemma clean_str s : text_ok s → clean (JStr s) = true.
Proof. intros Hs. by apply bool_decide_eq_true. Qed.
Lemma clean_strs ss : Forall text_ok ss → clean (JList (map JStr ss)) = true.
Proof. intros Hs. apply clean_list, Forall_map. eapply Forall_impl; [exact Hs|]. intros s. apply clean_str. Qed.
Lemma clean_opt o : (∀ s, o = Some s → text_ok s) → clean (opt_str o) = true.
Proof. intros Ho. destruct o as [s|]; [|done]. by apply clean_str, Ho. Qed.

Ltac split_Forall := repeat match goal with
  H : Forall _ (_ :: _) |- _ => apply Forall_cons in H as [? H] end.
(** The items of an object written out in the source. *)
Ltac clean_lit := repeat match goal with
  | |- Forall _ [] => constructor
  | |- Forall _ (_ :: _) => apply Forall_cons; split; [split; [by apply text_lit|cbn [fst snd]]|]
  | |- clean (JDict (_ :: _)) = true => apply clean_dict; split; [compute_it|]
  end.

(** ** The document *)

(** Arguments and host strings that UTF-8 can encode. *)
Definition opt_text (o : option pystr) : Prop := ∀ s, o = Some s → text_ok s.
Record args_text (a : SurfaceArgs) : Prop := {
  text_strings : Forall text_ok [s_plane a; s_spec_version a; s_signer a];
  text_options : Forall opt_text [s_id a; s_created_at a; s_policy_pack_digest a;
                                  s_cairn_before_ref a; s_cairn_after_ref a];
  text_lists : Forall (Forall text_ok)
    [s_evidence_required a; s_evidence_present a; s_policy_decision_ref a; s_capability_token_id a;
     s_run_record_ref a; s_provenance_ref a; s_telemetry_ref a; s_evidence_bundle_ref a;
     s_anchor a; s_topic a; s_glossary_ref a]
}.
Class HostText `{Host} := {
  uuid_line n : line_ok (uuid_hex n);
  uname_text : Forall text_ok [un_system uname; un_node uname; un_release uname;
                               un_version uname; un_machine uname; un_processor uname];
  files_text p s : host_text p = Some s → text_ok s
}.

Section docs.
Context {K : Type} `{Env K} `{Hh : Host, !HostText}.

Lemma os_release_clean : clean (JDict _read_os_release) = true.
Proof.
  unfold _read_os_release, _read_text. destruct (host_text _) as [s|] eqn:Hs; [|done].
  destruct s as [|c s]; [done|]. apply files_text, splitlines_text in Hs.
  set (ls := splitlines (c :: s)) in *. clearbody ls.
  assert (∀ d, clean (JDict d) = true → clean (JDict (fold_left os_release_line ls d)) = true) as Hfold; [|by apply Hfold].
  induction Hs as [|l ls Hl _ IH]; intros d Hd; [done|]. cbn [fold_left]. apply IH.
  unfold os_release_line. apply strip_text in Hl. destruct (strip l) as [|c' l']; [done|].
  destruct (startswith _ _); [done|]. destruct (split_once 61 (c' :: l')) as [[k v]|] eqn:Hkv; [|done].
  apply split_once_text in Hkv as [Hk Hv]; [|done].
  apply dict_set_clean; [by apply strip_text|by apply clean_str, strip_by_text, strip_text|done].
Qed.
Lemma evidence_clean req pres :
  Forall text_ok req → Forall text_ok pres → clean (_evidence_panel req pres) = true.
Proof.
  rewrite !Forall_forall. intros Hr Hp. unfold _evidence_panel.
  clean_lit; apply clean_strs, Forall_forall; intros s Hs; rewrite elem_of_sorted_set in Hs;
    rewrite ?elem_of_difference, !elem_of_list_to_set, !list_elem_of_filter in Hs; naive_solver.
Qed.

Lemma or_else_text o f : opt_text o → yields text_ok f → yields text_ok (or_else (K:=K) o f).
Proof.
  intros Ho Hf. unfold or_else. destruct o as [[|c t]|]; simpl; [done| |done]. apply yields_ret. by apply Ho.
Qed.
Lemma surface_body_clean args :
  args_text args → yields (λ d, clean (JDict d) = true) (surface_body (K:=K) args).
Proof.
  intros [Hs Ho Hl]. pose proof uname_text as Hu. split_Forall.
  unfold surface_body. cbv zeta. apply (yields_bind text_ok).
  { apply or_else_text; [done|]. apply (yields_bind line_ok).
    - intros ?? h [= _ <-]. apply uuid_line.
    - intros h Hhex. apply yields_ret. apply text_app; [by apply text_lit|by apply line_text]. }
  intros id Hid. apply (yields_bind text_ok).
  { apply or_else_text; [done|]. intros ?? t [= _ <-]. apply line_text, iso_utc_line. }
  intros created Hc. apply yields_ret. unfold surface_doc. cbv zeta. clean_lit; try done; try (by apply clean_str); try (by apply clean_strs);
    try (by apply clean_opt).
  - by apply evidence_clean.
  - apply os_release_clean.
  - destruct _detect_ima_enabled as [[]|]; by apply clean_str, text_lit.
Qed.

Lemma run_or_else (o : option pystr) (f : W K pystr) w s :
  f w = (tick w, Ok s) →
  ∃ w' r, or_else o f w = (w', Ok r) ∧ w_fs w' = w_fs w ∧ w_tick w ≤ w_tick w' ∧
    (opt_truthy o = false → r = s).
Proof.
  intros Hs. unfold or_else. destruct (opt_truthy o); [by eexists w, _|].
  exists (tick w), s. split; [done|]. split; [done|]. split; [simpl; lia|done].
Qed.
Lemma fold_app (bs : list (list N)) b : fold_left (λ h b, h ++ b) bs b = b ++ concat bs.
Proof. revert b. induction bs as [|c bs IH]; intros b; simpl; [by rewrite app_nil_r|]. by rewrite IH, app_assoc. Qed.

(** [build_surface] always returns, and what. *)
Lemma run_build_surface args (w : World K) :
  args_text args →
  ∃ w' id created b, surface_body args w = (w', Ok (surface_doc args id created)) ∧
    w_fs w' = w_fs w ∧
    (opt_truthy (s_created_at args) = false → ∃ n, w_tick w ≤ n ∧ created = iso_utc (clock n)) ∧
    clean (JDict (surface_doc args id created)) = true ∧
    preimage (keep_items (surface_doc args id created)) = Ok b ∧
    build_surface args w = (w', Ok (sealed (root_of (b ++ concat (extra_blobs args))) (signature_of b)
                                      (keep_items (surface_doc args id created)))).
Proof.
  intros Ha.
  destruct (run_or_else (s_id args) _default_surface_id w _ eq_refl) as (w1 & id & Hid & Hf1 & Ht1 & _).
  destruct (run_or_else (s_created_at args) _utc_now_iso w1 _ eq_refl) as (w2 & created & Hc & Hf2 & Ht2 & Hnow).
  assert (surface_body args w = (w2, Ok (surface_doc args id created))) as Hb.
  { unfold surface_body. by rewrite run_bind, Hid, run_bind, Hc. }
  pose proof (surface_body_clean args Ha _ _ _ Hb) as Hcl.
  assert (clean (JDict (keep_items (surface_doc args id created))) = true) as Hck
    by (rewrite <-drop_nulls_dict; by apply drop_nulls_clean).
  destruct (preimage_total _ Hck) as [b Hp]. exists w2, id, created, b.
  set (doc := surface_doc args id created) in *. clearbody doc. split; [done|].
  split; [by rewrite Hf2|]. split; [by eauto|]. split; [done|]. split; [done|].
  unfold build_surface. rewrite run_bind, Hb, drop_nulls_dict.
  change (as_dict (JDict (keep_items doc))) with (Ok (keep_items doc) : pyres dict).
  rewrite bind_lift_ok. cbv zeta. fold (unsigned (keep_items doc)).
  unfold _compute_merkle_root, _dev_signature, canonical_digest. fold (preimage (keep_items doc)).
  rewrite Hp. by rewrite <-fold_app.
Qed.

Lemma replay_body args (w : World K) :
  opt_truthy (s_id args) = true → opt_truthy (s_created_at args) = true →
  surface_body args w = (w, Ok (surface_doc args (opt_or (s_id args) []) (opt_or (s_created_at args) []))).
Proof. intros Hi Hc. unfold surface_body, or_else. by rewrite Hi, Hc. Qed.

Lemma hexdigest_text b : text_ok (_sha256_hex b).
Proof.
  apply line_text. unfold _sha256_hex, hexdigest. apply Forall_bind, Forall_forall. intros x _. apply hex_line.
Qed.
Lemma clean_root b : clean (root_of b) = true.
Proof. apply clean_str, text_app; [by apply text_lit|apply hexdigest_text]. Qed.
Lemma clean_signature b : clean (signature_of b) = true.
Proof. apply clean_str, text_app; [by apply text_lit|apply hexdigest_text]. Qed.

(** ** What a reader finds *)

(** The panels of a surface, from its command line. *)
Definition view_of (a : SurfaceArgs) : View := {|
  v_required := sorted_set (list_to_set (filter (λ r, r ≠ []) (s_evidence_required a)));
  v_present := sorted_set (list_to_set (filter (λ r, r ≠ []) (s_evidence_present a)));
  v_risk := s_risk_score a; v_threshold := s_risk_threshold a;
  v_human := s_human_approval_required a; v_approved := s_human_approved a |}.

Lemma str_list_strs ss : str_list (Some (JList (map JStr ss))) = Some ss.
Proof. cbn [str_list]. pose proof (omap_strs ss) as Hs. unfold strs in *. rewrite Hs. by rewrite decide_True. Qed.

(** A field of an inner object of a surface, as its reader finds it. *)
Lemma surface_panel args id created r s k p :
  dict_get k (surface_doc args id created) = Some (JDict p) →
  k ≠ u "merkleRoot" → k ≠ u "signature" →
  panel (sorted_items (sealed r s (keep_items (surface_doc args id created)))) k
  = Some (sorted_items (keep_items p)).
Proof.
  intros Hp Hr Hs. assert (NoDup (map fst (surface_doc args id created))) as Hn by compute_it.
  unfold panel. rewrite sealed_get, Hp by done. cbn [mbind option_bind].
  rewrite decide_False by done. by rewrite norm_dict.
Qed.
Lemma panel_get k p v :
  NoDup (map fst p) → dict_get k p = Some v → v ≠ JNull →
  dict_get k (sorted_items (keep_items p)) = Some (norm v).
Proof. intros Hn Hv Hne. rewrite norm_get, Hv by done. cbn [mbind option_bind]. by rewrite decide_False. Qed.

Lemma surface_view args id created r s dargs :
  view (sorted_items (sealed r s (keep_items (surface_doc args id created)))) dargs = Some (view_of args).
Proof.
  unfold view.
  set (ev := [(u "required", JList (map JStr (v_required (view_of args))));
              (u "present", JList (map JStr (v_present (view_of args))));
              (u "missing", JList (map JStr (sorted_set
                 (list_to_set (filter (λ r, r ≠ []) (s_evidence_required args))
                  ∖ list_to_set (filter (λ r, r ≠ []) (s_evidence_present args))))))] : dict).
  set (gov := [(u "policyPackDigest", opt_str (s_policy_pack_digest args));
      (u "riskScore", JInt (s_risk_score args)); (u "riskThreshold", JInt (s_risk_threshold args));
      (u "humanApprovalRequired", JBool (s_human_approval_required args));
      (u "humanApproved", JBool (s_human_approved args))] : dict).
  assert (dict_get (u "evidence") (surface_doc args id created) = Some (JDict ev)) as Hev by reflexivity.
  assert (dict_get (u "governance") (surface_doc args id created) = Some (JDict gov)) as Hgov by reflexivity.
  rewrite (surface_panel _ _ _ _ _ _ ev Hev), (surface_panel _ _ _ _ _ _ gov Hgov) by done.
  assert (NoDup (map fst ev)) as He by compute_it. assert (NoDup (map fst gov)) as Hg by compute_it.
  cbn [mbind option_bind].
  rewrite (panel_get (u "required") ev _ He eq_refl), (panel_get (u "present") ev _ He eq_refl) by done.
  rewrite !norm_strs, !str_list_strs. cbn [mbind option_bind]. unfold int_field, bool_field.
  rewrite (panel_get (u "riskScore") gov _ Hg eq_refl), (panel_get (u "riskThreshold") gov _ Hg eq_refl),
    (panel_get (u "humanApprovalRequired") gov _ Hg eq_refl), (panel_get (u "humanApproved") gov _ Hg eq_refl)
    by done.
  reflexivity.
Qed.

Lemma build_surface_seals args (w : World K) :
  args_text args →
  ∃ w' d, build_surface args w = (w', Ok d) ∧ seal_ok (concat (extra_blobs args)) d = true ∧
    clean (JDict d) = true ∧ no_nulls (JDict d) = true ∧
    ∀ dargs, view (sorted_items d) dargs = Some (view_of args).
Proof.
  intros Ha. destruct (run_build_surface args w Ha) as (w' & id & created & b & _ & _ & _ & Hcl & Hp & Hr).
  eexists w', _. split; [exact Hr|]. split; [by apply seal_intro|]. split; [|split].
  - apply dict_set_clean; [by apply text_lit|by apply clean_signature|].
    apply dict_set_clean; [by apply text_lit|by apply clean_root|].
    rewrite <-drop_nulls_dict. by apply drop_nulls_clean.
  - apply sealed_no_nulls.
  - intros dargs. apply surface_view.
Qed.
End docs.

Section theorems.
Context {K : Type} `{Env K} `{Hh : Host, !HostText}.

(** emitting a surface never fails: on text arguments [build_surface]
    returns a document with no null in it, whose [merkleRoot] a reader
    recomputes from the other fields and the readable extra files, and whose
    [signature] from the other fields alone. *)
Theorem build_surface_total args (w : World K) :
  args_text args →
  ∃ w' d, build_surface args w = (w', Ok d) ∧ seal_ok (concat (extra_blobs args)) d = true ∧
          no_nulls (JDict d) = true.
Proof. intros Ha. destruct (build_surface_seals args w Ha) as (w' & d & ? & ? & _ & ? & _). eauto 6. Qed.

(** from the emitter to the gate: the file [main --out] writes is a
    surface on which the delta gate never fails; it decides by the evidence,
    risk and approval of the surface's own command line, whatever the flags
    of the delta tool. *)
Theorem surface_gate args p root (w : World K) :
  args_text args →
  ∃ w' r x, main args {| o_out := Some p; o_store_root := root |} w = (w', Ok r) ∧
    _read_json p w' = (w', Ok x) ∧
    ∀ from_ts dargs, compute_gate from_ts x dargs = Ok (abs_gate (view_of args)).
Proof.
  intros Ha. destruct (build_surface_seals args w Ha) as (w1 & d & Hd & _ & Hc & _ & Hv).
  eexists _, _, (JDict (sorted_items d)). split; [|split].
  - unfold main. rewrite run_bind, Hd. cbn [o_out]. by rewrite run_bind, run_write_json.
  - apply (read_back p (JDict d)); [by apply clean_wf|]. simpl. by rewrite lookup_insert_eq.
  - intros from_ts dargs. by apply compute_gate_view.
Qed.

(** replay: with an explicit identifier and creation time, [build_surface]
    reads neither the clock nor the random source: the same command line on
    the same host gives the same document, in any state of the world. *)
Theorem build_surface_replays args (w v : World K) :
  opt_truthy (s_id args) = true → opt_truthy (s_created_at args) = true →
  (build_surface args w).1 = w ∧ (build_surface args w).2 = (build_surface args v).2.
Proof.
  intros Hi Hc. unfold build_surface. rewrite !run_bind, !replay_body by done.
  set (doc := surface_doc args _ _). clearbody doc. rewrite drop_nulls_dict.
  change (as_dict (JDict (keep_items doc))) with (Ok (keep_items doc) : pyres dict). rewrite !bind_lift_ok.
  cbv zeta. destruct (_compute_merkle_root _ _); [|done]. rewrite !bind_lift_ok.
  by destruct (_dev_signature _).
Qed.
End theorems.
