(* ===== verification/OsRelease.v ===== *)
(** * Reading /etc/os-release

    [_read_os_release] reads back the assignments [KEY="value"] of a well-formed
    os-release file, one per line, in order. *)
From S2P Require Import Prelude PyStr PyJson PyJsonRoundtrip PyDict Errors World Canon Host.
From S2P Require Import TruthSurface.

(** Lines without a break in them. *)
Definition one_line (s : pystr) : Prop := Forall (λ c, is_line_break c = false) s.

Lemma splitlines_from_line cur l s :
  one_line l → splitlines_from cur (l ++ 10%N :: s) = (reverse cur ++ l) :: splitlines_from [] s.
Proof.
  intros Hl. revert cur. induction Hl as [|c l Hc _ IH]; intros cur.
  - by rewrite app_nil_r.
  - cbn [app splitlines_from]. rewrite Hc, IH. by rewrite reverse_cons, <-app_assoc.
Qed.
Lemma splitlines_lines ls : Forall one_line ls → splitlines (ls ≫= λ l, l ++ [10%N]) = ls.
Proof.
  intros Hls. unfold splitlines. induction Hls as [|l ls Hl _ IH]; [done|].
  rewrite bind_cons, <-app_assoc. cbn [app]. rewrite splitlines_from_line by done. by rewrite IH.
Qed.

Lemma line_break_space c : is_line_break c = true → is_space c = true.
Proof.
  intros Hc. assert (c ∈ [10; 11; 12; 13; 28; 29; 30; 133; 8232; 8233]%N) as Hin.
  { unfold is_line_break in Hc. rewrite !elem_of_cons. lia. }
  assert (Forall (λ c, is_space c = true) [10; 11; 12; 13; 28; 29; 30; 133; 8232; 8233]%N) as Hall by compute_it.
  rewrite Forall_forall in Hall. auto.
Qed.

(** A key has no space, [=] or [#]; a value no quote or line break. *)
Definition key_char (c : N) : bool := negb (is_space c) && negb (c =? 61)%N && negb (c =? 35)%N.
Definition value_char (c : N) : bool := negb (is_line_break c) && negb (c =? 34)%N.
Definition assignment_ok (kv : pystr * pystr) : Prop :=
  kv.1 ≠ [] ∧ Forall (λ c, key_char c = true) kv.1 ∧ Forall (λ c, value_char c = true) kv.2.
(** [KEY="value"] *)
Definition assignment (kv : pystr * pystr) : pystr := kv.1 ++ 61%N :: 34%N :: kv.2 ++ [34%N].

Lemma assignment_one_line kv : assignment_ok kv → one_line (assignment kv).
Proof.
  intros (_ & Hk & Hv). unfold one_line, assignment. apply Forall_app. split.
  - eapply Forall_impl; [exact Hk|]. intros c Hc. destruct (is_line_break c) eqn:Hb; [|done].
    apply line_break_space in Hb. unfold key_char in Hc. by rewrite Hb in Hc.
  - constructor; [done|]. constructor; [done|]. apply Forall_app. split; [|by constructor].
    eapply Forall_impl; [exact Hv|]. intros c Hc. unfold value_char in Hc.
    by apply andb_true_iff in Hc as [?%negb_true_iff _].
Qed.
Lemma split_once_app sep a b : sep ∉ a → split_once sep (a ++ sep :: b) = Some (a, b).
Proof.
  induction a as [|c a IH]; intros Ha; cbn [app split_once].
  - by rewrite N.eqb_refl.
  - destruct (N.eqb_spec c sep) as [->|Hne]; [set_solver|]. by rewrite IH by set_solver.
Qed.
Lemma head_last_not f s x t : s = x :: t → f x = false → (∀ c r, s = r ++ [c] → f c = false) →
  strip_by f s = s.
Proof. intros -> Hx Hl. apply strip_by_id; [by intros c r [= <- <-]|done]. Qed.

Lemma strip_quoted v : strip (34%N :: v ++ [34%N]) = 34%N :: v ++ [34%N].
Proof.
  apply (head_last_not _ _ 34%N (v ++ [34%N])); [done|compute_it|].
  intros c r Hc. rewrite app_comm_cons in Hc. apply app_inj_tail in Hc as [_ <-]. compute_it.
Qed.
Lemma unquote v : Forall (λ c, value_char c = true) v → strip_by (N.eqb 34) (34%N :: v ++ [34%N]) = v.
Proof.
  intros Hv. rewrite strip_by_cons, strip_by_snoc by done. apply strip_by_all.
  eapply Forall_impl; [exact Hv|]. intros c Hc. unfold value_char in Hc. cbn beta. lia.
Qed.

Lemma os_release_assignment d kv :
  assignment_ok kv → os_release_line d (assignment kv) = dict_set kv.1 (JStr kv.2) d.
Proof.
  destruct kv as [k v]. intros (Hne & Hk & Hv). cbn [fst snd] in *. unfold os_release_line, assignment.
  cbn [fst snd]. destruct k as [|x k]; [done|].
  assert (Forall (λ c, is_space c = false) (x :: k)) as Hsp.
  { eapply Forall_impl; [exact Hk|]. intros c Hc. unfold key_char in Hc. cbn beta. destruct (is_space c); done. }
  assert (strip ((x :: k) ++ 61%N :: 34%N :: v ++ [34%N]) = (x :: k) ++ 61%N :: 34%N :: v ++ [34%N]) as ->.
  { apply (head_last_not _ _ x (k ++ 61%N :: 34%N :: v ++ [34%N])); [done|by inversion Hsp|].
    intros c r Hc. change (34%N :: v ++ [34%N]) with ((34%N :: v) ++ [34%N]) in Hc.
    rewrite app_comm_cons, app_assoc in Hc. apply app_inj_tail in Hc as [_ <-]. compute_it. }
  assert (key_char x = true) as Hx by (by inversion Hk).
  assert (startswith (u "#") ((x :: k) ++ 61%N :: 34%N :: v ++ [34%N]) = false) as Hhash.
  { unfold startswith. apply bool_decide_eq_false. cbn [app u]. unfold key_char in Hx.
    change (u "#") with [35%N]. cbn [drop_prefix]. destruct (N.eqb_spec 35 x) as [<-|]; [done|].
    by intros [y Hy]. }
  cbn [app] in Hhash |- *. rewrite Hhash. rewrite (app_comm_cons k).
  rewrite split_once_app.
  - rewrite strip_quoted, unquote by done. unfold strip. by rewrite (strip_by_all is_space (x :: k)).
  - intros Hin. rewrite Forall_forall in Hk. apply Hk in Hin. done.
Qed.

Section osrelease.
Context `{Host}.

Lemma fold_set kvs d :
  Forall assignment_ok kvs → NoDup (map fst kvs) → (∀ k, k ∈ map fst kvs → k ∉ map fst d) →
  fold_left os_release_line (map assignment kvs) d = d ++ map (λ kv, (kv.1, JStr kv.2)) kvs.
Proof.
  intros Hok. revert d. induction Hok as [|kv kvs Hkv Hok IH]; intros d Hn Hd; [by rewrite app_nil_r|].
  cbn [map fold_left]. rewrite os_release_assignment, dict_set_fresh by (try done; apply Hd; left).
  cbn [map] in Hn. apply NoDup_cons in Hn as [Hk Hn].
  rewrite IH; [by rewrite <-app_assoc|done|].
  intros k Hin. rewrite map_app, elem_of_app. cbn [map]. rewrite list_elem_of_singleton.
  intros [Hkd | ->]; [|done]. apply (Hd k); [by right|done].
Qed.

(** an os-release file of assignments [KEY="value"], one per line with
    distinct keys, is read back as exactly those keys and values, in order. *)
Theorem read_os_release_round_trip kvs :
  kvs ≠ [] → Forall assignment_ok kvs → NoDup (map fst kvs) →
  host_text (u "/etc/os-release") = Some (kvs ≫= λ kv, assignment kv ++ [10%N]) →
  _read_os_release = map (λ kv, (kv.1, JStr kv.2)) kvs.
Proof.
  intros Hne Hok Hn Hf. unfold _read_os_release, _read_text. rewrite Hf.
  assert (∃ c s, (kvs ≫= λ kv, assignment kv ++ [10%N]) = c :: s) as (c & s & Hs).
  { destruct kvs as [|[[|x k] v] kvs]; [done| |by do 2 eexists]. by do 2 eexists. }
  rewrite Hs, <-Hs.
  replace (kvs ≫= λ kv, assignment kv ++ [10%N]) with (map assignment kvs ≫= λ l, l ++ [10%N])
    by (clear; induction kvs as [|kv kvs IH]; [done|]; cbn [map]; by rewrite !bind_cons, IH).
  rewrite splitlines_lines, fold_set; try done.
  - intros k _. apply not_elem_of_nil.
  - apply Forall_map. eapply Forall_impl; [exact Hok|]. apply assignment_one_line.
Qed.
End osrelease.
