(* ===== verification/TruthDemo.v ===== *)
(** * A concrete host

    A host and a clock on which the theorems about truth surfaces and deltas
    are applied: two surfaces are emitted, a delta between them is built and
    read back. *)
From S2P Require Import Prelude PyStr PyJson PyJsonRoundtrip PyJsonStrings PyDict Errors PyOps.
From S2P Require Import World Sha256 Canon CanonFacts Seal Host DocFacts DeltaSurface DeltaSpec DeltaDocs.
From S2P Require Import TruthSurface TruthDocs OsRelease.

(** The files of a checkout the tools import. *)
Definition checkout_files (root : path) : list path := map (app root) [
  [u "tools"; u "__init__.py"]; [u "tools"; u "sourceos_gate_egress.py"];
  [u "tools"; u "sourceos_truth_surface.py"]; [u "tools"; u "sourceos_delta_surface.py"];
  [u "src"; u "sourceos_gate"; u "__init__.py"]; [u "src"; u "sourceos_gate"; u "egress.py"];
  [u "src"; u "sourceos_gate"; u "errors.py"]].

#[export] Instance demo_env : Env unit := {|
  clock n := (1700000000 + Z.of_nat n)%Z;
  spawn _ _ k := (k, Err (u "no programs here"))
|}.
Definition demo_release : list (pystr * pystr) := [(u "ID", u "sourceos"); (u "NAME", u "Source OS")].
#[export] Instance demo_host : Host := {|
  uname := {| un_system := u "Linux"; un_node := u "host"; un_release := u "6.1"; un_version := u "1";
              un_machine := u "x86_64"; un_processor := [] |};
  uuid_hex n := u "0123456789abcdef";
  host_text p := if decide (p = u "/etc/os-release")
                 then Some (demo_release ≫= λ kv, assignment kv ++ [10%N]) else None;
  host_bytes p := if decide (p = u "/boot/vmlinuz") then Some [1; 2; 3]%N else None;
  host_exists p := bool_decide (p = u "/sys/kernel/security" ∨ p ∈ map posix (checkout_files [u "repo"]));
  host_is_dir p := bool_decide (p = u "/repo/src")
|}.
Lemma demo_uuid n : line_ok (uuid_hex n).
Proof. by apply line_ok_lit. Qed.
#[export] Instance demo_text : HostText.
Proof.
  split.
  - apply demo_uuid.
  - compute_it.
  - intros p s. simpl. case_decide; [|done]. intros [= <-]. compute_it.
Qed.

Definition world0 (f : gmap path pystr) : World unit :=
  {| w_db := None; w_fs := f; w_kernel := tt; w_euid := 1000; w_tick := 0 |}.

(** ** Surfaces *)

Definition surface_args (id created : option pystr) (present : list pystr) : SurfaceArgs := {|
  s_plane := u "system.sealed"; s_spec_version := u "2.0.0"; s_id := id; s_created_at := created;
  s_signer := u "s"; s_policy_pack_digest := None; s_risk_score := 0; s_risk_threshold := 30;
  s_human_approval_required := false; s_human_approved := false;
  s_evidence_required := [u "policy_decision"; u "logs"; []]; s_evidence_present := present;
  s_policy_decision_ref := []; s_capability_token_id := []; s_run_record_ref := []; s_provenance_ref := [];
  s_telemetry_ref := []; s_evidence_bundle_ref := []; s_cairn_before_ref := None; s_cairn_after_ref := None;
  s_anchor := []; s_topic := [u "boot.integrity"]; s_glossary_ref := [];
  s_extra_hash_path := [u "/boot/vmlinuz"; u "/missing"] |}.
Definition fresh_args : SurfaceArgs := surface_args None None [u "logs"].
Definition replay_args : SurfaceArgs :=
  surface_args (Some (u "urn:srcos:truth-surface:ts_demo")) (Some (u "2026-01-01T00:00:00Z")) [u "logs"].

Lemma opt_text_lit s : text_ok s → opt_text (Some s).
Proof. by intros Hs t [= <-]. Qed.
Lemma demo_args_text id created present :
  opt_text id → opt_text created → Forall text_ok present → args_text (surface_args id created present).
Proof.
  intros Hi Hc Hp. split; cbn [surface_args s_plane s_spec_version s_signer s_id s_created_at
    s_policy_pack_digest s_cairn_before_ref s_cairn_after_ref s_evidence_required s_evidence_present
    s_policy_decision_ref s_capability_token_id s_run_record_ref s_provenance_ref s_telemetry_ref
    s_evidence_bundle_ref s_anchor s_topic s_glossary_ref].
  - compute_it.
  - repeat constructor; try done; by intros s.
  - repeat constructor; try done; compute_it.
Qed.
Lemma fresh_args_text : args_text fresh_args.
Proof. apply demo_args_text; [by intros s|by intros s|compute_it]. Qed.
Lemma replay_args_text : args_text replay_args.
Proof. apply demo_args_text; [apply opt_text_lit; compute_it..|compute_it]. Qed.

Lemma read_os_release_round_trip_witness :
  _read_os_release = [(u "ID", JStr (u "sourceos")); (u "NAME", JStr (u "Source OS"))].
Proof. apply (read_os_release_round_trip demo_release); [done|compute_it|compute_it|reflexivity]. Defined.

Lemma build_surface_total_witness :
  ∃ w' d, build_surface fresh_args (world0 ∅) = (w', Ok d) ∧
    seal_ok (concat (extra_blobs fresh_args)) d = true ∧ no_nulls (JDict d) = true.
Proof. apply (build_surface_total fresh_args (world0 ∅)), fresh_args_text. Defined.

Lemma surface_gate_witness :
  ∃ w' r x, TruthSurface.main fresh_args {| o_out := Some [u "ts.json"]; o_store_root := None |} (world0 ∅)
              = (w', Ok r) ∧
    _read_json [u "ts.json"] w' = (w', Ok x) ∧
    ∀ from_ts dargs, compute_gate from_ts x dargs = Ok (abs_gate (view_of fresh_args)).
Proof. apply (surface_gate fresh_args [u "ts.json"] None (world0 ∅)), fresh_args_text. Defined.

Lemma build_surface_replays_witness :
  (build_surface replay_args (world0 ∅)).1 = world0 ∅ ∧
  (build_surface replay_args (world0 ∅)).2 = (build_surface replay_args (tick (world0 ∅))).2.
Proof. apply (build_surface_replays replay_args (world0 ∅) (tick (world0 ∅))); reflexivity. Defined.

(** ** Deltas *)

Definition ts0 : json := JDict [(u "id", JStr (u "ts0"))].
Definition ts1 : json := sort_keys (JDict (demo_surface [u "logs"] 40)).
Definition stored : gmap path pystr :=
  <[[u "ts0.json"] := pretty ts0]> (<[[u "ts1.json"] := pretty ts1]> ∅).

Definition delta_run := build_delta ts0 ts1 demo_args (world0 stored).
Definition delta_doc : dict := match delta_run.2 with Ok d => d | Err _ => [] end.
Lemma delta_run_ok : delta_run = (delta_run.1, Ok delta_doc).
Proof.
  assert (is_ok delta_run.2 = true) as Hok by (lazy; reflexivity).
  unfold delta_doc. destruct delta_run as [w' [d|e]]; done.
Qed.
Lemma demo_args_ok : args_ok demo_args.
Proof. split; reflexivity || exact I. Qed.

Lemma build_delta_sealed_witness :
  seal_ok [] delta_doc = true ∧ no_nulls (JDict delta_doc) = true ∧
  ∃ g, compute_gate ts0 ts1 demo_args = Ok g ∧
       dict_get (u "gate") delta_doc = Some (drop_nulls (JDict (gate_json g))).
Proof. apply (build_delta_sealed ts0 ts1 demo_args (world0 stored) delta_run.1), delta_run_ok. Defined.

Lemma build_delta_commits_witness :
  jeq (JDict (unsigned delta_doc)) (JDict (unsigned delta_doc)) = true ∨
  ∃ b c, preimage delta_doc = Ok b ∧ preimage delta_doc = Ok c ∧ collision b c.
Proof.
  apply (build_delta_commits ts0 ts1 demo_args ts0 ts1 demo_args
    (world0 stored) delta_run.1 (world0 stored) delta_run.1);
    try exact demo_uuid; try exact demo_args_ok; try exact delta_run_ok; reflexivity.
Defined.

Definition main_run :=
  DeltaSurface.main [u "ts0.json"] [u "ts1.json"] demo_args
    {| o_out := Some [u "delta.json"]; o_store_root := None |} (world0 stored).
Lemma main_run_ok : main_run = (main_run.1, Ok (0%Z, [])).
Proof.
  unfold main_run, DeltaSurface.main. rewrite !run_bind, !run_read_json.
  assert (w_fs (world0 stored) !! [u "ts0.json"] = Some (pretty ts0)) as -> by reflexivity.
  assert (py_loads (pretty ts0) = Ok ts0) as -> by (vm_compute; reflexivity).
  rewrite !run_bind, !run_read_json.
  assert (w_fs (world0 stored) !! [u "ts1.json"] = Some (pretty ts1)) as -> by reflexivity.
  assert (py_loads (pretty ts1) = Ok ts1) as -> by (vm_compute; reflexivity).
  rewrite !run_bind. fold delta_run. rewrite delta_run_ok. cbn [o_out fst]. by rewrite !run_bind, run_write_json.
Qed.
Lemma main_out_verifies_witness :
  ∃ d, (∃ from_ts to_ts w1, build_delta from_ts to_ts demo_args (world0 stored) = (w1, Ok d)) ∧
       _read_json [u "delta.json"] main_run.1 = (main_run.1, Ok (JDict (sorted_items d))) ∧
       seal_ok [] (sorted_items d) = true ∧ jeq (JDict (sorted_items d)) (JDict d) = true.
Proof.
  apply (main_out_verifies [u "ts0.json"] [u "ts1.json"] demo_args [u "delta.json"] None
    (world0 stored) main_run.1 (0%Z, [])); [exact demo_uuid|exact demo_args_ok| |exact main_run_ok].
  intros q j [-> | ->]; rewrite run_read_json; intros [= <-]; vm_compute; reflexivity.
Defined.
