(* ===== verification/Tick.v ===== *)
(** * The truth-plane tick (src/tools/sourceos_truth_plane_tick.py)

    The program a systemd timer runs: import its siblings, initialise the store,
    emit a surface, compare the latest two, update the LATEST pointer.  A
    directory exists when some file of the world lies under it. *)
From S2P Require Import Prelude PyStr PyJson Errors PyOps World Canon Host DeltaSurface.
From S2P Require Import TruthSurface.

Record TickArgs := {
  t_store_root : path; t_plane : pystr; t_id_suffix : option pystr; t_policy_pack_digest : option pystr;
  t_evidence_required : list pystr; t_evidence_present : list pystr
}.

(** ** Modules *)

(** The names bound at the top level of tools/sourceos_gate_egress.py, which
    the program imports as [gate]. *)
Definition gate_module : list pystr :=
  [u "annotations"; u "argparse"; u "sys"; u "Path"; u "REPO_ROOT"; u "SRC_DIR"; u "EgressGate";
   u "GateError"; u "main"].
(** [module.attr] *)
Definition module_attr (name : pystr) (names : list pystr) (attr : pystr) : pyres unit :=
  if decide (attr ∈ names) then Ok tt
  else Err (Exn AttributeError (u "module '" ++ name ++ u "' has no attribute '" ++ attr ++ u "'")).

Section imports.
Context `{Host}.
(** [from tools import sourceos_gate_egress] runs the module, which imports
    [EgressGate] and [GateError] from <root>/src; the directory [tools] is in. *)
Definition import_gate_tool (l : Launch) : pyres path :=
  root ← import_package (u "tools") (l_path l);
  import_from root (u "tools") (u "sourceos_gate_egress") ≫= λ _,
  d ← import_package (u "sourceos_gate") (add_src root (l_path l));
  import_module d (u "sourceos_gate") (u "egress") ≫= λ _,
  import_module d (u "sourceos_gate") (u "errors") ≫= λ _,
  Ok root.
(** The three imports of the program, before [main] is defined. *)
Definition tick_imports (l : Launch) : pyres unit :=
  root ← import_gate_tool l;
  import_from root (u "tools") (u "sourceos_truth_surface") ≫= λ _,
  import_from root (u "tools") (u "sourceos_delta_surface").
End imports.

(** ** Directories *)

(** The name of the directory right under [base] that [p] lies in. *)
Definition child_dir (base p : path) : option pystr :=
  if decide (take (length base) p = base) then
    match drop (length base) p with c :: _ :: _ => Some c | _ => None end
  else None.
Definition dir_names (f : gmap path pystr) (base : path) : list pystr :=
  sorted_set (list_to_set (omap (child_dir base) (map fst (map_to_list f)))).

Definition surfaces_dir (root : path) (plane : pystr) : path := root ++ [u "truth"; u "surfaces"; plane].
Definition _list_surface_dirs (f : gmap path pystr) (root : path) (plane : pystr) : list path :=
  map (λ c, surfaces_dir root plane ++ [c]) (dir_names f (surfaces_dir root plane)).
Definition _latest_two_surfaces (f : gmap path pystr) (root : path) (plane : pystr) : option (path * path) :=
  match reverse (_list_surface_dirs f root plane) with
  | b :: a :: _ =>
      let pa := a ++ [u "truth-surface.json"] in
      let pb := b ++ [u "truth-surface.json"] in
      if decide (is_Some (f !! pa) ∧ is_Some (f !! pb)) then Some (pa, pb) else None
  | _ => None
  end.

(** ** The pipeline *)

Definition tick_surface_args (args : TickArgs) : SurfaceArgs := {|
  s_plane := t_plane args; s_spec_version := u "2.0.0";
  s_id := (if opt_truthy (t_id_suffix args)
           then Some (lower (u "urn:srcos:truth-surface:ts_" ++ opt_or (t_id_suffix args) [])) else None);
  s_created_at := None; s_signer := u "sourceos-truth-surface";
  s_policy_pack_digest := t_policy_pack_digest args;
  s_risk_score := 0; s_risk_threshold := 30;
  s_human_approval_required := false; s_human_approved := false;
  s_evidence_required := t_evidence_required args; s_evidence_present := t_evidence_present args;
  s_policy_decision_ref := []; s_capability_token_id := []; s_run_record_ref := []; s_provenance_ref := [];
  s_telemetry_ref := []; s_evidence_bundle_ref := []; s_cairn_before_ref := None; s_cairn_after_ref := None;
  s_anchor := []; s_topic := [u "boot.integrity"]; s_glossary_ref := []; s_extra_hash_path := [] |}.
Definition tick_delta_args (args : TickArgs) : DeltaArgs := {|
  d_spec_version := u "2.0.0";
  d_id := (if opt_truthy (t_id_suffix args)
           then Some (lower (u "urn:srcos:delta-surface:ds_" ++ opt_or (t_id_suffix args) [])) else None);
  d_created_at := None; d_signer := u "sourceos-delta-surface"; d_from_ref := None; d_to_ref := None;
  d_risk_score := 0; d_risk_threshold := 30;
  d_human_approval_required := false; d_human_approved := false |}.

Section tick.
Context {K : Type} `{Env K} `{Host}.

Definition emit_surface (args : TickArgs) : W K dict :=
  surface ← build_surface (tick_surface_args args);
  created ← lift (stamp_of surface);
  _write_json (path_join (surfaces_dir (t_store_root args) (t_plane args)) created ++ [u "truth-surface.json"])
    (JDict surface) ;;
  mret surface.

Definition emit_delta (args : TickArgs) (pa pb : path) : W K unit :=
  from_ts ← _read_json pa;
  to_ts ← _read_json pb;
  delta ← build_delta from_ts to_ts (tick_delta_args args);
  created ← lift (stamp_of delta);
  _write_json (path_join (t_store_root args ++ [u "truth"; u "deltas"; t_plane args]) created
               ++ [u "delta-surface.json"]) (JDict delta).

Definition latest_path (args : TickArgs) : path :=
  surfaces_dir (t_store_root args) (t_plane args) ++ [u "LATEST"; u "truth-surface.json"].

(** [main] after [gate.init_store(root)], the call that fails: no run gets here. *)
Definition tick_pipeline (args : TickArgs) : W K Z :=
  surface ← emit_surface args;
  f ← gets w_fs;
  match _latest_two_surfaces f (t_store_root args) (t_plane args) with
  | Some (pa, pb) => emit_delta args pa pb
  | None => mret tt
  end ;;
  _write_json (latest_path args) (JDict surface) ;;
  mret 0%Z.

(** [main], called once the imports have succeeded.  The attribute [init_store]
    is looked up before it is called; there is none to call. *)
Definition main (args : TickArgs) : W K Z :=
  lift (module_attr (u "tools.sourceos_gate_egress") gate_module (u "init_store")) ;;
  tick_pipeline args.
End tick.
