(* ===== verification/TickFacts.v ===== *)
(** * What the tick compares

    The pointer directory LATEST sorts after every time stamp, so "the latest
    two" surfaces of a second tick are the one just written and LATEST, in this
    order: the delta goes from the new surface to the previous one.  Without
    LATEST they would be the two newest. *)
From S2P Require Import Prelude PyStr PyJson PyJsonRoundtrip PyJsonStrings PyDict Errors PyOps.
From S2P Require Import TimeUtil World Canon TimeFacts CanonFacts Seal Host DocFacts.
From S2P Require Import EgressFacts.
From S2P Require Import DeltaSurface TruthSurface TruthDocs Tick.

(** ** The directory of a stamp *)

Lemma stamp_le_latest s : stamp_ok s → str_le s (u "LATEST") ∧ s ≠ u "LATEST".
Proof.
  intros [_ (c & t & -> & Hc)]. unfold is_ascii_digit in Hc. split.
  - unfold str_le. change (u "LATEST") with (76 :: u "ATEST")%N. cbn [str_leb].
    destruct (N.eqb_spec c 76); [lia|]. apply N.ltb_lt. lia.
  - intros [= -> _]. lia.
Qed.
Lemma stamp_path base s : stamp_ok s → path_join base s = base ++ [s].
Proof.
  intros [Hs (c & t & -> & Hc)]. unfold path_join, path_parts.
  assert (startswith (u "/") (c :: t) = false) as ->.
  { unfold startswith. apply bool_decide_eq_false. change (u "/") with [47%N]. cbn [drop_prefix].
    destruct (N.eqb_spec 47 c) as [<-|]; [by unfold is_ascii_digit in Hc; lia|]. by intros [? ?]. }
  pose proof (split_join 47 [c :: t]) as Hsp. rewrite join_one in Hsp. rewrite Hsp; [|done|].
  - rewrite filter_cons_True; [done|]. split; [done|]. intros [= -> _]. unfold is_ascii_digit in Hc. lia.
  - constructor; [|constructor]. intros Hin. rewrite Forall_forall in Hs.
    destruct (Hs _ Hin) as [Hd|[?|?]]; [unfold is_ascii_digit in Hd; lia|done|done].
Qed.

(** ** The latest two *)

(** The last two names of a set whose greatest elements are [a] and [b]. *)
Lemma sorted_set_last (X : gset pystr) a b :
  a ∈ X → b ∈ X → a ≠ b → str_le a b → (∀ x, x ∈ X → x ≠ b → str_le x a) →
  ∃ l, reverse (sorted_set X) = b :: a :: l.
Proof.
  intros Ha Hb Hab Hle Hmax.
  assert (sorted_set X = sorted_set (X ∖ {[a; b]}) ++ [a; b]) as ->.
  { apply (StronglySorted_unique str_le); [apply sorted_Sorted| |].
    - apply StronglySorted_app_2; [|apply sorted_Sorted|].
      + intros x y Hx Hy. rewrite elem_of_sorted_set in Hx.
        assert (str_le x a) as Hxa by (apply Hmax; set_solver).
        apply elem_of_cons in Hy as [->|Hy]; [done|]. apply list_elem_of_singleton in Hy as ->. by etrans.
      + constructor; [by repeat constructor|by constructor].
    - apply NoDup_Permutation; [apply NoDup_sorted_set| |].
      + apply NoDup_app. split; [apply NoDup_sorted_set|]. split.
        * intros x. rewrite elem_of_sorted_set. set_solver.
        * apply NoDup_cons. split; [set_solver|apply NoDup_singleton].
      + intros x. rewrite elem_of_app, !elem_of_sorted_set, !elem_of_cons, elem_of_nil.
        destruct (decide (x = a)), (decide (x = b)); set_solver. }
  eexists. by rewrite reverse_app.
Qed.

Lemma elem_of_dir_names f base c :
  c ∈ dir_names f base ↔ ∃ d q, is_Some (f !! (base ++ c :: d :: q)).
Proof.
  unfold dir_names. rewrite elem_of_sorted_set, elem_of_list_to_set, list_elem_of_omap. split.
  - intros (p & Hp & Hc). apply list_elem_of_fmap in Hp as ([p' s] & -> & Hin%elem_of_map_to_list).
    simpl in *. unfold child_dir in Hc. case_decide as Ht; [|done].
    destruct (drop (length base) p') as [|c' [|d q]] eqn:Hd; simplify_eq. exists d, q.
    rewrite <-Ht, <-Hd, take_drop. eauto.
  - intros (d & q & s & Hs). exists (base ++ c :: d :: q). split.
    + apply list_elem_of_fmap. exists (base ++ c :: d :: q, s). split; [done|]. by apply elem_of_map_to_list.
    + unfold child_dir. rewrite take_app_length, drop_app_length. by rewrite decide_True.
Qed.

Definition surface_file (base : path) (c : pystr) : path := base ++ [c; u "truth-surface.json"].

Lemma latest_two_max f root plane a b :
  is_Some (f !! surface_file (surfaces_dir root plane) a) →
  is_Some (f !! surface_file (surfaces_dir root plane) b) →
  a ≠ b → str_le a b → (∀ c, c ∈ dir_names f (surfaces_dir root plane) → c ≠ b → str_le c a) →
  _latest_two_surfaces f root plane =
    Some (surface_file (surfaces_dir root plane) a, surface_file (surfaces_dir root plane) b).
Proof.
  set (base := surfaces_dir root plane). intros Ha Hb Hab Hle Hmax.
  assert (∀ c, is_Some (f !! surface_file base c) → c ∈ dir_names f base) as Hdir.
  { intros c Hc. apply elem_of_dir_names. by exists (u "truth-surface.json"), []. }
  unfold _latest_two_surfaces, _list_surface_dirs. fold base.
  assert (∃ l, reverse (dir_names f base) = b :: a :: l) as [l Hlast].
  { unfold dir_names in Hmax, Hdir |- *. apply sorted_set_last; [| |done|done|].
    - apply elem_of_sorted_set. by apply Hdir.
    - apply elem_of_sorted_set. by apply Hdir.
    - intros x Hx Hxl. apply Hmax; [by apply elem_of_sorted_set|done]. }
  change (reverse (map ?g ?k)) with (reverse (g <$> k)). rewrite <-fmap_reverse, Hlast.
  cbn [fmap list_fmap]. rewrite <-!app_assoc. cbn [app].
  fold (surface_file base a) (surface_file base b). by rewrite decide_True.
Qed.

(** The directory of the surface created at [t]. *)
Definition stamp (t : Z) : pystr := compact_stamp (iso_utc t).

(** C32: where the directories of the plane are time stamps, the two surfaces
    taken are the two newest, the older one first: names are compared as
    strings, which for four-digit years is the order of time. *)
Theorem latest_two_newest f root plane a b :
  four_digit_year a → four_digit_year b → (a < b)%Z →
  is_Some (f !! surface_file (surfaces_dir root plane) (stamp a)) →
  is_Some (f !! surface_file (surfaces_dir root plane) (stamp b)) →
  (∀ c, c ∈ dir_names f (surfaces_dir root plane) →
        ∃ t, four_digit_year t ∧ c = stamp t ∧ (t ≤ a ∨ t = b)%Z) →
  _latest_two_surfaces f root plane =
    Some (surface_file (surfaces_dir root plane) (stamp a), surface_file (surfaces_dir root plane) (stamp b)).
Proof.
  intros Ha Hb Hab Hfa Hfb Hdirs. apply latest_two_max; [done|done| | |].
  - intros Heq%stamp_inj; [lia|done..].
  - apply stamp_le; [done..|lia].
  - intros c Hc Hcb. destruct (Hdirs c Hc) as (t & Ht & -> & [Hta| ->]); [by apply stamp_le|done].
Qed.

(** ** Two ticks *)

Section tick.
Context {K : Type} `{Env K} `{Hh : Host, !HostText}.

Lemma surface_file_path root plane s :
  stamp_ok s → path_join (surfaces_dir root plane) s ++ [u "truth-surface.json"]
               = surface_file (surfaces_dir root plane) s.
Proof. intros Hs. rewrite stamp_path by done. unfold surface_file. by rewrite <-app_assoc. Qed.

Lemma run_emit_surface args (w : World K) :
  args_text (tick_surface_args args) →
  ∃ w1 d s, stamp_ok s ∧ (∃ n, w_tick w ≤ n ∧ s = compact_stamp (iso_utc (clock n))) ∧ wf (JDict d) ∧ w_fs w1 = w_fs w ∧
    (∀ dargs, DeltaSpec.view (sorted_items d) dargs = Some (view_of (tick_surface_args args))) ∧
    emit_surface args w = (set_fs (<[surface_file (surfaces_dir (t_store_root args) (t_plane args)) s
                                     := pretty (JDict d) ++ [10%N]]> (w_fs w)) w1, Ok d).
Proof.
  intros Ha. destruct (run_build_surface _ w Ha) as (w1 & id & created & b & _ & Hf & Hc & Hcl & _ & Hr).
  destruct (Hc eq_refl) as (n & Hn & ->). set (t := clock n) in *.
  set (d := sealed _ _ _) in Hr. exists w1, d, (compact_stamp (iso_utc t)).
  pose proof (iso_stamp_ok t) as Hok. split; [done|]. split; [by eauto|]. split; [by apply sealed_wf, clean_wf|].
  split; [done|]. split; [intros dargs; apply surface_view|].
  unfold emit_surface. rewrite run_bind, Hr.
  assert (stamp_of d = Ok (compact_stamp (iso_utc t))) as Hst.
  { unfold stamp_of, py_item, d. rewrite sealed_get_raw by (done || compute_it). reflexivity. }
  rewrite Hst, bind_lift_ok, run_bind, surface_file_path, run_write_json by done. by rewrite Hf.
Qed.

(** The rest of [main], which no run reaches today, would build its delta
    backwards: when LATEST holds a file and the other directories of the plane
    are earlier time stamps, it writes the new surface and then builds the delta
    *from* it *to* LATEST. *)
Theorem tick_delta_backwards args (w : World K) old :
  args_text (tick_surface_args args) →
  w_fs w !! latest_path args = Some old →
  (∀ c n, c ∈ dir_names (w_fs w) (surfaces_dir (t_store_root args) (t_plane args)) → c ≠ u "LATEST" →
          w_tick w ≤ n → str_le c (compact_stamp (iso_utc (clock n)))) →
  ∃ w1 d new, emit_surface args w = (w1, Ok d) ∧
    _read_json new w1 = (w1, Ok (JDict (sorted_items d))) ∧ w_fs w1 !! latest_path args = Some old ∧
    tick_pipeline args w =
      (emit_delta args new (latest_path args) ;; _write_json (latest_path args) (JDict d) ;; mret 0%Z) w1.
Proof.
  intros Ha Hold Hmax. destruct (run_emit_surface args w Ha) as (w1 & d & s & Hs & (n & Hn & Hsn) & Hd & Hf & _ & He).
  set (base := surfaces_dir (t_store_root args) (t_plane args)) in *.
  assert (latest_path args = surface_file base (u "LATEST")) as Hlp by done.
  pose proof (stamp_le_latest s Hs) as [_ Hne].
  assert (surface_file base s ≠ latest_path args) as Hneq.
  { rewrite Hlp. unfold surface_file. intros [= ?]%(inj (app base)). done. }
  set (f1 := <[surface_file base s := pretty (JDict d) ++ [10%N]]> (w_fs w)) in *.
  assert (f1 !! latest_path args = Some old) as Hold1 by (unfold f1; by rewrite lookup_insert_ne).
  exists (set_fs f1 w1), d, (surface_file base s). split; [done|]. split; [|split; [done|]].
  { apply (read_back _ (JDict d)); [done|]. simpl. apply lookup_insert_eq. }
  unfold tick_pipeline. rewrite run_bind, He.
  assert (_latest_two_surfaces f1 (t_store_root args) (t_plane args)
          = Some (surface_file base s, latest_path args)) as Hlast.
  { rewrite Hlp. destruct (stamp_le_latest s Hs) as [Hsl _].
    apply latest_two_max; [|eexists; exact Hold1|done|done|].
    - unfold f1. fold base. by rewrite lookup_insert_eq.
    - intros c (c' & q & Hc)%elem_of_dir_names Hcl. unfold f1 in Hc.
      destruct (decide (surface_file base s = base ++ c :: c' :: q)) as [Heq|Hcn].
      + apply (inj (app base)) in Heq as [= -> _ _]. destruct (total str_le c c); done.
      + rewrite lookup_insert_ne in Hc by done. rewrite Hsn. apply Hmax; [|done|done].
        apply elem_of_dir_names. eauto. }
  rewrite run_bind. cbn [gets]. unfold gets. cbn [w_fs set_fs]. by rewrite Hlast.
Qed.

(** No tick gets that far: [main] looks up [init_store] in the gate's
    command-line module, which defines no such name, and raises
    [AttributeError] before it has read or written anything. *)
Theorem tick_raises args (w : World K) :
  main args w = (w, Err (Exn AttributeError
    (u "module 'tools.sourceos_gate_egress' has no attribute 'init_store'"))).
Proof. reflexivity. Qed.
End tick.

(** tools/test_nft_json_parse.py takes its parser from the same module, which
    has none (when it is started where that import succeeds). *)
Lemma nft_json_test_raises :
  module_attr (u "tools.sourceos_gate_egress") gate_module (u "parse_nft_set_elements_json")
  = Err (Exn AttributeError
      (u "module 'tools.sourceos_gate_egress' has no attribute 'parse_nft_set_elements_json'")).
Proof. reflexivity. Qed.
