(* ===== verification/Incident.v ===== *)
(** * Incident events (src/tools/sourceos_incident.py)

    [main] emits one event document to a file, to the store, or to the
    terminal. *)
From S2P Require Import Prelude PyStr PyJson PyJsonRoundtrip PyJsonStrings PyDict Errors PyOps.
From S2P Require Import TimeUtil World Canon CanonFacts Seal Host DocFacts EgressFacts.

#[local] Arguments u : simpl never.

(** The [argparse.Namespace] of [main]. *)
Record IncidentArgs := {
  i_event_name : pystr; i_status : pystr; i_event_id : option pystr; i_occurred_at : option pystr;
  i_actor_kind : pystr; i_actor_id : pystr;
  i_run_id : option pystr; i_trace_id : option pystr; i_span_id : option pystr; i_attempt : Z;
  i_truth_surface_ref : option pystr; i_delta_surface_ref : option pystr;
  i_evidence_bundle_ref : option pystr; i_cairn_before_ref : option pystr; i_cairn_after_ref : option pystr
}.

Definition event_refs (args : IncidentArgs) : dict := [
  (u "truth_surface_ref", opt_str (i_truth_surface_ref args));
  (u "delta_surface_ref", opt_str (i_delta_surface_ref args));
  (u "evidence_bundle_ref", opt_str (i_evidence_bundle_ref args));
  (u "cairn_before_ref", opt_str (i_cairn_before_ref args));
  (u "cairn_after_ref", opt_str (i_cairn_after_ref args))].

Definition event_doc (args : IncidentArgs) (event_id occurred_at : pystr) : dict := [
  (u "event_id", JStr event_id);
  (u "event_name", JStr (i_event_name args));
  (u "occurred_at", JStr occurred_at);
  (u "actor", JDict [(u "kind", JStr (i_actor_kind args)); (u "id", JStr (i_actor_id args))]);
  (u "status", JStr (i_status args));
  (u "refs", JDict (event_refs args));
  (u "payload", JDict [(u "notes", JStr (u "v0 event-only emitter; system actions not yet wired"))])].

Definition event_run (args : IncidentArgs) (run_id : pystr) : dict := [
  (u "run_id", JStr run_id);
  (u "trace_id", opt_str (i_trace_id args));
  (u "span_id", opt_str (i_span_id args));
  (u "attempt", JInt (i_attempt args))].

(** [{k: v for k, v in (evt.get("refs") or {}).items() if v is not None}] *)
Definition drop_null_refs (evt : dict) : pyres json :=
  refs ← py_get (JDict evt) (u "refs") JNull;
  match py_or refs (JDict []) with
  | JDict d => Ok (JDict (filter (λ kv, kv.2 ≠ JNull) d))
  | j => no_attr j (u "items")
  end.

Section incident.
Context {K : Type} `{Env K} `{Host}.

Definition _default_event_id : W K pystr := h ← uuid4_hex; mret (u "evt_" ++ h).

Definition build_event (args : IncidentArgs) : W K dict :=
  event_id ← or_else (i_event_id args) _default_event_id;
  occurred_at ← or_else (i_occurred_at args) _utc_now_iso;
  let evt := event_doc args event_id occurred_at in
  evt ← (if opt_truthy (i_run_id args) || opt_truthy (i_trace_id args) || opt_truthy (i_span_id args)
         then run_id ← or_else (i_run_id args) (h ← uuid4_hex; mret (u "run_" ++ h));
              mret (dict_set (u "run") (JDict (event_run args run_id)) evt)
         else mret evt);
  refs ← lift (drop_null_refs evt);
  mret (dict_set (u "refs") refs evt).

(** [evt["occurred_at"].replace(":", "").replace("-", "")] *)
Definition event_stamp (evt : dict) : pyres pystr :=
  v ← py_item evt (u "occurred_at");
  match v with JStr s => Ok (compact_stamp s) | _ => no_attr v (u "replace") end.
Definition event_path (root : path) (args : IncidentArgs) (ts : pystr) : path :=
  path_join (root ++ [u "incidents"; i_event_name args]) ts ++ [u "incident-event.json"].

(** [main] returns its exit status and what it prints. *)
Definition incident_main (args : IncidentArgs) (dest : Output) : W K (Z * pystr) :=
  evt ← build_event args;
  match o_out dest, o_store_root dest with
  | Some out, _ => _write_json out (JDict evt) ;; mret (0%Z, [])
  | None, Some root =>
      ts ← lift (event_stamp evt);
      let out := event_path root args ts in
      _write_json out (JDict evt) ;;
      mret (0%Z, join (u "/") ([] :: out) ++ [10%N])
  | None, None => mret (0%Z, pretty (JDict evt) ++ [10%N])
  end.
End incident.
