(* ===== verification/IncidentFacts.v ===== *)
(** * What an incident event holds, and where it goes

    [incident_main] never fails on text arguments; the stored event reads back;
    and a second event of the same name and time replaces the first. *)
From S2P Require Import Prelude PyStr PyJson PyJsonRoundtrip PyJsonStrings PyDict Errors PyOps.
From S2P Require Import TimeUtil World Canon CanonFacts Seal Host DocFacts EgressFacts TruthDocs.
From S2P Require Import Incident.

#[local] Arguments u : simpl never.

Record incident_text (a : IncidentArgs) : Prop := {
  itext_strings : Forall text_ok [i_event_name a; i_status a; i_actor_kind a; i_actor_id a];
  itext_options : Forall opt_text [i_event_id a; i_occurred_at a; i_run_id a; i_trace_id a; i_span_id a;
    i_truth_surface_ref a; i_delta_surface_ref a; i_evidence_bundle_ref a;
    i_cairn_before_ref a; i_cairn_after_ref a]
}.

(** The references that were given. *)
Definition given_refs (args : IncidentArgs) : dict := filter (λ kv, kv.2 ≠ JNull) (event_refs args).
(** The event, with its optional [run] block. *)
Definition event (args : IncidentArgs) (event_id occurred_at : pystr) (run_id : option pystr) : dict :=
  dict_set (u "refs") (JDict (given_refs args))
    (match run_id with
     | Some r => dict_set (u "run") (JDict (event_run args r)) (event_doc args event_id occurred_at)
     | None => event_doc args event_id occurred_at
     end).

Lemma given_refs_clean args : incident_text args → clean (JDict (given_refs args)) = true.
Proof.
  intros [_ Ho]. split_Forall. assert (clean (JDict (event_refs args)) = true) as Hc
    by (unfold event_refs; clean_lit; by apply clean_opt).
  apply clean_dict in Hc as [Hn Hc]. apply clean_dict. split; [by apply NoDup_map_filter|].
  rewrite Forall_forall in *. intros kv [_ Hkv]%list_elem_of_filter. auto.
Qed.
Lemma event_clean args id at_ run :
  incident_text args → text_ok id → text_ok at_ → (∀ r, run = Some r → text_ok r) →
  clean (JDict (event args id at_ run)) = true.
Proof.
  intros Ha Hid Hat Hrun. apply dict_set_clean; [by apply text_lit|by apply given_refs_clean|].
  pose proof Ha as [Hs Ho]. split_Forall.
  assert (clean (JDict (event_doc args id at_)) = true) as Hd.
  { unfold event_doc, event_refs. clean_lit; try done; try (by apply clean_str); try (by apply clean_opt). }
  destruct run as [r|]; [|done]. apply dict_set_clean; [by apply text_lit| |done].
  unfold event_run. clean_lit; [by apply clean_str, Hrun|by apply clean_opt|by apply clean_opt|done].
Qed.

Section incident.
Context {K : Type} `{Env K} `{Hh : Host, !HostText}.

Lemma run_or_else_text (o : option pystr) (f : W K pystr) w s :
  opt_text o → text_ok s → f w = (tick w, Ok s) →
  ∃ w' r, or_else o f w = (w', Ok r) ∧ text_ok r ∧ w_fs w' = w_fs w ∧
          (opt_truthy o = true → o = Some r).
Proof.
  intros Ho Hs Hf. unfold or_else. destruct o as [[|c t]|]; simpl; try (by exists (tick w), s).
  exists w, (c :: t). split; [done|]. split; [by apply Ho|done].
Qed.
Lemma uuid_text p n : text_ok (u p) → text_ok (u p ++ uuid_hex n).
Proof. intros Hp. apply text_app; [done|]. apply line_text, uuid_line. Qed.

(** [build_event] always returns an event. *)
Lemma run_build_event args (w : World K) :
  incident_text args →
  ∃ w' id at_ run, build_event args w = (w', Ok (event args id at_ run)) ∧
    clean (JDict (event args id at_ run)) = true ∧ w_fs w' = w_fs w ∧
    (opt_truthy (i_occurred_at args) = true → i_occurred_at args = Some at_) ∧
    (opt_truthy (i_event_id args) = true → i_event_id args = Some id).
Proof.
  intros Ha. pose proof Ha as [_ Ho]. split_Forall.
  destruct (run_or_else_text (i_event_id args) _default_event_id w (u "evt_" ++ uuid_hex (w_tick w)))
    as (w1 & id & Hid & Hidt & Hf1 & Hide); [done|apply uuid_text; by apply text_lit|done|].
  destruct (run_or_else_text (i_occurred_at args) _utc_now_iso w1 (iso_utc (clock (w_tick w1))))
    as (w2 & at_ & Hat & Hatt & Hf2 & Hate); [done|apply line_text, iso_utc_line|done|].
  destruct (run_or_else_text (i_run_id args) (h ← uuid4_hex; mret (u "run_" ++ h)) w2
    (u "run_" ++ uuid_hex (w_tick w2)))
    as (w3 & r & Hr & Hrt & Hf3 & _); [done|apply uuid_text; by apply text_lit|done|].
  set (hasrun := opt_truthy (i_run_id args) || opt_truthy (i_trace_id args) || opt_truthy (i_span_id args)).
  exists (if hasrun then w3 else w2), id, at_, (if hasrun then Some r else None). split; [|split; [|split; [|done]]].
  - unfold build_event. rewrite run_bind, Hid, run_bind, Hat. fold hasrun. rewrite run_bind.
    destruct hasrun; [by rewrite run_bind, Hr|done].
  - apply event_clean; [done..|]. destruct hasrun; [by intros ? [= <-]|done].
  - destruct hasrun; congruence.
Qed.

Lemma event_fields args id at_ run :
  dict_get (u "occurred_at") (event args id at_ run) = Some (JStr at_) ∧
  dict_get (u "event_id") (event args id at_ run) = Some (JStr id) ∧
  dict_get (u "refs") (event args id at_ run) = Some (JDict (given_refs args)).
Proof. by destruct run. Qed.

(** What [main --store-root] does. *)
Lemma run_incident_store args root (w : World K) :
  incident_text args →
  ∃ w' id at_ run, clean (JDict (event args id at_ run)) = true ∧ w_fs w' = w_fs w ∧
    (opt_truthy (i_occurred_at args) = true → i_occurred_at args = Some at_) ∧
    (opt_truthy (i_event_id args) = true → i_event_id args = Some id) ∧
    let p := event_path root args (compact_stamp at_) in
    incident_main args {| o_out := None; o_store_root := Some root |} w =
      (set_fs (<[p := pretty (JDict (event args id at_ run)) ++ [10%N]]> (w_fs w)) w',
       Ok (0%Z, join (u "/") ([] :: p) ++ [10%N])).
Proof.
  intros Ha. destruct (run_build_event args w Ha) as (w' & id & at_ & run & Hb & Hc & Hf & Hat & Hid).
  exists w', id, at_, run. split; [done|]. split; [done|]. split; [done|]. split; [done|].
  cbv zeta. unfold incident_main. rewrite run_bind, Hb. cbn [o_out o_store_root].
  assert (event_stamp (event args id at_ run) = Ok (compact_stamp at_)) as ->.
  { unfold event_stamp, py_item. by rewrite (proj1 (event_fields _ _ _ _)). }
  rewrite bind_lift_ok, run_bind, run_write_json. by rewrite Hf.
Qed.

(** [main --store-root] stores exactly one event: on text arguments it
    never fails, changes one file, at the path of the event's name and time,
    which reads back as the event with exactly the references that were given. *)
Theorem incident_stored args root (w : World K) :
  incident_text args →
  ∃ w' r evt at_, incident_main args {| o_out := None; o_store_root := Some root |} w = (w', Ok (0%Z, r)) ∧
    let p := event_path root args (compact_stamp at_) in
    _read_json p w' = (w', Ok (JDict evt)) ∧ (∀ q, q ≠ p → w_fs w' !! q = w_fs w !! q) ∧
    dict_get (u "occurred_at") evt = Some (JStr at_) ∧
    dict_get (u "refs") evt = Some (JDict (sorted_items (given_refs args))).
Proof.
  intros Ha. destruct (run_incident_store args root w Ha) as (w' & id & at_ & run & Hc & Hf & _ & _ & Hr).
  cbv zeta in *. eexists _, _, (sorted_items (event args id at_ run)), at_. split; [exact Hr|].
  assert (NoDup (map fst (event args id at_ run))) as Hn by (by apply clean_dict in Hc as [? _]).
  destruct (event_fields args id at_ run) as (Hat & _ & Hrefs).
  split; [|split; [|split]].
  - apply (read_back _ (JDict (event args id at_ run))); [by apply clean_wf|]. simpl. apply lookup_insert_eq.
  - intros q Hq. simpl. by rewrite lookup_insert_ne.
  - by rewrite dict_get_sorted, Hat.
  - by rewrite dict_get_sorted, Hrefs.
Qed.

(** events are not kept apart by their identifiers: a second event of the
    same name and time leaves no trace of the first, whatever its identifier,
    status and references: the store is as if only the second had been sent. *)
Theorem incident_overwrites args1 args2 root at_ (w : World K) :
  incident_text args1 → incident_text args2 → i_event_name args1 = i_event_name args2 →
  at_ ≠ [] → i_occurred_at args1 = Some at_ → i_occurred_at args2 = Some at_ →
  let dest := {| o_out := None; o_store_root := Some root |} in
  let after := ((incident_main args1 dest ;; incident_main args2 dest) w).1 in
  ∃ evt id, w_fs after = <[event_path root args2 (compact_stamp at_) := pretty (JDict evt) ++ [10%N]]> (w_fs w) ∧
    dict_get (u "event_id") evt = Some (JStr id) ∧ (opt_truthy (i_event_id args2) = true → i_event_id args2 = Some id).
Proof.
  intros H1 H2 Hname Hne Hat1 Hat2 dest after. subst after.
  destruct (run_incident_store args1 root w H1) as (w1 & id1 & t1 & run1 & _ & Hf1 & Ht1 & _ & Hr1). cbv zeta in Hr1.
  rewrite run_bind. unfold dest. rewrite Hr1.
  match goal with |- context [incident_main args2 _ ?x] => set (w2 := x) end.
  destruct (run_incident_store args2 root w2 H2) as (w3 & id & t2 & run & _ & Hf3 & Ht2 & Hid & Hr2). cbv zeta in Hr2.
  rewrite Hr2. rewrite Hat1 in Ht1. rewrite Hat2 in Ht2. destruct at_ as [|c t]; [done|].
  injection (Ht1 eq_refl) as <-. injection (Ht2 eq_refl) as <-.
  exists (event args2 id (c :: t) run), id. split; [|split; [apply event_fields|done]].
  unfold w2. cbn [fst w_fs set_fs]. unfold event_path. rewrite Hname. apply insert_insert_eq.
Qed.
End incident.
