(* ===== verification/Cli.v ===== *)
(** * The operator's command line (src/tools/sourceos_gate_egress.py)

    [cli_main] is [main] after [parse_args] (ToolArgs.v has the parser): it dispatches to the operations of
    the gate's interface and turns their errors into exits. *)
From S2P Require Import Prelude PyStr PyJson Errors PyOps World Interface.

(** The subcommands, with the options of each. *)
Record GrantOptions := {
  go_token_id : pystr; go_nonce : pystr; go_exp : Z; go_proto : pystr;
  go_target : list pystr; go_port : list Z; go_apply : bool
}.
Inductive command :=
  | CmdInit
  | CmdGrant (o : GrantOptions)
  | CmdPrune (do_apply : bool)
  | CmdApply
  | CmdVerify
  | CmdSnapshot.

(** [raise SystemExit(msg)] *)
Definition system_exit (msg : pystr) : exn := Exn SystemExit msg.

(** [args.port or [443]] *)
Definition cli_ports (o : GrantOptions) : list Z := match go_port o with [] => [443%Z] | ports => ports end.

Section cli.
Context {K : Type} `{Env K} {ops : GateOps K}.
(** [str(gate.store.db_path)] *)
Context (db_path : pystr).

(** The body of the [try]: the exit status and what is printed. *)
Definition cli_dispatch (cmd : command) : W K (Z * pystr) :=
  match cmd with
  | CmdInit => op_init ;; mret (0%Z, db_path ++ [10%N])
  | CmdGrant o =>
      match go_target o with
      | [] => raise (system_exit (u "ERR: at least one --target is required"))
      | _ =>
          let ports := cli_ports o in
          op_install_grant (go_token_id o) (go_nonce o) (go_exp o) (go_target o) ports (go_proto o) (go_apply o) ;;
          mret (0%Z, u "OK" ++ [10%N])
      end
  | CmdPrune do_apply => removed ← op_prune do_apply; mret (0%Z, u "PRUNED: " ++ str_of_Z removed ++ [10%N])
  | CmdApply => op_apply ;; mret (0%Z, u "APPLIED" ++ [10%N])
  | CmdVerify => op_verify ;; mret (0%Z, u "OK" ++ [10%N])
  | CmdSnapshot => s ← op_snapshot; mret (0%Z, py_str s ++ [10%N])
  end.
Definition cli_main (cmd : command) : W K (Z * pystr) :=
  catch (cli_dispatch cmd)
    (λ e, if isinstance e GateError then raise (system_exit (u "ERR: " ++ exn_str e)) else raise e).
End cli.
