(* ===== verification/Ctl.v ===== *)
(** * The daemon's client (src/tools/sourceos_gate_egressctl.py)

    The request [main] builds for each subcommand, the bytes [send] writes, the
    loop that reads the reply, what is printed, and the exit status. *)
From S2P Require Import Prelude PyStr PyJson Errors PyOps Canon Cli.

(** [[int(p) for p in ports]] with [ports = args.port or (443 or 53)] *)
Definition ctl_ports (o : GrantOptions) : list Z :=
  match go_port o with
  | [] => if decide (go_proto o = u "tcp") then [443%Z] else [53%Z]
  | ports => ports
  end.

Inductive ctl_command :=
  | CtlHealth | CtlSnapshot | CtlApply | CtlVerify
  | CtlPrune (do_apply : bool)
  | CtlGrant (o : GrantOptions).

Definition request_of (req_id method : pystr) (params : dict) : dict :=
  [(u "id", JStr req_id); (u "method", JStr method); (u "params", JDict params)].
Definition grant_params (o : GrantOptions) : dict := [
  (u "token_id", JStr (go_token_id o));
  (u "nonce", JStr (go_nonce o));
  (u "exp", JInt (go_exp o));
  (u "targets", JList (map JStr (go_target o)));
  (u "ports", JList (map JInt (ctl_ports o)));
  (u "proto", JStr (go_proto o));
  (u "apply", JBool (go_apply o))].
Definition ctl_request (req_id : pystr) (cmd : ctl_command) : dict :=
  match cmd with
  | CtlHealth => request_of req_id (u "health") []
  | CtlSnapshot => request_of req_id (u "snapshot") []
  | CtlApply => request_of req_id (u "apply") []
  | CtlVerify => request_of req_id (u "verify") []
  | CtlPrune do_apply => request_of req_id (u "prune") [(u "apply", JBool do_apply)]
  | CtlGrant o => request_of req_id (u "grant.install") (grant_params o)
  end.

(** [json.dumps(msg, sort_keys=True).encode("utf-8") + b"\n"] *)
Definition wire (msg : dict) : pyres (list N) :=
  b ← py_encode (dumps opts_default true (JDict msg)); mret (b ++ [10%N]).

(** The reading loop: [chunks] are what the calls of [recv] return, the peer
    closing after the last one. *)
Definition ends_with_newline (buf : list N) : bool := bool_decide (last buf = Some 10%N).
Fixpoint recv_loop (buf : list N) (chunks : list (list N)) : list N :=
  if ends_with_newline buf then buf else
  match chunks with
  | [] | [] :: _ => buf
  | chunk :: rest => recv_loop (buf ++ chunk) rest
  end.
(** What [send] returns; [buf.decode("utf-8")] is only applied to ASCII. *)
Definition send_result (chunks : list (list N)) : pyres json :=
  match recv_loop [] chunks with
  | [] => Err (Exn RuntimeError (u "no response"))
  | buf => py_loads (utf8_decode_replace buf)
  end.
(** [0 if resp.get("ok") else 2] *)
Definition exit_status (resp : json) : pyres Z :=
  ok ← py_get resp (u "ok") JNull; mret (if truthy ok then 0%Z else 2%Z).

(** [main] from the command on: what it prints and its exit status. *)
Definition ctl_main (req_id : pystr) (cmd : ctl_command) (chunks : list (list N)) : pyres (Z * pystr) :=
  _ ← wire (ctl_request req_id cmd);
  resp ← send_result chunks;
  rc ← exit_status resp;
  mret (rc, dumps opts_indent2 true resp ++ [10%N]).
