(* ===== verification/CtlFacts.v ===== *)
(** * From the client to the gate and back

    A [grant] typed at the client reaches the gate's [install_grant] through
    the wire and the daemon with exactly its arguments, and the client's exit
    status is the fate of that call.  The command line's errors leave it as
    exits. *)
From S2P Require Import Prelude PyStr PyJson PyJsonRoundtrip PyJsonStrings PyDict Errors PyOps.
From S2P Require Import TimeUtil.
From S2P Require Import World Protocol Interface Daemon DaemonFacts Canon CanonFacts Seal.
From S2P Require Import DocFacts.
From S2P Require Import Cli Ctl.

#[local] Arguments u : simpl never.

(** ** Lines of ASCII *)

Lemma ascii_decode s : Forall (λ c, c < 128)%N s → utf8_decode_replace s = s.
Proof.
  induction 1 as [|c s Hc _ IH]; [done|]. cbn [utf8_decode_replace].
  destruct (N.ltb_spec c 128); [by rewrite IH|lia].
Qed.
Lemma line_ascii s : line_ok s → Forall (λ c, c < 128)%N s.
Proof. intros Hs. eapply Forall_impl; [exact Hs|]. unfold graphic. lia. Qed.
Lemma ascii_encode s : Forall (λ c, c < 128)%N s → utf8_encode s = Some s.
Proof.
  induction 1 as [|c s Hc _ IH]; [done|]. cbn [utf8_encode]. unfold utf8_char.
  destruct (N.ltb_spec c 128); [|lia]. cbn [mbind option_bind]. by rewrite IH.
Qed.
Lemma line_encode s : line_ok s → py_encode s = Ok s.
Proof.
  intros Hs. unfold py_encode. rewrite (proj2 (check_utf8_ok s)) by (by apply text_no_surrogate, line_text).
  cbn [mbind res_bind]. by rewrite ascii_encode by (by apply line_ascii).
Qed.
Lemma dumps_ends o sort kv d : ∃ t, dumps o sort (JDict (kv :: d)) = 123%N :: t ++ [125%N].
Proof.
  unfold dumps. assert (∃ kv' d', (if sort then sort_keys (JDict (kv :: d)) else JDict (kv :: d)) = JDict (kv' :: d'))
    as (kv' & d' & ->).
  { destruct sort; [|eauto]. rewrite sort_keys_dict.
    destruct (sorted_items (kv :: d)) as [|kv' d'] eqn:Hd; [|eauto].
    pose proof (sorted_items_Permutation (kv :: d)) as Hp. rewrite Hd in Hp. by apply Permutation_nil_l in Hp. }
  set (f := λ kv : pystr * json, render_str (ensure_ascii o) kv.1 ++ key_sep o ++ render o 1 kv.2).
  exists (open_sep o 0 ++ join (item_sep o 0) (map f (kv' :: d')) ++ close_sep o 0).
  change (render o 0 (JDict (kv' :: d')))
    with (123%N :: open_sep o 0 ++ join (item_sep o 0) (map f (kv' :: d')) ++ close_sep o 0 ++ [125%N]).
  by rewrite <-!app_assoc.
Qed.
Lemma strip_dumps o sort kv d : strip (dumps o sort (JDict (kv :: d))) = dumps o sort (JDict (kv :: d)).
Proof.
  destruct (dumps_ends o sort kv d) as [t ->]. unfold strip. apply strip_by_id.
  - intros c r [= <- _]. compute_it.
  - intros c r Hc. rewrite app_comm_cons in Hc. apply app_inj_tail in Hc as [_ <-]. compute_it.
Qed.

(** The text a daemon reads off a line that [dumps] wrote. *)
Definition line_of (d : dict) : pystr := dumps opts_default true (JDict d).
Lemma line_of_loads d : wf_json (JDict d) = true → loads (line_of d) = Ok (JDict (sorted_items d)).
Proof. intros Hd. unfold line_of. by rewrite (loads_dumps opts_default true _ opts_default_ok Hd). Qed.
Lemma wire_line d : wire d = Ok (line_of d ++ [10%N]).
Proof. unfold wire. by rewrite line_encode by apply dumps_line. Qed.

(** ** One request on a connection *)

Section daemon.
Context {K : Type} `{Env K} {ops : GateOps K}.

Lemma serve_one_line kv d w w' resp :
  fits (line_of (kv :: d)) →
  handle_request (line_of (kv :: d)) w = (w', Ok resp) →
  handle_client (line_of (kv :: d) ++ [10%N]) w = (w', Ok ([dumps opts_default true resp ++ [10%N]], true)).
Proof.
  intros Hfit Hreq. set (line := line_of (kv :: d)) in *.
  assert (line_ok line) as Hline by apply dumps_line.
  unfold handle_client. rewrite split_app by (by apply line_no_newline).
  rewrite split_sep, app_nil_r. change (split 10 []) with ([[]] : list (list N)). cbn [serve_lines].
  destruct (dumps_ends opts_default true kv d) as [t Ht]. fold (line_of (kv :: d)) in Ht. fold line in Ht.
  destruct (line ++ [10%N]) as [|b bs] eqn:Hb; [by rewrite Ht in Hb|]. rewrite <-Hb.
  destruct (Z.ltb_spec stream_limit (Z.of_nat (length line))) as [Hlong|_]; [unfold fits in Hfit; lia|].
  rewrite run_bind. unfold handle_line.
  rewrite line_text_newline, ascii_decode by (by apply line_ascii).
  assert (strip line = line) as -> by apply strip_dumps.
  destruct line as [|c l] eqn:Hl; [by rewrite Ht in Hl|]. rewrite run_bind, Hreq. done.
Qed.

Lemma parse_call_request req_id m p :
  NoDup (map fst p) →
  parse_call (sorted_items (request_of req_id m p)) = Ok (m, sorted_items p).
Proof.
  intros Hp. assert (NoDup (map fst (request_of req_id m p))) as Hn by compute_it.
  unfold parse_call, dict_get_or. rewrite !dict_get_sorted by done.
  change (dict_get (u "method") (request_of req_id m p)) with (Some (JStr m)).
  change (dict_get (u "params") (request_of req_id m p)) with (Some (JDict p)).
  cbn [fmap option_fmap option_map default from_option id]. rewrite sort_keys_dict.
  unfold py_or. cbn [truthy]. destruct (sorted_items p); done.
Qed.

Definition grant_args (o : GrantOptions) : install_args := {|
  ia_token_id := go_token_id o; ia_nonce := go_nonce o; ia_exp := go_exp o; ia_targets := go_target o;
  ia_ports := ctl_ports o; ia_proto := go_proto o; ia_apply := go_apply o |}.
Lemma grant_params_NoDup o : NoDup (map fst (grant_params o)).
Proof. compute_it. Qed.
Lemma grant_item o k v :
  dict_get k (grant_params o) = Some v → py_item (sorted_items (grant_params o)) k = Ok (sort_keys v).
Proof. intros Hv. unfold py_item. by rewrite dict_get_sorted, Hv by apply grant_params_NoDup. Qed.
Lemma parse_install_grant o : parse_install (sorted_items (grant_params o)) = Ok (grant_args o).
Proof.
  unfold parse_install.
  assert (∀ f, f ∈ [u "token_id"; u "nonce"; u "exp"; u "targets"; u "ports"; u "proto"] →
               is_Some (dict_get f (sorted_items (grant_params o)))) as Hf.
  { intros f Hf. rewrite dict_get_sorted by apply grant_params_NoDup.
    rewrite !elem_of_cons, elem_of_nil in Hf.
    destruct Hf as [->|[->|[->|[->|[->|[->|[]]]]]]]; by eexists. }
  rewrite (proj2 (require_fields_ok _ _)) by (by apply Forall_forall).
  rewrite (grant_item o (u "token_id") _ eq_refl), (grant_item o (u "nonce") _ eq_refl),
    (grant_item o (u "exp") _ eq_refl), (grant_item o (u "targets") _ eq_refl),
    (grant_item o (u "ports") _ eq_refl), (grant_item o (u "proto") _ eq_refl).
  cbn [mbind res_bind sort_keys py_int py_for py_iter res_of_option py_str].
  rewrite !map_map. rewrite (map_res_pure py_int (λ j, match j with JInt z => z | _ => 0%Z end)).
  - cbn [mbind res_bind]. unfold apply_flag, dict_get_or.
    rewrite dict_get_sorted by apply grant_params_NoDup. unfold grant_args. do 2 f_equal.
    + cbn [py_str sort_keys]. apply map_id.
    + rewrite map_map. apply map_id.
  - apply Forall_map, Forall_forall. intros z _. done.
Qed.

(** Strings [dumps] and [loads] preserve. *)
Record grant_ok (req_id : pystr) (o : GrantOptions) : Prop := {
  gk_strings : Forall (λ s, str_ok s = true) [req_id; go_token_id o; go_nonce o; go_proto o];
  gk_targets : Forall (λ s, str_ok s = true) (go_target o)
}.
Lemma grant_request_wf req_id o : grant_ok req_id o → wf (JDict (ctl_request req_id (CtlGrant o))).
Proof.
  intros [Hs Ht]. rewrite !Forall_cons in Hs. destruct_and!. cbn [ctl_request]. unfold request_of, grant_params.
  wf_lit; try done; [by apply wf_str_list|].
  apply wf_list, Forall_map, Forall_forall. done.
Qed.

(** What a command asks of the gate, and the result it is answered. *)
Definition gate_method (cmd : ctl_command) : W K json :=
  match cmd with
  | CtlHealth => ts ← now_iso_utc; mret (JDict [(u "ts", JStr ts); (u "status", JStr (u "ok"))])
  | CtlSnapshot => op_snapshot
  | CtlApply => _ ← op_apply; mret (status (u "applied"))
  | CtlVerify => _ ← op_verify; mret (status (u "ok"))
  | CtlPrune do_apply => removed ← op_prune do_apply; mret (JDict [(u "removed", JInt removed)])
  | CtlGrant o => _ ← install (grant_args o); mret (status (u "installed"))
  end.
Definition ctl_ok (req_id : pystr) (cmd : ctl_command) : Prop :=
  str_ok req_id = true ∧ match cmd with CtlGrant o => grant_ok req_id o | _ => True end.

Lemma ctl_request_wf req_id cmd : ctl_ok req_id cmd → wf (JDict (ctl_request req_id cmd)).
Proof. intros [Hid Hcmd]. destruct cmd; [..|by apply grant_request_wf]; cbn [ctl_request]; unfold request_of; by wf_lit. Qed.
(** The request says which method, with which parameters. *)
Lemma ctl_request_call req_id cmd w :
  ∃ m p, ctl_request req_id cmd = request_of req_id m p ∧ NoDup (map fst p) ∧
    call m (sorted_items p) w = gate_method cmd w.
Proof.
  destruct cmd as [| | | |b|o]; (do 2 eexists; split; [reflexivity|]; split; [compute_it|]); [done..| |].
  - by destruct b.
  - unfold call. rewrite !decide_False by done. rewrite decide_True by done. by rewrite parse_install_grant, bind_lift_ok.
Qed.

(** The daemon's side of a command. *)
Lemma run_ctl req_id cmd w w' r :
  ctl_ok req_id cmd → gate_method cmd w = (w', r) → raises_only is_exception r →
  handle_request (line_of (ctl_request req_id cmd)) w =
    (w', Ok match r with
            | Ok v => ok_response (JStr req_id) v
            | Err e => err_response (JStr req_id) (map_error e)
            end).
Proof.
  intros Hok Hrun Hr. pose proof (ctl_request_wf _ _ Hok) as Hwf. pose proof (line_of_loads _ Hwf) as Hl.
  assert (request_id (line_of (ctl_request req_id cmd)) = JStr req_id) as Hid.
  { unfold request_id. rewrite Hl. unfold dict_get_or.
    rewrite dict_get_sorted by (by apply wf_dict in Hwf as [? _]). by destruct cmd. }
  destruct (ctl_request_call req_id cmd w) as (m & p & Hreq & Hp & Hcall). rewrite Hrun in Hcall.
  pose proof (parse_call_request req_id m p Hp) as Hparse. rewrite <-Hreq in Hparse.
  rewrite (run_handle_request _ _ _ _ _ _ _ Hl Hparse Hcall Hr). by rewrite Hid.
Qed.
End daemon.

(** ** The reply *)

Lemma recv_loop_all buf chunks s :
  10%N ∉ s → Forall (λ c, c ≠ []) chunks → buf ++ concat chunks = s ++ [10%N] →
  recv_loop buf chunks = s ++ [10%N].
Proof.
  intros Hs Hc. revert buf. induction Hc as [|c chunks Hne _ IH]; intros buf Heq; cbn [recv_loop].
  - cbn [concat] in Heq. rewrite app_nil_r in Heq. by destruct (ends_with_newline buf).
  - destruct (ends_with_newline buf) eqn:He.
    + exfalso. apply bool_decide_eq_true in He. apply last_Some in He as [b ->].
      cbn [concat] in Heq. rewrite <-app_assoc in Heq. cbn [app] in Heq.
      assert (10%N ∈ take (length s) (s ++ [10%N])) as Hin.
      { rewrite <-Heq. assert (length b < length s) as Hlt.
        { apply (f_equal length) in Heq. rewrite !length_app in Heq. cbn [length] in Heq.
          rewrite length_app in Heq. destruct c; [done|]. cbn [length] in Heq. lia. }
        apply list_elem_of_lookup. exists (length b). rewrite lookup_take_lt by done.
        by rewrite list_lookup_middle. }
      by rewrite take_app_length in Hin.
    + destruct c as [|x c]; [done|]. apply IH. by rewrite <-app_assoc.
Qed.
Lemma reply_read d chunks :
  wf (JDict d) → Forall (λ c, c ≠ []) chunks → concat chunks = line_of d ++ [10%N] →
  send_result chunks = Ok (JDict (sorted_items d)).
Proof.
  intros Hd Hc Hcat. assert (line_ok (line_of d)) as Hl by apply dumps_line.
  unfold send_result. rewrite (recv_loop_all [] chunks (line_of d)); [|by apply line_no_newline|done|done].
  destruct (line_of d ++ [10%N]) as [|b bs] eqn:Hb; [by destruct (line_of d)|]. rewrite <-Hb.
  rewrite ascii_decode by (apply Forall_app; split; [by apply line_ascii|by constructor]).
  unfold py_loads, line_of, dumps. rewrite loads_render_ws;
    [done|apply opts_default_ok|by apply sort_keys_wf|by repeat constructor].
Qed.
Lemma exit_status_reply d b :
  NoDup (map fst d) → dict_get (u "ok") d = Some (JBool b) →
  exit_status (JDict (sorted_items d)) = Ok (if b then 0%Z else 2%Z).
Proof.
  intros Hn Hb. unfold exit_status, py_get, dict_get_or. rewrite dict_get_sorted, Hb by done. by destruct b.
Qed.

Lemma map_error_wf e : str_ok (exn_str e) = true → wf (to_dict (map_error e)).
Proof.
  intros He. assert (∀ dflt, str_ok dflt = true → str_ok (str_or e dflt) = true) as Hor.
  { intros dflt Hd. unfold str_or. by destruct (exn_str e). }
  unfold to_dict, map_error. repeat case_match; cbn [code message]; wf_lit; try (by apply line_str_ok, line_ok_lit);
    try (by apply Hor). unfold wf. cbn [wf_json]. rewrite app_assoc.
  apply str_ok_lit_app; [|done]. by destruct (exn_type e).
Qed.
Lemma response_wf req_id (r : pyres json) :
  str_ok req_id = true → returns wf r → raises_only (λ e, str_ok (exn_str e) = true) r →
  ∃ d, match r with
       | Ok v => ok_response (JStr req_id) v
       | Err e => err_response (JStr req_id) (map_error e)
       end = JDict d ∧ wf (JDict d) ∧ dict_get (u "ok") d = Some (JBool (is_ok r)).
Proof.
  intros Hid Hv Hr. destruct r as [v|e]; unfold ok_response, err_response;
    (eexists; split; [reflexivity|]; split; [|reflexivity]); wf_lit; try done; [by apply Hv|by apply map_error_wf].
Qed.

(** ** End to end *)

Section theorems.
Context {K : Type} `{Env K} {ops : GateOps K}.

(** A command is the method the gate runs: the line [send] writes makes the
    daemon run it once, and however the reply is cut into chunks, the client
    reads it whole and exits 0 when the gate answered and 2 when it refused. *)
Lemma ctl_served req_id cmd w w' r :
  ctl_ok req_id cmd → fits (line_of (ctl_request req_id cmd)) →
  gate_method cmd w = (w', r) → returns wf r →
  raises_only (λ e, is_exception e ∧ str_ok (exn_str e) = true) r →
  ∃ line reply, wire (ctl_request req_id cmd) = Ok line ∧
    handle_client line w = (w', Ok ([reply], true)) ∧
    ∀ chunks, Forall (λ c, c ≠ []) chunks → concat chunks = reply →
      ∃ resp, send_result chunks = Ok resp ∧ exit_status resp = Ok (if is_ok r then 0%Z else 2%Z).
Proof.
  intros Hok Hfit Hrun Hv Hr.
  assert (raises_only is_exception r ∧ raises_only (λ e, str_ok (exn_str e) = true) r) as [He Hs]
    by (destruct r; [done|exact Hr]).
  destruct (response_wf req_id r) as (d & Hd & Hwf & Hokd); [apply Hok|done..|].
  pose proof (run_ctl req_id cmd w w' r Hok Hrun He) as Hreq. rewrite Hd in Hreq.
  exists (line_of (ctl_request req_id cmd) ++ [10%N]), (line_of d ++ [10%N]).
  split; [apply wire_line|]. split.
  { assert (∃ kv d', ctl_request req_id cmd = kv :: d') as (kv & d' & Hkv) by (destruct cmd; do 2 eexists; reflexivity).
    rewrite Hkv in *. by apply serve_one_line. }
  intros chunks Hne Hcat. exists (JDict (sorted_items d)). split; [by apply reply_read|].
  apply exit_status_reply; [by apply wf_dict in Hwf as [? _]|done].
Qed.

(** a grant typed at the client is the grant the gate is asked for: the
    daemon calls [install_grant] once, with exactly the arguments of the command
    line. *)
Theorem ctl_grant_end_to_end req_id o w w' r :
  grant_ok req_id o → fits (line_of (ctl_request req_id (CtlGrant o))) →
  op_install_grant (go_token_id o) (go_nonce o) (go_exp o) (go_target o) (ctl_ports o) (go_proto o) (go_apply o) w
    = (w', r) →
  raises_only (λ e, is_exception e ∧ str_ok (exn_str e) = true) r →
  ∃ line reply, wire (ctl_request req_id (CtlGrant o)) = Ok line ∧
    handle_client line w = (w', Ok ([reply], true)) ∧
    ∀ chunks, Forall (λ c, c ≠ []) chunks → concat chunks = reply →
      ∃ resp, send_result chunks = Ok resp ∧ exit_status resp = Ok (if is_ok r then 0%Z else 2%Z).
Proof.
  intros Hok Hfit Hrun Hr.
  destruct (ctl_served req_id (CtlGrant o) w w' ((λ _, status (u "installed")) <$> r)) as (line & reply & Hl & Hs & Hread);
    [|done| | | |exists line, reply; by destruct r].
  - split; [|done]. destruct Hok as [Hk _]. by inversion Hk.
  - cbn [gate_method]. rewrite run_bind. unfold install. cbn [grant_args ia_token_id ia_nonce ia_exp ia_targets ia_ports
      ia_proto ia_apply]. rewrite Hrun. by destruct r as [[]|].
  - destruct r; [|done]. intros ? [= <-]. compute_it.
  - by destruct r.
Qed.
End theorems.

(** the two front ends name the same ports, so ask for the same grant,
    exactly when a port is given or the protocol is tcp: without [--port] the
    command line falls back on 443 and the client, for udp, on 53. *)
Theorem front_ends_agree o :
  cli_ports o = ctl_ports o ↔ go_port o ≠ [] ∨ go_proto o = u "tcp".
Proof.
  unfold cli_ports, ctl_ports. destruct (go_port o) as [|p ps]; [|naive_solver].
  destruct (decide (go_proto o = u "tcp")); naive_solver.
Qed.

(** ** The command line *)

Section cli.
Context {K : Type} `{Env K} {ops : GateOps K} (R : relation (World K)) {laws : GateLaws ops R}.

(** What the command line may raise: an exit, or an error of the interpreter
    or of a library; never one of the gate's own. *)
Definition cli_raise (e : exn) : Prop :=
  exn_type e = SystemExit ∨ is_exception e ∧ isinstance e GateError = false.
Definition command_ok (cmd : command) : Prop :=
  match cmd with CmdGrant o => Forall (λ t, str_ok t = true) (go_target o) | _ => True end.

Lemma cli_dispatch_within db cmd :
  command_ok cmd → within R (λ e, is_exception e ∨ exn_type e = SystemExit) (cli_dispatch db cmd).
Proof.
  pose proof laws.(laws_preorder) as HR.
  assert (∀ A B (m : W K A) (f : A → B), within R is_exception m →
    within R (λ e, is_exception e ∨ exn_type e = SystemExit) (a ← m; mret (f a))) as Hop.
  { intros A B m f Hm. apply within_bind; [done| |intros; by apply within_ret].
    eapply within_mono; [exact Hm|done|by left]. }
  intros Hc. destruct cmd as [|o|b| | |]; cbn [cli_dispatch].
  - apply Hop, laws_init.
  - destruct (go_target o) as [|t ts] eqn:Ht; [apply within_raise; [done|by right]|].
    rewrite <-Ht. by apply Hop, laws_install.
  - apply Hop, laws_prune.
  - apply Hop, laws_apply.
  - apply Hop, laws_verify.
  - apply Hop, laws_snapshot.
Qed.

(** the command line makes only steps of the gate, and turns every error
    of the gate into an exit: what it raises is [SystemExit] or not a
    [GateError]; when it returns, its status is 0. *)
Theorem cli_contract db cmd :
  command_ok cmd →
  within R cli_raise (cli_main db cmd) ∧ yields (λ sp, sp.1 = 0%Z) (cli_main db cmd).
Proof.
  intros Hc. pose proof laws.(laws_preorder) as HR. split.
  - eapply within_catch; [done|by apply cli_dispatch_within|].
    intros e He. cbn beta in He. destruct (isinstance e GateError) eqn:Hg.
    + apply within_raise; [done|]. by left.
    + apply within_raise; [done|]. destruct He; [right|left]; done.
  - intros w w' sp. unfold cli_main, catch.
    assert (yields (λ sp, sp.1 = 0%Z) (cli_dispatch db cmd)) as Hd.
    { destruct cmd as [|o|b| | |]; cbn [cli_dispatch]; try destruct (go_target o);
        try (eapply (yields_bind (λ _, True)); [apply yields_true|intros ? _; by apply yields_ret]).
      by intros ??. }
    destruct (cli_dispatch db cmd w) as [w1 [a|e]] eqn:Hr; [|by destruct (isinstance e GateError)].
    intros [= <- <-]. by apply (Hd _ _ _ Hr).
Qed.
End cli.
