(* ===== verification/ToolsDemo.v ===== *)
(** * Concrete runs of the command-line tools

    The theorems about the tick, the incident emitter, the client and the
    command line, applied on the hosts of TruthDemo.v and GateDemo.v. *)
From S2P Require Import Prelude PyStr PyJson PyJsonRoundtrip PyJsonStrings PyDict Errors PyOps.
From S2P Require Import TimeUtil TimeFacts.
From S2P Require Import World Canon CanonFacts Host DocFacts TruthSurface TruthDocs TruthDemo.
From S2P Require Import Tick TickFacts Incident IncidentFacts.
From S2P Require Import Store StoreFacts NftModel Nft Interface GateSteps EgressFacts Daemon.
From S2P Require Import DaemonFacts.
From S2P Require Import GateDemo.
From S2P Require Import Cli Ctl CtlFacts.
From S2P Require Egress.

(** ** The tick *)

Definition demo_tick : TickArgs := {|
  t_store_root := [u "var"; u "lib"; u "sourceos"]; t_plane := u "system.sealed"; t_id_suffix := None;
  t_policy_pack_digest := None; t_evidence_required := [u "logs"; u "policy_decision"];
  t_evidence_present := [u "logs"] |}.
Definition ticked_once : World unit := world0 {[ latest_path demo_tick := u "{}" ]}.

Lemma demo_tick_text : args_text (tick_surface_args demo_tick).
Proof.
  split.
  - compute_it.
  - repeat constructor; by intros s.
  - repeat (apply Forall_cons; split); try apply Forall_nil_2; compute_it.
Qed.
Lemma tick_delta_backwards_witness :
  ∃ w1 d new, emit_surface demo_tick ticked_once = (w1, Ok d) ∧
    _read_json new w1 = (w1, Ok (JDict (sorted_items d))) ∧
    w_fs w1 !! latest_path demo_tick = Some (u "{}") ∧
    tick_pipeline demo_tick ticked_once =
      (emit_delta demo_tick new (latest_path demo_tick) ;;
       _write_json (latest_path demo_tick) (JDict d) ;; mret 0%Z) w1.
Proof.
  apply (tick_delta_backwards demo_tick ticked_once (u "{}")).
  - apply demo_tick_text.
  - apply lookup_singleton_eq.
  - intros c n Hc Hne _. exfalso. apply Hne.
    assert (dir_names (w_fs ticked_once) (surfaces_dir (t_store_root demo_tick) (t_plane demo_tick))
            = [u "LATEST"]) as Hd by (vm_compute; reflexivity).
    rewrite Hd in Hc. by apply list_elem_of_singleton in Hc.
Defined.

(** Surfaces of 2026-01-01 at 00:00 and at 01:00, and an older one. *)
Definition demo_surfaces (t : Z) : path :=
  surface_file (surfaces_dir [u "srv"] (u "system.sealed")) (stamp t).
Definition three_surfaces : gmap path pystr :=
  <[demo_surfaces 1767225600 := u "{}"]> (<[demo_surfaces 1767229200 := u "{}"]>
    {[demo_surfaces 915148800 := u "{}"]}).
Lemma latest_two_newest_witness :
  _latest_two_surfaces three_surfaces [u "srv"] (u "system.sealed")
  = Some (surface_file (surfaces_dir [u "srv"] (u "system.sealed")) (u "20260101T000000Z"),
          surface_file (surfaces_dir [u "srv"] (u "system.sealed")) (u "20260101T010000Z")).
Proof.
  apply (latest_two_newest three_surfaces [u "srv"] (u "system.sealed") 1767225600 1767229200).
  - unfold four_digit_year. lia.
  - unfold four_digit_year. lia.
  - lia.
  - compute_it.
  - compute_it.
  - intros c Hc.
    assert (dir_names three_surfaces (surfaces_dir [u "srv"] (u "system.sealed"))
            = [stamp 915148800; stamp 1767225600; stamp 1767229200]) as Hd by (vm_compute; reflexivity).
    rewrite Hd in Hc. unfold four_digit_year. rewrite !elem_of_cons, elem_of_nil in Hc.
    destruct Hc as [->|[->|[->|[]]]]; eexists; (split; [|split; [done|]]); lia.
Defined.

(** ** Incidents *)

Definition demo_incident (id : pystr) : IncidentArgs := {|
  i_event_name := u "incident.freeze"; i_status := u "succeeded"; i_event_id := Some id;
  i_occurred_at := Some (u "2026-01-01T00:00:00Z"); i_actor_kind := u "service";
  i_actor_id := u "sourceos-incident"; i_run_id := None; i_trace_id := Some (u "trace"); i_span_id := None;
  i_attempt := 1; i_truth_surface_ref := Some (u "urn:srcos:truth-surface:ts"); i_delta_surface_ref := None;
  i_evidence_bundle_ref := None; i_cairn_before_ref := None; i_cairn_after_ref := None |}.
Lemma demo_incident_text id : text_ok id → incident_text (demo_incident id).
Proof.
  intros Hid. split; [compute_it|]. cbn.
  repeat constructor; intros s; try done; intros [= <-]; first [exact Hid|compute_it].
Qed.
Lemma evt1_text : incident_text (demo_incident (u "evt_1")).
Proof. apply demo_incident_text. compute_it. Qed.
Lemma evt2_text : incident_text (demo_incident (u "evt_2")).
Proof. apply demo_incident_text. compute_it. Qed.

Definition store_dest : Output := {| o_out := None; o_store_root := Some [u "store"] |}.
Lemma incident_stored_witness :
  ∃ w' r evt at_, incident_main (demo_incident (u "evt_1")) store_dest (world0 ∅) = (w', Ok (0%Z, r)) ∧
    let p := event_path [u "store"] (demo_incident (u "evt_1")) (compact_stamp at_) in
    _read_json p w' = (w', Ok (JDict evt)) ∧ (∀ q, q ≠ p → w_fs w' !! q = (∅ : gmap path pystr) !! q) ∧
    dict_get (u "occurred_at") evt = Some (JStr at_) ∧
    dict_get (u "refs") evt = Some (JDict (sorted_items (given_refs (demo_incident (u "evt_1"))))).
Proof. apply (incident_stored (demo_incident (u "evt_1")) [u "store"] (world0 ∅)), evt1_text. Defined.
Lemma incident_overwrites_witness :
  ∃ evt id, w_fs ((incident_main (demo_incident (u "evt_1")) store_dest ;;
                   incident_main (demo_incident (u "evt_2")) store_dest) (world0 ∅)).1
      = <[[u "store"; u "incidents"; u "incident.freeze"; u "20260101T000000Z"; u "incident-event.json"]
          := pretty (JDict evt) ++ [10%N]]> ∅ ∧
    dict_get (u "event_id") evt = Some (JStr id) ∧ Some (u "evt_2") = Some id.
Proof.
  destruct (incident_overwrites (demo_incident (u "evt_1")) (demo_incident (u "evt_2")) [u "store"]
    (u "2026-01-01T00:00:00Z") (world0 ∅)) as (evt & id & Hf & He & Hid);
    [apply evt1_text|apply evt2_text|done..|].
  exists evt, id. split; [exact Hf|]. split; [exact He|]. by apply Hid.
Defined.

(** ** The front ends of the gate *)

#[local] Instance demo_gate : GateOps toy := egress_ops default_cfg.

Definition demo_grant : GrantOptions := {|
  go_token_id := u "tok"; go_nonce := u "n1"; go_exp := 5000; go_proto := u "tcp"; go_target := target1;
  go_port := []; go_apply := false |}.
Definition grant_run := op_install_grant (u "tok") (u "n1") 5000 target1 [443%Z] (u "tcp") false fresh.

Lemma ctl_grant_end_to_end_witness :
  ∃ line reply, wire (ctl_request (u "id1") (CtlGrant demo_grant)) = Ok line ∧
    handle_client line fresh = (grant_run.1, Ok ([reply], true)) ∧
    ∀ chunks, Forall (λ c, c ≠ []) chunks → concat chunks = reply →
      ∃ resp, send_result chunks = Ok resp ∧ exit_status resp = Ok 0%Z.
Proof.
  apply (ctl_grant_end_to_end (u "id1") demo_grant fresh grant_run.1 (Ok tt)).
  - split; compute_it.
  - compute_it.
  - rewrite (surjective_pairing (op_install_grant _ _ _ _ _ _ _ _)).
    apply (f_equal2 pair); [reflexivity|vm_compute; reflexivity].
  - exact I.
Defined.
Lemma cli_contract_witness :
  within gate_step cli_raise (cli_main (K:=toy) (u "/store/state.sqlite") (CmdGrant demo_grant)) ∧
  yields (λ sp, sp.1 = 0%Z) (cli_main (K:=toy) (u "/store/state.sqlite") (CmdGrant demo_grant)).
Proof.
  apply (cli_contract (laws:=egress_laws default_cfg) gate_step (u "/store/state.sqlite") (CmdGrant demo_grant)).
  apply target1_str.
Defined.
