(* ===== verification/Cosa.v ===== *)
(** * The image build wrapper (src/cosa/build.py)

    Validation of a build target, the builder gate, the command plan, the
    provenance document and the two subcommands.  [jsonschema], PyYAML, the
    programs [git] and [cosa] and the directory they run in are not part of the
    repository: they are parameters.  Files the wrapper only reads are those of
    [Host]; the streams accept every text. *)
From S2P Require Import Prelude PyStr PyJson Errors PyOps PySet World Canon Host DeltaSurface.

(** An element of a [jsonschema] error path. *)
Inductive path_elem := Index (n : Z) | Key (s : pystr).
Definition elem_str (e : path_elem) : pystr := match e with Index n => str_of_Z n | Key s => s end.
(** The order of the paths as Python lists.  Two paths with a common prefix
    continue into the same node, a list or an object: an index is never compared
    with a key. *)
Fixpoint path_leb (p q : list path_elem) : bool :=
  match p, q with
  | [], _ => true
  | _, [] => false
  | Index m :: p', Index n :: q' => if (m =? n)%Z then path_leb p' q' else (m <? n)%Z
  | Key s :: p', Key t :: q' => if decide (s = t) then path_leb p' q' else str_leb s t
  | Index _ :: _, Key _ :: _ => true
  | Key _ :: _, Index _ :: _ => false
  end.
Definition error_le (x y : list path_elem * pystr) : Prop := path_leb x.1 y.1 = true.
Global Instance error_le_dec : RelDecision error_le.
Proof. intros x y. unfold error_le. apply _. Defined.

(** What the wrapper finds on its host.  [iter_errors schema target] are the
    errors [Draft202012Validator(schema).iter_errors(target)] yields, [None]
    when the package is not installed; so is [safe_load] for PyYAML, whose
    values are those of JSON here. *)
Class CosaHost := {
  repo_root : path;
  cwd : path;
  resolve : pystr → path;                              (* [Path(s).resolve()] *)
  read_error : pystr → exn;                            (* what [read_text] raises *)
  platform_system : pystr;
  which : pystr → option pystr;
  environ : pystr → option pystr;
  safe_load : option (pystr → pyres json);
  iter_errors : option (json → json → list (list path_elem * pystr))
}.
(** What a real build does to the machine: make the working directory and run a
    program in it.  Both may raise, and a program may change anything, files
    included. *)
Class Builder (K : Type) := {
  make_dirs : pystr → W K unit;                (* [Path(s).mkdir(parents=True, exist_ok=True)] *)
  run_in : pystr → list pystr → W K Z          (* [subprocess.run(c, cwd=s).returncode] *)
}.

(** ** Python operations *)

(** [path.suffix] *)
Fixpoint rfind_dot (s : pystr) : option pystr :=
  match s with
  | [] => None
  | c :: s' => match rfind_dot s' with
               | Some t => Some t
               | None => if (c =? 46)%N then Some (c :: s') else None
               end
  end.
Definition path_suffix (p : path) : pystr :=
  let name := default [] (last p) in
  match rfind_dot name with
  | Some t => if decide (1 < length t < length name) then t else []
  | None => []
  end.
(** [x[k]] with a string [k] *)
Definition py_subscript (x : json) (k : pystr) : pyres json :=
  match x with
  | JDict d => py_item d k
  | JList _ => Err (Exn TypeError (u "list indices must be integers or slices, not str"))
  | JStr _ => Err (Exn TypeError (u "string indices must be integers, not 'str'"))
  | _ => Err (Exn TypeError (u "'" ++ type_name x ++ u "' object is not subscriptable"))
  end.
(** [x in s] for a set [s] *)
Definition in_set (x : json) (s : list json) : pyres bool :=
  if hashable x then Ok (py_mem x s) else Err (Exn TypeError (u "unhashable type: '" ++ type_name x ++ u "'")).
(** [if b: errs.append(msg)] *)
Definition check (b : bool) (msg : pystr) : list pystr := if b then [msg] else [].

(** ** The console *)

Inductive line := Stdout (s : pystr) | Stderr (s : pystr).
Abbreviation C K := (M exn (World K * list line)).

Section console.
Context {K : Type}.
Definition in_world {A} (m : W K A) : C K A := λ s, ((m s.1).1, s.2, (m s.1).2).
Definition emit (l : line) : C K unit := modify (λ s, (s.1, s.2 ++ [l])).
Definition print (s : pystr) : C K unit := emit (Stdout s).
Definition eprint (s : pystr) : C K unit := emit (Stderr s).
Fixpoint emit_all (ls : list line) : C K unit :=
  match ls with [] => mret tt | l :: ls' => emit l ;; emit_all ls' end.
End console.

(** ** Validation *)

Definition base_formats : list pystr := [u "ostree"; u "qemu"].
Definition extend_formats : list pystr := [u "metal"; u "iso"; u "qcow2"; u "oci"; u "raw"].
Definition allowed_formats : list pystr := base_formats ++ extend_formats.
Definition required_fields : list pystr :=
  [u "flavorRef"; u "ostreeRef"; u "packageManifestRef"; u "architecture"; u "outputFormats"].

Definition missing_field (spec : json) (field : pystr) : pyres (list pystr) :=
  v ← py_get spec field JNull; Ok (check (negb (truthy v)) (u "spec." ++ field ++ u " is required")).
Definition unknown_format (f : json) : pyres (list pystr) :=
  b ← in_set f (strs allowed_formats);
  Ok (check (negb b) (u "spec.outputFormats entry '" ++ py_str f ++ u "' not in "
                      ++ py_str (JList (strs (sorted allowed_formats))))).

Definition _fallback_validate (target : json) : pyres (list pystr) :=
  api ← py_get target (u "apiVersion") JNull;
  kind ← py_get target (u "kind") JNull;
  meta ← get_or_empty target (u "metadata");
  name ← py_get meta (u "name") JNull;
  spec ← get_or_empty target (u "spec");
  missing ← map_res (missing_field spec) required_fields;
  arch ← py_get spec (u "architecture") JNull;
  v ← py_get spec (u "outputFormats") JNull;
  fmts ← py_for (py_or v (JList []));
  unknown ← map_res unknown_format fmts;
  Ok (check (negb (py_eq api (JStr (u "sourceos.ai/v0")))) (u "apiVersion must be 'sourceos.ai/v0'")
      ++ check (negb (py_eq kind (JStr (u "BuildTarget")))) (u "kind must be 'BuildTarget'")
      ++ check (negb (truthy name)) (u "metadata.name is required")
      ++ concat missing
      ++ check (truthy arch && negb (py_mem arch (strs [u "x86_64"; u "aarch64"])))
           (u "spec.architecture '" ++ py_str arch ++ u "' not in [x86_64, aarch64]")
      ++ concat unknown).

Section cosa.
Context {K : Type} `{Env K} `{Host} `{CosaHost}.

Definition host_read (p : path) : pyres pystr := res_of_option (read_error (posix p)) (host_text (posix p)).

Definition validate_target (target : json) : pyres (list pystr) :=
  match iter_errors with
  | None => _fallback_validate target
  | Some errors =>
      text ← host_read (repo_root ++ [u "cosa"; u "build-target.schema.json"]);
      schema ← py_loads text;
      Ok (map (λ e, let p := join (u "/") (map elem_str e.1) in
                    (if decide (p = []) then u "<root>" else p) ++ u ": " ++ e.2)
              (merge_sort error_le (errors schema target)))
  end.

(** [REPO_ROOT / ref] *)
Definition repo_path (ref : json) : pyres path :=
  match ref with
  | JStr s => Ok (path_join repo_root s)
  | _ => Err (Exn TypeError (u "unsupported operand type(s) for /: 'PosixPath' and '" ++ type_name ref ++ u "'"))
  end.
Definition repo_without_format (fmts : list json) (fmt : json) : pyres (list pystr) :=
  b ← in_set fmt fmts;
  Ok (check (negb b) (u "spec.katelloRepos['" ++ py_str fmt ++ u "'] has no matching entry in outputFormats")).
Definition missing_file (spec : json) (field : pystr) : pyres (list pystr) :=
  ref ← py_get spec field JNull;
  if truthy ref then
    p ← repo_path ref;
    Ok (check (negb (host_exists (posix p)))
          (u "spec." ++ field ++ u " -> " ++ py_str ref ++ u " does not exist (relative to repo root)"))
  else Ok [].
Definition _semantic_checks (target : json) : pyres (list pystr) :=
  spec ← get_or_empty target (u "spec");
  v ← py_get spec (u "outputFormats") JNull;
  l ← py_for (py_or v (JList []));
  fmts ← py_set l;
  repos ← py_get spec (u "katelloRepos") JNull;
  keys ← py_for (py_or repos (JDict []));
  unmatched ← map_res (repo_without_format fmts) keys;
  files ← map_res (missing_file spec) [u "flavorRef"; u "packageManifestRef"];
  Ok (concat unmatched ++ concat files).
Definition all_errors (target : json) : pyres (list pystr) :=
  a ← validate_target target; b ← _semantic_checks target; Ok (a ++ b).

(** ** The builder gate and the plan *)

Definition builder_available : bool * pystr :=
  if decide (platform_system ≠ u "Linux") then
    (false, u "host is " ++ platform_system ++ u ", coreos-assembler requires Linux")
  else if negb (host_exists (u "/dev/kvm")) then
    (false, u "/dev/kvm not present (hardware virtualization required)")
  else match which (u "cosa") with
       | None => (false, u "`cosa` not found on PATH")
       | Some _ => (true, u "linux host with /dev/kvm and cosa available")
       end.

Definition extend_command (fmt : json) : pyres (list (list pystr)) :=
  b ← in_set fmt (strs extend_formats);
  Ok (if b : bool then [[u "cosa"; u "buildextend-" ++ py_str fmt]] else []).
Definition plan_commands (target : json) (workdir : pystr) : pyres (list (list pystr)) :=
  spec ← py_subscript target (u "spec");
  manifest ← py_subscript spec (u "packageManifestRef");
  v ← py_subscript spec (u "outputFormats");
  fmts ← py_for v;
  extends ← map_res extend_command fmts;
  Ok ([u "cosa"; u "init"; u "--force"; u "--src-dir=" ++ posix repo_root; posix repo_root]
      :: [u "cosa"; u "fetch"]
      :: [u "cosa"; u "build"; u "--manifest=" ++ py_str manifest]
      :: concat extends).

(** ** Provenance *)

Definition _digest_file (p : path) : json :=
  match host_bytes (posix p) with
  | Some b => JStr (u "sha256:" ++ _sha256_hex b)
  | None => JNull
  end.
(** [subprocess.run] in a [try ... except OSError]: [None] when it is caught. *)
Definition run_or_none (argv : list pystr) : W K (option completed) :=
  catch (r ← subprocess_run argv []; mret (Some r))
        (λ e, if isinstance e OSError then mret None else raise e).
Definition git (args : list pystr) : list pystr := [u "git"; u "-C"; posix repo_root] ++ args.
Definition rev (commit dirty : json) : dict :=
  [(u "vcs", JStr (u "git")); (u "commit", commit); (u "dirty", dirty)].
Definition _source_revision : W K dict :=
  commit ← run_or_none (git [u "rev-parse"; u "HEAD"]);
  match commit with
  | None => mret (rev JNull JNull)
  | Some commit =>
      let c := if (returncode commit =? 0)%Z then JStr (strip (stdout commit)) else JNull in
      status ← run_or_none (git [u "status"; u "--porcelain"]);
      mret (rev c (match status with
                   | Some status => if (returncode status =? 0)%Z
                                    then JBool (negb (bool_decide (strip (stdout status) = []))) else JNull
                   | None => JNull
                   end))
  end.
(** [p.relative_to(REPO_ROOT).as_posix()] *)
Definition relative_to_repo (p : path) : pyres pystr :=
  if decide (take (length repo_root) p = repo_root) then
    Ok (match drop (length repo_root) p with [] => u "." | q => join (u "/") q end)
  else Err (Exn ValueError (repr (posix p) ++ u " is not in the subpath of " ++ repr (posix repo_root)
                            ++ u " OR one path is relative and the other is absolute.")).

(** The document before its [inputs_hash] is filled in. *)
Definition provenance_body (target : json) (target_path : path) (planned : list (list pystr))
    (dry_run : bool) (builder_reason : pystr) : W K dict :=
  spec ← lift (py_subscript target (u "spec"));
  manifest_ref ← lift (py_subscript spec (u "packageManifestRef"));
  manifest_path ← lift (repo_path manifest_ref);
  flavor_ref ← lift (py_subscript spec (u "flavorRef"));
  flavor_path ← lift (repo_path flavor_ref);
  config_digest ← lift (canonical_digest target);
  created ← _utc_now_iso;
  meta ← lift (py_subscript target (u "metadata"));
  name ← lift (py_subscript meta (u "name"));
  ref ← lift (relative_to_repo target_path);
  revision ← _source_revision;
  ostree ← lift (py_subscript spec (u "ostreeRef"));
  arch ← lift (py_subscript spec (u "architecture"));
  channel ← lift (py_get spec (u "channel") JNull);
  mret [
    (u "type", JStr (u "CosaBuildProvenance")); (u "specVersion", JStr (u "0.1.0"));
    (u "createdAt", JStr created);
    (u "buildTarget", JDict [(u "name", name); (u "ref", JStr ref);
                             (u "configDigest", JStr (u "sha256:" ++ config_digest))]);
    (u "sourceRevision", JDict revision); (u "ostreeRef", ostree); (u "architecture", arch);
    (u "channel", channel);
    (u "packageManifest", JDict [(u "ref", manifest_ref); (u "digest", _digest_file manifest_path)]);
    (u "flavor", JDict [(u "ref", flavor_ref); (u "digest", _digest_file flavor_path)]);
    (u "plannedCommands", JList (strs (map (join (u " ")) planned)));
    (u "dryRun", JBool dry_run); (u "builder", JStr builder_reason);
    (u "artifacts", JList []);
    (u "signing", JDict [(u "provider", JStr (u "cosign")); (u "signed", JBool false)]);
    (u "inputs_hash", JStr []);
    (u "result", JStr (if dry_run then u "DRY_RUN" else u "PASS"));
    (u "blockers", JList (if dry_run then [JStr (u "builder-unavailable: " ++ builder_reason)] else []))].
Definition build_provenance (target : json) (target_path : path) (planned : list (list pystr))
    (dry_run : bool) (builder_reason : pystr) : W K dict :=
  provenance ← provenance_body target target_path planned dry_run builder_reason;
  hash ← lift (canonical_digest (JDict (dict_set (u "inputs_hash") (JStr []) provenance)));
  mret (dict_set (u "inputs_hash") (JStr (u "sha256:" ++ hash)) provenance).

(** ** Subcommands *)

Definition _load_yaml_or_json (p : path) : pyres json :=
  text ← host_read p;
  if decide (path_suffix p = u ".yaml" ∨ path_suffix p = u ".yml") then
    match safe_load with
    | None => Err (Exn SystemExit (u "error: PyYAML required to read " ++ default [] (last p)
                                   ++ u "; install pyyaml or provide a .json target"))
    | Some load => load text
    end
  else py_loads text.
Definition _resolve_target (path_str : pystr) : pyres (path * json) :=
  let p := resolve path_str in
  if host_exists (posix p) then target ← _load_yaml_or_json p; Ok (p, target)
  else Err (Exn SystemExit (u "error: build target not found: " ++ posix p)).
Definition error_lines (errs : list pystr) : list line := map (λ e, Stderr (u "  - " ++ e)) errs.

Definition cmd_validate (target_arg : pystr) : C K Z :=
  '(target_path, target) ← lift (_resolve_target target_arg);
  errs ← lift (all_errors target);
  if decide (errs ≠ []) then
    eprint (u "INVALID: " ++ posix target_path) ;;
    emit_all (error_lines errs) ;;
    mret 1%Z
  else print (u "OK: " ++ posix target_path ++ u " is a valid BuildTarget") ;; mret 0%Z.

Section build.
Context `{Builder K}.

(** The commands of a real build in [workdir], up to the first that fails. *)
Fixpoint run_steps (workdir : pystr) (planned : list (list pystr)) : C K Z :=
  match planned with
  | [] => mret 0%Z
  | c :: rest =>
      print (10%N :: u "+ " ++ join (u " ") c) ;;
      returncode ← in_world (run_in workdir c);
      if negb (returncode =? 0)%Z then
        eprint (u "cosa step failed (rc=" ++ str_of_Z returncode ++ u "): " ++ join (u " ") c) ;;
        mret returncode
      else run_steps workdir rest
  end.

Record BuildArgs := {
  b_target : pystr; b_dry_run : bool; b_workdir : option pystr; b_emit_provenance : option pystr
}.
Definition workdir_of (args : BuildArgs) : pystr :=
  opt_or (b_workdir args) (default (u "/srv/cosa") (environ (u "COSA_WORKDIR"))).
Definition banner (name : json) (ok : bool) (reason : pystr) (dry : bool) (workdir : pystr)
    (planned : list (list pystr)) : list line :=
  map Stdout ([u "build target : " ++ py_str name;
               u "builder      : " ++ (if ok then u "available" else u "UNAVAILABLE") ++ u " (" ++ reason ++ u ")";
               u "mode         : " ++ (if dry then u "DRY-RUN" else u "REAL BUILD");
               u "workdir      : " ++ workdir;
               u "planned cosa command sequence:"]
              ++ map (λ c, u "  $ " ++ join (u " ") c) planned).
Definition no_builder : pystr := 10%N ::
  u "No usable builder on this host; ran in dry-run instead. The real `cosa build` step is HOST-GATED (Linux + /dev/kvm + cosa).".
Definition emit_provenance (args : BuildArgs) (prov : dict) : C K unit :=
  if opt_truthy (b_emit_provenance args) then
    let out := opt_or (b_emit_provenance args) [] in
    in_world (_write_json (path_join cwd out) (JDict prov)) ;;
    print (10%N :: u "provenance -> " ++ path_str out)
  else
    print (10%N :: u "provenance (stdout; pass --emit-provenance to write):") ;;
    print (pretty (JDict prov)).

Definition cmd_build (args : BuildArgs) : C K Z :=
  '(target_path, target) ← lift (_resolve_target (b_target args));
  errs ← lift (all_errors target);
  if decide (errs ≠ []) then
    eprint (u "INVALID build target " ++ posix target_path ++ u "; refusing to build:") ;;
    emit_all (error_lines errs) ;;
    mret 1%Z
  else
    let '(ok, reason) := builder_available in
    let forced_dry := b_dry_run args || negb ok in
    let workdir := workdir_of args in
    planned ← lift (plan_commands target workdir);
    name ← lift (meta ← py_subscript target (u "metadata"); py_subscript meta (u "name"));
    emit_all (banner name ok reason forced_dry workdir planned) ;;
    rc ← (if forced_dry then
            when (negb ok && negb (b_dry_run args)) (eprint no_builder) ;; mret 0%Z
          else in_world (make_dirs workdir) ;; run_steps workdir planned);
    when ((rc =? 0)%Z && (opt_truthy (b_emit_provenance args) || forced_dry))
      (prov ← in_world (build_provenance target target_path planned forced_dry reason);
       emit_provenance args prov) ;;
    mret rc.

Inductive cosa_command := Validate (target : pystr) | Build (args : BuildArgs).
Definition cosa_main (cmd : cosa_command) : C K Z :=
  match cmd with
  | Validate target => cmd_validate target
  | Build args => cmd_build args
  end.
End build.
End cosa.
