(* ===== verification/CosaFacts.v ===== *)
(** * The image build wrapper: facts

    The structural validator accepts exactly the well-shaped targets, for which
    the plan is total; a build publishes a provenance document exactly as far as
    its commands went; a dry run has no effect. *)
From S2P Require Import Prelude PyStr PyJson PyDict Errors PyOps PySet World Canon CanonFacts.
From S2P Require Import Host.
From S2P Require Import TimeUtil DeltaSurface Cosa.

(** ** Well-shaped targets *)

(** What the fallback validator means: the fields of [target] and its formats. *)
Record target_ok (target : json) (t m s : dict) (fmts : list pystr) : Prop := {
  ok_target : target = JDict t;
  ok_api : dict_get (u "apiVersion") t = Some (JStr (u "sourceos.ai/v0"));
  ok_kind : dict_get (u "kind") t = Some (JStr (u "BuildTarget"));
  ok_meta : dict_get (u "metadata") t = Some (JDict m);
  ok_name : truthy (dict_get_or JNull (u "name") m) = true;
  ok_spec : dict_get (u "spec") t = Some (JDict s);
  ok_fields : Forall (λ f, truthy (dict_get_or JNull f s) = true) required_fields;
  ok_arch : dict_get (u "architecture") s ∈ [Some (JStr (u "x86_64")); Some (JStr (u "aarch64"))];
  ok_formats : py_iter (dict_get_or JNull (u "outputFormats") s) = Some (strs fmts);
  ok_known : Forall (λ f, f ∈ allowed_formats) fmts
}.
(** The commands a target stands for. *)
Definition plan_of (root : path) (manifest : json) (fmts : list pystr) : list (list pystr) :=
  [[u "cosa"; u "init"; u "--force"; u "--src-dir=" ++ posix root; posix root];
   [u "cosa"; u "fetch"];
   [u "cosa"; u "build"; u "--manifest=" ++ py_str manifest]]
  ++ map (λ f, [u "cosa"; u "buildextend-" ++ f]) (filter (λ f, f ∈ extend_formats) fmts).

#[local] Arguments u : simpl never.

Lemma check_nil b msg : check b msg = [] ↔ b = false.
Proof. by destruct b. Qed.
Lemma py_eq_str v s : py_eq v (JStr s) = true ↔ v = JStr s.
Proof.
  destruct v; simpl; try (split; [done|by intros [=]]).
  rewrite bool_decide_eq_true. naive_solver.
Qed.
Lemma py_mem_str v ss : py_mem v (strs ss) = true ↔ ∃ s, s ∈ ss ∧ v = JStr s.
Proof.
  unfold py_mem, strs. rewrite existsb_exists. split.
  - intros (x & (s & <- & Hs)%in_map_iff & Hv%py_eq_str). exists s. by rewrite list_elem_of_In.
  - intros (s & Hs & ->). exists (JStr s). split; [|by apply py_eq_str]. apply in_map. by apply list_elem_of_In.
Qed.
Lemma in_set_ok x ss b : in_set x (strs ss) = Ok b → (b = true ↔ ∃ s, s ∈ ss ∧ x = JStr s).
Proof. unfold in_set. destruct (hashable x); [|done]. intros [= <-]. apply py_mem_str. Qed.
Lemma in_set_str s ss : in_set (JStr s) (strs ss) = Ok (bool_decide (s ∈ ss)).
Proof. unfold in_set. simpl. f_equal. apply py_mem_strs. Qed.
Lemma py_get_inv x k dflt v : py_get x k dflt = Ok v → ∃ d, x = JDict d ∧ v = dict_get_or dflt k d.
Proof. destruct x; try done. intros [= <-]. eauto. Qed.
Lemma dict_get_or_some k d v : dict_get_or JNull k d = v → v ≠ JNull → dict_get k d = Some v.
Proof. unfold dict_get_or. destruct (dict_get k d); simpl; congruence. Qed.
Lemma concat_map_res_nil {A B} (f : A → pyres (list B)) l ls :
  map_res f l = Ok ls → concat ls = [] ↔ Forall (λ x, f x = Ok []) l.
Proof.
  intros H%map_res_Ok. induction H as [|x y l ls Hx _ IH]; simpl; [done|].
  rewrite app_nil, Forall_cons, <-IH. split; intros [Hy ?]; (split; [|done]); congruence.
Qed.
(** A section of the target that has a truthy field is the section itself, not
    the default. *)
Lemma section_of target k x f v :
  get_or_empty target k = Ok x → py_get x f JNull = Ok v → truthy v = true →
  ∃ t d, target = JDict t ∧ x = JDict d ∧ dict_get k t = Some (JDict d) ∧ v = dict_get_or JNull f d.
Proof.
  unfold get_or_empty. intros H Hv Ht. run_inv. injection H as <-.
  apply py_get_inv in H0 as (t & -> & ->). apply py_get_inv in Hv as (d & Hd & ->).
  exists t, d. split; [done|]. unfold py_or in *. destruct (truthy (dict_get_or JNull k t)) eqn:Hk.
  - split; [done|]. split; [|done]. by apply dict_get_or_some.
  - injection Hd as <-. done.
Qed.

Lemma missing_field_ok spec s f : spec = JDict s →
  missing_field spec f = Ok [] ↔ truthy (dict_get_or JNull f s) = true.
Proof. intros ->. unfold missing_field. cbn. by destruct (truthy _). Qed.
Lemma unknown_format_ok f : unknown_format f = Ok [] ↔ ∃ s, s ∈ allowed_formats ∧ f = JStr s.
Proof.
  unfold unknown_format. destruct (in_set f (strs allowed_formats)) as [b|] eqn:Hb; cbn -[check].
  - rewrite <-(in_set_ok _ _ _ Hb). by destruct b.
  - split; [done|]. intros (s & _ & ->). by rewrite in_set_str in Hb.
Qed.
Lemma known_formats l :
  Forall (λ f, unknown_format f = Ok []) l ↔ ∃ fmts, l = strs fmts ∧ Forall (λ f, f ∈ allowed_formats) fmts.
Proof.
  split.
  - induction 1 as [|f l Hf _ (fmts & -> & Hl)]; [by exists []|].
    apply unknown_format_ok in Hf as (s & Hs & ->). exists (s :: fmts). split; [done|]. by constructor.
  - intros (fmts & -> & Hl). apply Forall_forall. intros x (s & -> & Hs)%list_elem_of_fmap.
    apply unknown_format_ok. exists s. rewrite Forall_forall in Hl. auto.
Qed.

Lemma missing_field_get spec f :
  missing_field spec f = Ok [] → ∃ v, py_get spec f JNull = Ok v ∧ truthy v = true.
Proof.
  unfold missing_field. intros H. run_inv. eexists. split; [done|].
  injection H as H%check_nil. by apply negb_false_iff in H.
Qed.
Lemma arch_known a s :
  a = dict_get_or JNull (u "architecture") s → truthy a = true →
  truthy a && negb (py_mem a (strs [u "x86_64"; u "aarch64"])) = false →
  dict_get (u "architecture") s ∈ [Some (JStr (u "x86_64")); Some (JStr (u "aarch64"))].
Proof.
  intros Ha Ht. rewrite Ht. cbn [andb]. rewrite negb_false_iff, py_mem_str. intros (t & Hin & ->).
  rewrite (dict_get_or_some _ _ _ (eq_sym Ha)) by done. set_solver.
Qed.

Lemma fallback_sound target : _fallback_validate target = Ok [] → ∃ t m s fmts, target_ok target t m s fmts.
Proof.
  unfold _fallback_validate. intros H. run_inv. injection H as H.
  rewrite !app_nil, !check_nil in H. destruct H as (Hapi & Hkind & Hname & Hmiss & Harch & Hunk).
  apply negb_false_iff in Hapi, Hkind, Hname. apply py_eq_str in Hapi, Hkind. subst.
  match goal with H : get_or_empty _ (u "metadata") = _, H' : py_get _ (u "name") _ = _ |- _ =>
    destruct (section_of _ _ _ _ _ H H' Hname) as (t & m & -> & -> & Hm & ->) end.
  match goal with H : map_res (missing_field _) _ = _ |- _ => apply (concat_map_res_nil _ _ _ H) in Hmiss end.
  pose proof Hmiss as Hfirst. apply Forall_inv in Hfirst as (v & Hv & Ht)%missing_field_get.
  match goal with H : get_or_empty _ (u "spec") = _ |- _ =>
    destruct (section_of _ _ _ _ _ H Hv Ht) as (? & s & [= <-] & -> & Hs & ->) end.
  match goal with H : map_res unknown_format _ = _ |- _ => apply (concat_map_res_nil _ _ _ H) in Hunk end.
  apply known_formats in Hunk as (fmts & -> & Hknown).
  assert (Hfields : Forall (λ f, truthy (dict_get_or JNull f s) = true) required_fields).
  { eapply Forall_impl; [exact Hmiss|]. intros f. by apply missing_field_ok. }
  repeat match goal with H : py_get (JDict _) _ _ = Ok _ |- _ => injection H as H end. subst.
  exists t, m, s, fmts. unfold required_fields in Hfields. rewrite !Forall_cons in Hfields.
  destruct Hfields as (? & ? & ? & Ha & Hf & _).
  split; try done.
  - by apply dict_get_or_some.
  - by apply dict_get_or_some.
  - by repeat constructor.
  - by eapply arch_known.
  - unfold py_or in *. rewrite Hf in *. unfold py_for, res_of_option in *. by case_match; simplify_eq.
Qed.

Lemma dict_get_or_eq k d v : dict_get k d = Some v → dict_get_or JNull k d = v.
Proof. unfold dict_get_or. by intros ->. Qed.
Lemma truthy_dict f d : truthy (dict_get_or JNull f d) = true → truthy (JDict d) = true.
Proof. by destruct d. Qed.
Lemma truthy_get f d : truthy (dict_get_or JNull f d) = true → dict_get f d = Some (dict_get_or JNull f d).
Proof. intros H. apply dict_get_or_some; [done|]. by intros E; rewrite E in H. Qed.
Lemma py_or_truthy x y : truthy x = true → py_or x y = x.
Proof. unfold py_or. by intros ->. Qed.
Lemma map_res_nils {A B} (f : A → pyres (list B)) l :
  Forall (λ x, f x = Ok []) l → map_res f l = Ok (map (λ _, []) l) ∧ concat (map (λ _, [] : list B) l) = [].
Proof. intros H. split; [by apply map_res_pure|]. clear H; induction l; [done|by simpl]. Qed.

Lemma fallback_complete target t m s fmts : target_ok target t m s fmts → _fallback_validate target = Ok [].
Proof.
  intros [-> Hapi Hkind Hmeta Hname Hspec Hfields Harch Hfmts Hknown].
  unfold _fallback_validate, get_or_empty. cbn [py_get mbind res_bind mret res_ret].
  rewrite (dict_get_or_eq _ _ _ Hapi), (dict_get_or_eq _ _ _ Hkind), (dict_get_or_eq _ _ _ Hmeta),
    (dict_get_or_eq _ _ _ Hspec).
  pose proof Hfields as Hf. unfold required_fields in Hf. rewrite !Forall_cons in Hf.
  destruct Hf as (Hflavor & _ & _ & Ha & Hv & _).
  rewrite (py_or_truthy _ _ (truthy_dict _ _ Hname)), (py_or_truthy _ _ (truthy_dict _ _ Hflavor)).
  cbn [mbind res_bind mret res_ret py_get].
  destruct (map_res_nils (missing_field (JDict s)) required_fields) as [Hm Hmc].
  { eapply Forall_impl; [exact Hfields|]. intros f. by apply missing_field_ok. }
  destruct (map_res_nils unknown_format (strs fmts)) as [Hu Huc]; [apply known_formats; eauto|].
  unfold py_for. rewrite Hm. cbn [res_bind].
  rewrite (py_or_truthy _ _ Hv), Hfmts. cbn [res_of_option mbind res_bind].
  rewrite Hu. cbn [mbind res_bind]. rewrite Hmc, Huc, Hname.
  rewrite !(proj2 (py_eq_str _ _) eq_refl). cbn [negb check app].
  rewrite !elem_of_cons, elem_of_nil in Harch.
  by destruct Harch as [E|[E|[]]]; rewrite (dict_get_or_eq _ _ _ E).
Qed.

(** ** The plan *)

Lemma map_res_extend fmts :
  map_res extend_command (strs fmts)
  = Ok (map (λ f, if decide (f ∈ extend_formats) then [[u "cosa"; u "buildextend-" ++ f]] else []) fmts).
Proof.
  unfold strs. induction fmts as [|f fmts IH]; [done|]. cbn [map map_res]. rewrite IH.
  unfold extend_command. rewrite in_set_str. cbn [mbind res_bind]. by case_bool_decide; case_decide.
Qed.
Lemma concat_extend fmts :
  concat (map (λ f, if decide (f ∈ extend_formats) then [[u "cosa"; u "buildextend-" ++ f]] else []) fmts)
  = map (λ f, [u "cosa"; u "buildextend-" ++ f]) (filter (λ f, f ∈ extend_formats) fmts).
Proof. induction fmts as [|f fmts IH]; [done|]. cbn [map concat]. rewrite filter_cons, IH. by case_decide. Qed.

Section cosa.
Context {K : Type} `{Env K} `{Host} `{CosaHost}.

Lemma target_ok_plan target t m s fmts workdir : target_ok target t m s fmts →
  plan_commands target workdir
  = Ok (plan_of repo_root (dict_get_or JNull (u "packageManifestRef") s) fmts).
Proof.
  intros [-> _ _ _ _ Hspec Hfields _ Hfmts _]. unfold plan_commands. cbn [py_subscript].
  unfold required_fields in Hfields. rewrite !Forall_cons in Hfields.
  destruct Hfields as (_ & _ & Hm & _ & Hv & _).
  unfold py_item. rewrite Hspec. cbn [res_of_option mbind res_bind py_subscript]. unfold py_item.
  rewrite (truthy_get _ _ Hm), (truthy_get _ _ Hv). cbn [res_of_option mbind res_bind].
  unfold py_for. rewrite Hfmts. cbn [res_of_option mbind res_bind].
  rewrite map_res_extend. cbn [mbind res_bind]. by rewrite concat_extend.
Qed.

(** C28: without [jsonschema] the structural check accepts exactly the targets
    that have the required fields, a known architecture and known formats, and
    for an accepted target the command plan exists: [cosa init], [fetch] and
    [build] of its manifest, then one [buildextend] per thick format, in the
    order given. *)
Theorem fallback_validate_plans target workdir :
  (_fallback_validate target = Ok [] ↔ ∃ t m s fmts, target_ok target t m s fmts) ∧
  ∀ t m s fmts, target_ok target t m s fmts →
    plan_commands target workdir
    = Ok (plan_of repo_root (dict_get_or JNull (u "packageManifestRef") s) fmts).
Proof.
  split; [split|].
  - apply fallback_sound.
  - intros (t & m & s & fmts & Ht). by eapply fallback_complete.
  - intros t m s fmts. apply target_ok_plan.
Qed.
End cosa.

(** ** Building *)

(** What the evidence gate reads of a provenance document (the contract stated
    in [build_provenance]): a PASS, a hash of the inputs, no blocker. *)
Definition admitted (prov : dict) : Prop :=
  dict_get (u "result") prov = Some (JStr (u "PASS")) ∧
  (∃ h, dict_get (u "inputs_hash") prov = Some (JStr h) ∧ h ≠ []) ∧
  dict_get (u "blockers") prov = Some (JList []).
(** The hash is the one of the document without it. *)
Definition hash_ok (prov : dict) : Prop :=
  ∃ h, canonical_digest (JDict (dict_set (u "inputs_hash") (JStr []) prov)) = Ok h ∧
    dict_get (u "inputs_hash") prov = Some (JStr (u "sha256:" ++ h)).

Lemma dict_set_set k v v' d : dict_set k v (dict_set k v' d) = dict_set k v d.
Proof.
  induction d as [|[k' x] d IH]; simpl; [by rewrite decide_True|].
  case_decide as Hk; simpl; [by rewrite decide_True|]. by rewrite decide_False, IH.
Qed.

(** Running commands one after the other in [wd] until one fails. *)
Inductive steps {K} `{Builder K} (wd : pystr) : list (list pystr) → World K → World K → pyres Z → Prop :=
  | steps_done w : steps wd [] w w (Ok 0%Z)
  | steps_next c cs w w1 w2 o :
      run_in wd c w = (w1, Ok 0%Z) → steps wd cs w1 w2 o → steps wd (c :: cs) w w2 o
  | steps_fail c cs w w1 rc :
      run_in wd c w = (w1, Ok rc) → rc ≠ 0%Z → steps wd (c :: cs) w w1 (Ok rc)
  | steps_raise c cs w w1 e :
      run_in wd c w = (w1, Err e) → steps wd (c :: cs) w w1 (Err e).
(** The same, in a directory that is made first. *)
Definition ran {K} `{Builder K} (wd : pystr) (cs : list (list pystr)) (w w' : World K) (o : pyres Z) : Prop :=
  ∃ w0, make_dirs wd w = (w0, Ok tt) ∧ steps wd cs w0 w' o.

Section build.
Context {K : Type} `{Env K} `{Host} `{CosaHost} `{!Builder K}.
Implicit Types (w : World K) (s : World K * list line).

Lemma run_emit_all ls s : emit_all ls s = ((s.1, s.2 ++ ls), Ok tt).
Proof.
  revert s. induction ls as [|l ls IH]; intros [w log]; simpl; [by rewrite app_nil_r|].
  rewrite run_bind. simpl. rewrite IH. simpl. by rewrite <-app_assoc.
Qed.
Lemma run_spawn c w :
  subprocess_run c [] w = match spawn c [] (w_kernel w) with
                          | (k, Ok r) => (set_kernel k w, Ok r)
                          | (_, Err msg) => (w, Err (Exn FileNotFoundError msg))
                          end.
Proof. unfold subprocess_run. cbn. by destruct (spawn c [] (w_kernel w)) as [k [r|msg]]. Qed.

Definition step_line (c : list pystr) : line := Stdout (10%N :: u "+ " ++ join (u " ") c).
Lemma run_steps_cons wd c rest s :
  run_steps wd (c :: rest) s =
  match run_in wd c s.1 with
  | (w1, Ok rc) =>
      let s1 := (w1, s.2 ++ [step_line c]) in
      if (rc =? 0)%Z then run_steps wd rest s1
      else ((s1.1, s1.2 ++ [Stderr (u "cosa step failed (rc=" ++ str_of_Z rc ++ u "): "
                                    ++ join (u " ") c)]), Ok rc)
  | (w1, Err e) => ((w1, s.2 ++ [step_line c]), Err e)
  end.
Proof.
  cbn [run_steps]. rewrite run_bind. cbn [print emit modify fst snd]. rewrite run_bind. unfold in_world at 1.
  cbn [fst snd]. destruct (run_in wd c s.1) as [w1 [rc|e]]; [|done].
  cbn [fst snd]. by destruct (rc =? 0)%Z.
Qed.
Lemma run_steps_spec wd planned s s' r :
  run_steps wd planned s = (s', r) → steps wd planned s.1 s'.1 r.
Proof.
  revert s. induction planned as [|c planned IH]; intros s; [by intros [= <- <-]; constructor|].
  rewrite run_steps_cons. destruct (run_in wd c s.1) as [w1 [rc|e]] eqn:Hs; cbn zeta.
  - destruct (Z.eqb_spec rc 0) as [->|Hr].
    + intros Hst%IH. by eapply steps_next.
    + intros [= <- <-]. by eapply steps_fail.
  - intros [= <- <-]. by eapply steps_raise.
Qed.

Lemma steps_det wd planned w w1 o1 :
  steps wd planned w w1 o1 → ∀ w2 o2, steps wd planned w w2 o2 → w1 = w2 ∧ o1 = o2.
Proof.
  induction 1 as [w|c cs w w1 w2 o Hs _ IH|c cs w w1 rc Hs Hr|c cs w w1 e Hs]; intros w3 o3 H3;
    inversion H3; subst; try match goal with Hs' : run_in wd c _ = _ |- _ => rewrite Hs in Hs'; simplify_eq end;
    try done; auto.
Qed.

(** ** The provenance document *)

Lemma any_raise {A} (r : pyres A) : raises_only (λ _, True) r.
Proof. by destruct r. Qed.

(** What reading the clock and running [git] may do is all that writing up a
    provenance does. *)
Lemma provenance_within (R : relation (World K)) `{!PreOrder R} target p planned dry reason :
  (∀ w, R w (tick w)) → (∀ a w, R w (subprocess_run (git a) [] w).1) →
  within R (λ _, True) (build_provenance target p planned dry reason).
Proof.
  intros Htick Hgit.
  assert (Hrun : ∀ a, within R (λ _, True) (run_or_none (git a))).
  { intros a. unfold run_or_none. eapply within_catch; [typeclasses eauto| |].
    - apply within_bind; [typeclasses eauto|intros w; split; [apply Hgit|apply any_raise]|intros r; within].
    - intros e _. within_step; [within|by apply within_raise; [typeclasses eauto|]]. }
  unfold build_provenance, provenance_body, _source_revision, _utc_now_iso, now_iso_utc.
  repeat within_step; first [apply any_raise | apply Hrun | by intros w; split; [apply Htick|]].
Qed.

Lemma provenance_spec target p planned dry reason w w' prov :
  build_provenance target p planned dry reason w = (w', Ok prov) →
  hash_ok prov ∧ (admitted prov ↔ dry = false).
Proof.
  unfold build_provenance. intros Hb. run_inv. subst prov.
  match goal with H : provenance_body _ _ _ _ _ _ = (_, Ok ?d) |- _ => rename d into body; rename H into Hd end.
  assert (Hbody : dict_get (u "result") body = Some (JStr (if dry then u "DRY_RUN" else u "PASS")) ∧
    dict_get (u "blockers") body
    = Some (JList (if dry then [JStr (u "builder-unavailable: " ++ reason)] else []))).
  { unfold provenance_body in Hd. run_inv. by subst body. }
  destruct Hbody as [Hres Hblk]. split.
  - eexists. split; [by rewrite dict_set_set|]. apply dict_get_set_eq.
  - unfold admitted. rewrite dict_get_set_eq, !dict_get_set_ne by done. rewrite Hres, Hblk.
    destruct dry; [by split; [intros [? _]|]|]. split; [done|intros _].
    split_and!; [done| |done]. eexists. by split.
Qed.

(** ** The build subcommand *)

(** Whether the commands are really run. *)
Definition real_build (args : BuildArgs) : bool := builder_available.1 && negb (b_dry_run args).
(** Making the directory and running the commands. *)
Definition run_plan (args : BuildArgs) (planned : list (list pystr)) : C K Z :=
  in_world (make_dirs (workdir_of args)) ;; run_steps (workdir_of args) planned.
Lemma run_plan_spec args planned s s' rc :
  run_plan args planned s = (s', Ok rc) → ran (workdir_of args) planned s.1 s'.1 (Ok rc).
Proof.
  unfold run_plan. rewrite run_bind. unfold in_world at 1.
  destruct (make_dirs (workdir_of args) s.1) as [w0 [[]|e]] eqn:Hm; cbn [fst snd]; [|done].
  intros Hst%run_steps_spec. by exists w0.
Qed.
Definition publishes (args : BuildArgs) (rc : Z) : bool :=
  (rc =? 0)%Z && (opt_truthy (b_emit_provenance args) || negb (real_build args)).
(** The end of [cmd_build], once the commands have answered [rc]. *)
Definition conclude (args : BuildArgs) (target : json) (p : path) (planned : list (list pystr)) (rc : Z) : C K Z :=
  when (publishes args rc)
    (prov ← in_world (build_provenance target p planned (negb (real_build args)) builder_available.2);
     emit_provenance args prov) ;;
  mret rc.
Definition name_of (target : json) : pyres json :=
  meta ← py_subscript target (u "metadata"); py_subscript meta (u "name").
(** What the command has settled before it starts anything: the target is valid,
    it has a plan and a name. *)
Record accepted (args : BuildArgs) (p : path) (target : json) (planned : list (list pystr)) (name : json) : Prop := {
  acc_target : _resolve_target (b_target args) = Ok (p, target);
  acc_errors : all_errors target = Ok [];
  acc_plan : plan_commands target (workdir_of args) = Ok planned;
  acc_name : name_of target = Ok name
}.
Definition banner_of (args : BuildArgs) name planned : list line :=
  banner name builder_available.1 builder_available.2 (negb (real_build args)) (workdir_of args) planned
  ++ (if negb (real_build args) && negb (b_dry_run args) then [Stderr no_builder] else []).

Lemma run_accepted args p target planned name s :
  accepted args p target planned name →
  cmd_build args s =
  match (if real_build args then run_plan args planned (s.1, s.2 ++ banner_of args name planned)
         else ((s.1, s.2 ++ banner_of args name planned), Ok 0%Z)) with
  | (s1, Ok rc) => conclude args target p planned rc s1
  | (s1, Err e) => (s1, Err e)
  end.
Proof.
  intros [Ht He Hp Hn]. unfold cmd_build, run_plan, conclude, publishes, banner_of, real_build.
  rewrite Ht, bind_lift_ok, He, bind_lift_ok. cbn beta iota.
  destruct (decide ([] ≠ [])) as [?|_]; [done|]. destruct builder_available as [ok reason].
  rewrite Hp, bind_lift_ok. unfold name_of in Hn. rewrite Hn, bind_lift_ok. cbn [fst snd].
  rewrite run_bind, run_emit_all, run_bind.
  destruct ok, (b_dry_run args); cbn [negb orb andb fst snd]; rewrite ?app_nil_r, ?app_assoc; done.
Qed.

Lemma cmd_build_accepted args s s' rc :
  cmd_build args s = (s', Ok rc) →
  (rc = 1%Z ∧ s'.1 = s.1) ∨ ∃ p target planned name, accepted args p target planned name.
Proof.
  intros Hb. pose proof Hb as Hb'. unfold cmd_build in Hb.
  apply run_bind_inv in Hb as (s1 & [p target] & Ht & Hb). apply lift_inv in Ht as [-> Ht].
  apply run_bind_inv in Hb as (s2 & errs & He & Hb). apply lift_inv in He as [-> He].
  case_decide as Herr.
  { left. rewrite run_bind in Hb. cbn [eprint emit modify] in Hb. rewrite run_bind, run_emit_all in Hb.
    by injection Hb as <- <-. }
  right. assert (errs = []) as -> by (by destruct errs; [|destruct Herr]).
  destruct builder_available as [ok reason].
  apply run_bind_inv in Hb as (s3 & planned & Hp & Hb). apply lift_inv in Hp as [-> Hp].
  apply run_bind_inv in Hb as (s4 & name & Hn & Hb). apply lift_inv in Hn as [-> Hn].
  exists p, target, planned, name. by split.
Qed.

Lemma git_same_files a w : w_fs w = w_fs (subprocess_run (git a) [] w).1.
Proof. rewrite run_spawn. by destruct (spawn (git a) [] (w_kernel w)) as [k [r|msg]]. Qed.
Lemma provenance_files target p planned dry reason w :
  w_fs (build_provenance target p planned dry reason w).1 = w_fs w.
Proof.
  symmetry. refine (proj1 (provenance_within (λ w w', w_fs w = w_fs w') _ _ _ _ _ _ _ w)).
  - split; [by intros ?|by intros ??? -> ->].
  - done.
  - intros a w0. apply git_same_files.
Qed.

(** [validate] answers for [build]: it changes nothing, and on the same
    target, with the structural check of the source (no [jsonschema]), an exit
    of 1 is the refusal of every build, with the same complaints, and an exit of
    0 means every build gets to its commands: the target has a plan and a name. *)
Theorem validate_answers_build args s s' rc :
  iter_errors = None → cmd_validate (b_target args) s = (s', Ok rc) →
  s'.1 = s.1 ∧
  ((rc = 1%Z ∧ ∃ p errs, errs ≠ [] ∧
      s'.2 = s.2 ++ Stderr (u "INVALID: " ++ posix p) :: error_lines errs ∧
      cmd_build args s = ((s.1, s.2 ++ Stderr (u "INVALID build target " ++ posix p ++ u "; refusing to build:")
                                     :: error_lines errs), Ok 1%Z))
   ∨ (rc = 0%Z ∧ ∃ p target planned name, accepted args p target planned name ∧
        s'.2 = s.2 ++ [Stdout (u "OK: " ++ posix p ++ u " is a valid BuildTarget")])).
Proof.
  intros Hschema Hv. unfold cmd_validate in Hv.
  apply run_bind_inv in Hv as (s1 & [p target] & Ht & Hv). apply lift_inv in Ht as [-> Ht].
  apply run_bind_inv in Hv as (s2 & errs & He & Hv). apply lift_inv in He as [-> He].
  case_decide as Herr.
  - rewrite run_bind in Hv. cbn [eprint emit modify] in Hv. rewrite run_bind, run_emit_all in Hv.
    injection Hv as <- <-. split; [done|]. left. split; [done|]. exists p, errs. cbn [fst snd].
    split; [done|]. rewrite <-!app_assoc. split; [done|].
    unfold cmd_build. rewrite Ht, bind_lift_ok, He, bind_lift_ok. cbn beta iota. rewrite decide_True by done.
    rewrite run_bind. cbn [eprint emit modify]. rewrite run_bind, run_emit_all. cbn [fst snd].
    by rewrite <-app_assoc.
  - assert (errs = []) as -> by (by destruct errs; [|destruct Herr]). injection Hv as <- <-.
    split; [done|]. right. split; [done|].
    assert (Hf : _fallback_validate target = Ok []).
    { pose proof He as Ha. unfold all_errors, validate_target in Ha. rewrite Hschema in Ha.
      destruct (_fallback_validate target) as [a|]; [|done]. cbn [mbind res_bind] in Ha.
      destruct (_semantic_checks target) as [b|]; [|done]. by injection Ha as [-> _]%app_nil. }
    destruct (fallback_sound _ Hf) as (t & m & sp & fmts & Hok).
    eexists p, target, _, _. split; [split; [exact Ht|exact He|exact (target_ok_plan _ _ _ _ _ _ Hok)|]|done].
    destruct Hok as [-> _ _ Hm Hn _ _ _ _ _]. unfold name_of. cbn [py_subscript]. unfold py_item.
    rewrite Hm. cbn [res_of_option mbind res_bind py_subscript]. unfold py_item. by rewrite (truthy_get _ _ Hn).
Qed.

(** What is left behind when the commands have answered [rc]. *)
Lemma conclude_spec args target p planned rc s s' rc' out :
  b_emit_provenance args = Some out → out ≠ [] →
  conclude args target p planned rc s = (s', Ok rc') →
  rc' = rc ∧
  if (rc =? 0)%Z then
    ∃ prov, w_fs s'.1 = <[path_join cwd out := pretty (JDict prov) ++ [10%N]]> (w_fs s.1) ∧
      hash_ok prov ∧ (admitted prov ↔ real_build args = true)
  else s' = s.
Proof.
  intros Hout Hne. unfold conclude, publishes. rewrite Hout.
  replace (opt_truthy (Some out)) with true by (by destruct out). rewrite orb_true_l, andb_true_r.
  intros Hc. destruct (rc =? 0)%Z eqn:Hrc; [|by injection Hc as <- <-].
  apply run_bind_inv in Hc as (s1 & x & Hw & Hc). cbn [when] in Hw.
  apply run_bind_inv in Hw as (s2 & prov & Hp & Hw). apply ret_inv in Hc as [-> ->]. split; [done|].
  unfold in_world in Hp. injection Hp as <- Hp.
  pose proof (provenance_files target p planned (negb (real_build args)) builder_available.2 s.1) as Hfs.
  destruct (build_provenance _ _ _ _ _ s.1) as [w2 r] eqn:Hb. cbn [fst snd] in *. subst r.
  exists prov. apply provenance_spec in Hb as [Hh Ha].
  split; [|split; [done|by rewrite Ha, negb_false_iff]].
  unfold emit_provenance in Hw. rewrite Hout in Hw.
  replace (opt_truthy (Some out)) with true in Hw by (by destruct out).
  replace (opt_or (Some out) []) with out in Hw by (by destruct out).
  rewrite run_bind in Hw. unfold in_world in Hw. rewrite run_write_json in Hw. injection Hw as <- _.
  cbn. by rewrite Hfs.
Qed.

(** C16: a build that was asked for a provenance file and ends normally is
    fail-closed.  Exit 0: the target was valid, the commands of its plan were
    run in order in the working directory and each exited 0 (none was run if the
    builder is not available or a dry run was asked for), and then the file was
    written, on top of what the commands had done; the document carries the hash
    of its own contents, and the evidence gate admits it exactly when the
    commands were run.  Any other exit: the program has written nothing itself;
    either the target was refused and nothing has changed, or the world is what
    the commands left, the last of them having failed with that exit code. *)
Theorem cmd_build_fail_closed args s s' rc out :
  b_emit_provenance args = Some out → out ≠ [] →
  cmd_build args s = (s', Ok rc) →
  (rc = 0%Z ∧ ∃ p target planned name prov w1,
     accepted args p target planned name ∧
     (if real_build args then ran (workdir_of args) planned s.1 w1 (Ok 0%Z) else w1 = s.1) ∧
     w_fs s'.1 = <[path_join cwd out := pretty (JDict prov) ++ [10%N]]> (w_fs w1) ∧
     hash_ok prov ∧
     (admitted prov ↔ builder_available.1 = true ∧ b_dry_run args = false))
  ∨ (rc ≠ 0%Z ∧
     (rc = 1%Z ∧ s'.1 = s.1 ∨
      real_build args = true ∧ ∃ p target planned name,
        accepted args p target planned name ∧ ran (workdir_of args) planned s.1 s'.1 (Ok rc))).
Proof.
  intros Hout Hne Hb. destruct (cmd_build_accepted _ _ _ _ Hb) as [[-> ->]|(p & target & planned & name & Hacc)];
    [right; split; [done|by left]|].
  rewrite (run_accepted _ _ _ _ _ _ Hacc) in Hb.
  assert (Hreal : real_build args = true ↔ builder_available.1 = true ∧ b_dry_run args = false)
    by (unfold real_build; rewrite andb_true_iff, negb_true_iff; done).
  destruct (if real_build args then _ else _) as [s1 [rc1|]] eqn:Hrun; [|done].
  assert (Hs : if real_build args then ran (workdir_of args) planned s.1 s1.1 (Ok rc1)
               else s1.1 = s.1 ∧ rc1 = 0%Z).
  { destruct (real_build args); [by apply run_plan_spec in Hrun|by injection Hrun as <- <-]. }
  destruct (conclude_spec _ _ _ _ _ _ _ _ _ Hout Hne Hb) as [-> Hc].
  destruct (Z.eqb_spec rc1 0) as [->|Hrc]; [left|right].
  - destruct Hc as (prov & Hfs & Hh & Ha). split; [done|].
    exists p, target, planned, name, prov, s1.1. rewrite <-Hreal. split_and!; try done.
    destruct (real_build args); [done|by destruct Hs].
  - split; [done|]. right. subst s'. destruct (real_build args); [|by destruct Hs]. eauto 8.
Qed.

(** ** Dry runs *)

(** [R] on the world of a console program. *)
Definition lifted (R : relation (World K)) : relation (World K * list line) := λ s s', R s.1 s'.1.
#[local] Instance lifted_preorder R `{!PreOrder R} : PreOrder (lifted R).
Proof. split; [intros s; unfold lifted; reflexivity|intros s1 s2 s3; unfold lifted; apply transitivity]. Qed.
Lemma within_in_world {A} R (P : exn → Prop) (m : W K A) : within R P m → within (lifted R) P (in_world m).
Proof. intros Hm s. apply Hm. Qed.
Lemma within_emit R `{!PreOrder R} P l : within (lifted R) P (emit l).
Proof. intros s. split; [unfold lifted; simpl; reflexivity|done]. Qed.
Lemma within_emit_all R `{!PreOrder R} P ls : within (lifted R) P (emit_all ls).
Proof. intros s. rewrite run_emit_all. split; [unfold lifted; simpl; reflexivity|done]. Qed.

(** A dry run does to the world what reading the clock, running [git] and
    writing the provenance file do. *)
Lemma dry_run_within (R : relation (World K)) `{!PreOrder R} args :
  real_build args = false →
  (∀ w, R w (tick w)) → (∀ a w, R w (subprocess_run (git a) [] w).1) →
  (∀ out w t, b_emit_provenance args = Some out → R w (set_fs (<[path_join cwd out := t]> (w_fs w)) w)) →
  within (lifted R) (λ _, True) (cmd_build args).
Proof.
  intros Hdry Htick Hgit Hwrite.
  assert (Hemit : ∀ prov, within (lifted R) (λ _, True) (emit_provenance args prov)).
  { intros prov. unfold emit_provenance, print. destruct (b_emit_provenance args) as [[|c out]|] eqn:Ho; cbn [opt_truthy].
    2: apply within_bind; [typeclasses eauto| |intros ?; by apply within_emit].
    2: { apply within_in_world. intros w. rewrite run_write_json. split; [by apply Hwrite|done]. }
    all: apply within_bind; [typeclasses eauto| |intros ?]; by apply within_emit. }
  unfold cmd_build, print, eprint. unfold real_build in Hdry.
  apply within_bind; [typeclasses eauto|apply within_lift; [typeclasses eauto|apply any_raise]|intros [p target]].
  destruct builder_available as [ok reason]. cbn [fst] in Hdry.
  replace (b_dry_run args || negb ok) with true by (destruct ok, (b_dry_run args); done).
  repeat first [ apply any_raise | apply Hemit | by apply within_emit | by apply within_emit_all
               | by apply within_in_world, provenance_within | within_step ].
Qed.

(** a dry run, forced by the option or by the lack of a builder, changes
    nothing outside the provenance file it is asked for, whatever its outcome:
    it starts no [cosa] command, and the two [git] queries only read. *)
Theorem dry_run_harmless args s :
  real_build args = false → (∀ a k, (spawn (git a) [] k).1 = k) →
  let w' := (cmd_build args s).1.1 in
  w_kernel w' = w_kernel s.1 ∧ w_db w' = w_db s.1 ∧
  ∀ q, (∀ out, b_emit_provenance args = Some out → q ≠ path_join cwd out) → w_fs w' !! q = w_fs s.1 !! q.
Proof.
  intros Hdry Hgit.
  set (R w w' := w_kernel w' = w_kernel w ∧ w_db w' = w_db w ∧
    ∀ q, (∀ out, b_emit_provenance args = Some out → q ≠ path_join cwd out) → w_fs w' !! q = w_fs w !! q).
  refine (proj1 (dry_run_within R args Hdry _ _ _ s)).
  - split; [by intros w|]. intros w1 w2 w3 (E1 & E2 & E3) (F1 & F2 & F3).
    split_and!; [congruence|congruence|intros q Hq; by rewrite F3, E3].
  - done.
  - intros a w. rewrite run_spawn. specialize (Hgit a (w_kernel w)).
    destruct (spawn (git a) [] (w_kernel w)) as [k [r|msg]]; simpl in *; subst; done.
  - intros out w t Hout. split_and!; [done|done|]. intros q Hq. cbn.
    rewrite lookup_insert_ne; [done|]. intros E. by apply (Hq out).
Qed.

(** ** Targets outside the repository *)

Definition outside_repo (p : path) : Prop := take (length repo_root) p ≠ repo_root.
(** [m] raises, and only reads the clock before. *)
Definition fails {A} (m : W K A) : Prop := ∀ w, ∃ w' e, m w = (w', Err e) ∧
  w_kernel w' = w_kernel w ∧ w_fs w' = w_fs w ∧ w_db w' = w_db w.
Lemma fails_err {A B} e (f : A → W K B) : fails (lift (Err e) ≫= f).
Proof. intros w. by exists w, e. Qed.
Lemma fails_lift {A B} (r : pyres A) (f : A → W K B) : (∀ a, fails (f a)) → fails (lift r ≫= f).
Proof. intros Hf. destruct r as [a|e]; [intros w; apply (Hf a)|apply fails_err]. Qed.
Lemma fails_clock {B} (f : pystr → W K B) : (∀ a, fails (f a)) → fails (_utc_now_iso ≫= f).
Proof.
  intros Hf w. destruct (Hf (iso_utc (clock (w_tick w))) (tick w)) as (w' & e & Hw & H'). by exists w', e.
Qed.
Lemma fails_bind {A B} (m : W K A) (f : A → W K B) : fails m → fails (m ≫= f).
Proof. intros Hm w. destruct (Hm w) as (w' & e & Hw & H'). exists w', e. by rewrite run_bind, Hw. Qed.
Lemma provenance_outside target p planned dry reason :
  outside_repo p → fails (build_provenance (K:=K) target p planned dry reason).
Proof.
  intros Hp. unfold build_provenance, provenance_body, relative_to_repo. rewrite decide_False by done.
  apply fails_bind. repeat first [apply fails_err | apply fails_lift; intros ? | apply fails_clock; intros ?].
Qed.

(** C37: a target outside the repository passes validation and is built in full,
    and only then the provenance fails: every command has run and exited 0, the
    command ends with an exception and writes no file. *)
Theorem build_outside_repo args s p target planned name w1 :
  accepted args p target planned name → outside_repo p → real_build args = true →
  opt_truthy (b_emit_provenance args) = true →
  ran (workdir_of args) planned s.1 w1 (Ok 0%Z) →
  ∃ s' e, cmd_build args s = (s', Err e) ∧ w_fs s'.1 = w_fs w1 ∧ w_kernel s'.1 = w_kernel w1.
Proof.
  intros Hacc Hp Hreal Hemit (w0 & Hm & Hk). rewrite (run_accepted _ _ _ _ _ _ Hacc), Hreal.
  unfold run_plan. rewrite run_bind. unfold in_world at 1. cbn [fst snd]. rewrite Hm.
  destruct (run_steps _ planned _) as [s1 r] eqn:Hs.
  apply run_steps_spec in Hs. cbn [fst] in *.
  destruct (steps_det _ _ _ _ _ Hk _ _ Hs) as [-> <-].
  unfold conclude, publishes. rewrite Hemit, Hreal. cbn [orb andb negb Z.eqb when].
  destruct (provenance_outside target p planned false builder_available.2 Hp s1.1) as (w' & e & Hw & Hkr & Hf & _).
  exists (w', s1.2), e. cbn [fst snd Z.eqb andb when]. rewrite !run_bind. unfold in_world at 1. rewrite Hw. cbn [fst snd]. done.
Qed.
End build.

(** ** A concrete build host

    The theorems above applied to a Linux host with a builder and to one without,
    on a small target inside and outside the repository. *)

Module Demo.
(** The state behind the programs is the list of the commands run; [git] only
    reads. *)
Definition done_ (out : pystr) : completed := {| returncode := 0; stdout := out; stderr := [] |}.
#[export] Instance build_env : Env (list (list pystr)) := {|
  clock n := (1700000000 + Z.of_nat n)%Z;
  spawn argv _ k := (k, Ok (done_ (u "abc")))
|}.
(** A builder whose commands succeed; the second one writes a log. *)
Definition built (argv : list pystr) (w : World (list (list pystr))) : World (list (list pystr)) :=
  let w' := set_kernel (w_kernel w ++ [argv]) w in
  if decide (argv = [u "cosa"; u "fetch"]) then set_fs (<[[u "srv"; u "cosa"; u "log"] := u "fetched"]> (w_fs w)) w'
  else w'.
#[export] Instance demo_builder : Builder (list (list pystr)) := {|
  make_dirs _ := mret tt; run_in _ argv w := (built argv w, Ok 0%Z) |}.
Definition demo_target : json := JDict [
  (u "apiVersion", JStr (u "sourceos.ai/v0")); (u "kind", JStr (u "BuildTarget"));
  (u "metadata", JDict [(u "name", JStr (u "demo"))]);
  (u "spec", JDict [
    (u "flavorRef", JStr (u "f.yaml")); (u "ostreeRef", JStr (u "o/x")); (u "packageManifestRef", JStr (u "m.yaml"));
    (u "architecture", JStr (u "x86_64")); (u "outputFormats", JList (strs [u "ostree"; u "iso"]))])].
#[export] Instance build_host : Host := {|
  uname := {| un_system := u "Linux"; un_node := []; un_release := []; un_version := [];
              un_machine := u "x86_64"; un_processor := [] |};
  uuid_hex n := [];
  host_text p := Some (dumps opts_default false demo_target);
  host_bytes p := Some [1; 2; 3]%N;
  host_exists p := true; host_is_dir p := true
|}.
Definition cosa_host (system : pystr) : CosaHost := {|
  repo_root := [u "repo"]; cwd := [u "work"]; resolve s := path_join [u "repo"] s;
  read_error p := Exn OSError p; platform_system := system;
  which _ := Some (u "/usr/bin/cosa"); environ _ := None; safe_load := None; iter_errors := None
|}.
Definition build_args (target : string) (dry : bool) : BuildArgs := {|
  b_target := u target; b_dry_run := dry; b_workdir := None; b_emit_provenance := Some (u "p.json") |}.
Definition idle : World (list (list pystr)) * list line :=
  ({| w_db := None; w_fs := ∅; w_kernel := []; w_euid := 0; w_tick := 0 |}, []).
Definition demo_plan : list (list pystr) := plan_of [u "repo"] (JStr (u "m.yaml")) [u "ostree"; u "iso"].

Definition all_built : World (list (list pystr)) := foldl (flip built) idle.1 demo_plan.
Lemma demo_ran wd : ran wd demo_plan idle.1 all_built (Ok 0%Z).
Proof. exists idle.1. split; [done|]. repeat (eapply steps_next; [reflexivity|]). constructor. Qed.
Lemma run_pair {A B} (x : A * B) b : x.2 = b → x = (x.1, b).
Proof. intros <-. by destruct x. Qed.

Lemma fallback_validate_plans_witness :
  let _ := cosa_host (u "Linux") in
  ∃ t m s fmts, target_ok demo_target t m s fmts ∧ plan_commands demo_target [] = Ok demo_plan ∧
    plan_commands demo_target [] = Ok (plan_of repo_root (dict_get_or JNull (u "packageManifestRef") s) fmts).
Proof.
  intros h. assert (Hv : _fallback_validate demo_target = Ok []) by (vm_compute; reflexivity).
  destruct (fallback_validate_plans demo_target []) as [[Hs _] Hp].
  destruct (Hs Hv) as (t & m & s & fmts & Hok). exists t, m, s, fmts.
  split; [exact Hok|]. split; [vm_compute; reflexivity|exact (Hp t m s fmts Hok)].
Defined.

Lemma cmd_build_fail_closed_witness :
  let _ := cosa_host (u "Linux") in
  let args := build_args "t.json" false in
  ∃ p target planned name prov w1,
    accepted args p target planned name ∧ ran (workdir_of args) planned idle.1 w1 (Ok 0%Z) ∧
    w_fs (cmd_build args idle).1.1 = <[[u "work"; u "p.json"] := pretty (JDict prov) ++ [10%N]]> (w_fs w1) ∧
    hash_ok prov ∧ admitted prov.
Proof.
  intros h args.
  assert (Hr : (cmd_build args idle).2 = Ok 0%Z) by (vm_compute; reflexivity).
  destruct (cmd_build_fail_closed args idle _ 0%Z (u "p.json") eq_refl ltac:(done) (run_pair _ _ Hr))
    as [(_ & p & target & planned & name & prov & w1 & Hacc & Hran & Hfs & Hh & Ha)|[Hne _]]; [|by destruct Hne].
  exists p, target, planned, name, prov, w1. split; [exact Hacc|]. split; [exact Hran|]. split; [exact Hfs|].
  split; [exact Hh|]. apply Ha. split; reflexivity.
Defined.

Lemma dry_run_harmless_witness :
  let _ := cosa_host (u "Darwin") in
  w_kernel (cmd_build (build_args "t.json" false) idle).1.1 = [].
Proof. intros h. refine (proj1 (dry_run_harmless _ idle _ _)); [reflexivity|]. by intros a k. Defined.

Lemma build_outside_repo_witness :
  let _ := cosa_host (u "Linux") in
  ∃ s' e, cmd_build (build_args "/tmp/t.json" false) idle = (s', Err e) ∧ w_kernel s'.1 = demo_plan ∧
    w_fs s'.1 = {[ [u "srv"; u "cosa"; u "log"] := u "fetched" ]}.
Proof.
  intros h.
  destruct (build_outside_repo (build_args "/tmp/t.json" false) idle [u "tmp"; u "t.json"] demo_target demo_plan
    (JStr (u "demo")) all_built) as (s' & e & Hb & Hf & Hk).
  - split; vm_compute; reflexivity.
  - by vm_compute.
  - reflexivity.
  - reflexivity.
  - apply demo_ran.
  - exists s', e. split; [exact Hb|]. rewrite Hf, Hk. by split.
Defined.

Lemma validate_answers_build_witness :
  let _ := cosa_host (u "Linux") in
  ∃ p target planned name, accepted (build_args "t.json" false) p target planned name.
Proof.
  intros h.
  assert (Hr : (cmd_validate (u "t.json") idle).2 = Ok 0%Z) by (vm_compute; reflexivity).
  assert (Hs : iter_errors = None) by reflexivity.
  destruct (validate_answers_build (build_args "t.json" false) idle _ 0%Z Hs (run_pair _ _ Hr))
    as [_ [[H0 _]|(_ & p & target & planned & name & Hacc & _)]]; [discriminate H0|].
  by exists p, target, planned, name.
Defined.
End Demo.
