(* ===== verification/Smoke.v ===== *)
(** * The truth-plane smoke harness (src/tools/sourceos_truth_plane_smoke.py)

    [main] exercises the gate, the surface and delta emitters and an incident
    event together.  Files are named relative to the store root, as in the
    gate; [jsonschema] is a parameter. *)
From S2P Require Import Prelude PyStr PyJson Errors PyOps World Canon Host DeltaSurface.
From S2P Require Import TruthSurface Nft.
From S2P Require Egress.

Record SmokeArgs := {
  k_store_root : pystr; k_validate : bool; k_deterministic : bool; k_egress_demo : bool
}.

(** What the harness finds on its host.  [validate_schema spec_dir schema
    payload] is [jsonschema.validate] with a resolver for [spec_dir]; [None]
    when the package is not installed. *)
Class SmokeHost := {
  getenv : pystr → option pystr;
  expanduser : pystr → path;
  home : path;
  schema_error : pystr → exn;                       (* what [read_text] raises *)
  validate_schema : option (path → json → dict → pyres unit)
}.

(** The imports of the program, before [main] is defined: the gate from
    <root>/src, the two emitters from the package [tools]. *)
Definition smoke_imports `{Host} (l : Launch) : pyres unit :=
  let sys_path := add_src (l_root l) (l_path l) in
  d ← import_package (u "sourceos_gate") sys_path;
  import_module d (u "sourceos_gate") (u "egress") ≫= λ _,
  root ← import_package (u "tools") sys_path;
  import_from root (u "tools") (u "sourceos_truth_surface") ≫= λ _,
  import_from root (u "tools") (u "sourceos_delta_surface").

(** ** The arguments of the emitters *)

Definition smoke_surface_args (id : option pystr) (created_at : pystr) : SurfaceArgs := {|
  s_plane := u "system.sealed"; s_spec_version := u "2.0.0"; s_id := id; s_created_at := Some created_at;
  s_signer := u "sourceos-truth-surface"; s_policy_pack_digest := None;
  s_risk_score := 0; s_risk_threshold := 30;
  s_human_approval_required := false; s_human_approved := false;
  s_evidence_required := [u "logs"; u "policy_decision"]; s_evidence_present := [u "logs"; u "policy_decision"];
  s_policy_decision_ref := []; s_capability_token_id := []; s_run_record_ref := []; s_provenance_ref := [];
  s_telemetry_ref := []; s_evidence_bundle_ref := []; s_cairn_before_ref := None; s_cairn_after_ref := None;
  s_anchor := [u "B1"]; s_topic := [u "boot.integrity"]; s_glossary_ref := []; s_extra_hash_path := [] |}.
Definition smoke_delta_args (id : option pystr) (created_at : pystr) : DeltaArgs := {|
  d_spec_version := u "2.0.0"; d_id := id; d_created_at := Some created_at;
  d_signer := u "sourceos-delta-surface"; d_from_ref := None; d_to_ref := None;
  d_risk_score := 0; d_risk_threshold := 30;
  d_human_approval_required := false; d_human_approved := false |}.
(** [x if args.deterministic else None] *)
Definition fixed_id (args : SmokeArgs) (id : pystr) : option pystr := if k_deterministic args then Some id else None.

Definition surface_file_at (stamp : pystr) : path :=
  path_join [u "truth"; u "surfaces"; u "system.sealed"] stamp ++ [u "truth-surface.json"].
Definition delta_file_at (stamp : pystr) : path :=
  path_join [u "truth"; u "deltas"; u "system.sealed"] stamp ++ [u "delta-surface.json"].
Definition incident_file_at (stamp : pystr) : path :=
  path_join [u "incidents"; u "incident.freeze"] stamp ++ [u "incident-event.json"].

Definition smoke_incident (args : SmokeArgs) (d2 occurred_at : pystr) (surface_ref delta_ref : json) : dict := [
  (u "event_id", JStr (if k_deterministic args then u "evt_smoke_0001" else u "evt_" ++ d2));
  (u "event_name", JStr (u "incident.freeze"));
  (u "occurred_at", JStr occurred_at);
  (u "actor", JDict [(u "kind", JStr (u "service")); (u "id", JStr (u "sourceos-incident"))]);
  (u "status", JStr (u "succeeded"));
  (u "refs", JDict [(u "truth_surface_ref", surface_ref); (u "delta_surface_ref", delta_ref)]);
  (u "payload", JDict [(u "notes", JStr (u "smoke harness event-only; no privileged actions"))])].

(** What a run has emitted, and where. *)
Record SmokeRun := {
  r_surface0 : dict; r_surface1 : dict; r_delta : dict; r_incident : dict;
  r_p0 : path; r_p1 : path; r_pd : path; r_pi : path
}.

Section smoke.
Context {K : Type} `{Env K} `{Host} `{SmokeHost}.

Definition smoke_time (args : SmokeArgs) (fixed : pystr) : W K pystr :=
  if k_deterministic args then mret fixed else _utc_now_iso.

Definition smoke_documents (args : SmokeArgs) : W K SmokeRun :=
  created0 ← smoke_time args (u "2026-04-15T00:00:00Z");
  created1 ← smoke_time args (u "2026-04-15T00:01:00Z");
  surface0 ← build_surface (smoke_surface_args (fixed_id args (u "urn:srcos:truth-surface:ts_smoke_0000")) created0);
  surface1 ← build_surface (smoke_surface_args (fixed_id args (u "urn:srcos:truth-surface:ts_smoke_0001")) created1);
  let p0 := surface_file_at (compact_stamp created0) in
  let p1 := surface_file_at (compact_stamp created1) in
  _write_json p0 (JDict surface0) ;;
  _write_json p1 (JDict surface1) ;;
  created2 ← smoke_time args (u "2026-04-15T00:02:00Z");
  let dns := smoke_delta_args (fixed_id args (u "urn:srcos:delta-surface:ds_smoke_0001")) created2 in
  delta ← build_delta (JDict surface0) (JDict surface1) dns;
  d2 ← lift (stamp_of delta);
  let pd := delta_file_at d2 in
  _write_json pd (JDict delta) ;;
  surface_ref ← lift (py_item surface1 (u "id"));
  delta_ref ← lift (py_item delta (u "id"));
  let incident := smoke_incident args d2 created2 surface_ref delta_ref in
  let pi := incident_file_at d2 in
  _write_json pi (JDict incident) ;;
  mret {| r_surface0 := surface0; r_surface1 := surface1; r_delta := delta; r_incident := incident;
          r_p0 := p0; r_p1 := p1; r_pd := pd; r_pi := pi |}.

(** ** Schema validation *)

Definition _find_sourceos_spec_dir : option path :=
  let default_dir := home ++ [u "dev"; u "sourceos-spec"] in
  let fallback := if host_is_dir (posix (default_dir ++ [u "schemas"])) then Some default_dir else None in
  let env := getenv (u "SOURCEOS_SPEC_DIR") in
  if opt_truthy env then
    let p := expanduser (opt_or env []) in
    if host_is_dir (posix (p ++ [u "schemas"])) then Some p else fallback
  else fallback.
Definition surface_schema (spec_dir : path) : path := spec_dir ++ [u "schemas"; u "TruthSurface.json"].
Definition delta_schema (spec_dir : path) : path := spec_dir ++ [u "schemas"; u "DeltaSurface.json"].
Definition incident_schema (spec_dir : path) : path :=
  spec_dir ++ [u "schemas"; u "control-plane"; u "IncidentEvent.json"].
Definition _validate_jsonschema (spec_dir schema_path : path) (payload : dict) : pyres unit :=
  match validate_schema with
  | None => Err (Exn RuntimeError (u "jsonschema not installed"))
  | Some validate =>
      text ← res_of_option (schema_error (posix schema_path)) (host_text (posix schema_path));
      schema ← py_loads text;
      validate spec_dir schema payload
  end.
Definition validate_run (spec_dir : path) (r : SmokeRun) : pyres unit :=
  _validate_jsonschema spec_dir (surface_schema spec_dir) (r_surface0 r) ≫= λ _,
  _validate_jsonschema spec_dir (surface_schema spec_dir) (r_surface1 r) ≫= λ _,
  _validate_jsonschema spec_dir (delta_schema spec_dir) (r_delta r) ≫= λ _,
  if host_exists (posix (incident_schema spec_dir))
  then _validate_jsonschema spec_dir (incident_schema spec_dir) (r_incident r) else Ok tt.
(** The line printed, or the [SystemExit] of a failed validation. *)
Definition smoke_validate (r : SmokeRun) : pyres (list pystr) :=
  match _find_sourceos_spec_dir with
  | None => Ok [u "SKIP: SOURCEOS_SPEC_DIR not set and ~/dev/sourceos-spec not found"]
  | Some spec_dir =>
      match validate_run spec_dir r with
      | Ok _ => Ok [u "OK: schema validation passed"]
      | Err e => Err (if isinstance e Exception
                      then Exn SystemExit (u "ERR: schema validation failed: " ++ exn_str e) else e)
      end
  end.

(** ** The egress demo *)

Definition egress_demo : W K unit :=
  euid ← gets w_euid;
  if decide (euid ≠ 0%Z) then raise (Exn SystemExit (u "ERR: --egress-demo requires root")) else
  now ← now_epoch;
  let exp := (now + 3600)%Z in
  Egress.install_grant default_cfg (u "tok_smoke_tcp") (u "n_tcp") exp [u "10.0.0.1/32"] [443%Z] (u "tcp") false ;;
  Egress.install_grant default_cfg (u "tok_smoke_udp") (u "n_udp") exp [u "10.0.0.1/32"] [53%Z] (u "udp") false ;;
  Egress.apply default_cfg ;;
  Egress.verify default_cfg.

Definition shown (args : SmokeArgs) (p : path) : pystr :=
  path_str (k_store_root args ++ u "/" ++ join (u "/") p).
Definition smoke_report (args : SmokeArgs) (r : SmokeRun) : list pystr :=
  [u "OK:"; u "  ts0: " ++ shown args (r_p0 r); u "  ts1: " ++ shown args (r_p1 r);
   u "  ds : " ++ shown args (r_pd r); u "  inc: " ++ shown args (r_pi r)]
  ++ (if k_egress_demo args then [u "  egress: applied+verified"] else []).

(** [main], called once the imports have succeeded, returns its exit status and
    the lines it prints. *)
Definition smoke_main (args : SmokeArgs) : W K (Z * list pystr) :=
  Egress.init ;;
  r ← smoke_documents args;
  checked ← (if k_validate args then lift (smoke_validate r) else mret []);
  when (k_egress_demo args) egress_demo ;;
  mret (0%Z, checked ++ smoke_report args r).
End smoke.
