(* ===== verification/CcEval.v ===== *)
(** * The compression estimator (src/tools/cc_eval.py)

    Novelty and redundancy of an artifact against a baseline.  [zlib] and
    [lzma] are C libraries: parameters. *)
From S2P Require Import Prelude PyStr PyFloat PyJson Errors PyOps World Canon Host.
From Stdlib Require Import SpecFloat.

Class Compressors := {
  zlib_compress : list N → list N;
  lzma_compress : list N → list N;
  open_error : pystr → exn                    (* what [open] or [read] raises *)
}.
Record CcArgs := { c_artifact : pystr; c_baseline : pystr; c_producer : pystr; c_intent : pystr }.

Definition sha256_bytes (b : list N) : pystr := _sha256_hex b.

(** One compressor's share of the estimate. *)
Record Term := {
  t_baseline : Z; t_artifact : Z; t_concat : Z; t_novelty : Z; t_redundancy : pyfloat
}.
Definition term_json (t : Term) : json := JDict [
  (u "compressed_baseline", JInt (t_baseline t)); (u "compressed_artifact", JInt (t_artifact t));
  (u "compressed_concat", JInt (t_concat t)); (u "novelty_term", JInt (t_novelty t));
  (u "redundancy_term", JFloat (t_redundancy t))].

Section cc.
Context `{Compressors}.

Definition len (b : list N) : Z := Z.of_nat (length b).
Definition compress_sizes (b : list N) : list (pystr * Z) :=
  [(u "zlib", len (zlib_compress b)); (u "lzma", len (lzma_compress b))].
(** [sizes[k]] *)
Definition size_at (sizes : list (pystr * Z)) (k : pystr) : pyres Z :=
  res_of_option (Exn KeyError (repr k)) (snd <$> List.find (λ kv, bool_decide (kv.1 = k)) sizes).

Definition term_of (sB sX sBX : list (pystr * Z)) (artifact : list N) (k : pystr) : pyres (pystr * Term) :=
  b ← size_at sB k; x ← size_at sX k; bx ← size_at sBX k;
  raw_ratio ← int_truediv x (Z.max 1 (len artifact));
  red ← float_truediv (float_of_decimal false 1 0) (float_max (float_of_decimal false 1 (-12)) raw_ratio);
  Ok (k, {| t_baseline := b; t_artifact := x; t_concat := bx; t_novelty := (b + x - bx)%Z; t_redundancy := red |}).

Definition novelty_and_redundancy (baseline artifact : list N) : pyres (pyfloat * pyfloat * json) :=
  let sB := compress_sizes baseline in
  let sX := compress_sizes artifact in
  let sBX := compress_sizes (baseline ++ [10%N] ++ artifact) in
  terms ← map_res (term_of sB sX sBX artifact) (sorted (map fst sB));
  let n := Z.max 1 (Z.of_nat (length terms)) in
  novelty ← int_truediv (foldr Z.add 0%Z (map (λ kt, t_novelty kt.2) terms)) n;
  count ← py_float n;
  redundancy ← float_truediv (float_sum (map (λ kt, t_redundancy kt.2) terms)) count;
  Ok (novelty, redundancy, JDict [
    (u "estimators", JList [JStr (u "zlib"); JStr (u "lzma")]);
    (u "detail", JDict (map (λ kt, (kt.1, term_json kt.2)) terms));
    (u "definition", JDict [
      (u "novelty", JStr (u "avg(|C(B)| + |C(X)| - |C(B+X)|) over compressors"));
      (u "redundancy", JStr (u "avg(1/(|C(X)|/|X|)) over compressors"))])]).

(** The bytes of ASCII text ([s.encode("utf-8")] of a hexadecimal digest). *)
Definition metric_id (baseline artifact : list N) : pyres pystr :=
  b ← py_encode (sha256_bytes baseline ++ sha256_bytes artifact); Ok (sha256_bytes b).

Context {K : Type} `{Env K} `{Host}.

Definition read_bytes (path : pystr) : pyres (list N) := res_of_option (open_error path) (host_bytes path).

Definition cc_document (args : CcArgs) (artifact baseline : list N) (est : pyfloat * pyfloat * json)
    (ts : pystr) : pyres dict :=
  let '(novelty, redundancy, estimator_set) := est in
  volume ← py_float (len artifact);
  mid ← metric_id baseline artifact;
  Ok [
    (u "version", JInt 0); (u "module", JStr (u "compression-commons")); (u "timestamp", JStr ts);
    (u "artifact", JDict [
      (u "artifact_id", JStr (sha256_bytes artifact)); (u "content_hash", JStr (sha256_bytes artifact));
      (u "producer", JStr (c_producer args)); (u "volume", JFloat volume);
      (u "declared_intent", match c_intent args with [] => JNull | s => JStr s end)]);
    (u "baseline", JDict [
      (u "snapshot_id", JStr (sha256_bytes baseline)); (u "corpus_root_hash", JStr (sha256_bytes baseline))]);
    (u "metrics", JDict [
      (u "metric_id", JStr mid); (u "novelty", JFloat novelty); (u "redundancy", JFloat redundancy);
      (u "estimator_set", estimator_set)])].
(** [main] returns its exit status and what it prints. *)
Definition cc_main (args : CcArgs) : W K (Z * pystr) :=
  artifact ← lift (read_bytes (c_artifact args));
  baseline ← lift (read_bytes (c_baseline args));
  est ← lift (novelty_and_redundancy baseline artifact);
  ts ← _utc_now_iso;
  out ← lift (cc_document args artifact baseline est ts);
  mret (0%Z, pretty (JDict out) ++ [10%N]).
End cc.
