(* ===== verification/ToolArgs.v ===== *)
(** * The command lines of the programs

    The [ArgumentParser] each program builds, the namespace read back as the
    arguments its [main] is modelled with, and the programs from their argument
    strings on.  A namespace is read by [option]: the value of a string option
    can be an empty list (Argparse.get_explicit), and a store root that is
    printed must be absolute here; [None] stands for these two cases. *)
From S2P Require Import Prelude PyStr PyJson Errors PyOps PySet World Canon Host Argparse.
From S2P Require Import Interface Cli Ctl Serve Incident Smoke CcEval Cosa.
From S2P Require TruthSurface DeltaSurface Tick.
Import TruthSurface (SurfaceArgs, Build_SurfaceArgs) DeltaSurface (DeltaArgs, Build_DeltaArgs).
Import Tick (TickArgs, Build_TickArgs).

(** ** Reading a namespace *)

Definition get_str (k : string) (d : dict) : option pystr :=
  match dict_get (u k) d with Some (JStr s) => Some s | _ => None end.
Definition get_opt (k : string) (d : dict) : option (option pystr) :=
  match dict_get (u k) d with Some (JStr s) => Some (Some s) | Some JNull => Some None | _ => None end.
Definition get_int (k : string) (d : dict) : option Z :=
  match dict_get (u k) d with Some (JInt z) => Some z | _ => None end.
Definition get_bool (k : string) (d : dict) : option bool :=
  match dict_get (u k) d with Some (JBool b) => Some b | _ => None end.
Definition as_int (v : json) : option Z := match v with JInt z => Some z | _ => None end.
Definition get_strs (k : string) (d : dict) : option (list pystr) :=
  match dict_get (u k) d with Some (JList l) => mapM as_str l | _ => None end.
Definition get_ints (k : string) (d : dict) : option (list Z) :=
  match dict_get (u k) d with Some (JList l) => mapM as_int l | _ => None end.

(** [Path(s)] seen from the working directory, when [s] is given and not
    empty; an absolute one where the path is printed. *)
Definition file_of (cwd : path) (o : option pystr) : option path :=
  match o with Some (c :: s) => Some (path_join cwd (c :: s)) | _ => None end.
Definition root_of (o : option pystr) : option (option path) :=
  match o with
  | Some (c :: s) => if startswith (u "/") (c :: s) then Some (Some (path_parts (c :: s))) else None
  | _ => Some None
  end.
Definition output_of (cwd : path) (d : dict) : option Output :=
  out ← get_opt "out" d;
  root ← get_opt "store_root" d;
  root ← root_of root;
  Some {| o_out := file_of cwd out; o_store_root := root |}.

(** ** tools/sourceos_truth_surface.py *)

Definition planes : list pystr := [u "system.sealed"; u "user.controlled"; u "agent.open"; u "witness.twin"].
Definition surface_parser : parser := {| p_sub := None; p_args := [
  need (one_of planes (none_opt (u "--plane")));
  str_opt (u "--spec-version") (u "2.0.0");
  none_opt (u "--id"); none_opt (u "--created-at");
  str_opt (u "--signer") (u "sourceos-truth-surface");
  none_opt (u "--store-root"); none_opt (u "--out");
  none_opt (u "--policy-pack-digest");
  int_opt (u "--risk-score") 0; int_opt (u "--risk-threshold") 30;
  flag_opt (u "--human-approval-required"); flag_opt (u "--human-approved");
  list_opt (u "--evidence-required") []; list_opt (u "--evidence-present") [];
  list_opt (u "--policy-decision-ref") []; list_opt (u "--capability-token-id") [];
  list_opt (u "--run-record-ref") []; list_opt (u "--provenance-ref") [];
  list_opt (u "--telemetry-ref") []; list_opt (u "--evidence-bundle-ref") [];
  none_opt (u "--cairn-before-ref"); none_opt (u "--cairn-after-ref");
  list_opt (u "--anchor") []; list_opt (u "--topic") []; list_opt (u "--glossary-ref") [];
  list_opt (u "--extra-hash-path") []] |}.
Definition surface_args (d : dict) : option SurfaceArgs :=
  plane ← get_str "plane" d; version ← get_str "spec_version" d; id ← get_opt "id" d;
  created ← get_opt "created_at" d; signer ← get_str "signer" d; digest ← get_opt "policy_pack_digest" d;
  score ← get_int "risk_score" d; threshold ← get_int "risk_threshold" d;
  approval ← get_bool "human_approval_required" d; approved ← get_bool "human_approved" d;
  req ← get_strs "evidence_required" d; present ← get_strs "evidence_present" d;
  decision ← get_strs "policy_decision_ref" d; token ← get_strs "capability_token_id" d;
  run ← get_strs "run_record_ref" d; provenance ← get_strs "provenance_ref" d;
  telemetry ← get_strs "telemetry_ref" d; bundle ← get_strs "evidence_bundle_ref" d;
  before ← get_opt "cairn_before_ref" d; after ← get_opt "cairn_after_ref" d;
  anchor ← get_strs "anchor" d; topic ← get_strs "topic" d; glossary ← get_strs "glossary_ref" d;
  extra ← get_strs "extra_hash_path" d;
  Some (Build_SurfaceArgs plane version id created signer digest score threshold approval approved req present
          decision token run provenance telemetry bundle before after anchor topic glossary extra).

(** ** tools/sourceos_delta_surface.py *)

Definition delta_parser : parser := {| p_sub := None; p_args := [
  need (named (u "from_path") (none_opt (u "--from"))); need (named (u "to_path") (none_opt (u "--to")));
  str_opt (u "--spec-version") (u "2.0.0"); none_opt (u "--id"); none_opt (u "--created-at");
  str_opt (u "--signer") (u "sourceos-delta-surface");
  none_opt (u "--from-ref"); none_opt (u "--to-ref");
  none_opt (u "--store-root"); none_opt (u "--out");
  int_opt (u "--risk-score") 0; int_opt (u "--risk-threshold") 30;
  flag_opt (u "--human-approval-required"); flag_opt (u "--human-approved")] |}.
Definition delta_args (d : dict) : option DeltaArgs :=
  version ← get_str "spec_version" d; id ← get_opt "id" d; created ← get_opt "created_at" d;
  signer ← get_str "signer" d; from_ref ← get_opt "from_ref" d; to_ref ← get_opt "to_ref" d;
  score ← get_int "risk_score" d; threshold ← get_int "risk_threshold" d;
  approval ← get_bool "human_approval_required" d; approved ← get_bool "human_approved" d;
  Some (Build_DeltaArgs version id created signer from_ref to_ref score threshold approval approved).

(** ** tools/sourceos_truth_plane_tick.py *)

Definition tick_parser : parser := {| p_sub := None; p_args := [
  str_opt (u "--store-root") (u "/var/lib/sourceos");
  one_of planes (str_opt (u "--plane") (u "system.sealed"));
  none_opt (u "--id-suffix"); none_opt (u "--policy-pack-digest");
  list_opt (u "--evidence-required") [u "logs"; u "policy_decision"];
  list_opt (u "--evidence-present") [u "logs"]] |}.
Definition tick_args (cwd : path) (d : dict) : option TickArgs :=
  root ← get_str "store_root" d; plane ← get_str "plane" d; suffix ← get_opt "id_suffix" d;
  digest ← get_opt "policy_pack_digest" d; req ← get_strs "evidence_required" d;
  present ← get_strs "evidence_present" d;
  Some (Build_TickArgs (path_join cwd root) plane suffix digest req present).

(** ** tools/sourceos_incident.py *)

Definition incident_parser : parser := {| p_sub := None; p_args := [
  need (one_of [u "incident.freeze"; u "incident.fork"; u "incident.kill"]
          (named (u "event_name") (none_opt (u "--event"))));
  one_of [u "requested"; u "running"; u "succeeded"; u "failed"; u "denied"; u "archived"]
    (str_opt (u "--status") (u "requested"));
  none_opt (u "--event-id"); none_opt (u "--occurred-at");
  one_of [u "human"; u "agent"; u "service"; u "scheduler"] (str_opt (u "--actor-kind") (u "service"));
  str_opt (u "--actor-id") (u "sourceos-incident");
  none_opt (u "--run-id"); none_opt (u "--trace-id"); none_opt (u "--span-id"); int_opt (u "--attempt") 1;
  none_opt (u "--store-root"); none_opt (u "--out");
  none_opt (u "--truth-surface-ref"); none_opt (u "--delta-surface-ref"); none_opt (u "--evidence-bundle-ref");
  none_opt (u "--cairn-before-ref"); none_opt (u "--cairn-after-ref")] |}.
Definition incident_args (d : dict) : option IncidentArgs :=
  event ← get_str "event_name" d; status ← get_str "status" d; id ← get_opt "event_id" d;
  occurred ← get_opt "occurred_at" d; kind ← get_str "actor_kind" d; actor ← get_str "actor_id" d;
  run ← get_opt "run_id" d; trace ← get_opt "trace_id" d; span ← get_opt "span_id" d;
  attempt ← get_int "attempt" d; truth ← get_opt "truth_surface_ref" d; delta ← get_opt "delta_surface_ref" d;
  bundle ← get_opt "evidence_bundle_ref" d; before ← get_opt "cairn_before_ref" d;
  after ← get_opt "cairn_after_ref" d;
  Some (Build_IncidentArgs event status id occurred kind actor run trace span attempt truth delta bundle before after).

(** ** tools/sourceos_truth_plane_smoke.py, tools/cc_eval.py,
    tools/sourceos_gate_egressd.py *)

Definition smoke_parser : parser := {| p_sub := None; p_args := [
  str_opt (u "--store-root") (u "/tmp/sourceos-smoke");
  flag_opt (u "--validate"); flag_opt (u "--deterministic"); flag_opt (u "--egress-demo")] |}.
Definition smoke_args (d : dict) : option SmokeArgs :=
  root ← get_str "store_root" d; validate ← get_bool "validate" d; deterministic ← get_bool "deterministic" d;
  demo ← get_bool "egress_demo" d; Some (Build_SmokeArgs root validate deterministic demo).

Definition cc_parser : parser := {| p_sub := None; p_args := [
  need (none_opt (u "--artifact")); need (none_opt (u "--baseline"));
  str_opt (u "--producer") (u "unknown"); str_opt (u "--intent") []] |}.
Definition cc_args (d : dict) : option CcArgs :=
  artifact ← get_str "artifact" d; baseline ← get_str "baseline" d; producer ← get_str "producer" d;
  intent ← get_str "intent" d; Some (Build_CcArgs artifact baseline producer intent).

Definition daemon_parser : parser := {| p_sub := None; p_args := [
  str_opt (u "--store-root") (u "/var/lib/sourceos");
  str_opt (u "--socket") (u "/run/sourceos/gate-egress.sock")] |}.
Definition daemon_args (cwd : path) (d : dict) : option DaemonConfig :=
  root ← get_str "store_root" d; socket ← get_str "socket" d;
  Some (launcher_config (Some (path_join cwd socket)) (Some (path_join cwd root))).

(** ** tools/sourceos_gate_egress.py and tools/sourceos_gate_egressctl.py *)

Definition grant_arguments (target : argument) : list argument := [
  need (none_opt (u "--token-id")); need (none_opt (u "--nonce"));
  need (opt (u "--exp") (Store TInt) JNull);
  one_of [u "tcp"; u "udp"] (str_opt (u "--proto") (u "tcp"));
  target; opt (u "--port") (Append TInt) (JList []); flag_opt (u "--apply")].
Definition grant_options (d : dict) : option GrantOptions :=
  token ← get_str "token_id" d; nonce ← get_str "nonce" d; exp ← get_int "exp" d; proto ← get_str "proto" d;
  target ← get_strs "target" d; port ← get_ints "port" d; do_apply ← get_bool "apply" d;
  Some (Build_GrantOptions token nonce exp proto target port do_apply).

Definition cli_sub : subparsers := {| sub_dest := u "cmd"; sub_parsers := [
  (u "init", []); (u "grant", grant_arguments (list_opt (u "--target") []));
  (u "prune", [flag_opt (u "--apply")]); (u "apply", []); (u "verify", []); (u "snapshot", [])] |}.
Definition cli_parser : parser :=
  {| p_args := [str_opt (u "--store-root") (u "/var/lib/sourceos")]; p_sub := Some cli_sub |}.
Definition cli_command (d : dict) : option command :=
  cmd ← get_str "cmd" d;
  if decide (cmd = u "init") then Some CmdInit
  else if decide (cmd = u "grant") then CmdGrant <$> grant_options d
  else if decide (cmd = u "prune") then CmdPrune <$> get_bool "apply" d
  else if decide (cmd = u "apply") then Some CmdApply
  else if decide (cmd = u "verify") then Some CmdVerify
  else if decide (cmd = u "snapshot") then Some CmdSnapshot
  else None.

Definition ctl_sub : subparsers := {| sub_dest := u "cmd"; sub_parsers := [
  (u "health", []); (u "snapshot", []); (u "apply", []); (u "verify", []);
  (u "prune", [flag_opt (u "--apply")]);
  (u "grant", grant_arguments (need (list_opt (u "--target") [])))] |}.
Definition ctl_parser : parser :=
  {| p_args := [str_opt (u "--socket") (u "/run/sourceos/gate-egress.sock")]; p_sub := Some ctl_sub |}.
Definition ctl_cmd (d : dict) : option ctl_command :=
  cmd ← get_str "cmd" d;
  if decide (cmd = u "health") then Some CtlHealth
  else if decide (cmd = u "snapshot") then Some CtlSnapshot
  else if decide (cmd = u "apply") then Some CtlApply
  else if decide (cmd = u "verify") then Some CtlVerify
  else if decide (cmd = u "prune") then CtlPrune <$> get_bool "apply" d
  else if decide (cmd = u "grant") then CtlGrant <$> grant_options d
  else None.
(** The socket and the command. *)
Definition ctl_args (d : dict) : option (pystr * ctl_command) :=
  socket ← get_str "socket" d; cmd ← ctl_cmd d; Some (socket, cmd).

(** ** cosa/build.py *)

Definition cosa_parser : parser := {|
  p_args := [];
  p_sub := Some {| sub_dest := u "command"; sub_parsers := [
    (u "validate", [need (none_opt (u "--target"))]);
    (u "build", [need (none_opt (u "--target")); flag_opt (u "--dry-run"); none_opt (u "--workdir");
                 none_opt (u "--emit-provenance")])] |} |}.
(** [args.func(args)]: each subcommand sets its own function. *)
Definition cosa_args (d : dict) : option cosa_command :=
  cmd ← get_str "command" d; target ← get_str "target" d;
  if decide (cmd = u "validate") then Some (Validate target)
  else if decide (cmd = u "build") then
    dry ← get_bool "dry_run" d; workdir ← get_opt "workdir" d; emit ← get_opt "emit_provenance" d;
    Some (Build (Build_BuildArgs target dry workdir emit))
  else None.

(** ** The programs *)

(** What a parse gives a program: its arguments, or the exit it raises. *)
Definition command_line {A} (p : parser) (read : dict → option A) (argv : list pystr) : option (pyres A) :=
  match parse_args p argv with
  | Ok d => Ok <$> read d
  | Err status => Some (Err (Exn SystemExit (str_of_Z status)))
  end.

Definition program {S A B} (p : parser) (read : dict → option A) (body : A → M exn S B)
    (argv : list pystr) : option (M exn S B) :=
  (λ r, a ← lift r; body a) <$> command_line p read argv.

(** A program whose module imports its siblings first: [main] and its parser run
    only after that. *)
Definition loaded {S B} (imports : pyres unit) (run : option (M exn S B)) : option (M exn S B) :=
  match imports with Ok _ => run | Err e => Some (raise e) end.

Section programs.
Context {K : Type} `{Env K} (cwd : path).

Definition surface_program `{Host} : list pystr → option (W K (Z * pystr)) :=
  program surface_parser (λ d, a ← surface_args d; o ← output_of cwd d; Some (a, o))
    (λ ao, TruthSurface.main ao.1 ao.2).
Definition delta_program `{Host} : list pystr → option (W K (Z * pystr)) :=
  program delta_parser
    (λ d, a ← get_str "from_path" d; b ← get_str "to_path" d; args ← delta_args d; o ← output_of cwd d;
          Some (path_join cwd a, path_join cwd b, args, o))
    (λ '(a, b, args, o), DeltaSurface.main a b args o).
Definition tick_program `{Host} (l : Launch) (argv : list pystr) : option (W K Z) :=
  loaded (Tick.tick_imports l) (program tick_parser (tick_args cwd) Tick.main argv).
Definition incident_program `{Host} : list pystr → option (W K (Z * pystr)) :=
  program incident_parser (λ d, a ← incident_args d; o ← output_of cwd d; Some (a, o))
    (λ ao, incident_main ao.1 ao.2).
Definition smoke_program `{Host, SmokeHost} (l : Launch) (argv : list pystr) : option (W K (Z * list pystr)) :=
  loaded (smoke_imports l) (program smoke_parser smoke_args smoke_main argv).
Definition cc_program `{Host, Compressors} : list pystr → option (W K (Z * pystr)) := program cc_parser cc_args cc_main.
Definition cli_program `{GateOps K} (db_path : pystr) : list pystr → option (W K (Z * pystr)) :=
  program cli_parser cli_command (cli_main db_path).
Definition cosa_program `{Host, CosaHost, Builder K} : list pystr → option (C K Z) := program cosa_parser cosa_args cosa_main.
End programs.
