(* ===== verification/Pipeline.v ===== *)
(** * From surfaces to deltas

    [build_delta] applied to documents [build_surface] returned: in memory, as
    the smoke harness does, or read back from their files, with sorted keys, as
    the delta tool and the tick do.  It never fails. *)
From S2P Require Import Prelude PyStr PyJson PyJsonRoundtrip PyJsonStrings PyDict Errors PyOps.
From S2P Require Import PySet.
From S2P Require Import TimeUtil World Canon CanonFacts Seal Host DocFacts EgressFacts.
From S2P Require Import DeltaSurface DeltaSpec DeltaDocs.
From S2P Require Import TruthSurface TruthDocs.

#[local] Arguments u : simpl never.

(** ** Readers *)

(** [d] shows the fields of [doc] through [f], without the null ones. *)
Definition shows (f : json → json) (d doc : dict) (k : pystr) : Prop :=
  dict_get k d = v ← dict_get k doc; if decide (v = JNull) then None else Some (f v).
(** A reading of a document: without its nulls, and perhaps with sorted keys. *)
Class Reader (f : json → json) := {
  rd_str s : f (JStr s) = JStr s;
  rd_int z : f (JInt z) = JInt z;
  rd_bool b : f (JBool b) = JBool b;
  rd_strs ss : f (JList (map JStr ss)) = JList (map JStr ss);
  rd_dict p : NoDup (map fst p) → ∃ p', f (JDict p) = JDict p' ∧ ∀ k, shows f p' p k;
  rd_clean j : clean j = true → clean (f j) = true
}.
#[export] Instance reader_raw : Reader drop_nulls.
Proof.
  split; try done.
  - intros ss. rewrite drop_nulls_list. unfold keep_elems. f_equal.
    induction ss as [|s ss IH]; [done|]. cbn [map]. rewrite filter_cons_True by done. cbn [map]. by rewrite IH.
  - intros p Hp. exists (keep_items p). split; [apply drop_nulls_dict|]. intros k. by apply dict_get_keep.
  - intros j. apply drop_nulls_clean.
Qed.
#[export] Instance reader_sorted : Reader norm.
Proof.
  split; try done.
  - apply norm_strs.
  - intros p Hp. exists (sorted_items (keep_items p)). split; [apply norm_dict|]. intros k. by apply norm_get.
  - intros j Hj. by apply sort_keys_clean, drop_nulls_clean.
Qed.

(** ** What the delta tool reads of a surface *)

Record surface_shape (d : dict) (id : pystr) (topics : list pystr) (integrity before after : json) : Prop := {
  sh_id : dict_get (u "id") d = Some (JStr id);
  sh_topics : ∃ p, panel d (u "semantics") = Some p ∧ str_list (dict_get (u "topics") p) = Some topics;
  sh_integrity : ∃ p, panel d (u "runtime") = Some p ∧ dict_get_or JNull (u "integrity") p = integrity;
  sh_refs : ∃ p, panel d (u "refs") = Some p ∧ dict_get_or JNull (u "cairnBeforeRef") p = before ∧
                 dict_get_or JNull (u "cairnAfterRef") p = after
}.
Section reader.
Context (f : json → json) `{!Reader f} `{Hh : Host}.

(** Every field but the seal. *)
Definition reads (d doc : dict) : Prop := ∀ k, k ≠ u "merkleRoot" → k ≠ u "signature" → shows f d doc k.

Lemma reads_panel d doc k p :
  reads d doc → dict_get k doc = Some (JDict p) → k ≠ u "merkleRoot" → k ≠ u "signature" →
  NoDup (map fst p) → ∃ p', panel d k = Some p' ∧ ∀ k', shows f p' p k'.
Proof.
  intros Hd Hp Hr Hs Hn. destruct (rd_dict p Hn) as (p' & Hf & Hsh). exists p'. split; [|done].
  unfold panel. rewrite (Hd k Hr Hs), Hp. cbn [mbind option_bind]. rewrite decide_False by done. by rewrite Hf.
Qed.
Lemma shows_get d doc k v : shows f d doc k → dict_get k doc = Some v → v ≠ JNull → dict_get k d = Some (f v).
Proof. unfold shows. intros -> -> Hv. cbn. by rewrite decide_False. Qed.
Lemma shows_opt d doc k o :
  shows f d doc k → dict_get k doc = Some (opt_str o) → dict_get_or JNull k d = opt_str o.
Proof.
  unfold shows, dict_get_or. intros -> ->. destruct o as [s|]; cbn; [|done]. by rewrite rd_str.
Qed.

Lemma reads_shape d args id created :
  reads d (surface_doc args id created) →
  ∃ integrity, clean integrity = true ∧
    surface_shape d id (s_topic args) integrity (opt_str (s_cairn_before_ref args)) (opt_str (s_cairn_after_ref args)).
Proof.
  intros Hd. set (doc := surface_doc args id created) in *.
  destruct (reads_panel d doc (u "semantics") _ Hd eq_refl ltac:(done) ltac:(done) ltac:(compute_it)) as (sem & Hsem & Hs).
  destruct (reads_panel d doc (u "runtime") _ Hd eq_refl ltac:(done) ltac:(done) ltac:(compute_it)) as (run & Hrun & Hr).
  destruct (reads_panel d doc (u "refs") _ Hd eq_refl ltac:(done) ltac:(done) ltac:(compute_it)) as (refs & Hrefs & Hf).
  set (ima := JStr (match _detect_ima_enabled with Some true => u "enabled" | Some false => u "disabled"
                    | None => u "unknown" end)).
  exists (f (JDict [(u "ima", ima)])). split.
  { apply rd_clean, clean_dict. split; [compute_it|]. constructor; [|constructor]. split; [by apply text_lit|].
    unfold ima. destruct _detect_ima_enabled as [[]|]; by apply clean_str, text_lit. }
  split.
  - rewrite (shows_get _ _ _ _ (Hd (u "id") ltac:(done) ltac:(done)) eq_refl) by done. by rewrite rd_str.
  - exists sem. split; [done|]. rewrite (shows_get _ _ _ _ (Hs (u "topics")) eq_refl) by done.
    unfold str_array. by rewrite rd_strs, str_list_strs.
  - exists run. split; [done|]. unfold dict_get_or. by rewrite (shows_get _ _ _ _ (Hr (u "integrity")) eq_refl) by done.
  - exists refs. split; [done|]. split; eapply shows_opt; try apply Hf; reflexivity.
Qed.

Lemma reads_view d args id created dargs :
  reads d (surface_doc args id created) → view d dargs = Some (view_of args).
Proof.
  intros Hd. set (doc := surface_doc args id created) in *.
  destruct (reads_panel d doc (u "evidence") _ Hd eq_refl ltac:(done) ltac:(done) ltac:(compute_it)) as (ev & Hev & He).
  destruct (reads_panel d doc (u "governance") _ Hd eq_refl ltac:(done) ltac:(done) ltac:(compute_it)) as (gov & Hgov & Hg).
  unfold view. rewrite Hev, Hgov. cbn [mbind option_bind].
  rewrite (shows_get _ _ _ _ (He (u "required")) eq_refl), (shows_get _ _ _ _ (He (u "present")) eq_refl) by done.
  rewrite !rd_strs, !str_list_strs. cbn [mbind option_bind]. unfold int_field, bool_field.
  rewrite (shows_get _ _ _ _ (Hg (u "riskScore")) eq_refl), (shows_get _ _ _ _ (Hg (u "riskThreshold")) eq_refl),
    (shows_get _ _ _ _ (Hg (u "humanApprovalRequired")) eq_refl),
    (shows_get _ _ _ _ (Hg (u "humanApproved")) eq_refl) by done.
  by rewrite !rd_int, !rd_bool.
Qed.
End reader.

(** ** Reading the clock and nothing else *)

Record clock_only {K} (w w' : World K) : Prop := {
  co_db : w_db w' = w_db w; co_fs : w_fs w' = w_fs w;
  co_kernel : w_kernel w' = w_kernel w; co_euid : w_euid w' = w_euid w;
  co_tick : w_tick w ≤ w_tick w'
}.
#[export] Instance clock_only_preorder {K} : PreOrder (@clock_only K).
Proof.
  split; [by intros w; split|]. intros w1 w2 w3 [] []. split; [congruence..|lia].
Qed.
Lemma clock_only_tick {K} (w : World K) : clock_only w (tick w).
Proof. split; simpl; (done || lia). Qed.

Section emitters.
Context {K : Type} `{Env K} `{Host}.

Lemma or_else_clock (o : option pystr) (m : W K pystr) :
  within clock_only (λ _, True) m → within clock_only (λ _, True) (or_else o m).
Proof. intros Hm. unfold or_else. by within_step; [apply within_ret; typeclasses eauto|]. Qed.
Lemma any_raise' {A} (r : pyres A) : raises_only (λ _, True) r.
Proof. by destruct r. Qed.
Ltac clock_steps := repeat first
  [ apply any_raise' | apply or_else_clock | by intros w; split; [apply clock_only_tick|] | within_step ].
Lemma build_surface_clock args : within clock_only (λ _, True) (build_surface (K:=K) args).
Proof.
  unfold build_surface, surface_body, TruthSurface._default_surface_id, uuid4_hex, _utc_now_iso, now_iso_utc.
  clock_steps.
Qed.
Lemma build_delta_clock from_ts to_ts args : within clock_only (λ _, True) (build_delta (K:=K) from_ts to_ts args).
Proof.
  unfold build_delta, delta_body, _default_id, uuid4_hex, _utc_now_iso, now_iso_utc. clock_steps.
Qed.
End emitters.

(** ** The delta of two surfaces *)

Definition delta_doc (args : DeltaArgs) (g : Gate) (id created : pystr) (from_ref to_ref : json) (overlap : Z)
    (from_integrity to_integrity before after : json) : dict := [
  (u "id", JStr id); (u "type", JStr (u "DeltaSurface")); (u "specVersion", JStr (d_spec_version args));
  (u "fromRef", from_ref); (u "toRef", to_ref); (u "createdAt", JStr created); (u "signer", JStr (d_signer args));
  (u "metrics", JDict [
    (u "semantic", JDict [(u "topic_overlap", JInt overlap)]);
    (u "runtime", JDict [(u "from_integrity", from_integrity); (u "to_integrity", to_integrity)]);
    (u "governance", JDict [(u "gate_status", JStr (status g))])]);
  (u "gate", JDict (gate_json g));
  (u "refs", JDict [(u "cairnBeforeRef", before); (u "cairnAfterRef", after)])].

(** The arguments of the delta tool that UTF-8 can encode. *)
Record delta_text (a : DeltaArgs) : Prop := {
  dt_strings : Forall text_ok [d_spec_version a; d_signer a];
  dt_options : Forall opt_text [d_id a; d_created_at a; d_from_ref a; d_to_ref a]
}.
Lemma gate_clean v :
  Forall text_ok (v_required v) → Forall text_ok (v_present v) → clean (JDict (gate_json (abs_gate v))) = true.
Proof.
  rewrite !Forall_forall. intros Hr Hp.
  assert (Hset : ∀ X : gset pystr, (∀ s, s ∈ X → text_ok s) → Forall text_ok (sorted_set X)).
  { intros X HX. apply Forall_forall. intros s Hs. rewrite elem_of_sorted_set in Hs. auto. }
  assert (Hm : ∀ s, s ∈ missing_set v → text_ok s) by (unfold missing_set; set_solver).
  unfold gate_json, abs_gate. cbn [status riskScore riskThreshold humanApprovalRequired humanApproved
    evidenceRequired evidencePresent evidenceMissing reasons].
  clean_lit; try done; try (apply clean_strs, Hset; set_solver).
  - apply clean_str. unfold verdict. repeat case_match; by apply text_lit.
  - apply clean_strs. unfold abs_reasons. rewrite !Forall_app. split_and!.
    + apply Forall_map. eapply Forall_impl; [by apply Hset|]. intros s Hs. by apply text_app; [apply text_lit|].
    + destruct (too_risky v); [|constructor]. constructor; [|constructor].
      repeat first [by apply text_lit | apply line_text, str_of_Z_line | apply text_app].
    + destruct (unapproved v); [|constructor]. constructor; [by apply text_lit|constructor].
Qed.

Section delta.
Context {K : Type} `{Env K} `{Hh : Host, !HostText}.

Lemma shape_topics d id tp i b a : surface_shape d id tp i b a → topic_set (JDict d) = Ok (strs (distinct tp)).
Proof.
  intros [_ (p & Hp & Ht) _ _]. unfold topic_set. rewrite (get_or_empty_panel _ _ _ Hp).
  cbn [mbind res_bind py_get]. rewrite (listify_str_list _ _ _ Ht). apply py_set_strs.
Qed.
Lemma shape_sub d k p k' v : panel d k = Some p → dict_get_or JNull k' p = v →
  (r ← get_or_empty (JDict d) k; py_get r k' JNull) = Ok v.
Proof. intros Hp <-. by rewrite (get_or_empty_panel _ _ _ Hp). Qed.

(** [build_delta] on two surfaces always returns, and what. *)
Lemma run_build_delta d0 d1 args v id0 tp0 i0 b0 a0 id1 tp1 i1 before after (w : World K) :
  surface_shape d0 id0 tp0 i0 b0 a0 → surface_shape d1 id1 tp1 i1 (opt_str before) (opt_str after) →
  view d1 args = Some v → delta_text args →
  Forall text_ok [id0; id1] → clean i0 = true → clean i1 = true → Forall opt_text [before; after] →
  Forall text_ok (v_required v) → Forall text_ok (v_present v) →
  ∃ w' id created b n,
    (opt_truthy (d_created_at args) = true → created = opt_or (d_created_at args) []) ∧
    let doc := delta_doc args (abs_gate v) id created (py_or (JStr id0) (opt_str (d_from_ref args)))
      (py_or (JStr id1) (opt_str (d_to_ref args))) n i0 i1 (opt_str before) (opt_str after) in
    preimage (keep_items doc) = Ok b ∧ wf (JDict doc) ∧
    build_delta (JDict d0) (JDict d1) args w = (w', Ok (sealed (root_of b) (signature_of b) (keep_items doc))).
Proof.
  intros S0 S1 Hv [Hts Hto] Hid Hi0 Hi1 Hba Hr Hp. split_Forall.
  destruct (run_or_else (d_id args) _default_id w _ eq_refl) as (w1 & id & Hidw & _ & _ & _).
  assert (Hidt : text_ok id).
  { refine (or_else_text _ (_default_id (K:=K)) _ _ w w1 id Hidw); [done|].
    apply (yields_bind line_ok); [intros ?? h [= _ <-]; apply uuid_line|].
    intros h Hh'. apply yields_ret, text_app; [by apply text_lit|by apply line_text]. }
  destruct (run_or_else (d_created_at args) _utc_now_iso w1 _ eq_refl) as (w2 & created & Hcw & _ & _ & _).
  assert (Hct : text_ok created).
  { refine (or_else_text _ (_utc_now_iso (K:=K)) _ _ w1 w2 created Hcw); [done|].
    intros ?? t [= _ <-]. apply line_text, iso_utc_line. }
  set (fr := py_or (JStr id0) (opt_str (d_from_ref args))). set (tr := py_or (JStr id1) (opt_str (d_to_ref args))).
  set (n := Z.of_nat (length (set_inter (strs (distinct tp0)) (strs (distinct tp1))))).
  set (doc := delta_doc args (abs_gate v) id created fr tr n i0 i1 (opt_str before) (opt_str after)).
  assert (Hcl : clean (JDict doc) = true).
  { unfold doc, delta_doc. clean_lit; try done; try (by apply clean_str); try (by apply clean_opt).
    - unfold fr, py_or. case_match; [by apply clean_str|by apply clean_opt].
    - unfold tr, py_or. case_match; [by apply clean_str|by apply clean_opt].
    - apply clean_str. unfold abs_gate, verdict. cbn [status]. repeat case_match; by apply text_lit.
    - by apply gate_clean. }
  assert (Hb : delta_body (JDict d0) (JDict d1) args w = (w2, Ok (JDict doc))).
  { pose proof S0 as [Hid0 _ (p0 & Hp0 & Hg0) _].
    pose proof S1 as [Hid1 _ (p1 & Hp1 & Hg1) (q & Hq & Hqb & Hqa)].
    unfold delta_body. rewrite (compute_gate_view _ _ _ _ Hv), bind_lift_ok, run_bind, Hidw.
    assert (Hget : ∀ d i, dict_get (u "id") d = Some (JStr i) → py_get (JDict d) (u "id") JNull = Ok (JStr i))
      by (intros d i Hd; unfold py_get, dict_get_or; by rewrite Hd).
    rewrite (Hget _ _ Hid0), bind_lift_ok, (Hget _ _ Hid1), bind_lift_ok.
    rewrite run_bind, Hcw.
    rewrite (shape_topics d0 _ _ _ _ _ S0), bind_lift_ok, (shape_topics d1 _ _ _ _ _ S1), bind_lift_ok.
    rewrite (shape_sub _ _ _ _ _ Hp0 Hg0), bind_lift_ok, (shape_sub _ _ _ _ _ Hp1 Hg1), bind_lift_ok.
    rewrite (shape_sub _ _ _ _ _ Hq Hqb), bind_lift_ok, (shape_sub _ _ _ _ _ Hq Hqa), bind_lift_ok. reflexivity. }
  assert (Hck : clean (JDict (keep_items doc)) = true) by (rewrite <-drop_nulls_dict; by apply drop_nulls_clean).
  destruct (preimage_total _ Hck) as [b Hpre].
  exists w2, id, created, b, n. split.
  { intros Htr. unfold or_else in Hcw. rewrite Htr in Hcw. injection Hcw. congruence. }
  cbv zeta. fold fr tr doc. split; [done|]. split; [by apply clean_wf|].
  unfold build_delta. rewrite run_bind, Hb, drop_nulls_dict.
  change (as_dict (JDict (keep_items doc))) with (Ok (keep_items doc) : pyres dict).
  rewrite bind_lift_ok. cbv zeta. fold (unsigned (keep_items doc)).
  rewrite compute_root_preimage, dev_signature_preimage, Hpre. reflexivity.
Qed.

(** A surface as it is emitted, and as it is read back. *)
Lemma emit_reads args (w : World K) :
  args_text args →
  ∃ w' d id created, build_surface args w = (w', Ok d) ∧ clock_only w w' ∧ text_ok id ∧ text_ok created ∧
    (opt_truthy (s_created_at args) = true → created = opt_or (s_created_at args) []) ∧
    wf (JDict d) ∧ seal_ok (concat (extra_blobs args)) d = true ∧
    reads drop_nulls d (surface_doc args id created) ∧ reads norm (sorted_items d) (surface_doc args id created).
Proof.
  intros Ha. destruct (run_build_surface args w Ha) as (w' & id & created & b & Hb & _ & _ & Hcl & Hp & Hr).
  pose proof (build_surface_clock args w) as [Hclock _]. rewrite Hr in Hclock.
  exists w'. eexists. exists id, created. split; [exact Hr|]. split; [done|].
  assert (Htext : ∀ k s, dict_get k (surface_doc args id created) = Some (JStr s) → text_ok s).
  { intros k s Hk%dict_get_Some. apply clean_dict in Hcl as [_ Hcl]. rewrite Forall_forall in Hcl.
    destruct (Hcl _ Hk) as [_ Hs]. cbn [snd clean] in Hs. by apply bool_decide_eq_true in Hs. }
  split; [by apply (Htext (u "id"))|]. split; [by apply (Htext (u "createdAt"))|]. split.
  { intros Htr. unfold surface_body in Hb. rewrite run_bind in Hb.
    destruct (or_else (s_id args) _ w) as [w1 [id'|]]; [|done]. rewrite run_bind in Hb.
    unfold or_else in Hb. rewrite Htr in Hb. by injection Hb. }
  split; [by apply sealed_wf, clean_wf|]. split; [by apply seal_intro|].
  assert (NoDup (map fst (surface_doc args id created))) as Hn by compute_it.
  split; intros k Hk1 Hk2; [by apply sealed_get_raw|by apply sealed_get].
Qed.

Lemma view_text args : args_text args → Forall text_ok (v_required (view_of args)) ∧ Forall text_ok (v_present (view_of args)).
Proof.
  intros [_ _ Hl]. split_Forall. rewrite !Forall_forall in *.
  split; intros s Hs; cbn [view_of v_required v_present] in Hs;
    rewrite elem_of_sorted_set, elem_of_list_to_set, list_elem_of_filter in Hs; naive_solver.
Qed.

(** What [build_delta] returns for two surfaces, however they are read. *)
Record delta_of (a1 : SurfaceArgs) (dargs : DeltaArgs) (id0 id1 : pystr) (d : dict) : Prop := {
  do_wf : wf (JDict d);
  do_seal : seal_ok [] d = true;
  do_gate : dict_get (u "gate") d = Some (drop_nulls (JDict (gate_json (abs_gate (view_of a1)))));
  do_from : id0 ≠ [] → dict_get (u "fromRef") d = Some (JStr id0);
  do_to : id1 ≠ [] → dict_get (u "toRef") d = Some (JStr id1);
  do_id : ∃ id, dict_get (u "id") d = Some (JStr id);
  do_created : ∃ c, dict_get (u "createdAt") d = Some (JStr c) ∧
    (opt_truthy (d_created_at dargs) = true → c = opt_or (d_created_at dargs) [])
}.
Lemma surfaces_delta f `{!Reader f} a0 a1 dargs d0 d1 id0 id1 c0 c1 (w : World K) :
  args_text a0 → args_text a1 → delta_text dargs → Forall text_ok [id0; id1] →
  reads f d0 (surface_doc a0 id0 c0) → reads f d1 (surface_doc a1 id1 c1) →
  ∃ w' d, build_delta (JDict d0) (JDict d1) dargs w = (w', Ok d) ∧ clock_only w w' ∧ delta_of a1 dargs id0 id1 d.
Proof.
  intros Ha0 Ha1 Hd Hids R0 R1. destruct (view_text a1 Ha1) as [Hvr Hvp].
  destruct (reads_shape f d0 a0 id0 c0 R0) as (i0 & Hi0 & S0).
  destruct (reads_shape f d1 a1 id1 c1 R1) as (i1 & Hi1 & S1).
  assert (Hba : Forall opt_text [s_cairn_before_ref a1; s_cairn_after_ref a1]).
  { destruct Ha1 as [_ Ho _]. split_Forall. by repeat constructor. }
  destruct (run_build_delta d0 d1 dargs (view_of a1) _ _ _ _ _ _ _ _ _ _ w S0 S1
    (reads_view f d1 a1 id1 c1 dargs R1) Hd Hids Hi0 Hi1 Hba Hvr Hvp)
    as (w' & id & created & b & n & Hcr & Hpre & Hwf & Hb).
  pose proof (build_delta_clock (JDict d0) (JDict d1) dargs w) as [Hclock _]. rewrite Hb in Hclock.
  eexists w', _. split; [exact Hb|]. split; [done|].
  set (doc := delta_doc _ _ _ _ _ _ _ _ _ _ _) in *. assert (NoDup (map fst doc)) as Hn by compute_it.
  assert (Hget : ∀ k v, dict_get k doc = Some v → v ≠ JNull → k ≠ u "merkleRoot" → k ≠ u "signature" →
    dict_get k (sealed (root_of b) (signature_of b) (keep_items doc)) = Some (drop_nulls v)).
  { intros k v Hk Hv Hr Hs. rewrite sealed_get_raw, Hk by done. cbn [mbind option_bind]. by rewrite decide_False. }
  split.
  - by apply sealed_wf.
  - rewrite <-(app_nil_r b) at 1. by apply seal_intro.
  - exact (Hget (u "gate") _ eq_refl ltac:(done) ltac:(done) ltac:(done)).
  - intros Hne. rewrite (Hget (u "fromRef") _ eq_refl); [|by destruct id0|done|done]. by destruct id0.
  - intros Hne. rewrite (Hget (u "toRef") _ eq_refl); [|by destruct id1|done|done]. by destruct id1.
  - exists id. exact (Hget (u "id") _ eq_refl ltac:(done) ltac:(done) ltac:(done)).
  - exists created. split; [exact (Hget (u "createdAt") _ eq_refl ltac:(done) ltac:(done) ltac:(done))|done].
Qed.
End delta.

Section theorems.
Context {K : Type} `{Env K} `{Hh : Host, !HostText}.
Let to_file (p : path) : Output := {| o_out := Some p; o_store_root := None |}.

Lemma surface_to_file args p (w : World K) :
  args_text args →
  ∃ w' d id created, TruthSurface.main args (to_file p) w
    = (set_fs (<[p := pretty (JDict d) ++ [10%N]]> (w_fs w)) w', Ok (0%Z, [])) ∧ text_ok id ∧ wf (JDict d) ∧
    reads norm (sorted_items d) (surface_doc args id created).
Proof.
  intros Ha. destruct (emit_reads args w Ha) as (w' & d & id & c & Hb & Hclock & Hid & _ & _ & Hwf & _ & _ & Hr).
  exists w', d, id, c. split; [|done]. unfold TruthSurface.main. rewrite run_bind, Hb. cbn [o_out to_file].
  rewrite run_bind, run_write_json. by destruct Hclock as [_ -> _ _ _].
Qed.
Lemma gate_status d v :
  NoDup (map fst d) → dict_get (u "gate") d = Some (drop_nulls (JDict (gate_json (abs_gate v)))) →
  ∃ g, dict_get (u "gate") (sorted_items d) = Some (JDict g) ∧ dict_get (u "status") g = Some (JStr (verdict v)).
Proof.
  intros Hn Hg. rewrite dict_get_sorted, Hg by done. exists (sorted_items (keep_items (gate_json (abs_gate v)))).
  rewrite drop_nulls_dict. cbn [fmap option_fmap option_map]. rewrite sort_keys_dict. split; [done|].
  rewrite norm_get by compute_it. reflexivity.
Qed.

(** C8: the truth plane end to end: emitting two surfaces to files and comparing
    them with the delta tool never fails, whatever the arguments and the host,
    as long as UTF-8 can encode their text; the delta file reads back as a
    sealed document, and its gate is decided by the evidence, risk and approval
    of the second surface's command line. *)
Theorem truth_plane_end_to_end a0 a1 dargs p0 p1 q (w : World K) :
  args_text a0 → args_text a1 → delta_text dargs → p0 ≠ p1 →
  ∃ w1 w2 w3 d g,
    TruthSurface.main a0 (to_file p0) w = (w1, Ok (0%Z, [])) ∧
    TruthSurface.main a1 (to_file p1) w1 = (w2, Ok (0%Z, [])) ∧
    DeltaSurface.main p0 p1 dargs (to_file q) w2 = (w3, Ok (0%Z, [])) ∧
    _read_json q w3 = (w3, Ok (JDict d)) ∧ seal_ok [] d = true ∧
    dict_get (u "gate") d = Some (JDict g) ∧ dict_get (u "status") g = Some (JStr (verdict (view_of a1))).
Proof.
  intros Ha0 Ha1 Hd Hne.
  destruct (surface_to_file a0 p0 w Ha0) as (v0 & d0 & id0 & c0 & E0 & Hid0 & Hwf0 & R0).
  set (w1 := set_fs _ v0) in E0.
  destruct (surface_to_file a1 p1 w1 Ha1) as (v1 & d1 & id1 & c1 & E1 & Hid1 & Hwf1 & R1).
  set (w2 := set_fs _ v1) in E1.
  destruct (surfaces_delta norm a0 a1 dargs _ _ id0 id1 c0 c1 w2 Ha0 Ha1 Hd ltac:(by repeat constructor) R0 R1)
    as (w3 & d & Hb & Hclock & Hdo).
  pose proof (wf_keys_ok _ (do_wf _ _ _ _ _ Hdo)) as Hk. pose proof Hk as [Hn _]%keys_ok_dict.
  destruct (gate_status d _ Hn (do_gate _ _ _ _ _ Hdo)) as (g & Hg & Hs).
  exists w1, w2, (set_fs (<[q := pretty (JDict d) ++ [10%N]]> (w_fs w3)) w3), (sorted_items d), g.
  split; [exact E0|]. split; [exact E1|]. split; [|split; [|split; [|done]]].
  - unfold DeltaSurface.main.
    rewrite (bind_ok _ _ _ _ _ (read_back p0 (JDict d0) w2 Hwf0 ltac:(by simpl; rewrite lookup_insert_ne, lookup_insert_eq))).
    rewrite (bind_ok _ _ _ _ _ (read_back p1 (JDict d1) w2 Hwf1 ltac:(by simpl; rewrite lookup_insert_eq))).
    rewrite !sort_keys_dict, run_bind, Hb. reflexivity.
  - apply (read_back q (JDict d)); [by apply Hdo|]. simpl. by rewrite lookup_insert_eq.
  - apply seal_ok_sorted; [done|]. by apply Hdo.
Qed.
End theorems.
