(* ===== verification/SmokeFacts.v ===== *)
(** * The smoke harness: facts

    Where its imports succeed, the harness always succeeds without its options;
    with [--egress-demo] it cannot. *)
From S2P Require Import Prelude PyStr PyJson PyJsonRoundtrip PyJsonStrings PyDict Errors PyOps.
From S2P Require Import PySet.
From S2P Require Import TimeUtil World Canon CanonFacts Seal Host DocFacts GateSteps EgressFacts.
From S2P Require Import DeltaSurface DeltaSpec DeltaDocs.
From S2P Require Import TruthSurface TruthDocs Pipeline Smoke Argparse ToolArgs.
From S2P Require Import Store StoreFacts StoreSpec Nft NftSpec GateSafety GateSpec.
From S2P Require Egress AuditLog.

#[local] Arguments u : simpl never.

Section documents.
Context {K : Type} `{Env K} `{Hh : Host, !HostText} `{SmokeHost}.

Lemma smoke_surface_text id created : opt_text id → text_ok created → args_text (smoke_surface_args id created).
Proof.
  intros Hid Hc. split; cbn [smoke_surface_args s_plane s_spec_version s_signer s_id s_created_at
    s_policy_pack_digest s_cairn_before_ref s_cairn_after_ref s_evidence_required s_evidence_present
    s_policy_decision_ref s_capability_token_id s_run_record_ref s_provenance_ref s_telemetry_ref
    s_evidence_bundle_ref s_anchor s_topic s_glossary_ref].
  - compute_it.
  - repeat (apply Forall_cons; split); try apply Forall_nil_2; try done; intros s; congruence.
  - compute_it.
Qed.
Lemma smoke_delta_text id created : opt_text id → text_ok created → delta_text (smoke_delta_args id created).
Proof.
  intros Hid Hc. split; cbn [smoke_delta_args d_spec_version d_signer d_id d_created_at d_from_ref d_to_ref].
  - compute_it.
  - repeat (apply Forall_cons; split); try apply Forall_nil_2; try done; intros s; congruence.
Qed.
Lemma fixed_text args id : forallb (λ c, (32 <=? c) && (c <? 127))%N id = true → opt_text (fixed_id args id).
Proof. intros Hid s. unfold fixed_id. destruct (k_deterministic args); [|done]. intros [= <-]. by apply text_lit. Qed.
Lemma run_smoke_time args fixed (w : World K) :
  forallb (λ c, (32 <=? c) && (c <? 127))%N fixed = true →
  ∃ w' t, smoke_time args fixed w = (w', Ok t) ∧ clock_only w w' ∧ text_ok t ∧
    (w_tick w' = if k_deterministic args then w_tick w else S (w_tick w)) ∧
    t = if k_deterministic args then fixed else iso_utc (clock (w_tick w)).
Proof.
  intros Hf. unfold smoke_time. destruct (k_deterministic args).
  - eexists _, _. split; [reflexivity|]. split; [reflexivity|]. split; [by apply text_lit|]. done.
  - eexists _, _. split; [reflexivity|]. split; [apply clock_only_tick|]. split; [apply line_text, iso_utc_line|]. done.
Qed.

Definition file_of (d : dict) : pystr := pretty (JDict d) ++ [10%N].
(** What a run has written. *)
Definition run_files (r : SmokeRun) (f : gmap path pystr) : gmap path pystr :=
  <[r_pi r := file_of (r_incident r)]> (<[r_pd r := file_of (r_delta r)]>
    (<[r_p1 r := file_of (r_surface1 r)]> (<[r_p0 r := file_of (r_surface0 r)]> f))).
(** The two surfaces are sealed, the delta is the sealed delta of the two and
    permits, and the incident refers to the second surface and the delta. *)
Record run_sound (r : SmokeRun) : Prop := {
  rs_seals : seal_ok [] (r_surface0 r) = true ∧ seal_ok [] (r_surface1 r) = true ∧ seal_ok [] (r_delta r) = true;
  rs_gate : ∃ g, dict_get (u "gate") (r_delta r) = Some (JDict g) ∧
                 dict_get (u "status") g = Some (JStr (u "permit"));
  rs_refs : ∃ sid did, dict_get (u "id") (r_surface1 r) = Some sid ∧ dict_get (u "id") (r_delta r) = Some did ∧
    dict_get (u "refs") (r_incident r)
    = Some (JDict [(u "truth_surface_ref", sid); (u "delta_surface_ref", did)]);
  rs_paths : ∃ s0 s1 s2, r_p0 r = surface_file_at s0 ∧ r_p1 r = surface_file_at s1 ∧
    r_pd r = delta_file_at s2 ∧ r_pi r = incident_file_at s2
}.

(** What the harness writes and keeps, once its clock readings and its three
    sealed documents are known. *)
Definition run_of args (t0 t1 t2 : pystr) (d0 d1 d : dict) (cd : pystr) (sid did : json) : SmokeRun := {|
  r_surface0 := d0; r_surface1 := d1; r_delta := d;
  r_incident := smoke_incident args (compact_stamp cd) t2 sid did;
  r_p0 := surface_file_at (compact_stamp t0); r_p1 := surface_file_at (compact_stamp t1);
  r_pd := delta_file_at (compact_stamp cd); r_pi := incident_file_at (compact_stamp cd)
|}.
Definition surface0_args args t0 := smoke_surface_args (fixed_id args (u "urn:srcos:truth-surface:ts_smoke_0000")) t0.
Definition surface1_args args t1 := smoke_surface_args (fixed_id args (u "urn:srcos:truth-surface:ts_smoke_0001")) t1.
Definition delta_args args t2 := smoke_delta_args (fixed_id args (u "urn:srcos:delta-surface:ds_smoke_0001")) t2.
Definition with_surfaces (t0 t1 : pystr) (d0 d1 : dict) (w : World K) : World K :=
  set_fs (<[surface_file_at (compact_stamp t1) := file_of d1]>
    (<[surface_file_at (compact_stamp t0) := file_of d0]> (w_fs w))) w.
Lemma smoke_documents_run args t0 t1 t2 d0 d1 d cd sid did (w w1 w2 w3 w4 w6 w7 : World K) :
  smoke_time args (u "2026-04-15T00:00:00Z") w = (w1, Ok t0) →
  smoke_time args (u "2026-04-15T00:01:00Z") w1 = (w2, Ok t1) →
  build_surface (surface0_args args t0) w2 = (w3, Ok d0) →
  build_surface (surface1_args args t1) w3 = (w4, Ok d1) →
  smoke_time args (u "2026-04-15T00:02:00Z") (with_surfaces t0 t1 d0 d1 w4) = (w6, Ok t2) →
  build_delta (JDict d0) (JDict d1) (delta_args args t2) w6 = (w7, Ok d) →
  dict_get (u "createdAt") d = Some (JStr cd) →
  dict_get (u "id") d1 = Some sid → dict_get (u "id") d = Some did →
  let r := run_of args t0 t1 t2 d0 d1 d cd sid did in
  smoke_documents args w
  = (set_fs (<[r_pi r := file_of (r_incident r)]> (<[r_pd r := file_of d]> (w_fs w7))) w7, Ok r).
Proof.
  intros E0 E1 B0 B1 E2 B2 Hcd Hsid Hdid. unfold smoke_documents. cbv zeta.
  rewrite (bind_ok _ _ _ _ _ E0), (bind_ok _ _ _ _ _ E1).
  rewrite (bind_ok _ _ _ _ _ B0), (bind_ok _ _ _ _ _ B1). cbv zeta.
  rewrite (bind_ok _ _ _ _ _ (run_write_json (surface_file_at (compact_stamp t0)) (JDict d0) w4)).
  rewrite (bind_ok _ _ _ _ _ (run_write_json (surface_file_at (compact_stamp t1)) (JDict d1) _)).
  change (set_fs _ (set_fs _ w4)) with (with_surfaces t0 t1 d0 d1 w4).
  rewrite (bind_ok _ _ _ _ _ E2), (bind_ok _ _ _ _ _ B2).
  assert (stamp_of d = Ok (compact_stamp cd)) as -> by (unfold stamp_of, py_item; by rewrite Hcd).
  rewrite bind_lift_ok.
  rewrite (bind_ok _ _ _ _ _ (run_write_json (delta_file_at (compact_stamp cd)) (JDict d) w7)).
  unfold py_item. rewrite Hsid, Hdid. cbn [res_of_option]. rewrite !bind_lift_ok. reflexivity.
Qed.

Lemma run_smoke_documents args (w : World K) :
  ∃ w' r, smoke_documents args w = (w', Ok r) ∧ run_sound r ∧ w_fs w' = run_files r (w_fs w) ∧
    w_db w' = w_db w ∧ w_kernel w' = w_kernel w ∧ w_euid w' = w_euid w ∧
    (k_deterministic args = true → r_p0 r ≠ r_p1 r) ∧
    (k_deterministic args = false → clock (w_tick w) = clock (S (w_tick w)) → r_p0 r = r_p1 r).
Proof.
  destruct (run_smoke_time args (u "2026-04-15T00:00:00Z") w eq_refl) as (w1 & t0 & E0 & C0 & T0 & K0 & V0).
  destruct (run_smoke_time args (u "2026-04-15T00:01:00Z") w1 eq_refl) as (w2 & t1 & E1 & C1 & T1 & _ & V1).
  assert (A0 : args_text (surface0_args args t0)) by (apply smoke_surface_text; [by apply fixed_text|done]).
  assert (A1 : args_text (surface1_args args t1)) by (apply smoke_surface_text; [by apply fixed_text|done]).
  destruct (emit_reads _ w2 A0) as (w3 & d0 & id0 & c0 & B0 & C2 & I0 & _ & _ & _ & S0 & R0 & _).
  destruct (emit_reads _ w3 A1) as (w4 & d1 & id1 & c1 & B1 & C3 & I1 & _ & _ & _ & S1 & R1 & _).
  destruct (run_smoke_time args (u "2026-04-15T00:02:00Z") (with_surfaces t0 t1 d0 d1 w4) eq_refl)
    as (w6 & t2 & E2 & C4 & T2 & _ & _).
  assert (D : delta_text (delta_args args t2)) by (apply smoke_delta_text; [by apply fixed_text|done]).
  destruct (surfaces_delta drop_nulls _ _ _ d0 d1 id0 id1 c0 c1 w6 A0 A1 D ltac:(by repeat constructor) R0 R1)
    as (w7 & d & B2 & C5 & [Hwf Hseal Hgate _ _ [did Hdid] (cd & Hcd & _)]).
  assert (Hsid : dict_get (u "id") d1 = Some (JStr id1)).
  { exact (shows_get drop_nulls _ _ _ _ (R1 (u "id") ltac:(done) ltac:(done)) eq_refl ltac:(done)). }
  eexists _, _. split; [exact (smoke_documents_run _ _ _ _ _ _ _ _ _ _ _ _ _ _ _ _ _ E0 E1 B0 B1 E2 B2 Hcd Hsid Hdid)|].
  split.
  { split; cbn [run_of r_surface0 r_surface1 r_delta r_incident r_p0 r_p1 r_pd r_pi]; eauto 10. }
  destruct C0 as [? ? ? ? _], C1 as [? ? ? ? _], C2 as [? ? ? ? _], C3 as [? ? ? ? _], C4 as [? ? ? ? _], C5 as [? ? ? ? _].
  unfold with_surfaces, run_files in *.
  cbn [run_of r_surface0 r_surface1 r_delta r_incident r_p0 r_p1 r_pd r_pi w_db w_fs w_kernel w_euid set_fs] in *.
  split_and!; [congruence..| |].
  - intros Hd. rewrite Hd in V0, V1. rewrite V0, V1. vm_compute. congruence.
  - intros Hd Hck. rewrite Hd in V0, V1, K0. by rewrite V0, V1, K0, Hck.
Qed.
End documents.

(** ** The egress demo *)

Section egress.
Context {K : Type} `{E : Env K} {laws : NftLaws K}.
Implicit Types w : World K.

Definition demo_target : list pystr := [u "10.0.0.1/32"].
Lemma demo_target_ok : Forall (λ t, str_ok t = true) demo_target ∧ Forall (λ t, plain t ∧ text_ok t) demo_target.
Proof. split; compute_it. Qed.

(** One of the two grants: refused, or live. *)
Lemma demo_install tok nonce exp port proto w w' r :
  store_inv w → clean_targets (abs_of w) →
  Egress.install_grant default_cfg tok nonce exp demo_target [port] proto false w = (w', r) →
  (∃ e, r = Err e) ∨
  r = Ok tt ∧ store_inv w' ∧ clean_targets (abs_of w') ∧ w_kernel w' = w_kernel w ∧ w_euid w' = w_euid w ∧
  w_tick w' = 6 + w_tick w ∧
  ∃ g, live (abs_of w') !! (tok, nonce) = Some g ∧ a_exp g = exp ∧ a_ports g = [port].
Proof.
  intros Hinv Hclean. destruct demo_target_ok as [Hok Hplain]. unfold Egress.install_grant. rewrite run_bind.
  destruct (Store.install_grant tok nonce exp demo_target [port] proto w) as [w1 [g|e]] eqn:Hs;
    [|intros [= _ <-]; left; eauto].
  destruct (install_effect _ _ _ _ _ _ _ _ _ Hinv Hok Hs) as (at_ & Hw1 & (Hfs & Hk & Heu) & Htick & Habs).
  rewrite run_bind, run_append. cbn [when]. intros [= <- <-]. right. cbn [w_kernel w_euid w_tick set_fs tick].
  set (w2 := set_fs _ _). change (abs_of w2) with (abs_of w1). change (store_inv w2) with (store_inv w1).
  split; [done|]. split; [done|]. split; [|split; [done|]].
  - rewrite Habs. intros k a t Ha Ht. cbn [live] in Ha.
    apply lookup_insert_Some in Ha as [[<- <-]|[_ Ha]]; [|by eapply Hclean].
    cbn [a_targets] in Ht. rewrite Forall_forall in Hplain. by apply Hplain.
  - split; [done|]. split; [lia|]. eexists. split; [rewrite Habs; apply lookup_insert_eq|done].
Qed.

Lemma egress_demo_fails w :
  store_inv w → clean_targets (abs_of w) → (∀ n, int64 (clock n) = true) →
  (∀ m n, m ≤ n ≤ m + 16 → (clock n < clock m + 3600)%Z) →
  ∃ e, (egress_demo w).2 = Err e.
Proof.
  intros Hinv Hclean Hc64 Hclock. unfold egress_demo. rewrite run_bind. unfold gets at 1.
  case_decide as Hroot; [eauto|]. assert (Hr : w_euid w = 0%Z) by (destruct (decide (w_euid w = 0%Z)); tauto).
  rewrite run_bind. cbn [now_epoch]. set (exp := (clock (w_tick w) + 3600)%Z). rewrite run_bind.
  fold demo_target.
  destruct (Egress.install_grant _ (u "tok_smoke_tcp") _ _ _ _ _ _ (tick w)) as [w1 r1] eqn:H1.
  destruct (demo_install _ _ _ _ _ (tick w) _ _ Hinv Hclean H1) as [[e ->]|(-> & Hi1 & Hc1 & Hk1 & He1 & Ht1 & _)]; [eauto|].
  rewrite run_bind. destruct (Egress.install_grant _ (u "tok_smoke_udp") _ _ _ _ _ _ w1) as [w2 r2] eqn:H2.
  destruct (demo_install _ _ _ _ _ w1 _ _ Hi1 Hc1 H2) as [[e ->]|(-> & Hi2 & Hc2 & Hk2 & He2 & Ht2 & g & Hg & Hexp & Hp)]; [eauto|].
  cbn [w_tick tick w_euid] in *.
  rewrite run_bind. enough (∃ w3 e, Egress.apply default_cfg w2 = (w3, Err e)) as (w3 & e & ->) by eauto.
  destruct (first_missing (w_kernel w2) (baseline_objects default_cfg)) as [[]|e] eqn:Hbase.
  - destruct (apply_refused default_cfg w2) as (msg & Hmsg); [| |eauto].
    + split; [apply default_cfg_plain|congruence|by apply first_missing_ok|done|done|done].
    + right. exists (bool_decide (a_proto g = u "udp")), (str_of_Z 53), (u "tok_smoke_udp", u "n_udp"), g.
      split; [done|]. split.
      * rewrite Hexp. unfold exp. apply Hclock. lia.
      * split; [done|]. exists 53%Z. split; [rewrite Hp; left|done].
  - unfold Egress.apply. rewrite run_bind, run_require_baseline, Hbase. eauto.
Qed.
End egress.

Section theorems.
Context {K : Type} `{E : Env K} `{Hh : Host, !HostText} `{SmokeHost}.

Lemma run_files_at r f : run_sound r →
  run_files r f !! r_p0 r = Some (file_of (if decide (r_p0 r = r_p1 r) then r_surface1 r else r_surface0 r)) ∧
  run_files r f !! r_p1 r = Some (file_of (r_surface1 r)) ∧
  run_files r f !! r_pd r = Some (file_of (r_delta r)) ∧
  run_files r f !! r_pi r = Some (file_of (r_incident r)).
Proof.
  intros [_ _ _ (s0 & s1 & s2 & E0 & E1 & E2 & E3)]. unfold run_files.
  assert (Hne : ∀ (p q : path) a b, a ≠ b → p ++ [a] ≠ q ++ [b])
    by (intros p q a b Hab [_ ?]%app_inj_tail; done).
  assert (∀ s t, delta_file_at s ≠ surface_file_at t ∧ incident_file_at s ≠ surface_file_at t ∧
    incident_file_at s ≠ delta_file_at t) as Hd by (intros s t; split_and!; apply Hne; done).
  rewrite E0, E1, E2, E3. destruct (Hd s2 s0) as (? & ? & ?), (Hd s2 s1) as (? & ? & ?), (Hd s2 s2) as (_ & _ & ?).
  rewrite !(lookup_insert_ne _ (incident_file_at s2)) by done.
  rewrite !(lookup_insert_ne _ (delta_file_at s2)) by done.
  rewrite !lookup_insert_eq. split_and!; try done. case_decide as Heq.
  - by rewrite Heq, lookup_insert_eq.
  - rewrite lookup_insert_ne by congruence. by rewrite lookup_insert_eq.
Qed.

(** C36: started where its imports succeed, and without its options, the smoke
    harness always succeeds: it leaves two sealed surfaces, their sealed delta,
    whose gate permits, and an incident that refers to the second surface and to
    the delta, and touches neither the kernel nor the grants.  The first surface
    survives only if the two have different names: not when the clock reads the
    same second twice, as it does without [--deterministic]. *)
Theorem smoke_succeeds l argv args (w : World K) :
  smoke_imports l = Ok tt → command_line smoke_parser smoke_args argv = Some (Ok args) →
  k_validate args = false → k_egress_demo args = false →
  ∃ run w' r, smoke_program l argv = Some run ∧ run w = (w', Ok (0%Z, smoke_report args r)) ∧ run_sound r ∧
    w_db w' = w_db (ready w) ∧ w_kernel w' = w_kernel w ∧
    w_fs w' !! r_p0 r = Some (file_of (if decide (r_p0 r = r_p1 r) then r_surface1 r else r_surface0 r)) ∧
    w_fs w' !! r_p1 r = Some (file_of (r_surface1 r)) ∧
    w_fs w' !! r_pd r = Some (file_of (r_delta r)) ∧
    w_fs w' !! r_pi r = Some (file_of (r_incident r)) ∧
    (k_deterministic args = true → r_p0 r ≠ r_p1 r) ∧
    (k_deterministic args = false → clock (w_tick w) = clock (S (w_tick w)) → r_p0 r = r_p1 r).
Proof.
  intros Hl Hargs Hv Hd.
  destruct (run_smoke_documents args (ready w)) as (w' & r & Hr & Hs & Hf & Hdb & Hk & _ & Hdet & Hsame).
  eexists _, w', r. split.
  { unfold smoke_program, program. rewrite Hl, Hargs. reflexivity. }
  split.
  { rewrite bind_lift_ok. unfold smoke_main, Egress.init. rewrite run_bind, run_init, run_bind, Hr, Hv, Hd, run_bind.
    reflexivity. }
  rewrite Hf. split; [done|]. split; [done|]. split; [done|].
  destruct (run_files_at r (w_fs (ready w)) Hs) as (? & ? & ? & ?). split_and!; done.
Qed.

(** with [--egress-demo] the harness never succeeds: whatever the rest of
    the state, if the live grants have plain targets, as those the harness
    installs have, and the run takes less than an hour, it ends with an
    exception, so "applied+verified" is never printed. *)
Theorem smoke_egress_never `{laws : !NftLaws K} args (w : World K) :
  k_egress_demo args = true → store_inv w → clean_targets (abs_of w) → (∀ n, int64 (clock n) = true) →
  (∀ m n, m ≤ n ≤ m + 16 → (clock n < clock m + 3600)%Z) →
  ∃ e, (smoke_main args w).2 = Err e.
Proof.
  intros Hd Hinv Hclean Hc64 Hclock.
  destruct (run_smoke_documents args (ready w)) as (w' & r & Hr & _ & _ & Hdb & _).
  unfold smoke_main, Egress.init. rewrite run_bind, run_init, run_bind, Hr, run_bind.
  assert (Hrows : abs_of w' = abs_of w ∧ (store_inv w' ↔ store_inv w)).
  { unfold abs_of, store_inv, replay_rows, grant_rows. by rewrite Hdb. }
  destruct Hrows as [Habs Hst].
  destruct (egress_demo_fails w') as (e & He); [by apply Hst|by rewrite Habs|done|done|].
  destruct (k_validate args); [unfold lift; destruct (smoke_validate r); [|eauto]|cbn];
    rewrite Hd, run_bind; cbn [when]; destruct (egress_demo w') as [w2 r2]; cbn in He; subst r2; eauto.
Qed.
End theorems.
