(* ===== verification/CcFacts.v ===== *)
(** * The compression estimator: facts

    The guards of the source keep its divisions defined, and the metric
    identifier binds the two inputs. *)
From S2P Require Import Prelude PyStr PyFloat PyJson PyJsonRoundtrip PyJsonStrings Errors PyOps Sha256 World Canon CanonFacts Host.
From S2P Require Import TruthDocs CcEval.
From Stdlib Require Import SpecFloat.

#[local] Arguments u : simpl never.

Section cc.
Context `{Compressors}.

(** [max(1e-12, r)] is never zero. *)
Lemma guarded_nonzero r s : float_max (float_of_decimal false 1 (-12)) r ≠ S754_zero s.
Proof.
  unfold float_max. set (g := float_of_decimal false 1 (-12)).
  assert (Hg : ∃ m e, g = S754_finite false m e) by (vm_compute; eauto).
  destruct Hg as (m & e & ->). destruct r as [[]|[]| |[] m' e']; simpl; repeat case_match; done.
Qed.
Definition overflows (e : exn) : Prop := exn_type e = OverflowError.
Lemma truediv_overflows a b : b ≠ 0%Z → raises_only overflows (int_truediv a b).
Proof.
  intros Hb. unfold int_truediv. destruct (Z.eqb_spec b 0); [done|]. by destruct (float_is_inf _).
Qed.
Lemma float_truediv_overflows f g : (∀ s, g ≠ S754_zero s) → raises_only overflows (float_truediv f g).
Proof. unfold float_truediv. intros Hg. destruct g as [s| | |]; [by destruct (Hg s)|done..]. Qed.
Lemma term_overflows B X BX artifact k :
  k ∈ [u "zlib"; u "lzma"] →
  raises_only overflows (term_of (compress_sizes B) (compress_sizes X) (compress_sizes BX) artifact k).
Proof.
  intros Hk. unfold term_of.
  assert (Hs : ∀ b, ∃ z, size_at (compress_sizes b) k = Ok z).
  { intros b. rewrite !elem_of_cons, elem_of_nil in Hk. destruct Hk as [->|[->|[]]]; eexists; reflexivity. }
  destruct (Hs B) as [? ->], (Hs X) as [? ->], (Hs BX) as [? ->]. cbn [mbind res_bind].
  apply res_bind_raises; [apply truediv_overflows; lia|intros r].
  apply res_bind_raises; [|done]. apply float_truediv_overflows, guarded_nonzero.
Qed.

(** C40: the estimator's divisions are guarded: whatever the two inputs, empty
    ones included, and whatever the compressors return, it never divides by
    zero; the only way it fails is a size no float can hold. *)
Theorem novelty_total baseline artifact : raises_only overflows (novelty_and_redundancy baseline artifact).
Proof.
  unfold novelty_and_redundancy. cbv zeta.
  assert (Hk : sorted (map fst (compress_sizes baseline)) = [u "lzma"; u "zlib"]) by (vm_compute; reflexivity).
  rewrite Hk. destruct (map_res _ _) as [terms|e] eqn:Ht.
  - apply map_res_Ok, Forall2_length in Ht. cbn [mbind res_bind]. rewrite <-Ht.
    apply res_bind_raises; [by apply truediv_overflows|intros nov].
    assert (Hn : ∃ m e, py_float (Z.max 1 (Z.of_nat (length [u "lzma"; u "zlib"]))) = Ok (S754_finite false m e))
      by (vm_compute; eauto).
    destruct Hn as (m & e & ->). cbn [mbind res_bind]. by apply res_bind_raises; [apply float_truediv_overflows|].
  - assert (Hr : raises_only overflows (map_res (term_of (compress_sizes baseline) (compress_sizes artifact)
      (compress_sizes (baseline ++ [10%N] ++ artifact)) artifact) [u "lzma"; u "zlib"])).
    { cbn [map_res]. repeat first [done | apply term_overflows; set_solver | apply res_bind_raises; [|intros ?]]. }
    by rewrite Ht in Hr.
Qed.

(** Hexadecimal digests have one length, so a pair of them splits. *)
Lemma digests_split a b a' b' :
  sha256_bytes a ++ sha256_bytes b = sha256_bytes a' ++ sha256_bytes b' →
  sha256_bytes a = sha256_bytes a' ∧ sha256_bytes b = sha256_bytes b'.
Proof. intros Hs. apply app_inj_1 in Hs; [done|]. unfold sha256_bytes, _sha256_hex. by rewrite !hexdigest_length. Qed.

(** the metric identifier is total and binds the inputs: equal identifiers
    mean the same baseline and the same artifact, unless two of the texts
    hashed along the way, which are named, collide under SHA-256. *)
Theorem metric_id_binds B X B' X' :
  is_ok (metric_id B X) = true ∧
  (metric_id B X = metric_id B' X' →
   (B = B' ∧ X = X') ∨ collision B B' ∨ collision X X' ∨
   ∃ e e', py_encode (sha256_bytes B ++ sha256_bytes X) = Ok e ∧
           py_encode (sha256_bytes B' ++ sha256_bytes X') = Ok e' ∧ collision e e').
Proof.
  assert (Hok : ∀ b x, ∃ e, py_encode (sha256_bytes b ++ sha256_bytes x) = Ok e).
  { intros b x. destruct (py_encode _) as [e|e] eqn:He; [eauto|]. exfalso.
    assert (is_ok (py_encode (sha256_bytes b ++ sha256_bytes x)) = true) as Ht; [|by rewrite He in Ht].
    apply py_encode_ok, text_no_surrogate, text_app; apply hexdigest_text. }
  destruct (Hok B X) as [e He], (Hok B' X') as [e' He']. unfold metric_id. rewrite He, He'. split; [done|].
  intros [= Hm]. apply sha256_hex_inj in Hm as [->|Hc]; [|right; right; right; eauto].
  pose proof (py_encode_inj _ _ _ He He') as [HB HX]%digests_split.
  apply sha256_hex_inj in HB as [->|Hc]; [|by auto]. apply sha256_hex_inj in HX as [->|Hc]; auto.
Qed.
End cc.
