(* ===== verification/ValidatePackage.v ===== *)
(** * The capability package validator
    (src/caps/semantic-search-bi/tools/validate_package.py)

    [main] reads the package next to the script and prints what it finds; the
    first failure prints an error and exits with status 2.  The file system of
    the package and PyYAML, whose values are those of JSON here, are
    parameters. *)
From S2P Require Import Prelude PyStr PyJson Errors PyOps.

(** Paths are given relative to the package. *)
Class Package := {
  pkg : pystr;                                      (* [here.parent.parent] *)
  is_dir : list pystr → bool;
  exists_ : list pystr → bool;
  content : list pystr → res exn pystr;             (* [p.read_text()] *)
  names : list pystr → list pystr;                  (* the entries of a directory *)
  safe_load : option (pystr → pyres json)
}.

Inductive line := Stdout (s : pystr) | Stderr (s : pystr).
Abbreviation V := (M exn (list line)).

Section validate.
Context `{Package}.

Definition as_posix (p : list pystr) : pystr := pkg ++ u "/" ++ join (u "/") p.
Definition emit (l : line) : V unit := modify (λ ls, ls ++ [l]).
Definition ok (msg : pystr) : V unit := emit (Stdout (u "OK: " ++ msg)).
Definition fail {A} (msg : pystr) : V A :=
  emit (Stderr (u "ERR: " ++ msg)) ;; raise (Exn SystemExit (u "2")).
(** [except Exception as e: fail(...)]; [SystemExit] is not an [Exception]. *)
Definition or_fail {A} (m : V A) (what : pystr) : V A :=
  catch m (λ e, if isinstance e Exception then fail (what ++ exn_str e) else raise e).

Definition read_text (p : list pystr) : V pystr :=
  or_fail (lift (content p)) (u "unable to read " ++ as_posix p ++ u ": ").

Definition try_parse_yaml (p : list pystr) : V unit :=
  s ← read_text p;
  match strip s with
  | [] => fail (as_posix p ++ u " is empty")
  | s =>
      match safe_load with
      | None => ok (u "yaml present (PyYAML not installed; parse skipped): " ++ as_posix p)
      | Some load =>
          or_fail (lift (load s) ;; ok (u "yaml parses: " ++ as_posix p))
            (u "yaml parse failed for " ++ as_posix p ++ u ": ")
      end
  end.

(** [needle in s] on strings *)
Fixpoint contains (needle s : pystr) : bool :=
  startswith needle s || match s with [] => false | _ :: s' => contains needle s' end.
(** [k in x] *)
Definition py_contains (k : pystr) (x : json) : pyres bool :=
  match x with
  | JDict d => Ok (dict_has k d)
  | JList l => Ok (existsb (λ y, bool_decide (y = JStr k)) l)
  | JStr s => Ok (contains k s)
  | _ => Err (Exn TypeError (u "argument of type '" ++ type_name x ++ u "' is not iterable"))
  end.

Definition parse_json_schema (p : list pystr) : V unit :=
  obj ← or_fail (s ← read_text p; lift (py_loads s)) (u "json parse failed for " ++ as_posix p ++ u ": ");
  has_schema ← lift (py_contains (u "$schema") obj);
  has_type ← (if has_schema then lift (py_contains (u "type") obj) else mret false);
  when (negb (has_schema && has_type))
    (fail (as_posix p ++ u " does not look like a JSON Schema (missing $schema/type)")) ;;
  ok (u "json schema parses: " ++ as_posix p).

Definition required_dirs : list pystr := [u "capd"; u "docs"; u "rpc"; u "schemas"; u "tools"; u "topics"].
Fixpoint for_each {A} (f : A → V unit) (l : list A) : V unit :=
  match l with [] => mret tt | x :: l' => f x ;; for_each f l' end.

Definition check_require (req : json) (k : pystr) : V unit :=
  v ← lift (py_get req k JNull);
  when (negb (bool_decide (v = JBool true))) (fail (u "requires." ++ k ++ u " must be true")).
Definition capd : list pystr := [u "capd"; u "capability.yaml"].
Definition check_capd (load : pystr → pyres json) : V unit :=
  s ← read_text capd;
  cap ← lift (load s);
  let cap := py_or cap (JDict []) in
  capinfo ← lift (py_get cap (u "capability") (JDict []));
  kind ← lift (py_get capinfo (u "kind") JNull);
  when (negb (bool_decide (kind = JStr (u "contract-only")))) (fail (u "capability.kind must be 'contract-only'")) ;;
  name ← lift (py_get capinfo (u "name") JNull);
  version ← (if truthy name then lift (py_get capinfo (u "version") JNull) else mret JNull);
  when (negb (truthy name && truthy version)) (fail (u "capability.name and capability.version are required")) ;;
  req ← lift (py_get cap (u "requires") (JDict []));
  for_each (check_require req) [u "trirpc_bus"; u "policy_guard"; u "evidence_emission"] ;;
  ok (u "capd semantics validated").

Definition check_yaml_file (p : list pystr) (name : pystr) : V unit :=
  when (negb (exists_ p)) (fail (u "missing " ++ name)) ;;
  try_parse_yaml p.
Definition rpc : list pystr := [u "rpc"; u "semantic.search.v0.yaml"].
Definition topics : list pystr := [u "topics"; u "semantic.search.topics.v0.yaml"].
(** [sorted(schemas_dir.glob("*.schema.json"))] *)
Definition endswith (suffix s : pystr) : bool := startswith (reverse suffix) (reverse s).
Definition schemas : list (list pystr) :=
  map (λ n, [u "schemas"; n])
    (sorted (filter (λ n, endswith (u ".schema.json") n = true) (names [u "schemas"]))).

Definition main : V unit :=
  for_each (λ d, when (negb (is_dir [d])) (fail (u "missing dir: " ++ d))) required_dirs ;;
  ok (u "package structure looks sane") ;;
  check_yaml_file capd (u "capd/capability.yaml") ;;
  match safe_load with
  | None => ok (u "capd semantic validation skipped (PyYAML not installed)")
  | Some load => or_fail (check_capd load) (u "capd semantic validation failed: ")
  end ;;
  check_yaml_file rpc (u "rpc/semantic.search.v0.yaml") ;;
  check_yaml_file topics (u "topics/semantic.search.topics.v0.yaml") ;;
  match schemas with
  | [] => fail (u "no schemas/*.schema.json found")
  | ss => for_each parse_json_schema ss
  end ;;
  ok (u "capability package validates").
End validate.
