(* ===== verification/ValidatePackageFacts.v ===== *)
(** * The capability package validator: facts

    [main] succeeds exactly on the packages it is meant to accept. *)
From S2P Require Import Prelude PyStr PyJson PyDict Errors PyOps ValidatePackage.

#[local] Arguments u : simpl never.

Section validate.
Context `{Package}.

(** ** When a check passes *)

(** [m] returns [a] exactly when [Q a], whatever has been printed. *)
Definition gives {A} (m : V A) (Q : A → Prop) : Prop := ∀ ls a, (m ls).2 = Ok a ↔ Q a.
Abbreviation accepts m P := (gives m (λ _ : unit, P)).

Lemma gives_iff {A} (m : V A) Q R : gives m Q → (∀ a, Q a ↔ R a) → gives m R.
Proof. intros Hm HQR ls a. by rewrite (Hm ls a). Qed.
Lemma gives_ret {A} (a : A) : gives (mret a) (λ b, b = a).
Proof. intros ls b. simpl. split; [by intros [= ->]|by intros ->]. Qed.
Lemma gives_lift {A} (r : pyres A) : gives (lift r) (λ a, r = Ok a).
Proof. by intros ls a. Qed.
Lemma gives_bind {A B} (m : V A) (f : A → V B) Q R :
  gives m Q → (∀ a, gives (f a) (R a)) → gives (m ≫= f) (λ b, ∃ a, Q a ∧ R a b).
Proof.
  intros Hm Hf ls b. rewrite run_bind. specialize (Hm ls). destruct (m ls) as [ls' [a|e]]; cbn [snd] in *.
  - rewrite (Hf a ls' b). pose proof (proj1 (Hm a) eq_refl) as Ha. split; [eauto|].
    intros (a' & Ha' & HR). apply Hm in Ha'. congruence.
  - split; [done|]. intros (a & Ha & _). by apply Hm in Ha.
Qed.
Lemma gives_or_fail {A} (m : V A) what Q : gives m Q → gives (or_fail m what) Q.
Proof.
  intros Hm ls a. rewrite <-(Hm ls a). unfold or_fail, catch. destruct (m ls) as [ls' [a'|e]]; [done|].
  by destruct (isinstance e Exception).
Qed.
Lemma gives_read p : gives (read_text p) (λ s, content p = Ok s).
Proof. apply gives_or_fail, gives_lift. Qed.
Lemma accepts_ok msg : accepts (ok msg) True.
Proof. by intros ls []. Qed.
Lemma accepts_when b msg : accepts (when (negb b) (fail msg)) (b = true).
Proof. intros ls []. by destruct b. Qed.
Lemma accepts_seq (m n : V unit) P Q : accepts m P → accepts n Q → accepts (m ;; n) (P ∧ Q).
Proof.
  intros Hm Hn. eapply gives_iff; [by apply gives_bind; [exact Hm|intros []; exact Hn]|]. intros []. simpl.
  split; [naive_solver|intros []; by exists tt].
Qed.
Lemma accepts_each {A} (f : A → V unit) P l : (∀ x, accepts (f x) (P x)) → accepts (for_each f l) (Forall P l).
Proof.
  intros Hf. induction l as [|x l IH]; cbn [for_each].
  - eapply gives_iff; [apply gives_ret|]. intros []. by split.
  - eapply gives_iff; [apply accepts_seq; [apply Hf|exact IH]|]. intros []. by rewrite Forall_cons.
Qed.

(** ** The package *)

Definition yaml_ok (p : list pystr) : Prop :=
  exists_ p = true ∧ ∃ s, content p = Ok s ∧ strip s ≠ [] ∧
    ∀ load, safe_load = Some load → is_ok (load (strip s)) = true.
Definition capd_ok (load : pystr → pyres json) : Prop :=
  ∃ s cap info req, content capd = Ok s ∧ load s = Ok (JDict cap) ∧
    dict_get (u "capability") cap = Some (JDict info) ∧
    dict_get (u "kind") info = Some (JStr (u "contract-only")) ∧
    truthy (dict_get_or JNull (u "name") info) = true ∧ truthy (dict_get_or JNull (u "version") info) = true ∧
    dict_get (u "requires") cap = Some (JDict req) ∧
    Forall (λ k, dict_get k req = Some (JBool true)) [u "trirpc_bus"; u "policy_guard"; u "evidence_emission"].
Definition schema_ok (p : list pystr) : Prop :=
  ∃ s obj, content p = Ok s ∧ py_loads s = Ok obj ∧
    py_contains (u "$schema") obj = Ok true ∧ py_contains (u "type") obj = Ok true.
(** What the validator means: the directories exist, the three descriptors are
    there and parse, the capability is contract-only, named, versioned and
    requires the three guarantees, and every schema looks like one. *)
Record package_ok : Prop := {
  pk_dirs : Forall (λ d, is_dir [d] = true) required_dirs;
  pk_yaml : Forall yaml_ok [capd; rpc; topics];
  pk_capd : ∀ load, safe_load = Some load → capd_ok load;
  pk_schemas : schemas ≠ [] ∧ Forall schema_ok schemas
}.

Lemma try_parse_accepts p :
  accepts (try_parse_yaml p) (∃ s, content p = Ok s ∧ strip s ≠ [] ∧
    ∀ load, safe_load = Some load → is_ok (load (strip s)) = true).
Proof.
  unfold try_parse_yaml. apply gives_bind; [apply gives_read|]. intros s. destruct (strip s) as [|c t] eqn:Hs.
  { intros ls a. by split; [|intros [? _]]. }
  destruct safe_load as [load|].
  - apply gives_or_fail. eapply gives_iff; [apply gives_bind; [apply gives_lift|intros j; apply accepts_ok]|].
    intros []. simpl. split.
    + intros (j & Hj & _). split; [done|]. intros load' [= <-]. by rewrite Hj.
    + intros [_ Hl]. specialize (Hl load eq_refl). destruct (load (c :: t)) as [j|]; [eauto|done].
  - eapply gives_iff; [apply accepts_ok|]. naive_solver.
Qed.
Lemma yaml_file_accepts p name : accepts (check_yaml_file p name) (yaml_ok p).
Proof. unfold check_yaml_file. apply accepts_seq; [apply accepts_when|apply try_parse_accepts]. Qed.
Lemma schema_accepts p : accepts (parse_json_schema p) (schema_ok p).
Proof.
  unfold parse_json_schema. eapply gives_iff.
  { apply gives_bind; [apply gives_or_fail, gives_bind; [apply gives_read|intros s; apply gives_lift]|intros obj].
    apply gives_bind; [apply gives_lift|intros has_schema].
    apply (gives_bind _ _ (λ b, if has_schema then py_contains (u "type") obj = Ok b else b = false));
      [destruct has_schema; [apply gives_lift|apply gives_ret]|intros has_type].
    apply accepts_seq; [apply accepts_when|apply accepts_ok]. }
  intros []. unfold schema_ok. split.
  - intros (obj & (s & Hs & Hl) & hs & Hhs & ht & Hht & Hand & _). apply andb_true_iff in Hand as [-> ->]. eauto 6.
  - intros (s & obj & Hs & Hl & Hhs & Hht). exists obj. split; [eauto|]. exists true. split; [done|].
    exists true. by split.
Qed.
Lemma require_accepts req k : accepts (check_require (JDict req) k) (dict_get k req = Some (JBool true)).
Proof.
  unfold check_require. eapply gives_iff; [apply gives_bind; [apply gives_lift|intros v; apply accepts_when]|].
  intros []. split.
  - intros (v & Hv & ->%bool_decide_eq_true). injection Hv as Hv. unfold dict_get_or in Hv.
    destruct (dict_get k req); simpl in Hv; congruence.
  - intros Hk. exists (JBool true). split; [|done]. unfold py_get, dict_get_or. by rewrite Hk.
Qed.
(** A section of the capability with a field that is not null is really there. *)
Lemma section_present cap k x k' v :
  py_get (py_or cap (JDict [])) k (JDict []) = Ok x → py_get x k' JNull = Ok v → v ≠ JNull →
  ∃ c d, cap = JDict c ∧ dict_get k c = Some (JDict d) ∧ x = JDict d ∧ dict_get k' d = Some v.
Proof.
  intros Hx Hv Hne. destruct x as [| | | | | |d]; try done. injection Hv as Hv. unfold dict_get_or in Hv.
  assert (Hk' : dict_get k' d = Some v) by (destruct (dict_get k' d); simpl in Hv; congruence).
  unfold py_or in Hx. destruct (truthy cap) eqn:Ht.
  - destruct cap as [| | | | | |c]; try done. injection Hx as Hx. unfold dict_get_or in Hx.
    exists c, d. split; [done|]. destruct (dict_get k c) as [w|]; simpl in Hx; [by subst|].
    by injection Hx as <-.
  - by injection Hx as <-.
Qed.
Lemma capd_accepts load : accepts (check_capd load) (capd_ok load).
Proof.
  unfold check_capd. eapply gives_iff.
  { apply gives_bind; [apply gives_read|intros s]. apply gives_bind; [apply gives_lift|intros cap]. cbv zeta.
    apply gives_bind; [apply gives_lift|intros capinfo]. apply gives_bind; [apply gives_lift|intros kind].
    apply gives_bind; [apply accepts_when|intros ?]. apply gives_bind; [apply gives_lift|intros name].
    apply (gives_bind _ _ (λ v, if truthy name then py_get capinfo (u "version") JNull = Ok v else v = JNull));
      [destruct (truthy name); [apply gives_lift|apply gives_ret]|intros version].
    apply gives_bind; [apply accepts_when|intros ?]. apply gives_bind; [apply gives_lift|intros req].
    apply gives_bind; [|intros ?; apply accepts_ok].
    apply (accepts_each _ (λ k, ∃ v, py_get req k JNull = Ok v ∧ bool_decide (v = JBool true) = true)).
    intros k. apply gives_bind; [apply gives_lift|intros v; apply accepts_when]. }
  intros []. unfold capd_ok. split.
  - intros (s & Hs & cap & Hc & info & Hi & kind & Hk & _ & ->%bool_decide_eq_true & name & Hn & version & Hv & _ &
      [Htn Htv]%andb_true_iff & req & Hq & _ & Hall & _).
    destruct (section_present _ _ _ _ _ Hi Hk ltac:(done)) as (c & d & -> & Hcap & -> & Hkind).
    pose proof Hall as Hfirst. apply Forall_inv in Hfirst as (v & Hv1 & ->%bool_decide_eq_true).
    destruct (section_present _ _ _ _ _ Hq Hv1 ltac:(done)) as (c' & r & [= <-] & Hreq & -> & _).
    rewrite Htn in Hv. injection Hn as Hn. injection Hv as Hv. subst name version.
    exists s, c, d, r. do 7 (split; [done|]). eapply Forall_impl; [exact Hall|]. intros k (v & Hkv & ->%bool_decide_eq_true).
    injection Hkv as Hkv. unfold dict_get_or in Hkv. destruct (dict_get k r); simpl in Hkv; congruence.
  - intros (s & c & d & r & Hs & Hl & Hcap & Hk & Hn & Hv & Hr & Hall).
    assert (Hor : py_or (JDict c) (JDict []) = JDict c) by (by destruct c).
    exists s. split; [done|]. exists (JDict c). split; [done|]. rewrite Hor.
    exists (JDict d). split; [unfold py_get, dict_get_or; by rewrite Hcap|].
    exists (JStr (u "contract-only")). split; [unfold py_get, dict_get_or; by rewrite Hk|].
    exists tt. split; [by apply bool_decide_eq_true|]. eexists. split; [reflexivity|]. rewrite Hn. eexists. split; [reflexivity|].
    exists tt. split; [by rewrite Hv|]. exists (JDict r). split; [unfold py_get, dict_get_or; by rewrite Hr|].
    exists tt. split; [|done]. eapply Forall_impl; [exact Hall|]. intros k Hkr. exists (JBool true).
    split; [unfold py_get, dict_get_or; by rewrite Hkr|done].
Qed.

(** C39: the validator accepts exactly the valid packages: whatever has been
    printed before, [main] returns normally if and only if the directories and
    descriptors are there and parse, the capability section is contract-only,
    named and versioned and requires the three guarantees (when PyYAML is
    installed), and there are schema files that all look like JSON schemas. *)
Theorem validate_package_exact ls : (main ls).2 = Ok tt ↔ package_ok.
Proof.
  assert (Hmain : accepts main (Forall (λ d, is_dir [d] = true) required_dirs ∧ True ∧ yaml_ok capd ∧
    (∀ load, safe_load = Some load → capd_ok load) ∧ yaml_ok rpc ∧ yaml_ok topics ∧
    (schemas ≠ [] ∧ Forall schema_ok schemas) ∧ True)).
  { unfold main. apply accepts_seq; [apply accepts_each; intros d; apply accepts_when|].
    apply accepts_seq; [apply accepts_ok|]. apply accepts_seq; [apply yaml_file_accepts|].
    apply accepts_seq.
    { destruct safe_load as [load|].
      - eapply gives_iff; [apply gives_or_fail, capd_accepts|]. intros []. naive_solver.
      - eapply gives_iff; [apply accepts_ok|]. naive_solver. }
    apply accepts_seq; [apply yaml_file_accepts|]. apply accepts_seq; [apply yaml_file_accepts|].
    apply accepts_seq; [|apply accepts_ok]. destruct schemas as [|p ps]; [by intros ls' []; split; [|intros [? _]]|].
    eapply gives_iff; [apply accepts_each, schema_accepts|]. intros []. naive_solver. }
  rewrite (Hmain ls tt). split.
  - intros (? & _ & ? & ? & ? & ? & ? & _). split; try done. by rewrite !Forall_cons, Forall_nil.
  - intros [? Hy ? ?]. rewrite !Forall_cons in Hy. tauto.
Qed.
End validate.

(** ** A valid package *)

Definition demo_capability : json := JDict [
  (u "capability", JDict [(u "kind", JStr (u "contract-only")); (u "name", JStr (u "n")); (u "version", JStr (u "1"))]);
  (u "requires", JDict [(u "trirpc_bus", JBool true); (u "policy_guard", JBool true);
                        (u "evidence_emission", JBool true)])].
Definition demo_schema : json := JDict [(u "$schema", JStr (u "s")); (u "type", JStr (u "object"))].
#[local] Instance demo_package : Package := {|
  pkg := u "/p"; is_dir _ := true; exists_ _ := true;
  content p := Ok (dumps opts_default false (if decide (head p = Some (u "schemas")) then demo_schema else demo_capability));
  names _ := [u "README"; u "a.schema.json"];
  safe_load := Some py_loads |}.
Lemma validate_package_exact_witness : package_ok.
Proof. apply (validate_package_exact []). vm_compute. reflexivity. Defined.
