(* ===== verification/ToolArgsFacts.v ===== *)
(** * What the programs are given

    Every command line a program accepts, if no string of it ends in =--, reads as
    arguments of the kinds its [main] expects, within the declared choices; the
    evidence a tick starts from cannot be taken away.  Before the command line
    come the imports: started the way the documentation says, two programs end
    there, and no tick gets further than its first call. *)
From S2P Require Import Prelude PyStr PyJson PyJsonRoundtrip PyDict Errors PyOps PySet World.
From S2P Require Import Canon Host.
From S2P Require Import Argparse ArgparseFacts ToolArgs Cli Ctl Incident Cosa Smoke.
From S2P Require TruthSurface Tick.

(** ** Reading an attribute *)

Definition is_str (v : json) : bool := match v with JStr _ => true | _ => false end.
Definition strs_of (v : json) : option (list pystr) := match v with JList l => mapM as_str l | _ => None end.
Definition attr (args : list argument) (k : string) (f : argument → bool) : bool :=
  existsb (λ a, bool_decide (dest a = u k) && f a) args.
Definition str_arg (a : argument) : bool :=
  match act a with Store TStr => required a || is_str (dflt a) | _ => false end.
Definition opt_arg (a : argument) : bool :=
  match act a, dflt a with Store TStr, (JNull | JStr _) => true | _, _ => false end.
Definition int_arg (a : argument) : bool :=
  match act a with Store TInt => required a || bool_decide (is_Some (as_int (dflt a))) | _ => false end.
Definition bool_arg (a : argument) : bool :=
  match act a, dflt a with StoreTrue, JBool _ => true | _, _ => false end.
Definition strs_arg (a : argument) : bool :=
  match act a with Append TStr => bool_decide (is_Some (strs_of (dflt a))) | _ => false end.
Definition ints_arg (a : argument) : bool :=
  match act a, dflt a with Append TInt, JList [] => true | _, _ => false end.

Lemma attr_elem args k f : attr args k f = true → ∃ a, a ∈ args ∧ dest a = u k ∧ f a = true.
Proof.
  unfold attr. intros (a & Ha & [Hd%bool_decide_eq_true Hf]%andb_true_iff)%List.existsb_exists.
  exists a. by apply list_elem_of_In in Ha.
Qed.

(** A string restricted to [l], a list whose default is [l], one that is
    required. *)
Definition choice_arg (l : list pystr) (a : argument) : bool :=
  str_arg a && bool_decide (choices a = l ∧ l ≠ []) && (required a || bool_decide (dflt a ∈ map JStr l)).
Definition floor_arg (l : list pystr) (a : argument) : bool :=
  strs_arg a && bool_decide (strs_of (dflt a) = Some l).
Definition needed_arg (a : argument) : bool := strs_arg a && required a.

Section read.
Context (args : list argument) (d : dict) (Hfin : final args d).

Ltac read_arg := intros (a & Ha & Hd & Hf)%attr_elem; destruct (Hfin a Ha) as [(v & Hv & Hok)|[Hreq Hv]];
  rewrite Hd in Hv; rewrite Hv; unfold value_ok in *.

Lemma read_str k : attr args k str_arg = true → ∃ s, get_str k d = Some s.
Proof.
  unfold get_str, str_arg. read_arg; destruct (act a) as [[]| | |] eqn:Hact; try done.
  - destruct Hok as (s & -> & _). eauto.
  - rewrite Hreq in Hf. destruct (dflt a); try done. eauto.
Qed.
Lemma read_choice k l : attr args k (choice_arg l) = true → ∃ s, get_str k d = Some s ∧ s ∈ l.
Proof.
  unfold get_str, choice_arg, str_arg. read_arg;
    apply andb_true_iff in Hf as [[Hf [Hl Hne]%bool_decide_eq_true]%andb_true_iff Hdf];
    destruct (act a) as [[]| | |] eqn:Hact; try done.
  - destruct Hok as (s & -> & [?|?]); [congruence|]. exists s. by subst l.
  - rewrite Hreq in Hdf. cbn in Hdf. apply bool_decide_eq_true in Hdf.
    apply list_elem_of_fmap in Hdf as (s & -> & ?). eauto.
Qed.
Lemma read_opt k : attr args k opt_arg = true → ∃ o, get_opt k d = Some o.
Proof.
  unfold get_opt, opt_arg. read_arg; destruct (act a) as [[]| | |] eqn:Hact; try done.
  - destruct Hok as (s & -> & Hs). eauto.
  - destruct (dflt a); eauto; done.
Qed.
Lemma read_int k : attr args k int_arg = true → ∃ z, get_int k d = Some z.
Proof.
  unfold get_int, int_arg. read_arg; destruct (act a) as [[]| | |] eqn:Hact; try done.
  - destruct Hok as (z & ->). eauto.
  - rewrite Hreq in Hf. cbn in Hf. apply bool_decide_eq_true in Hf as [z Hz]. destruct (dflt a); try done; eauto.
Qed.
Lemma read_bool k : attr args k bool_arg = true → ∃ b, get_bool k d = Some b.
Proof.
  unfold get_bool, bool_arg. read_arg; destruct (act a) as [[]| |[]|] eqn:Hact; try done.
  - rewrite Hok. eauto.
  - destruct (dflt a); try done. eauto.
Qed.

Lemma mapM_some_app {A} (f : json → option A) l l' r r' :
  mapM f l = Some r → mapM f l' = Some r' → mapM f (l ++ l') = Some (r ++ r').
Proof. rewrite !mapM_Some. apply Forall2_app. Qed.
Lemma mapM_strs a l : Forall (kind_ok a TStr) l → ∃ r, mapM as_str l = Some r ∧ length r = length l.
Proof.
  induction 1 as [|v l (s & -> & _) _ (r & Hr & Hlen)]; [by exists []|]. exists (s :: r).
  cbn. rewrite Hr. cbn. auto.
Qed.
Lemma mapM_ints a l : Forall (kind_ok a TInt) l → ∃ r, mapM as_int l = Some r.
Proof. induction 1 as [|v l (z & ->) _ (r & Hr)]; [by exists []|]. exists (z :: r). cbn. by rewrite Hr. Qed.

(** A list option has its default in front; one that is required is not just
    its default. *)
Lemma read_strs_arg k a : a ∈ args → dest a = u k → strs_arg a = true →
  ∃ l0 l, strs_of (dflt a) = Some l0 ∧ get_strs k d = Some (l0 ++ l) ∧ (required a = true → l ≠ []).
Proof.
  unfold get_strs, strs_arg. intros Ha Hd Hf. destruct (Hfin a Ha) as [(v & Hv & Hok)|[Hreq Hv]];
    rewrite Hd in Hv; rewrite Hv; unfold value_ok in *; destruct (act a) as [[]| |[]|] eqn:Hact; try done;
    apply bool_decide_eq_true in Hf as [l0 Hl0]; exists l0.
  - destruct Hok as (l & -> & Hl & [r [Hr Hlen]]%mapM_strs). exists r. split_and!; [done| |].
    + destruct (dflt a) as [| | | | |l'|]; try done. cbn [items_of]. by apply mapM_some_app.
    + intros _ ->. destruct l; [done|discriminate].
  - exists []. split_and!; [done| |congruence]. rewrite app_nil_r. by destruct (dflt a).
Qed.
Lemma read_strs k : attr args k strs_arg = true → ∃ l, get_strs k d = Some l.
Proof. intros (a & Ha & Hd & Hf)%attr_elem. destruct (read_strs_arg k a Ha Hd Hf) as (? & ? & _ & -> & _). eauto. Qed.
Lemma read_floor k l0 : attr args k (floor_arg l0) = true → ∃ l, get_strs k d = Some (l0 ++ l).
Proof.
  intros (a & Ha & Hd & [Hf Hl%bool_decide_eq_true]%andb_true_iff)%attr_elem.
  destruct (read_strs_arg k a Ha Hd Hf) as (l1 & l & Hl1 & -> & _). exists l. congruence.
Qed.
Lemma read_needed k : attr args k needed_arg = true → ∃ l, get_strs k d = Some l ∧ l ≠ [].
Proof.
  intros (a & Ha & Hd & [Hf Hr]%andb_true_iff)%attr_elem.
  destruct (read_strs_arg k a Ha Hd Hf) as (l1 & l & _ & -> & Hne). eexists. split; [done|].
  intros [_ ?]%app_eq_nil. by apply Hne.
Qed.
Lemma read_ints k : attr args k ints_arg = true → ∃ l, get_ints k d = Some l.
Proof.
  unfold get_ints, ints_arg. read_arg; destruct (act a) as [[]| |[]|] eqn:Hact; try done.
  - destruct Hok as (l & -> & _ & [r Hr]%mapM_ints). destruct (dflt a) as [| | | | |[]|]; try done. eauto.
  - destruct (dflt a) as [| | | | |[]|]; try done. by exists [].
Qed.
End read.

(** Read the attributes that a goal asks for, one after the other. *)
Ltac by_parser := vm_compute; reflexivity.
Ltac read_attr Hfin :=
  match goal with
  | |- context [get_str ?k _] => destruct (read_str _ _ Hfin k) as (? & ->); [by_parser|]
  | |- context [get_opt ?k _] => destruct (read_opt _ _ Hfin k) as (? & ->); [by_parser|]
  | |- context [get_int ?k _] => destruct (read_int _ _ Hfin k) as (? & ->); [by_parser|]
  | |- context [get_bool ?k _] => destruct (read_bool _ _ Hfin k) as (? & ->); [by_parser|]
  | |- context [get_strs ?k _] => destruct (read_strs _ _ Hfin k) as (? & ->); [by_parser|]
  | |- context [get_ints ?k _] => destruct (read_ints _ _ Hfin k) as (? & ->); [by_parser|]
  end; cbn [mbind option_bind].

(** ** What each program is given *)

Definition protocols : list pystr := [u "tcp"; u "udp"].

(** What the parse of a command line gives a program. *)
Definition gives {A} (argv : list pystr) (p : parser) (read : dict → option A) (P : A → Prop) : Prop :=
  parser_ok p = true ∧ ∀ d, parse_args p argv = Ok d → ∃ a, read d = Some a ∧ P a.

Section given.
Context (argv : list pystr) (Hcl : clean argv).
Abbreviation gives := (gives argv).

Lemma gives_args {A} p (read : dict → option A) P :
  parser_ok p = true → p_sub p = None → (∀ d, final (p_args p) d → ∃ a, read d = Some a ∧ P a) → gives p read P.
Proof using Hcl.
  intros Hok Hsub Hread. split; [done|]. intros d Hd. apply Hread.
  by apply (parse_values p argv d Hok Hcl) in Hd as [Hfin _].
Qed.

Lemma surface_given : gives surface_parser surface_args (λ a, TruthSurface.s_plane a ∈ planes).
Proof.
  apply gives_args; [by_parser|done|]. intros d Hfin. unfold surface_args.
  destruct (read_choice _ _ Hfin "plane" planes) as (plane & -> & Hplane); [by_parser|]. cbn [mbind option_bind].
  repeat read_attr Hfin. eauto.
Qed.
Lemma gives_sub {A} p sp (read : dict → option A) P :
  parser_ok p = true → p_sub p = Some sp →
  Forall (λ na, ∀ d, final (p_args p) d → final na.2 d → dict_get (sub_dest sp) d = Some (JStr na.1) →
    ∃ a, read d = Some a ∧ P a) (sub_parsers sp) →
  gives p read P.
Proof using Hcl.
  intros Hok Hsub Hread. split; [done|]. intros d Hd.
  apply (parse_values p argv d Hok Hcl) in Hd as [Hfin Hs]. rewrite Hsub in Hs. destruct Hs as (name & args & Hin & Hn & Hf).
  rewrite Forall_forall in Hread. by apply (Hread (name, args) Hin).
Qed.

Lemma delta_given : gives delta_parser delta_args (λ _, True).
Proof. apply gives_args; [by_parser|done|]. intros d Hfin. unfold delta_args. repeat read_attr Hfin. eauto. Qed.
Lemma delta_paths_given :
  gives delta_parser (λ d, a ← get_str "from_path" d; b ← get_str "to_path" d; Some (a, b)) (λ _, True).
Proof. apply gives_args; [by_parser|done|]. intros d Hfin. repeat read_attr Hfin. eauto. Qed.
Lemma tick_given cwd : gives tick_parser (tick_args cwd) (λ a, Tick.t_plane a ∈ planes).
Proof.
  apply gives_args; [by_parser|done|]. intros d Hfin. unfold tick_args.
  destruct (read_choice _ _ Hfin "plane" planes) as (plane & -> & Hplane); [by_parser|].
  cbn [mbind option_bind]. repeat read_attr Hfin. eauto.
Qed.
Definition event_names : list pystr := [u "incident.freeze"; u "incident.fork"; u "incident.kill"].
Lemma incident_given : gives incident_parser incident_args (λ a, i_event_name a ∈ event_names).
Proof.
  apply gives_args; [by_parser|done|]. intros d Hfin. unfold incident_args.
  destruct (read_choice _ _ Hfin "event_name" event_names) as (event & -> & Hevent); [by_parser|].
  cbn [mbind option_bind]. repeat read_attr Hfin. eauto.
Qed.
Lemma smoke_given : gives smoke_parser smoke_args (λ _, True).
Proof. apply gives_args; [by_parser|done|]. intros d Hfin. unfold smoke_args. repeat read_attr Hfin. eauto. Qed.
Lemma cc_given : gives cc_parser cc_args (λ _, True).
Proof. apply gives_args; [by_parser|done|]. intros d Hfin. unfold cc_args. repeat read_attr Hfin. eauto. Qed.
Lemma daemon_given cwd : gives daemon_parser (daemon_args cwd) (λ _, True).
Proof. apply gives_args; [by_parser|done|]. intros d Hfin. unfold daemon_args. repeat read_attr Hfin. eauto. Qed.

Lemma get_name k d s : dict_get (u k) d = Some (JStr s) → get_str k d = Some s.
Proof. unfold get_str. by intros ->. Qed.
Ltac sub_name Hn := rewrite (get_name _ _ _ Hn); cbn [mbind option_bind];
  repeat (rewrite decide_False by done); rewrite decide_True by done.

Lemma grant_given target d :
  attr (grant_arguments target) "port" ints_arg && attr (grant_arguments target) "apply" bool_arg = true →
  final (grant_arguments target) d → (∃ l, get_strs "target" d = Some l ∧ (needed_arg target = true → l ≠ [])) →
  ∃ o, grant_options d = Some o ∧ go_proto o ∈ protocols ∧ (needed_arg target = true → go_target o ≠ []).
Proof.
  intros [Hport Happly]%andb_true_iff Hfin (l & Hl & Hne). unfold grant_options.
  destruct (read_ints _ _ Hfin "port" Hport) as (ports & Hports).
  destruct (read_bool _ _ Hfin "apply" Happly) as (do_apply & Hdo).
  destruct (read_choice _ _ Hfin "proto" protocols) as (proto & Hp & Hproto); [by_parser|].
  rewrite Hp, Hl, Hports, Hdo. repeat read_attr Hfin.
  eexists. split; [done|]. split; [exact Hproto|exact Hne].
Qed.
Definition cli_given_ok (c : command) : Prop :=
  match c with CmdGrant o => go_proto o ∈ protocols | _ => True end.
Lemma cli_given : gives cli_parser cli_command cli_given_ok.
Proof.
  eapply gives_sub; [by_parser|done|]. unfold cli_command.
  repeat (apply Forall_cons; split); [..|apply Forall_nil_2]; intros d _ Hfin Hn; cbn [fst snd sub_dest] in *; sub_name Hn.
  - by exists CmdInit.
  - destruct (grant_given (list_opt (u "--target") []) d ltac:(by_parser) Hfin) as (o & -> & Hp & _); [|by exists (CmdGrant o)].
    destruct (read_strs _ _ Hfin "target") as (l & ->); [by_parser|]. by exists l.
  - read_attr Hfin. by eexists.
  - by exists CmdApply.
  - by exists CmdVerify.
  - by exists CmdSnapshot.
Qed.
Definition ctl_given_ok (c : ctl_command) : Prop :=
  match c with CtlGrant o => go_proto o ∈ protocols ∧ go_target o ≠ [] | _ => True end.
Lemma ctl_given : gives ctl_parser ctl_args (λ sc, ctl_given_ok sc.2).
Proof.
  eapply gives_sub; [by_parser|done|]. unfold ctl_args, ctl_cmd.
  repeat (apply Forall_cons; split); [..|apply Forall_nil_2]; intros d Hmain Hfin Hn; cbn [fst snd sub_dest] in *;
    (destruct (read_str _ _ Hmain "socket") as (socket & ->); [by_parser|]); cbn [mbind option_bind]; sub_name Hn.
  - by exists (socket, CtlHealth).
  - by exists (socket, CtlSnapshot).
  - by exists (socket, CtlApply).
  - by exists (socket, CtlVerify).
  - read_attr Hfin. by eexists.
  - destruct (read_needed _ _ Hfin "target") as (l & Hl & Hne); [by_parser|].
    destruct (grant_given (need (list_opt (u "--target") [])) d ltac:(by_parser) Hfin) as (o & -> & Hp & Ht); [by exists l|].
    exists (socket, CtlGrant o). split; [done|]. split; [done|]. by apply Ht.
Qed.
Lemma cosa_given : gives cosa_parser cosa_args (λ _, True).
Proof.
  eapply gives_sub; [by_parser|done|]. unfold cosa_args.
  repeat (apply Forall_cons; split); [..|apply Forall_nil_2]; intros d _ Hfin Hn; cbn [fst snd sub_dest] in *;
    rewrite (get_name _ _ _ Hn); cbn [mbind option_bind]; read_attr Hfin.
  - rewrite decide_True by done. eauto.
  - rewrite decide_False, decide_True by done. repeat read_attr Hfin. eauto.
Qed.

End given.

(** ** The theorems *)

(** C27: a program that gets past its parser, on a command line none of whose
    strings assigns -- to an option (no [--opt=--]), has the arguments [main]
    works on, and those with choices are among them: the planes, the protocols,
    the events; a grant sent by the control program names a target.  The
    exception is real: [--plane=--] is accepted and sets the plane to the empty
    list, which is neither a string nor one of the choices. *)
Theorem command_lines_typed cwd argv : clean argv →
  (gives argv surface_parser surface_args (λ a, TruthSurface.s_plane a ∈ planes) ∧
   gives argv delta_parser delta_args (λ _, True) ∧
   gives argv tick_parser (tick_args cwd) (λ a, Tick.t_plane a ∈ planes) ∧
   gives argv incident_parser incident_args (λ a, i_event_name a ∈ event_names) ∧
   gives argv smoke_parser smoke_args (λ _, True) ∧
   gives argv cc_parser cc_args (λ _, True) ∧
   gives argv daemon_parser (daemon_args cwd) (λ _, True) ∧
   gives argv cli_parser cli_command cli_given_ok ∧
   gives argv ctl_parser ctl_args (λ sc, ctl_given_ok sc.2) ∧
   gives argv cosa_parser cosa_args (λ _, True)) ∧
  ∃ d, parse_args surface_parser [u "--plane=--"] = Ok d ∧ dict_get (u "plane") d = Some (JList []).
Proof.
  intros Hcl. split.
  - split_and!; eauto using surface_given, delta_given, tick_given, incident_given, smoke_given, cc_given, daemon_given,
      cli_given, ctl_given, cosa_given.
  - eexists. split; vm_compute; reflexivity.
Qed.
Definition demo_surface_words : list pystr := [u "--plane=user.controlled"; u "--risk-score"; u "7"].
Lemma command_lines_typed_witness :
  ∃ d a, parse_args surface_parser demo_surface_words = Ok d ∧ surface_args d = Some a ∧
    TruthSurface.s_plane a ∈ planes.
Proof.
  destruct (command_lines_typed [] demo_surface_words) as [[[_ Hs] _] _].
  - repeat (apply Forall_cons; split; [vm_compute; reflexivity|]). apply Forall_nil_2.
  - destruct (parse_args surface_parser demo_surface_words) as [d|] eqn:Hd; [|vm_compute in Hd; discriminate Hd].
    destruct (Hs d eq_refl) as (a & Ha & Hp). exists d, a. split; [reflexivity|]. split; [exact Ha|exact Hp].
Defined.

(** C35: the evidence a tick starts from cannot be taken away on its command
    line (one without [--opt=--]): [append] adds to the default lists, so logs and policy_decision are
    always required, and logs are always said to be present. *)
Theorem tick_evidence_floor cwd argv d :
  clean argv → parse_args tick_parser argv = Ok d →
  ∃ a req pres, tick_args cwd d = Some a ∧
    Tick.t_evidence_required a = [u "logs"; u "policy_decision"] ++ req ∧
    Tick.t_evidence_present a = [u "logs"] ++ pres.
Proof.
  intros Hcl Hd. assert (final (p_args tick_parser) d) as Hfin.
  { by apply (parse_values tick_parser argv d) in Hd as [Hfin _]; [|by_parser|done]. }
  unfold tick_args.
  destruct (read_floor _ _ Hfin "evidence_required" [u "logs"; u "policy_decision"]) as (req & Hr); [by_parser|].
  destruct (read_floor _ _ Hfin "evidence_present" [u "logs"]) as (pres & Hp); [by_parser|].
  rewrite Hr, Hp. repeat read_attr Hfin.
  by eexists _, req, pres.
Qed.

Definition demo_tick_words : list pystr := [u "--evidence-present=policy_decision"; u "--store-root"; u "/srv"].
Definition demo_tick_ns : dict := match parse_args tick_parser demo_tick_words with Ok d => d | Err _ => [] end.
Lemma tick_evidence_floor_witness :
  ∃ a req pres, tick_args [] demo_tick_ns = Some a ∧
    Tick.t_evidence_required a = [u "logs"; u "policy_decision"] ++ req ∧
    Tick.t_evidence_present a = [u "logs"] ++ pres.
Proof.
  apply (tick_evidence_floor [] demo_tick_words).
  - repeat (apply Forall_cons; split; [vm_compute; reflexivity|]). apply Forall_nil_2.
  - vm_compute. reflexivity.
Defined.

(** ** Programs that import their siblings *)

Section launch.
Context {K : Type} `{E : Env K} `{Hh : Host} (cwd : path).

(** C33: no tick succeeds, however it is started and whatever its command line
    (without [--opt=--]): it ends with an exception and changes nothing.  If its
    imports fail it is theirs; else its parser's exit; and past the parser
    [main] looks up [init_store] in the gate's command-line module, which defines
    no such name. *)
Theorem tick_never_succeeds l argv (w : World K) : clean argv →
  ∃ run, tick_program cwd l argv = Some run ∧
    run w = (w, Err match Tick.tick_imports l, parse_args tick_parser argv with
                    | Err e, _ => e
                    | Ok _, Err status => Exn SystemExit (str_of_Z status)
                    | Ok _, Ok _ => Exn AttributeError
                        (u "module 'tools.sourceos_gate_egress' has no attribute 'init_store'")
                    end).
Proof.
  intros Hcl. unfold tick_program, loaded. destruct (Tick.tick_imports l) as [[]|e]; [|by eexists].
  unfold program, command_line. destruct (parse_args tick_parser argv) as [d|status] eqn:Hd; [|by eexists].
  destruct (tick_given argv Hcl cwd) as [_ Ht]. destruct (Ht d Hd) as (a & -> & _). by eexists.
Qed.

(** What a checkout in [root] holds of what the three programs import, and that
    no other directory they look in has a package of the same name. *)
Record checkout (root : path) (env : list path) : Prop := {
  co_src : host_is_dir (posix (root ++ [u "src"])) = true;
  co_gate : host_exists (package_file (u "sourceos_gate") (root ++ [u "src"])) = true;
  co_gate_modules : Forall (λ m, has_module (root ++ [u "src"]) (u "sourceos_gate") m = true) [u "egress"; u "errors"];
  co_tools : host_exists (package_file (u "tools") root) = true;
  co_modules : Forall (λ m, has_module root (u "tools") m = true)
    [u "sourceos_gate_egress"; u "sourceos_truth_surface"; u "sourceos_delta_surface"];
  co_path : root ++ [u "src"] ∉ env;
  co_alone : Forall (λ d, host_exists (package_file (u "tools") d) = false)
    ((root ++ [u "src"]) :: (root ++ [u "tools"]) :: env)
}.

Lemma src_not_on root env l : checkout root env →
  l = as_script root env ∨ l = as_module root env → add_src root (l_path l) = (root ++ [u "src"]) :: l_path l.
Proof.
  intros Hc Hl. unfold add_src. rewrite (co_src _ _ Hc), bool_decide_true; [done|]. pose proof (co_path _ _ Hc).
  destruct Hl as [->| ->]; cbn; intros [Heq|?]%elem_of_cons; try done.
  - by apply (inj (app root)) in Heq.
  - apply (f_equal length) in Heq. rewrite length_app in Heq. cbn in Heq. lia.
Qed.
Lemma gate_found root env l : checkout root env →
  import_package (u "sourceos_gate") ((root ++ [u "src"]) :: l_path l) = Ok (root ++ [u "src"]).
Proof. intros Hc. unfold import_package, find_package. by rewrite filter_cons_True by apply (co_gate _ _ Hc). Qed.
Lemma no_tools root env p : checkout root env →
  p ⊆ (root ++ [u "src"]) :: (root ++ [u "tools"]) :: env →
  import_package (u "tools") p = Err (Exn ModuleNotFoundError (u "No module named 'tools'")).
Proof.
  intros Hc Hp. unfold import_package, find_package. assert (filter (λ d, host_exists (package_file (u "tools") d) = true) p = []) as ->; [|done].
  pose proof (co_alone _ _ Hc) as Ha. rewrite Forall_forall in Ha. clear -Ha Hp.
  induction p as [|d p IH]; [done|]. rewrite filter_cons_False; [apply IH; set_solver|]. rewrite Ha; [done|set_solver].
Qed.
Lemma tools_found root env sp : checkout root env →
  sp = root :: env ∨ sp = (root ++ [u "src"]) :: root :: env → import_package (u "tools") sp = Ok root.
Proof.
  intros Hc Hsp. pose proof (Forall_inv (co_alone _ _ Hc)) as Hsrc. unfold import_package, find_package.
  destruct Hsp as [->| ->]; [|rewrite filter_cons_False by (by rewrite Hsrc)];
    by rewrite filter_cons_True by apply (co_tools _ _ Hc).
Qed.

(** C34: the documented way to start the smoke harness and the timer program,
    [python tools/x.py], never works in a checkout: whatever the command line, both
    end with ModuleNotFoundError for [tools] before [main] and change nothing, as
    does the test tools/test_nft_json_parse.py; [sys.path] starts with tools/, not
    with the directory it is in.  Started from that directory with
    [python -m tools.x], both get through their imports. *)
Theorem documented_launch_fails `{SmokeHost} root env argv (w : World K) : checkout root env →
  let failed := Exn ModuleNotFoundError (u "No module named 'tools'") in
  (∃ run, smoke_program (as_script root env) argv = Some run ∧ run w = (w, Err failed)) ∧
  (∃ run, tick_program cwd (as_script root env) argv = Some run ∧ run w = (w, Err failed)) ∧
  Tick.import_gate_tool (as_script root env) = Err failed ∧
  smoke_imports (as_module root env) = Ok tt ∧ Tick.tick_imports (as_module root env) = Ok tt.
Proof.
  intros Hc failed. pose proof (co_gate_modules _ _ Hc) as Hg. pose proof (co_modules _ _ Hc) as Hm.
  rewrite !Forall_cons in Hg. rewrite !Forall_cons in Hm. destruct Hg as (He & Her & _), Hm as (Hm1 & Hm2 & Hm3 & _).
  assert (Htick : Tick.import_gate_tool (as_script root env) = Err failed).
  { unfold Tick.import_gate_tool. by rewrite (no_tools root env) by (done || set_solver). }
  assert (Hsmoke : smoke_imports (as_script root env) = Err failed).
  { unfold smoke_imports. rewrite (src_not_on _ env) by auto. rewrite (gate_found _ env) by done.
    cbn [mbind res_bind]. unfold import_module. cbn [as_script l_root l_path]. rewrite He. cbn [mbind res_bind].
    by rewrite (no_tools root env) by (done || set_solver). }
  unfold smoke_program, tick_program, Tick.tick_imports. rewrite Htick, Hsmoke. cbn [loaded mbind res_bind].
  split; [by eexists|]. split; [by eexists|]. split; [done|].
  pose proof (src_not_on root env (as_module root env) Hc (or_intror eq_refl)) as Hsrc.
  pose proof (gate_found root env (as_module root env) Hc) as Hgate. cbn [as_module l_path] in Hsrc, Hgate.
  split.
  - unfold smoke_imports. cbn [as_module l_root l_path]. rewrite Hsrc, Hgate. cbn [mbind res_bind].
    unfold import_module. rewrite He. cbn [mbind res_bind]. rewrite (tools_found root env) by auto.
    cbn [mbind res_bind]. unfold import_from. by rewrite Hm2, Hm3.
  - unfold Tick.import_gate_tool. cbn [as_module l_path]. rewrite (tools_found root env) by auto. cbn [mbind res_bind].
    unfold import_from, import_module. rewrite Hm1. cbn [mbind res_bind]. rewrite Hsrc, Hgate. cbn [mbind res_bind].
    rewrite He, Her. cbn [mbind res_bind]. by rewrite Hm2, Hm3.
Qed.
End launch.
