(* ===== verification/PipelineDemo.v ===== *)
(** * Concrete runs of the truth plane

    The end-to-end theorem, those of the smoke harness and those on how the
    programs are started applied on the hosts of TruthDemo.v and the kernel of
    NftModel.v. *)
From S2P Require Import Prelude PyStr PyJson PyJsonRoundtrip PyJsonStrings PyDict Errors PyOps.
From S2P Require Import World Canon CanonFacts Seal Host DocFacts DeltaSurface DeltaSpec.
From S2P Require Import TruthSurface TruthDocs.
From S2P Require Import TruthDemo Pipeline Smoke SmokeFacts Argparse ArgparseFacts ToolArgs.
From S2P Require Import ToolArgsFacts.
From S2P Require Tick.
From S2P Require Import Store StoreFacts StoreSpec Nft NftSpec NftModel GateSpec GateDemo.

Lemma demo_delta_text : delta_text demo_args.
Proof. split; [compute_it|]. repeat (apply Forall_cons; split); try apply Forall_nil_2; by intros s. Qed.
Lemma truth_plane_end_to_end_witness :
  ∃ (w3 : World unit) d g, _read_json [u "d.json"] w3 = (w3, Ok (JDict d)) ∧ seal_ok [] d = true ∧
    dict_get (u "gate") d = Some (JDict g) ∧
    dict_get (u "status") g = Some (JStr (u "needs_more_evidence")).
Proof.
  destruct (truth_plane_end_to_end fresh_args replay_args demo_args [u "a.json"] [u "b.json"] [u "d.json"] (world0 ∅)
    fresh_args_text replay_args_text demo_delta_text ltac:(done)) as (w1 & w2 & w3 & d & g & _ & _ & _ & Hd & Hs & Hg & Hst).
  exists w3, d, g. split; [exact Hd|]. split; [exact Hs|]. split; [exact Hg|]. rewrite Hst. vm_compute. reflexivity.
Defined.

#[export] Instance no_schemas : SmokeHost := {|
  getenv _ := None; expanduser s := [s]; home := [u "root"];
  schema_error p := Exn OSError p; validate_schema := None |}.
(** [python -m tools.sourceos_truth_plane_smoke --deterministic] in /repo *)
Definition smoke_words : list pystr := [u "--store-root=/tmp/smoke"; u "--deterministic"].
Definition smoke_opts (egress : bool) : SmokeArgs := {|
  k_store_root := u "/tmp/smoke"; k_validate := false; k_deterministic := true; k_egress_demo := egress |}.
Lemma smoke_succeeds_witness :
  ∃ run w' r, smoke_program (as_module [u "repo"] []) smoke_words = Some run ∧
    run (world0 ∅) = (w', Ok (0%Z, smoke_report (smoke_opts false) r)) ∧ run_sound r ∧ r_p0 r ≠ r_p1 r.
Proof.
  destruct (smoke_succeeds (as_module [u "repo"] []) smoke_words (smoke_opts false) (world0 ∅))
    as (run & w' & r & Hp & Hr & Hs & _ & _ & _ & _ & _ & _ & Hdet & _);
    [vm_compute; reflexivity..|].
  exists run, w', r. split; [exact Hp|]. split; [exact Hr|]. split; [exact Hs|]. by apply Hdet.
Defined.

Lemma smoke_egress_never_witness : ∃ e, (smoke_main (smoke_opts true) fresh).2 = Err e.
Proof.
  apply (smoke_egress_never (smoke_opts true) fresh); [reflexivity|apply fresh_inv|by intros k g t| |].
  - intros n. apply andb_true_iff. split; [apply Z.leb_le|apply Z.ltb_lt]; simpl; lia.
  - intros m n Hn. simpl. lia.
Defined.

(** ** Ways to start the programs *)

Definition tick_words : list pystr := [u "--store-root=/srv"; u "--plane"; u "agent.open"].
Lemma tick_never_succeeds_witness :
  ∃ run, tick_program [] (as_module [u "repo"] []) tick_words = Some run ∧
    run (world0 ∅) = (world0 ∅, Err (Exn AttributeError
      (u "module 'tools.sourceos_gate_egress' has no attribute 'init_store'"))).
Proof.
  destruct (tick_never_succeeds [] (as_module [u "repo"] []) tick_words (world0 ∅)) as (run & Hp & Hr).
  - repeat (apply Forall_cons; split; [vm_compute; reflexivity|]). apply Forall_nil_2.
  - exists run. split; [exact Hp|]. rewrite Hr. vm_compute. reflexivity.
Defined.

Lemma demo_checkout : checkout [u "repo"] [[u "usr"; u "lib"; u "python3"]].
Proof.
  split; try by vm_compute.
  - repeat (apply Forall_cons; split; [vm_compute; reflexivity|]). apply Forall_nil_2.
  - repeat (apply Forall_cons; split; [vm_compute; reflexivity|]). apply Forall_nil_2.
  - intros [Heq|Hin]%elem_of_cons; [discriminate Heq|by apply elem_of_nil in Hin].
  - repeat (apply Forall_cons; split; [vm_compute; reflexivity|]). apply Forall_nil_2.
Qed.
Lemma documented_launch_fails_witness :
  let failed := Exn ModuleNotFoundError (u "No module named 'tools'") in
  ∃ run, smoke_program (as_script [u "repo"] [[u "usr"; u "lib"; u "python3"]]) smoke_words = Some run ∧
    run (world0 ∅) = (world0 ∅, Err failed).
Proof.
  exact (proj1 (documented_launch_fails [] [u "repo"] [[u "usr"; u "lib"; u "python3"]] smoke_words (world0 ∅)
    demo_checkout)).
Defined.
