(* ===== verification/GrantLines.v ===== *)
(** * Grants on the command line

    A grant written out at sourceos_gate_egressctl.py or sourceos_gate_egress.py
    is parsed to the grant that was written, with any number of targets and
    ports; both tools read the same words in the same way.  Every command of the
    control program, written out, reaches the gate and its answer comes back. *)
From S2P Require Import Prelude PyStr PyJson PyJsonRoundtrip PyDict Errors PyOps PySet.
From S2P Require Import Argparse ArgparseFacts ToolArgs ToolArgsFacts.
From S2P Require Import World NftModel Nft Interface GateSteps EgressFacts Daemon DaemonFacts.
From S2P Require Import GateDemo.
From S2P Require Import DocFacts Cli Ctl CtlFacts ToolsDemo.
#[local] Open Scope N_scope.

(** The words after the options of the main parser. *)
Definition grant_words (o : GrantOptions) : list pystr :=
  u "grant" ::
  [u "--token-id=" ++ go_token_id o; u "--nonce=" ++ go_nonce o;
   u "--exp=" ++ str_of_Z (go_exp o); u "--proto=" ++ go_proto o]
  ++ map (λ t, u "--target=" ++ t) (go_target o)
  ++ map (λ p, u "--port=" ++ str_of_Z p) (go_port o)
  ++ (if go_apply o then [u "--apply"] else []).

(** The texts are not "--", the protocol is a choice, and there is a target. *)
Record writable (o : GrantOptions) : Prop := {
  wr_token : go_token_id o ≠ u "--";
  wr_nonce : go_nonce o ≠ u "--";
  wr_proto : go_proto o ∈ protocols;
  wr_targets : Forall (λ t, t ≠ u "--") (go_target o);
  wr_some : go_target o ≠ []
}.

(** ** The words as settings *)

Definition token_arg : argument := need (none_opt (u "--token-id")).
Definition nonce_arg : argument := need (none_opt (u "--nonce")).
Definition exp_arg : argument := need (opt (u "--exp") (Store TInt) JNull).
Definition proto_arg : argument := one_of protocols (str_opt (u "--proto") (u "tcp")).
Definition port_arg : argument := opt (u "--port") (Append TInt) (JList []).
Definition apply_arg : argument := flag_opt (u "--apply").

Definition grant_head (o : GrantOptions) : list setting :=
  [Assign token_arg (go_token_id o) (JStr (go_token_id o)); Assign nonce_arg (go_nonce o) (JStr (go_nonce o));
   Assign exp_arg (str_of_Z (go_exp o)) (JInt (go_exp o)); Assign proto_arg (go_proto o) (JStr (go_proto o))].

Lemma mapM_JStr l : mapM as_str (map JStr l) = Some l.
Proof. induction l as [|s l IH]; [done|]. cbn [map mapM]. by rewrite IH. Qed.
Lemma mapM_JInt l : mapM as_int (map JInt l) = Some l.
Proof. induction l as [|z l IH]; [done|]. cbn [map mapM]. by rewrite IH. Qed.

Section target.
Context (target : argument).
Context (Htarget : target = list_opt (u "--target") [] ∨ target = need (list_opt (u "--target") [])).

Definition grant_settings (o : GrantOptions) : list setting :=
  grant_head o ++ map (λ t, Assign target t (JStr t)) (go_target o)
  ++ map (λ p, Assign port_arg (str_of_Z p) (JInt p)) (go_port o)
  ++ (if go_apply o then [Switch apply_arg] else []).

Lemma grant_words_settings o : grant_words o = u "grant" :: map render (grant_settings o).
Proof using Htarget.
  unfold grant_words, grant_settings. f_equal. rewrite !map_app. cbn [map render]. f_equal. f_equal.
  - rewrite List.map_map. apply List.map_ext. intros t. cbn [render]. by destruct Htarget as [-> | ->].
  - f_equal; [|by destruct (go_apply o)]. rewrite List.map_map. by apply List.map_ext.
Qed.

Lemma str_of_Z_not_dashes z : str_of_Z z ≠ u "--".
Proof. intros H. apply (f_equal int_of_str) in H. by rewrite int_of_str_of_Z in H. Qed.

Lemma grant_settings_ok o : writable o → Forall (setting_ok (grant_arguments target)) (grant_settings o).
Proof using Htarget.
  intros [Ht Hn Hp Hts _]. unfold grant_settings.
  assert (∀ a s v t, a ∈ grant_arguments target → (act a = Store t ∨ act a = Append t) → s ≠ u "--" →
    get_value a t s = Ok v → setting_ok (grant_arguments target) (Assign a s v)) as Hset.
  { intros a s v t Ha Hact Hs Hv. split; [done|]. by exists t. }
  assert (∀ z, get_value exp_arg TInt (str_of_Z z) = Ok (JInt z) ∧ get_value port_arg TInt (str_of_Z z) = Ok (JInt z)) as Hint.
  { intros z. unfold get_value. by rewrite int_of_str_of_Z. }
  repeat (apply Forall_app; split).
  - repeat (apply Forall_cons; split); [..|apply Forall_nil_2].
    + apply (Hset _ _ _ TStr); [set_solver|by left|done|]. reflexivity.
    + apply (Hset _ _ _ TStr); [set_solver|by left|done|]. reflexivity.
    + apply (Hset _ _ _ TInt); [set_solver|by left|apply str_of_Z_not_dashes|apply Hint].
    + apply (Hset _ _ _ TStr); [set_solver|by left| |].
      * intros He. rewrite He in Hp. apply (bool_decide_eq_true_2 _) in Hp. by vm_compute in Hp.
      * unfold get_value. by rewrite decide_True by (by right).
  - apply Forall_forall. intros x (t & -> & Hin)%list_elem_of_fmap. rewrite Forall_forall in Hts.
    apply (Hset _ _ _ TStr); [set_solver| |by apply Hts|]; destruct Htarget as [-> | ->]; first [by right | reflexivity].
  - apply Forall_forall. intros x (p & -> & _)%list_elem_of_fmap.
    apply (Hset _ _ _ TInt); [set_solver|by right|apply str_of_Z_not_dashes|apply Hint].
  - destruct (go_apply o); [|constructor]. constructor; [|constructor]. split; [set_solver|done].
Qed.

(** ** What they set *)

Lemma grant_attr k v o :
  attr_after k v (grant_settings o) =
  attr_after k (attr_after k (attr_after k (attr_after k v (grant_head o))
    (map (λ t, Assign target t (JStr t)) (go_target o)))
    (map (λ p, Assign port_arg (str_of_Z p) (JInt p)) (go_port o)))
    (if go_apply o then [Switch apply_arg] else []).
Proof. unfold grant_settings. by rewrite !attr_after_app. Qed.

Lemma settings_others o :
  (∀ k v, k ≠ u "target" → attr_after k v (map (λ t, Assign target t (JStr t)) (go_target o)) = v) ∧
  (∀ k v, k ≠ u "port" → attr_after k v (map (λ p, Assign port_arg (str_of_Z p) (JInt p)) (go_port o)) = v) ∧
  (∀ k v, k ≠ u "apply" → attr_after k v (if go_apply o then [Switch apply_arg] else []) = v).
Proof using Htarget.
  assert (dest target = u "target") as Hdt by (by destruct Htarget as [-> | ->]).
  split_and!; intros k v Hk.
  - apply attr_after_other. intros t. cbn [set_arg]. congruence.
  - apply attr_after_other. intros p He. by apply Hk.
  - destruct (go_apply o); [|done]. unfold attr_after. cbn [foldl set_arg]. rewrite decide_False; [done|].
    intros He. by apply Hk.
Qed.

Definition grant_attrs : list pystr :=
  [u "token_id"; u "nonce"; u "exp"; u "proto"; u "target"; u "port"; u "apply"].
Lemma grant_options_read o d : writable o →
  (∀ k, k ∈ grant_attrs → dict_get k d =
     attr_after k (dict_get k (defaults (help_arg :: grant_arguments target))) (grant_settings o)) →
  grant_options d = Some o.
Proof using Htarget.
  intros Hw Hd. pose proof (settings_others o) as (Hnt & Hnp & Hna).
  assert (∀ k, k ∈ [u "token_id"; u "nonce"; u "exp"; u "proto"] →
    dict_get k d = attr_after k (dict_get k (defaults (help_arg :: grant_arguments target))) (grant_head o)) as Hhead.
  { intros k Hk. rewrite !elem_of_cons, elem_of_nil in Hk.
    destruct Hk as [->|[->|[->|[->|[]]]]]; (rewrite Hd by compute_it; by rewrite grant_attr, Hna, Hnp, Hnt). }
  assert (dict_get (u "target") d = Some (JList (map JStr (go_target o)))) as Ht.
  { rewrite Hd by compute_it. rewrite grant_attr, Hna, Hnp by done.
    replace (u "target") with (dest target) by (by destruct Htarget as [-> | ->]).
    replace (attr_after _ _ (grant_head o)) with (Some (JList [])) by (by destruct Htarget as [-> | ->]).
    rewrite attr_after_append; [done| |done]. destruct Htarget as [-> | ->]; by eexists. }
  assert (dict_get (u "port") d = Some (JList (map JInt (go_port o)))) as Hp.
  { rewrite Hd by compute_it. rewrite grant_attr, Hna, Hnt by done.
    change (u "port") with (dest port_arg).
    replace (attr_after _ _ (grant_head o)) with (Some (JList [])) by (by destruct Htarget as [-> | ->]).
    rewrite attr_after_append; [done|by eexists|done]. }
  assert (dict_get (u "apply") d = Some (JBool (go_apply o))) as Ha.
  { rewrite Hd by compute_it. rewrite grant_attr, Hnp, Hnt by done.
    destruct (go_apply o), Htarget as [-> | ->]; reflexivity. }
  unfold grant_options, get_str, get_int, get_strs, get_ints, get_bool.
  assert (dict_get (u "token_id") d = Some (JStr (go_token_id o)) ∧ dict_get (u "nonce") d = Some (JStr (go_nonce o)) ∧
    dict_get (u "exp") d = Some (JInt (go_exp o)) ∧ dict_get (u "proto") d = Some (JStr (go_proto o)))
    as (-> & -> & -> & ->).
  { split_and!; (rewrite Hhead by (repeat first [left | right])); destruct Htarget as [-> | ->]; reflexivity. }
  rewrite Ht, Hp, Ha. cbn [mbind option_bind]. rewrite mapM_JStr, mapM_JInt. cbn [mbind option_bind]. by destruct o.
Qed.
Lemma grant_all_set o : writable o → all_set (grant_arguments target) (grant_settings o).
Proof using Htarget.
  intros Hw a Ha Hr. unfold grant_settings. rewrite !map_app, !elem_of_app.
  assert (a = token_arg ∨ a = nonce_arg ∨ a = exp_arg ∨ a = target) as Hcase.
  { unfold grant_arguments in Ha. rewrite !elem_of_cons, elem_of_nil in Ha.
    destruct Ha as [->|[->|[->|[->|[->|[->|[->|[]]]]]]]]; auto; done. }
  destruct Hcase as [->|[->|[->| ->]]]; [left; left|left; right; left|left; do 2 right; left|].
  right. left. destruct (go_target o) as [|t ts] eqn:Ho; [by destruct Hw|]. left.
Qed.
Lemma grant_dests : map dest (grant_arguments target) = grant_attrs.
Proof using Htarget. by destruct Htarget as [-> | ->]. Qed.
End target.

(** ** Both tools *)

(** A parser with one option of its own, [main], and the subcommand grant. *)
Section tool.
Context (main target : argument) (sp : subparsers).
Context (Htarget : target = list_opt (u "--target") [] ∨ target = need (list_opt (u "--target") [])).
#[local] Abbreviation p := {| p_args := [main]; p_sub := Some sp |}.
Context (Hok : parser_ok p = true) (Hgrant : (u "grant", grant_arguments target) ∈ sub_parsers sp).
Context (Hnames : NoDup (map fst (sub_parsers sp))).
Context (Hun : forallb (unambiguous [main]) (grant_arguments target) = true).
Context (Hact : act main = Store TStr) (Hchoices : choices main = []).
Context (Hdest : dest main ∉ grant_attrs ∧ dest main ≠ sub_dest sp) (Hsub : sub_dest sp ∉ grant_attrs).

Lemma grant_line_parses s o : s ≠ u "--" → writable o →
  ∃ d, parse_args p ((flag_of main ++ 61 :: s) :: grant_words o) = Ok d ∧
    dict_get (dest main) d = Some (JStr s) ∧ dict_get (sub_dest sp) d = Some (JStr (u "grant")) ∧
    grant_options d = Some o.
Proof using All.
  intros Hs Hw. set (ms := [Assign main s (JStr s)]).
  assert (args_ok (grant_arguments target) = true) as Hargs by (by destruct Htarget as [-> | ->]).
  destruct (parse_sub_settings [main] sp (u "grant") (grant_arguments target) ms (grant_settings target o))
    as (d & Hd & Hget); try done.
  { constructor; [|constructor]. split; [left|]. exists TStr. split; [by left|]. split; [done|].
    unfold get_value. by rewrite decide_True by (by left). }
  { intros a ->%list_elem_of_singleton _. left. }
  { by apply grant_settings_ok. }
  { by apply grant_all_set. }
  rewrite <-(grant_words_settings target Htarget) in Hd. exists d. split; [exact Hd|].
  assert (∀ k, k ∉ grant_attrs → dict_get k d = if decide (k = sub_dest sp) then Some (JStr (u "grant"))
     else attr_after k (dict_get k (sub_default p (defaults (help_arg :: [main])))) ms) as Hout.
  { intros k Hk. rewrite Hget, settings_none; [done|done| |by rewrite grant_dests]. by apply grant_settings_ok. }
  split; [|split].
  - rewrite Hout, decide_False by apply Hdest. unfold attr_after, ms. cbn [foldl set_arg]. rewrite decide_True by done.
    unfold new_value. cbn [set_arg set_value]. by rewrite Hact.
  - rewrite Hout by done. by rewrite decide_True.
  - apply (grant_options_read target Htarget o d Hw). intros k Hk. rewrite Hget.
    destruct (settings_some (grant_arguments target) (grant_settings target o) k) as [v Hv];
      [done|by rewrite grant_dests|]. rewrite Hv. rewrite <-Hv. apply settings_get.
Qed.
End tool.

Definition socket_arg : argument := str_opt (u "--socket") (u "/run/sourceos/gate-egress.sock").
Definition root_arg : argument := str_opt (u "--store-root") (u "/var/lib/sourceos").
Lemma ctl_line s o : s ≠ u "--" → writable o →
  ∃ d, parse_args ctl_parser ((u "--socket=" ++ s) :: grant_words o) = Ok d ∧
    get_str "socket" d = Some s ∧ get_str "cmd" d = Some (u "grant") ∧ grant_options d = Some o.
Proof.
  intros Hs Hw. destruct (grant_line_parses socket_arg (need (list_opt (u "--target") [])) ctl_sub) with (s := s) (o := o)
    as (d & Hd & Hsock & Hcmd & Ho);
    [by right|by_parser|repeat first [left | right]|compute_it|by_parser|done|done|split; compute_it|compute_it|done|done|].
  exists d. split; [exact Hd|]. split; [exact (get_name "socket" d s Hsock)|].
  split; [exact (get_name "cmd" d (u "grant") Hcmd)|exact Ho].
Qed.
Lemma cli_line s o : s ≠ u "--" → writable o →
  ∃ d, parse_args cli_parser ((u "--store-root=" ++ s) :: grant_words o) = Ok d ∧
    get_str "store_root" d = Some s ∧ get_str "cmd" d = Some (u "grant") ∧ grant_options d = Some o.
Proof.
  intros Hs Hw. destruct (grant_line_parses root_arg (list_opt (u "--target") []) cli_sub) with (s := s) (o := o)
    as (d & Hd & Hroot & Hcmd & Ho);
    [by left|by_parser|right; left|compute_it|by_parser|done|done|split; compute_it|compute_it|done|done|].
  exists d. split; [exact Hd|]. split; [exact (get_name "store_root" d s Hroot)|].
  split; [exact (get_name "cmd" d (u "grant") Hcmd)|exact Ho].
Qed.

Lemma ctl_args_grant s o d :
  get_str "socket" d = Some s → get_str "cmd" d = Some (u "grant") → grant_options d = Some o →
  ctl_args d = Some (s, CtlGrant o).
Proof.
  intros Hs Hcmd Ho. unfold ctl_args, ctl_cmd. rewrite Hs, Hcmd. cbn [mbind option_bind].
  repeat (rewrite decide_False by done). rewrite decide_True by done. by rewrite Ho.
Qed.

(** C26: a grant written on the command line is read back as written, by both
    tools alike: the same words after grant give the control program and the
    operator's tool the same options, whatever the texts, targets and ports. *)
Theorem grant_lines_agree s o : s ≠ u "--" → writable o →
  (∃ d, parse_args ctl_parser ((u "--socket=" ++ s) :: grant_words o) = Ok d ∧ ctl_args d = Some (s, CtlGrant o)) ∧
  (∃ d, parse_args cli_parser ((u "--store-root=" ++ s) :: grant_words o) = Ok d ∧
        get_str "store_root" d = Some s ∧ cli_command d = Some (CmdGrant o)).
Proof.
  intros Hs Hw. split.
  - destruct (ctl_line s o Hs Hw) as (d & Hd & Hsock & Hcmd & Ho). exists d. split; [exact Hd|].
    by apply ctl_args_grant.
  - destruct (cli_line s o Hs Hw) as (d & Hd & Hroot & Hcmd & Ho). exists d. split; [exact Hd|].
    split; [exact Hroot|]. unfold cli_command. rewrite Hcmd.
    cbn [mbind option_bind]. rewrite decide_False, decide_True by done. by rewrite Ho.
Qed.

Definition odd_grant : GrantOptions := {|
  go_token_id := u "tok"; go_nonce := u "n 1"; go_exp := -5; go_proto := u "udp";
  go_target := [u "10.0.0.1/32"; u "--help"; []]; go_port := [53; 5353]%Z; go_apply := true |}.
Lemma grant_lines_agree_witness :
  (∃ d, parse_args ctl_parser ((u "--socket=" ++ u "/run/s") :: grant_words odd_grant) = Ok d ∧
        ctl_args d = Some (u "/run/s", CtlGrant odd_grant)) ∧
  (∃ d, parse_args cli_parser ((u "--store-root=" ++ u "/run/s") :: grant_words odd_grant) = Ok d ∧
        get_str "store_root" d = Some (u "/run/s") ∧ cli_command d = Some (CmdGrant odd_grant)).
Proof.
  apply (grant_lines_agree (u "/run/s") odd_grant); [done|]. split; try done.
  - compute_it.
  - repeat (apply Forall_cons; split; [done|]). apply Forall_nil_2.
Defined.

(** ** Every command of the control program *)

Definition ctl_words (cmd : ctl_command) : list pystr :=
  match cmd with
  | CtlHealth => [u "health"]
  | CtlSnapshot => [u "snapshot"]
  | CtlApply => [u "apply"]
  | CtlVerify => [u "verify"]
  | CtlPrune do_apply => u "prune" :: if do_apply then [u "--apply"] else []
  | CtlGrant o => grant_words o
  end.
Definition ctl_writable (cmd : ctl_command) : Prop :=
  match cmd with CtlGrant o => writable o | _ => True end.

(** A subcommand whose only options are switches. *)
Lemma switches_line s name args ss :
  s ≠ u "--" → name_ok name = true → (name, args) ∈ sub_parsers ctl_sub → args_ok args = true →
  forallb (unambiguous [socket_arg]) args = true →
  Forall (setting_ok args) ss → all_set args ss →
  ∃ d, parse_args ctl_parser ((u "--socket=" ++ s) :: name :: map render ss) = Ok d ∧
    ∀ k, dict_get k d =
      match dict_get k (ns (foldl set_one (start (defaults (help_arg :: args))) ss)) with
      | Some v => Some v
      | None => if decide (k = u "cmd") then Some (JStr name)
                else attr_after k (dict_get k (sub_default ctl_parser (defaults [help_arg; socket_arg])))
                       [Assign socket_arg s (JStr s)]
      end.
Proof.
  intros Hs Hname Hin Hargs Hun Hss Hall.
  destruct (parse_sub_settings [socket_arg] ctl_sub name args [Assign socket_arg s (JStr s)] ss) as (d & Hd & Hget);
    [by_parser|done|done|compute_it|done| | |done|done|].
  - constructor; [|constructor]. split; [left|]. exists TStr. split; [by left|]. split; [done|reflexivity].
  - intros a ->%list_elem_of_singleton _. left.
  - exists d. split; [exact Hd|exact Hget].
Qed.
Lemma ctl_command_line s cmd : s ≠ u "--" → ctl_writable cmd →
  command_line ctl_parser ctl_args ((u "--socket=" ++ s) :: ctl_words cmd) = Some (Ok (s, cmd)).
Proof.
  intros Hs Hw. unfold command_line.
  assert (∀ name, name ∈ [u "health"; u "snapshot"; u "apply"; u "verify"] →
    ∃ d, parse_args ctl_parser [u "--socket=" ++ s; name] = Ok d ∧
      dict_get (u "socket") d = Some (JStr s) ∧ dict_get (u "cmd") d = Some (JStr name)) as Hbare.
  { intros name Hin.
    destruct (switches_line s name [] []) as (d & Hd & Hget);
      [done| | |done|done|constructor|by intros a ?%not_elem_of_nil|].
    - rewrite !elem_of_cons, elem_of_nil in Hin. by destruct Hin as [->|[->|[->|[->|[]]]]].
    - rewrite !elem_of_cons, elem_of_nil in Hin.
      destruct Hin as [->|[->|[->|[->|[]]]]]; unfold ctl_sub; cbn [sub_parsers]; repeat first [left|right].
    - exists d. split; [exact Hd|]. rewrite !Hget. by split. }
  destruct cmd as [| | | |b|o]; cbn [ctl_words].
  1-4: edestruct Hbare as (d & -> & Hsock & Hcmd); [|unfold ctl_args, ctl_cmd, get_str; by rewrite Hsock, Hcmd];
    rewrite !elem_of_cons; tauto.
  - destruct (switches_line s (u "prune") [apply_arg] (if b then [Switch apply_arg] else [])) as (d & Hd & Hget);
      [done|done|unfold ctl_sub; cbn [sub_parsers]; repeat first [left|right]|by_parser|by_parser| | |].
    + destruct b; repeat constructor.
    + by intros a ->%list_elem_of_singleton.
    + replace (if b then [u "--apply"] else []) with (map render (if b then [Switch apply_arg] else []))
        by (by destruct b).
      rewrite Hd. unfold ctl_args, ctl_cmd, get_str, get_bool. rewrite !Hget. by destruct b.
  - destruct (ctl_line s o Hs Hw) as (d & -> & Hsock & Hcmd & Ho). by rewrite (ctl_args_grant s o d).
Qed.

(** ** From the command line to the reply *)

Section served.
Context {K : Type} `{Env K} {ops : GateOps K}.

(** C25: the control program end to end, for every command: the words are parsed
    to the command written, the line sent makes the daemon run the method it
    stands for, once and with its parameters, and however the reply is cut into
    chunks the program reads it whole and exits 0 when the gate answered and 2
    when it refused.  The texts can be encoded, the line fits the daemon's
    reader, and the gate's own exception, if it raises one, is an [Exception]. *)
Theorem ctl_commands_end_to_end socket req_id cmd w w' r :
  socket ≠ u "--" → ctl_writable cmd → ctl_ok req_id cmd → fits (line_of (ctl_request req_id cmd)) →
  gate_method cmd w = (w', r) → returns wf r →
  raises_only (λ e, is_exception e ∧ str_ok (exn_str e) = true) r →
  command_line ctl_parser ctl_args ((u "--socket=" ++ socket) :: ctl_words cmd) = Some (Ok (socket, cmd)) ∧
  ∃ line reply, wire (ctl_request req_id cmd) = Ok line ∧
    handle_client line w = (w', Ok ([reply], true)) ∧
    ∀ chunks, Forall (λ c, c ≠ []) chunks → concat chunks = reply →
      ∃ out, ctl_main req_id cmd chunks = Ok (if is_ok r then 0%Z else 2%Z, out).
Proof.
  intros Hs Hw Hok Hfit Hrun Hv Hr. split; [by apply ctl_command_line|].
  destruct (ctl_served req_id cmd w w' r Hok Hfit Hrun Hv Hr) as (line & reply & Hline & Hserve & Hread).
  exists line, reply. split; [done|]. split; [done|]. intros chunks Hne Hcat.
  destruct (Hread chunks Hne Hcat) as (resp & Hresp & Hrc). unfold ctl_main. rewrite Hline, Hresp. cbn [mbind res_bind].
  rewrite Hrc. by eexists.
Qed.

(** a grant typed at the control program is the grant the gate is asked
    for: the words are parsed to the options written, the line sent makes the
    daemon call [install_grant] once, with exactly those arguments, and however
    the reply is cut into chunks the program reads it whole and exits 0 when the
    gate accepted and 2 when it refused. *)
Theorem ctl_line_end_to_end socket req_id o w w' r :
  socket ≠ u "--" → writable o →
  grant_ok req_id o → fits (line_of (ctl_request req_id (CtlGrant o))) →
  op_install_grant (go_token_id o) (go_nonce o) (go_exp o) (go_target o) (ctl_ports o) (go_proto o) (go_apply o) w
    = (w', r) →
  raises_only (λ e, is_exception e ∧ str_ok (exn_str e) = true) r →
  command_line ctl_parser ctl_args ((u "--socket=" ++ socket) :: grant_words o) = Some (Ok (socket, CtlGrant o)) ∧
  ∃ line reply, wire (ctl_request req_id (CtlGrant o)) = Ok line ∧
    handle_client line w = (w', Ok ([reply], true)) ∧
    ∀ chunks, Forall (λ c, c ≠ []) chunks → concat chunks = reply →
      ∃ out, ctl_main req_id (CtlGrant o) chunks = Ok (if is_ok r then 0%Z else 2%Z, out).
Proof.
  intros Hs Hw Hok Hfit Hrun Hr. split.
  - destruct (ctl_line socket o Hs Hw) as (d & Hd & Hsock & Hcmd & Ho).
    unfold command_line. rewrite Hd. by rewrite (ctl_args_grant socket o d).
  - destruct (ctl_grant_end_to_end req_id o w w' r Hok Hfit Hrun Hr) as (line & reply & Hline & Hserve & Hread).
    exists line, reply. split; [done|]. split; [done|]. intros chunks Hne Hcat.
    destruct (Hread chunks Hne Hcat) as (resp & Hresp & Hrc). unfold ctl_main. rewrite Hline, Hresp. cbn [mbind res_bind].
    rewrite Hrc. by eexists.
Qed.
End served.

#[local] Existing Instance demo_gate.
Lemma ctl_line_end_to_end_witness :
  command_line ctl_parser ctl_args ((u "--socket=" ++ u "/run/s") :: grant_words demo_grant)
    = Some (Ok (u "/run/s", CtlGrant demo_grant)) ∧
  ∃ line reply, wire (ctl_request (u "id1") (CtlGrant demo_grant)) = Ok line ∧
    handle_client line fresh = (grant_run.1, Ok ([reply], true)) ∧
    ∀ chunks, Forall (λ c, c ≠ []) chunks → concat chunks = reply →
      ∃ out, ctl_main (u "id1") (CtlGrant demo_grant) chunks = Ok (0%Z, out).
Proof.
  apply (ctl_line_end_to_end (u "/run/s") (u "id1") demo_grant fresh grant_run.1 (Ok tt)).
  - done.
  - split; try done; [compute_it|]. repeat (apply Forall_cons; split; [done|]). apply Forall_nil_2.
  - split; compute_it.
  - compute_it.
  - rewrite (surjective_pairing (op_install_grant _ _ _ _ _ _ _ _)).
    apply (f_equal2 pair); [reflexivity|vm_compute; reflexivity].
  - exact I.
Defined.

(** [verify] on a host whose kernel lacks the one grant there is: exit 2. *)
Definition unenforced : World toy * pyres json := gate_method CtlVerify granted1.
Lemma ctl_commands_end_to_end_witness :
  command_line ctl_parser ctl_args [u "--socket=" ++ u "/run/s"; u "verify"] = Some (Ok (u "/run/s", CtlVerify)) ∧
  ∃ line reply, wire (ctl_request (u "id1") CtlVerify) = Ok line ∧
    handle_client line granted1 = (unenforced.1, Ok ([reply], true)) ∧
    ∀ chunks, Forall (λ c, c ≠ []) chunks → concat chunks = reply →
      ∃ out, ctl_main (u "id1") CtlVerify chunks = Ok (2%Z, out).
Proof.
  assert (match unenforced.2 with Ok _ => false | Err e => isinstance e Exception && str_ok (exn_str e) end = true) as Hr
    by (vm_compute; reflexivity).
  destruct (unenforced.2) as [v|e] eqn:He; [discriminate Hr|]. apply andb_true_iff in Hr.
  apply (ctl_commands_end_to_end (u "/run/s") (u "id1") CtlVerify granted1 unenforced.1 (Err e)).
  - done.
  - exact I.
  - split; [compute_it|exact I].
  - compute_it.
  - rewrite <-He. apply surjective_pairing.
  - intros v Hv. discriminate Hv.
  - exact Hr.
Defined.
