(* ===== verification/Tests.v ===== *)
(** * The repository's tests (src/tests/)

    Each test as a program over the model, which returns whether its assertions
    hold, and the theorems that they do: the store's tests for every clock up to
    the expiry they use, the parser's on the fixtures, the daemon's on an empty
    store. *)
From S2P Require Import Prelude PyStr PyJson PyJsonRoundtrip Errors PyOps PySet World Store.
From S2P Require Import StoreFacts StoreSpec.
From S2P Require Import Canon Nft NftModel Interface GateSteps Daemon GateDemo.
From S2P Require Egress.
#[local] Open Scope Z_scope.

(** ** tests/test_gate_store.py *)

Section store.
Context {K : Type} `{Env K}.

(** [with self.assertRaises(cls): m] *)
Definition assert_raises {A} (cls : exn_class) (m : W K A) : W K bool :=
  catch (m ;; mret false) (λ e, if isinstance e cls then mret true else raise e).

Definition far : Z := 9999999999.
Definition test_install_and_list_active : W K bool :=
  init ;;
  install_grant (u "tok") (u "n1") far [u "10.0.0.1/32"] [443] (u "tcp") ;;
  install_grant (u "tok2") (u "n2") far [u "10.0.0.2/32"] [53] (u "udp") ;;
  active ← list_active;
  '(addrs, tcp_ports, udp_ports) ← compute_active_sets;
  mret (bool_decide (length active = 2%nat) && bool_decide (u "10.0.0.1" ∈ addrs) &&
        bool_decide (u "10.0.0.2" ∈ addrs) && bool_decide (u "443" ∈ tcp_ports) && bool_decide (u "53" ∈ udp_ports)).
Definition test_replay_detection : W K bool :=
  install_grant (u "tok") (u "n1") far [u "10.0.0.1/32"] [443] (u "tcp") ;;
  assert_raises ReplayError (install_grant (u "tok") (u "n1") far [u "10.0.0.1/32"] [443] (u "tcp")).
Definition test_expired_grant_rejected : W K bool :=
  assert_raises ExpiredGrantError (install_grant (u "tok") (u "n1") 1 [u "10.0.0.1/32"] [443] (u "tcp")).

Context (Hclock : ∀ n, 1 ≤ clock n < far).
Implicit Types w : World K.

Lemma clock_int n : bind_int (clock n) = Ok tt.
Proof using Hclock.
  specialize (Hclock n). unfold far in Hclock. unfold bind_int, int64.
  by replace (_ && _) with true by lia.
Qed.

(** A first install on the tests' data goes through. *)
Lemma install_far tok nonce targets ports proto w :
  store_inv w → Forall (λ t, str_ok t = true) targets → bind_row tok nonce far 0 = Ok tt →
  (tok, nonce) ∉ map replay_key (replay_rows w) →
  ∃ w' g t, install_grant tok nonce far targets ports proto w = (w', Ok g) ∧ store_inv w' ∧ t < far ∧
    map replay_key (replay_rows w') = map replay_key (replay_rows w) ++ [(tok, nonce)] ∧
    grant_rows w' = grant_rows w ++ [new_row tok nonce far targets ports proto t].
Proof using Hclock.
  intros Hinv Hts Hrow Hnew. rewrite run_install_grant by done. cbv zeta.
  pose proof (Hclock (0 + w_tick w)) as H0. rewrite (proj2 (Z.leb_gt _ _)) by lia.
  rewrite (bind_row_time _ _ _ _ _ Hrow), clock_int, decide_False, clock_int by done.
  eexists _, _, _. split; [done|]. split; [by apply rows_ok_install|]. split; [apply (Hclock (2 + w_tick w))|].
  split; [|done]. cbn. by rewrite map_app.
Qed.

Lemma test_replay_detection_passes w : w_db w = None → (test_replay_detection w).2 = Ok true.
Proof using Hclock.
  intros Hdb. assert (replay_rows w = [] ∧ grant_rows w = []) as [Hr Hg] by (unfold replay_rows, grant_rows; by rewrite Hdb).
  assert (store_inv w) as Hinv by (unfold store_inv; rewrite Hr, Hg; split; [constructor|constructor|set_solver|set_solver]).
  destruct (install_far (u "tok") (u "n1") [u "10.0.0.1/32"] [443] (u "tcp") w)
    as (w1 & g & t & Hrun & Hinv1 & _ & Hkeys & _); [done|compute_it|reflexivity|by rewrite Hr; apply not_elem_of_nil|].
  unfold test_replay_detection. rewrite run_bind, Hrun. unfold assert_raises, catch.
  rewrite run_bind, run_install_grant by done. cbv zeta. pose proof (Hclock (0 + w_tick w1)) as H0.
  rewrite (proj2 (Z.leb_gt _ _)) by lia. rewrite (bind_row_time _ _ _ 0) by reflexivity.
  rewrite clock_int, decide_True by (rewrite Hkeys, Hr; left). reflexivity.
Qed.
Lemma test_expired_grant_rejected_passes w : w_db w = None → (test_expired_grant_rejected w).2 = Ok true.
Proof using Hclock.
  intros Hdb. assert (store_inv w) as Hinv.
  { unfold store_inv, replay_rows, grant_rows. rewrite Hdb. split; [constructor|constructor|set_solver|set_solver]. }
  unfold test_expired_grant_rejected, assert_raises, catch. rewrite run_bind, run_install_grant by done. cbv zeta.
  pose proof (Hclock (0 + w_tick w)) as H0. rewrite (proj2 (Z.leb_le _ _)) by lia. reflexivity.
Qed.
Lemma test_install_and_list_active_passes w : w_db w = None → (test_install_and_list_active w).2 = Ok true.
Proof using Hclock.
  intros Hdb. assert (replay_rows w = [] ∧ grant_rows w = []) as [Hr Hg] by (unfold replay_rows, grant_rows; by rewrite Hdb).
  assert (store_inv (ready w)) as Hinv.
  { unfold store_inv. destruct (ready_rows w) as [-> ->]. rewrite Hr, Hg. split; [constructor|constructor|set_solver|set_solver]. }
  unfold test_install_and_list_active. rewrite run_bind, run_init, run_bind.
  destruct (install_far (u "tok") (u "n1") [u "10.0.0.1/32"] [443] (u "tcp") (ready w))
    as (w1 & g1 & t1 & Hrun1 & Hinv1 & Ht1 & Hkeys1 & Hrows1);
    [done|compute_it|reflexivity|destruct (ready_rows w) as [-> _]; rewrite Hr; apply not_elem_of_nil|].
  rewrite Hrun1, run_bind. destruct (ready_rows w) as [Hr' Hg']. rewrite Hr', Hr in Hkeys1. rewrite Hg', Hg in Hrows1.
  destruct (install_far (u "tok2") (u "n2") [u "10.0.0.2/32"] [53] (u "udp") w1)
    as (w2 & g2 & t2 & Hrun2 & Hinv2 & Ht2 & _ & Hrows2); [done|compute_it|reflexivity|rewrite Hkeys1; compute_it|].
  rewrite Hrun2. rewrite Hrows1 in Hrows2. cbn [app] in Hrows2.
  assert (∀ c, c < far → filter (active c) (grant_rows w2) = grant_rows w2) as Hact.
  { intros c Hc. rewrite Hrows2. unfold active. rewrite !filter_cons_True; [done|cbn; lia..]. }
  rewrite run_bind, run_list_active_inv by done. cbv zeta. rewrite clock_int, Hact by apply Hclock. cbn [mbind res_bind].
  assert (store_inv (tick (ready w2))) as Hinv3 by exact Hinv2.
  rewrite run_bind, run_compute_active_sets by done. cbv zeta. rewrite clock_int. cbn [mbind res_bind].
  change (grant_rows (tick (ready w2))) with (grant_rows w2). rewrite Hact by apply Hclock.
  assert (length (map decoded (merge_sort installed_le (grant_rows w2))) = 2%nat) as Hlen.
  { rewrite List.length_map, (Permutation_length (merge_sort_Permutation _ _)), Hrows2. done. }
  rewrite Hlen, Hrows2. clear. vm_compute. reflexivity.
Qed.

(** The tests of the store pass on a new database as long as the clock is
    before the expiry they write, November 2286. *)
Theorem store_tests_pass w : w_db w = None →
  (test_install_and_list_active w).2 = Ok true ∧ (test_replay_detection w).2 = Ok true ∧
  (test_expired_grant_rejected w).2 = Ok true.
Proof using Hclock.
  intros Hdb. split; [by apply test_install_and_list_active_passes|].
  split; [by apply test_replay_detection_passes|by apply test_expired_grant_rejected_passes].
Qed.
End store.

(** ** tests/test_nft_parse.py and tools/test_nft_json_parse.py

    The fixtures under tools/fixtures/, and what the tests expect of the parser.
    The second file looks the parser up in a module that has none
    (TickFacts.nft_json_test_raises). *)

Definition fixture (name type : pystr) (elems : list json) : json := JDict [(u "nftables", JList [
  JDict [(u "metainfo", JDict [(u "json_schema_version", JInt 1)])];
  JDict [(u "set", JDict [
    (u "family", JStr (u "inet")); (u "table", JStr (u "sourceos")); (u "name", JStr name); (u "type", JStr type);
    (u "flags", JList [JStr (u "interval")]); (u "elem", JList (map (λ e, JDict [(u "elem", e)]) elems))])]])].
Definition fixture_v4 : json :=
  fixture (u "frontier_allow_v4") (u "ipv4_addr") [JStr (u "10.0.0.1"); JStr (u "10.0.0.2")].
Definition fixture_tcp : json :=
  fixture (u "frontier_allow_tcp_ports") (u "inet_service") [JStr (u "443"); JStr (u "8443")].
Definition fixture_tcp_int : json :=
  fixture (u "frontier_allow_tcp_ports") (u "inet_service") [JInt 11; JInt 17].
Definition fixture_udp : json := fixture (u "frontier_allow_udp_ports") (u "inet_service") [JStr (u "53")].

(** [sorted(parse(obj)) == expected] *)
Definition parses_to (obj : json) (expected : list pystr) : bool :=
  match parse_nft_set_elements_json obj with
  | Ok (Some elems) => bool_decide (sorted_set elems = expected)
  | _ => false
  end.
Definition test_parse_v4 : bool := parses_to fixture_v4 [u "10.0.0.1"; u "10.0.0.2"].
Definition test_parse_ports_string : bool := parses_to fixture_tcp [u "443"; u "8443"].
Definition test_parse_ports_int : bool := parses_to fixture_tcp_int [u "11"; u "17"].
Definition test_parse_udp : bool := parses_to fixture_udp [u "53"].

Lemma nft_tests_pass :
  test_parse_v4 = true ∧ test_parse_ports_string = true ∧ test_parse_ports_int = true ∧ test_parse_udp = true.
Proof. vm_compute. done. Qed.

(** ** tests/test_gate_daemon.py

    Each [_send] is a connection of its own to the daemon. *)
Section daemon.
Context {K : Type} `{Env K} `{GateOps K}.

Definition _send (msg : dict) : W K json :=
  b ← lift (py_encode (dumps opts_default false (JDict msg) ++ [10%N]));
  '(replies, _) ← handle_client b;
  lift (py_loads (match replies with line :: _ => line | [] => [] end)).
Definition test_request (id method : pystr) : dict :=
  [(u "id", JStr id); (u "method", JStr method); (u "params", JDict [])].
Definition test_health_and_snapshot : W K bool :=
  resp ← _send (test_request (u "1") (u "health"));
  ok ← lift (py_get resp (u "ok") JNull);
  snap ← _send (test_request (u "2") (u "snapshot"));
  ok' ← lift (py_get snap (u "ok") JNull);
  result ← lift (py_get snap (u "result") (JDict []));
  mret (truthy ok && truthy ok' && match result with JDict d => dict_has (u "active") d | _ => false end).
End daemon.

Definition daemon_started : World toy := (Egress.init fresh).1.
Lemma daemon_test_passes :
  (test_health_and_snapshot (H0 := egress_ops default_cfg) daemon_started).2 = Ok true.
Proof. vm_compute. reflexivity. Qed.
